(* ===== verification/_CoqProject ===== *)
-Q . S2P
Prelude.v
Words.v
Sdk.v
MessageStuffer.v
TestDouble.v
StufferSafety.v
StufferTrace.v
RuntimeXcmp.v
BTree.v
Conc.v
Relayer.v
RelayerSafety.v
RelayerDouble.v
RelayerClaims.v
RelayerRuns.v
RelayerProgress.v
RelayerPass.v
RelayerHelpers.v
TemplatePallet.v
RuntimeConfig.v
Runtime.v
RuntimeClaims.v
XcmConfig.v
XcmExecutor.v
BlockBudget.v
MockRuntime.v
ChainSpec.v
PalletConfigs.v
MockConfigs.v
NodeCli.v
NodeSdk.v
NodeDouble.v
Rpc.v
Service.v
ServiceRules.v
ServiceSafety.v
ServiceHandles.v
ServiceClaims.v
Command.v
CommandClaims.v
RuntimeApis.v
EndToEnd.v
Delivery.v
