(* ===== verification/Prelude.v ===== *)
(** * Verification of the XCMP prototype

    ** The program

    The repository is a prototype of off-chain XCMP for Polkadot parachains. A
    sending parachain commits to its outgoing messages in one Merkle mountain range
    (MMR) per channel, the roots of these MMRs in a binary Merkle tree, and the root
    of that tree in the digest of its headers. The relay chain commits to the
    headers in its heads tree and to the heads root in the BEEFY MMR. A message is
    delivered by a proof with four tiers: a BEEFY leaf under a BEEFY root (1), a
    parachain header under the heads root of that leaf (2), a channel's MMR root
    under the channel root in that header (3), and the message leaves under that MMR
    root (4). The parts are
    - the pallet [pallets/xcmp_message_stuffer/src/lib.rs], which records BEEFY
      roots, makes the leaves of a channel's MMR and checks proofs;
    - the runtime [runtime/src/lib.rs], which holds two instances of the pallet among
      pallets of the SDK, gives them their messages, collects the channel roots, serves
      channel proofs, the MMR API and the other runtime APIs, and fixes constants and the
      configurations of the SDK's pallets, with the XCM configuration
      [runtime/src/xcm_config.rs];
    - the relayer [xcmp_relayer/src/main.rs], tasks that collect the four tiers from
      the nodes into five shared maps, assemble proofs and submit them;
    - the node [node/src/]: the command line ([cli.rs], [command.rs], [main.rs]) chooses
      a chain specification ([chain_spec.rs]) and starts the service ([service.rs]),
      which opens the RPC ([rpc.rs]) the relayer talks to and runs the gadget that keeps
      the MMR leaves;
    - the template pallet [pallets/template/src/lib.rs], and the runtimes the pallets'
      tests run in, the two [mock.rs].

    ** The files

    - [Prelude] (this file): Rust's [Result], panics and endless loops ([run]), the
      state and error monad [M] of on-chain code with its inversion lemmas, the hint
      databases [effects] and [word] and the tactics [run_ok], [run_err], [run_fwd].
    - [Words]: unsigned integers and hashes as [uint bits], with wrapping, checked and
      converting arithmetic and big-endian bytes.
    - [Sdk]: the interfaces of the Polkadot SDK as type classes, and their documented
      laws as separate classes. None of this code is in the repository, so none of it
      has a definition here.
    - [MessageStuffer]: the pallet; [Storage] is its storage plus the deposited
      events, each hook and extrinsic a computation in [M].
    - [TestDouble]: a concrete SDK that evaluates, for the witnesses.
    - [StufferSafety], [StufferTrace]: what the pallet accepts, rejects and panics on;
      histories of blocks and calls, soundness and refinement.
    - [RuntimeXcmp]: message provider, channel roots and proofs, configurations of the
      two pallet instances, runtime APIs. Overflow checks are a parameter.
    - [BTree]: [BTreeMap] as a sorted sequence, refining finite maps.
    - [Conc]: tasks with locks, requests and spawning ([prog]); the interleaving
      semantics [cstep], its executable counterpart [exec], evaluation of one function
      [peval], and a weakest precondition with a store invariant and its adequacy.
    - [Relayer]: every function of the relayer as a [prog]; [Maps] are the five
      [lazy_static] maps, [Req] the awaited calls, [Task] the spawned blocks, [boot]
      the process at its start.
    - [RelayerSafety], [RelayerDouble], [RelayerClaims]: invariants under every
      interleaving, concrete nodes, and the guarantees; [RelayerRuns],
      [RelayerHelpers]: what single functions compute; [RelayerProgress]: what becomes
      of the queue of message roots over many rounds of the submitter; [RelayerPass]: a
      round of each collector and of the submitter together.
    - [TemplatePallet], [RuntimeConfig]: the template pallet, the runtime's constants
      and fees.
    - [Runtime]: the runtime as a whole; [RuntimeState] is the storage of both instances
      and a parameter for that of the SDK's pallets, a block is the hooks in the order of
      [construct_runtime!] and then a body of calls and writes. [RuntimeClaims]: the
      projection of blocks and chains onto one instance, and what holds of chains.
    - [XcmConfig], [XcmExecutor]: how the runtime composes [xcm-builder]'s converters,
      barriers and weigher; assets, prices, routes and the rights of local accounts, with
      the configurations of the executor and of the XCM pallet.
    - [BlockBudget]: block weights and what an XCM message may use of them.
    - [PalletConfigs]: the configurations of the SDK's pallets, one record each.
    - [RuntimeApis]: version, the other runtime APIs as records of functions, the check of
      inherents, the native executor.
    - [MockRuntime], [MockConfigs]: the test runtimes' own message provider, origins and
      configurations.
    - [ChainSpec], [NodeCli]: the built-in specifications and genesis; the command line
      types and the settings derived from them.
    - [NodeSdk], [NodeDouble]: the SDK as the node sees it, a class of types and
      functions ([NodeLib]) and a type of requests ([NodeReq]); a concrete one.
    - [Rpc], [Service], [Command]: the node as sequential programs of requests, one
      definition per function, over the same [prog] as the relayer.
    - [ServiceRules], [ServiceSafety], [ServiceHandles], [ServiceClaims], [CommandClaims]:
      rules for these programs, the protocol of a node's start, where the handles it passes
      on come from, and its guarantees.
    - [EndToEnd], [Delivery]: runtime, relayer and pallet together; a receiving chain of
      blocks.

    ** What is shown

    - The pallet: [submit_xcmp_proof_spec] gives every outcome of a submission;
      [xcmp_soundness] that an accepted proof leads from a BEEFY root that was reported
      to messages that were committed; [stuffer_refines_log] that the storage is what
      an abstract log determines; [acceptance_permanent], [submit_test_proof_spec],
      [leaf_data_spec]. [oversized_count_panics], [seen_roots_unbounded] and
      [update_root_unrestricted] prove weaknesses of the code.
    - The runtime: [channel_proof_complete], [channel_leaf_contents], and
      [mmr_api_roundtrip] that the MMR APIs fit together; [xcmp_messages_full_queue] and [missing_beefy_root_fallbacks] prove weaknesses.
    - Chains of blocks: [runtime_refines_log] reads the storage of both instances off the
      runs of the blocks, [runtime_wf_preserved] is the invariant between the two,
      [block_leaves] says which leaf each block gives each channel, [runtime_soundness]
      lifts soundness to the runtime, and [proof_not_tied_to_channel] proves that either
      instance accepts the other's messages.
    - Runtime APIs and configurations: [valid_block_time] and [timing_consistent] tie the
      block times of validators, runtime and node together, [fee_apis] says what the fee
      queries answer, [session_schedule] and [privileged_origins] when sessions end and
      who may make privileged calls, [weights_sane] that the weights pass their tests.
    - The relayer: [submissions_linked] and [maps_invariant] hold for any answers of the
      nodes and any interleaving, the latter saying of every entry of the five maps which
      answers of which block it was made of; [relayed_proof_delivered] composes the sender's
      runtime, the relayer and the receiver's chain: when the sending parachain serves
      what its runtime computes and the relay chain's proofs verify, what the relayer
      submits is accepted by every block of the receiving chain from the one on that
      reported its BEEFY root, exactly when its first tier verifies against that root, which
      the relayer reads at another block than the proof. The runs of the
      collectors, of the assembly and of the retries are exact; lost and mismatched
      roots, dead collectors and doubled queries are proved. [message_delivered] is what one
      pass of the collectors and the submitter achieves, [queue_drains] the submitter's
      progress; [missing_tier_blocks_queue] and [stale_root_loses_message]
      are two ways it fails.
    - The node: [start_node_protocol] is a safety property of every start whatever the
      SDK answers, [start_node_handles] that every object is made at most once and every
      argument of a call is such an object or a setting, [start_node_fails_fast] says how a start ends after a failed call,
      [start_node_sequence] what a start without failures asks in order. With
      [node_from_command_line] the run of the binary reduces to such a start,
      [subcommands_offline] that only this run opens a network;
      [hardware_benchmarks_always_run] and [mmr_gadget_single_instance] prove weaknesses.
    - The XCM configuration: [xcm_origin_table] decides which origin a location gets,
      [barrier_safe] what a message needs to pass, [xcm_message_fits] which messages fit
      into the weight a block reserves for them; [only_relay_mints], [xcm_routes],
      [xcm_execution_price] and [local_account_rights] are about assets, destinations,
      prices and local accounts.
    - [mock_messages_agree]: the runtime's message provider computes what the tests' does,
      after a fixed prefix of three bytes; [mock_executes_nothing] and
      [queue_control_differs] say where the test runtime departs from the real one.
      Constants, fees, pallet indices, block weights, genesis and relay chain settings are
      consistent.

    ** Bounds

    - [collect_fragments] has fuel [counter_fuel], one more than the number of [u16]
      counters: by then the loop has left, panicked or wrapped round to its start, and
      only the last is called divergence.
    - [try_generate_loop] has fuel four, one more than [MAX_ATTEMPTS]; that it never
      runs out is part of [try_generate_spec].
    - [submitter_rounds] counts rounds of the submitter; [queue_drains] says how many
      empty the queue.
    - The endless loops of the relayer have no fuel: a [task] is a body that [cstep]
      repeats. A single round is a finite tree of actions and always comes to an end.

    ** What is not modelled

    Log lines; the bodies of SDK functions (hashing, MMR and Merkle verification, SCALE,
    RPC transport, key derivation, clap's parsing, the runner, network and consensus),
    which are parameters, as are the storage of the SDK's pallets and the executive, of
    which only the documented order of a block is assumed; associated types that only
    select a type, and the empty configurations of [pallet_sudo], [parachain_info] and
    [aura_ext]; code that macros generate; tests other than those of the weights, pallet
    benchmarks and build scripts. In the node a closure
    passed to the SDK is represented by what it captures. A [try_lock] may fail at any
    time, which covers every contention between threads; a poisoned lock is not modelled,
    since no critical section of the relayer panics. The nodes of
    [relayed_proof_delivered] may answer any MMR root for the relay chain's best block.

    ** Planned extensions

    [message_delivered] for passes whose actions interleave, under a fair schedule. *)
From stdpp Require Export gmap list strings numbers.

(** ** Results, panics and the state monad of the on-chain code *)

(** Rust's [Result<A, E>]. *)
Inductive result (E A : Type) : Type :=
| Ok (a : A)
| Err (e : E).
Arguments Ok {E A} _.
Arguments Err {E A} _.

(** What running a function does: it returns, it panics ([unwrap] of [None], an
    index out of bounds, an overflow with checks on), or its loop never ends. *)
Inductive run (X : Type) : Type :=
| Ret (x : X)
| Panic
| Diverge.
Arguments Ret {X} _.
Arguments Panic {X}.
Arguments Diverge {X}.

#[export] Instance run_ret : MRet run := λ A a, Ret a.
#[export] Instance run_bind : MBind run := λ A B f m,
  match m with Ret a => f a | Panic => Panic | Diverge => Diverge end.

Lemma run_bind_Ret {A B} (m : run A) (f : A → run B) b :
  m ≫= f = Ret b → ∃ a, m = Ret a ∧ f a = Ret b.
Proof. destruct m; [by eexists|intros [=]..]. Qed.

(** A fallible computation over a state: the storage of a pallet, the maps of the
    relayer. *)
Definition M (S E A : Type) : Type := S → run (result E A * S).

#[export] Instance M_ret {S E} : MRet (M S E) := λ A a s, Ret (Ok a, s).

#[export] Instance M_bind {S E} : MBind (M S E) := λ A B f m s,
  match m s with
  | Ret (Ok a, s') => f a s'
  | Ret (Err e, s') => Ret (Err e, s')
  | Panic => Panic
  | Diverge => Diverge
  end.

Definition throw {S E A} (e : E) : M S E A := λ s, Ret (Err e, s).
Definition panic {S E A} : M S E A := λ _, Panic.
(** A plain function call: its panic or divergence is the caller's. *)
Definition call {S E A} (r : run A) : M S E A := λ s,
  match r with Ret a => Ret (Ok a, s) | Panic => Panic | Diverge => Diverge end.
Definition gets {S E A} (f : S → A) : M S E A := λ s, Ret (Ok (f s), s).
Definition modify {S E} (f : S → S) : M S E () := λ s, Ret (Ok tt, f s).

(** [Option::ok_or] followed by [?]. *)
Definition ok_or {S E A} (o : option A) (e : E) : M S E A :=
  match o with Some a => mret a | None => throw e end.

(** [Result::map_err(|_| e)] followed by [?]. *)
Definition map_err {S E E' A} (r : result E' A) (e : E) : M S E A :=
  match r with Ok a => mret a | Err _ => throw e end.

(** [Option::unwrap] / [Result::unwrap]. *)
Definition unwrap {S E A} (o : option A) : M S E A :=
  match o with Some a => mret a | None => panic end.

(** [if cond { return Err(e) }]. *)
Definition bail_if {S E} (cond : bool) (e : E) : M S E () :=
  if cond then throw e else mret tt.

Definition res_ok {E A} (r : result E A) : bool :=
  match r with Ok _ => true | Err _ => false end.

Definition res_option {E A} (r : result E A) : option A :=
  match r with Ok a => Some a | Err _ => None end.

(** ** Generic lemmas *)

Lemma M_bind_Ok {S E A B} (m : M S E A) (f : A → M S E B) s b s' :
  (m ≫= f) s = Ret (Ok b, s') ↔ ∃ a s1, m s = Ret (Ok a, s1) ∧ f a s1 = Ret (Ok b, s').
Proof.
  unfold mbind, M_bind. split.
  - destruct (m s) as [[[a|e] s1]| |]; [naive_solver|intros [=]..].
  - intros (a & s1 & -> & H). exact H.
Qed.

Lemma M_bind_Panic {S E A B} (m : M S E A) (f : A → M S E B) s :
  (m ≫= f) s = Panic ↔ m s = Panic ∨ ∃ a s1, m s = Ret (Ok a, s1) ∧ f a s1 = Panic.
Proof.
  unfold mbind, M_bind. split.
  - destruct (m s) as [[[a|e] s1]| |]; [naive_solver|intros [=]|auto|intros [=]].
  - by intros [->|(a & s1 & -> & H)].
Qed.

Lemma M_bind_Err {S E A B} (m : M S E A) (f : A → M S E B) s e s' :
  (m ≫= f) s = Ret (Err e, s') ↔
  m s = Ret (Err e, s') ∨ ∃ a s1, m s = Ret (Ok a, s1) ∧ f a s1 = Ret (Err e, s').
Proof.
  unfold mbind, M_bind. split.
  - destruct (m s) as [[[a|e'] s1]| |]; [naive_solver|naive_solver|intros [=]..].
  - by intros [->|(a & s1 & -> & H)].
Qed.

(** A computation that reads the state and never writes it. *)
Definition read_only {S E A} (m : M S E A) : Prop :=
  ∀ s r s', m s = Ret (r, s') → s' = s.

Lemma read_only_ret {S E A} (a : A) : read_only (S:=S) (E:=E) (mret a).
Proof. intros s r s' H. by inversion H. Qed.
Lemma read_only_throw {S E A} (e : E) : read_only (S:=S) (A:=A) (throw e).
Proof. intros s r s' H. by inversion H. Qed.
Lemma read_only_panic {S E A} : read_only (S:=S) (E:=E) (A:=A) panic.
Proof. intros s r s' H. inversion H. Qed.
Lemma read_only_call {S E A} (r : run A) : read_only (S:=S) (E:=E) (call r).
Proof. intros s o s'. destruct r; intros H; by inversion H. Qed.
Lemma read_only_gets {S E A} (f : S → A) : read_only (E:=E) (gets f).
Proof. intros s r s' H. by inversion H. Qed.
Lemma read_only_ok_or {S E A} (o : option A) (e : E) : read_only (S:=S) (ok_or o e).
Proof. destruct o; [apply read_only_ret|apply read_only_throw]. Qed.
Lemma read_only_map_err {S E E' A} (r : result E' A) (e : E) : read_only (S:=S) (map_err r e).
Proof. destruct r; [apply read_only_ret|apply read_only_throw]. Qed.
Lemma read_only_unwrap {S E A} (o : option A) : read_only (S:=S) (E:=E) (unwrap o).
Proof. destruct o; [apply read_only_ret|apply read_only_panic]. Qed.
Lemma read_only_bail_if {S E} b (e : E) : read_only (S:=S) (bail_if b e).
Proof. destruct b; [apply read_only_throw|apply read_only_ret]. Qed.

Lemma read_only_bind {S E A B} (m : M S E A) (f : A → M S E B) :
  read_only m → (∀ a, read_only (f a)) → read_only (m ≫= f).
Proof.
  intros Hm Hf s r s'. unfold mbind, M_bind.
  destruct (m s) as [[[a|e] s1]| |] eqn:Em; intros H;
    [|by inversion H; subst; eapply Hm|done..].
  rewrite (Hf _ _ _ _ H). by eapply Hm.
Qed.

Create HintDb effects.
#[export] Hint Resolve read_only_ret read_only_throw read_only_panic read_only_call read_only_gets
  read_only_ok_or read_only_map_err read_only_unwrap read_only_bail_if
  read_only_bind : effects.

(** A computation with no unbounded loop. *)
Definition terminates {S E A} (m : M S E A) : Prop := ∀ s, m s ≠ Diverge.

Lemma terminates_bind {S E A B} (m : M S E A) (f : A → M S E B) :
  terminates m → (∀ a, terminates (f a)) → terminates (m ≫= f).
Proof.
  intros Hm Hf s. unfold mbind, M_bind. specialize (Hm s).
  destruct (m s) as [[[a|e] s1]| |]; [apply Hf|done..].
Qed.
Lemma terminates_ret {S E A} (a : A) : terminates (S:=S) (E:=E) (mret a).
Proof. by intros s. Qed.
Lemma terminates_gets {S E A} (f : S → A) : terminates (E:=E) (gets f).
Proof. by intros s. Qed.
Lemma terminates_modify {S E} (f : S → S) : terminates (E:=E) (modify f).
Proof. by intros s. Qed.
Lemma terminates_ok_or {S E A} (o : option A) (e : E) : terminates (S:=S) (ok_or o e).
Proof. by destruct o. Qed.
Lemma terminates_map_err {S E E' A} (r : result E' A) (e : E) : terminates (S:=S) (map_err r e).
Proof. by destruct r. Qed.
Lemma terminates_unwrap {S E A} (o : option A) : terminates (S:=S) (E:=E) (unwrap o).
Proof. by destruct o. Qed.
Lemma terminates_bail_if {S E} b (e : E) : terminates (S:=S) (bail_if b e).
Proof. by destruct b. Qed.
#[export] Hint Resolve terminates_bind terminates_ret terminates_gets terminates_modify
  terminates_ok_or terminates_map_err terminates_unwrap terminates_bail_if : effects.

Lemma ok_or_Ok {S E A} (o : option A) (e : E) (s : S) a s' :
  ok_or o e s = Ret (Ok a, s') ↔ o = Some a ∧ s' = s.
Proof. destruct o; simpl; unfold throw, mret, M_ret; naive_solver. Qed.
Lemma map_err_Ok {S E E' A} (r : result E' A) (e : E) (s : S) a s' :
  map_err r e s = Ret (Ok a, s') ↔ r = Ok a ∧ s' = s.
Proof. destruct r; simpl; unfold throw, mret, M_ret; naive_solver. Qed.
Lemma unwrap_Ok {S E A} (o : option A) (s : S) a s' :
  unwrap (E:=E) o s = Ret (Ok a, s') ↔ o = Some a ∧ s' = s.
Proof. destruct o; simpl; unfold panic, mret, M_ret; naive_solver. Qed.
Lemma bail_if_Ok {S E} b (e : E) (s : S) a s' :
  bail_if b e s = Ret (Ok a, s') ↔ b = false ∧ s' = s.
Proof. destruct a, b; simpl; unfold throw, mret, M_ret; naive_solver. Qed.
Lemma gets_Ok {S E A} (f : S → A) (s : S) a s' :
  gets (E:=E) f s = Ret (Ok a, s') ↔ a = f s ∧ s' = s.
Proof. unfold gets. naive_solver. Qed.
Lemma call_Ok {S E A} (r : run A) (s : S) a s' :
  call (E:=E) r s = Ret (Ok a, s') ↔ r = Ret a ∧ s' = s.
Proof. destruct r; simpl; naive_solver. Qed.
Lemma mret_Ok {S E A} (x : A) (s : S) a s' :
  (mret x : M S E A) s = Ret (Ok a, s') ↔ a = x ∧ s' = s.
Proof. unfold mret, M_ret. naive_solver. Qed.

(** The same functions when they fail. *)
Lemma ok_or_Err {S E A} (o : option A) (e e' : E) (s s' : S) :
  ok_or o e s = Ret (Err e', s') ↔ o = None ∧ e' = e ∧ s' = s.
Proof. destruct o; simpl; unfold throw, mret, M_ret; naive_solver. Qed.
Lemma map_err_Err {S E E' A} (r : result E' A) (e e' : E) (s s' : S) :
  map_err r e s = Ret (Err e', s') ↔ res_ok r = false ∧ e' = e ∧ s' = s.
Proof. destruct r; simpl; unfold throw, mret, M_ret; naive_solver. Qed.
Lemma unwrap_Err {S E A} (o : option A) (e' : E) (s s' : S) :
  unwrap o s = Ret (Err e', s') ↔ False.
Proof. destruct o; simpl; unfold panic, mret, M_ret; naive_solver. Qed.
Lemma bail_if_Err {S E} b (e e' : E) (s s' : S) :
  bail_if b e s = Ret (Err e', s') ↔ b = true ∧ e' = e ∧ s' = s.
Proof. destruct b; simpl; unfold throw, mret, M_ret; naive_solver. Qed.
Lemma gets_Err {S E A} (f : S → A) (e : E) (s s' : S) :
  gets f s = Ret (Err e, s') ↔ False.
Proof. unfold gets. naive_solver. Qed.
Lemma mret_Err {S E A} (x : A) (e : E) (s s' : S) :
  (mret x : M S E A) s = Ret (Err e, s') ↔ False.
Proof. unfold mret, M_ret. naive_solver. Qed.

Lemma ok_or_Panic {S E A} (o : option A) (e : E) (s : S) : ok_or o e s = Panic ↔ False.
Proof. by destruct o. Qed.
Lemma map_err_Panic {S E E' A} (r : result E' A) (e : E) (s : S) :
  map_err r e s = Panic ↔ False.
Proof. by destruct r. Qed.
Lemma unwrap_Panic {S E A} (o : option A) (s : S) :
  unwrap (E:=E) o s = Panic ↔ o = None.
Proof. by destruct o. Qed.
Lemma bail_if_Panic {S E} b (e : E) (s : S) : bail_if b e s = Panic ↔ False.
Proof. by destruct b. Qed.

Lemma list_singleton_of {A} (l : list A) x :
  l !! 0 = Some x → ¬ (1 < length l)%nat → l = [x].
Proof. destruct l as [|y [|z l]]; simpl; [done|naive_solver|lia]. Qed.

(** ** Tactics *)

(** Split the conjunctions that a successful run of a monadic function gives. *)
Ltac run_ok :=
  repeat match goal with
  | H : (_ ≫= _) _ = Ret (Ok _, _) |- _ =>
      apply M_bind_Ok in H as (? & ? & ? & ?)
  | H : ok_or _ _ _ = Ret (Ok _, _) |- _ => apply ok_or_Ok in H as [? ->]
  | H : map_err _ _ _ = Ret (Ok _, _) |- _ => apply map_err_Ok in H as [? ->]
  | H : unwrap _ _ = Ret (Ok _, _) |- _ => apply unwrap_Ok in H as [? ->]
  | H : bail_if _ _ _ = Ret (Ok _, _) |- _ => apply bail_if_Ok in H as [? ->]
  | H : gets _ _ = Ret (Ok _, _) |- _ => apply gets_Ok in H as [? ->]
  | H : call _ _ = Ret (Ok _, _) |- _ => apply call_Ok in H as [? ->]
  | H : mret _ _ = Ret (Ok _, _) |- _ => apply mret_Ok in H as [? ->]
  | u : () |- _ => destruct u
  | H : ?x = ?x |- _ => clear H
  | H : ?x = _ |- _ => is_var x; subst x
  | H : ¬ (_ ≠ _) |- _ => apply dec_stable in H
  | H : negb _ = true |- _ => apply negb_true_iff in H
  | H : negb _ = false |- _ => apply negb_false_iff in H
  | H : bool_decide _ = true |- _ => apply bool_decide_eq_true_1 in H
  | H : bool_decide _ = false |- _ => apply bool_decide_eq_false_1 in H
  end.

(** Split a failing run into its possible points of failure: at each, every call
    before has succeeded. *)
Ltac run_err :=
  repeat (run_ok; match goal with
  | H : (_ ≫= _) _ = Ret (Err _, _) |- _ => apply M_bind_Err in H as [H|(? & ? & ? & H)]
  | H : (_ ≫= _) _ = Panic |- _ => apply M_bind_Panic in H as [H|(? & ? & ? & H)]
  | H : ok_or _ _ _ = Ret (Err _, _) |- _ => apply ok_or_Err in H as (? & -> & ->)
  | H : map_err _ _ _ = Ret (Err _, _) |- _ => apply map_err_Err in H as (? & -> & ->)
  | H : bail_if _ _ _ = Ret (Err _, _) |- _ => apply bail_if_Err in H as (? & -> & ->)
  | H : unwrap _ _ = Ret (Err _, _) |- _ => by apply unwrap_Err in H
  | H : gets _ _ = Ret (Err _, _) |- _ => by apply gets_Err in H
  | H : mret _ _ = Ret (Err _, _) |- _ => by apply mret_Err in H
  | H : ok_or _ _ _ = Panic |- _ => by apply ok_or_Panic in H
  | H : map_err _ _ _ = Panic |- _ => by apply map_err_Panic in H
  | H : unwrap _ _ = Panic |- _ => apply unwrap_Panic in H
  | H : bail_if _ _ _ = Panic |- _ => by apply bail_if_Panic in H
  | H : gets _ _ = Panic |- _ => discriminate H
  | H : mret _ _ = Panic |- _ => discriminate H
  | H : modify _ _ = Panic |- _ => discriminate H
  end); run_ok.

(** Run a monadic function forward, using the equations in the context for the
    values its calls return. *)
Ltac run_fwd :=
  unfold mbind, M_bind, mret, M_ret, ok_or, map_err, unwrap, bail_if, gets, modify,
    throw, panic, call; simpl;
  repeat (match goal with
  | H : ?t = ?u |- context [?t] => rewrite H
  | |- context [bool_decide ?P] =>
      first [rewrite (bool_decide_true P) by (done || naive_solver lia)
            |rewrite (bool_decide_false P) by (done || naive_solver lia)]
  end; simpl).

(** Step a monadic function whose next call's value is known. *)
Ltac step := unfold mbind, M_bind, mret, M_ret; simpl.

Create HintDb word.
