(* ===== verification/Words.v ===== *)
(** * Machine words

    Unsigned Rust integers ([u8], [u16], [u32], [u64], [u128]) and the 256-bit
    hash [H256], all as one family [uint bits] of integers that carry the proof
    that they are in range, so that no theorem about the code has to assume it.
    The arithmetic is Rust's: [wrapping_add], [checked_add], [try_into] between
    widths, and the big-endian bytes of a hash, whose lexicographic order is the
    order of [H256] as a [BTreeMap] key. *)

From S2P Require Import Prelude.

Local Open Scope Z_scope.

(** ** The family of unsigned integers *)

Definition in_range (bits : positive) (z : Z) : bool :=
  (0 <=? z) && (z <? 2 ^ Zpos bits).

Record uint (bits : positive) : Set := Uint {
  uval : Z;
  uval_ok : Is_true (in_range bits uval)
}.
Arguments Uint {bits} _ _.
Arguments uval {bits} _.
Arguments uval_ok {bits} _.
Coercion uval : uint >-> Z.

Abbreviation u8 := (uint 8).
Abbreviation u16 := (uint 16).
Abbreviation u32 := (uint 32).
Abbreviation u64 := (uint 64).
Abbreviation u128 := (uint 128).
Abbreviation H256 := (uint 256).
Abbreviation bytes := (list u8).

Lemma in_range_spec bits z : Is_true (in_range bits z) ↔ 0 <= z < 2 ^ Zpos bits.
Proof. unfold in_range. rewrite Is_true_true. lia. Qed.

Lemma uval_range {bits} (x : uint bits) : 0 <= uval x < 2 ^ Zpos bits.
Proof. apply in_range_spec, uval_ok. Qed.
#[export] Hint Resolve uval_range : word.

Lemma uint_eq {bits} (x y : uint bits) : uval x = uval y → x = y.
Proof.
  destruct x as [x Hx], y as [y Hy]; simpl; intros ->.
  f_equal. apply proof_irrel.
Qed.

#[export] Instance uval_inj bits : Inj eq eq (@uval bits).
Proof. intros x y. apply uint_eq. Qed.

#[export] Instance uint_eq_dec bits : EqDecision (uint bits).
Proof.
  refine (λ x y, cast_if (decide (uval x = uval y)));
    [by apply uint_eq | congruence].
Defined.

(** A range proof that computes to [I], so that words evaluate to closed
    normal forms. *)
Definition clean {b : bool} : Is_true b → Is_true b :=
  match b with true => λ _, I | false => λ p, p end.

(** [u64 -> u32] style conversions: [TryFrom] succeeds exactly in range. *)
Definition uint_try (bits : positive) (z : Z) : option (uint bits) :=
  match in_range bits z as b return (Is_true b → Is_true (in_range bits z)) → _ with
  | true => λ f, Some (Uint z (clean (f I)))
  | false => λ _, None
  end id.

Lemma in_range_mod bits z : Is_true (in_range bits (z mod 2 ^ Zpos bits)).
Proof. apply in_range_spec, Z.mod_pos_bound. lia. Qed.

(** The value modulo [2 ^ bits]: an [as] cast and the result of wrapping
    arithmetic. *)
Definition uint_wrap (bits : positive) (z : Z) : uint bits :=
  Uint (z mod 2 ^ Zpos bits) (clean (in_range_mod bits z)).

Declare Scope word_scope.
Delimit Scope word_scope with word.
Notation "# z" := (uint_wrap _ z) (at level 8, format "# z") : word_scope.
Open Scope word_scope.

Lemma uint_try_Some bits z (w : uint bits) : uint_try bits z = Some w ↔ uval w = z.
Proof.
  unfold uint_try.
  assert (∀ b (f : Is_true b → Is_true (in_range bits z)), (Is_true (in_range bits z) → Is_true b) →
    (if b as b return (Is_true b → Is_true (in_range bits z)) → option (uint bits)
     then λ f, Some (Uint z (clean (f I))) else λ _, None) f = Some w ↔ uval w = z) as H.
  { intros [] f Hb; simpl.
    - split; [by intros [= <-] | intros <-; f_equal; by apply uint_eq].
    - split; [done|]. intros <-. by destruct (Hb (uval_ok w)). }
  apply H. auto.
Qed.

Lemma uint_try_None bits z : uint_try bits z = None ↔ ¬ (0 <= z < 2 ^ Zpos bits).
Proof.
  rewrite <- in_range_spec, eq_None_not_Some. apply not_iff_compat. split.
  - intros [w Hw]. apply uint_try_Some in Hw as <-. apply uval_ok.
  - intros Hr. exists (Uint z Hr). by apply uint_try_Some.
Qed.

Lemma uint_wrap_small bits z : 0 <= z < 2 ^ Zpos bits → uval (uint_wrap bits z) = z.
Proof. apply Z.mod_small. Qed.

Lemma uint_wrap_uval {bits} (x : uint bits) : uint_wrap bits (uval x) = x.
Proof. apply uint_eq, Z.mod_small, uval_range. Qed.

Lemma uint_try_uval {bits} (x : uint bits) : uint_try bits (uval x) = Some x.
Proof. by apply uint_try_Some. Qed.

#[export] Instance uint_countable bits : Countable (uint bits).
Proof. apply (inj_countable uval (uint_try bits)), uint_try_uval. Defined.

(** ** Arithmetic *)

(** [x.wrapping_add(y)], and [x + y] in a build without overflow checks. *)
Definition wrapping_add {bits} (x y : uint bits) : uint bits := #(x + y).

(** [x.checked_add(y)], and [x + y] in a build with overflow checks, where
    [None] is the panic. *)
Definition checked_add {bits} (x y : uint bits) : option (uint bits) :=
  uint_try bits (x + y).

Lemma checked_add_Some {bits} (x y z : uint bits) :
  checked_add x y = Some z ↔ uval z = x + y.
Proof. apply uint_try_Some. Qed.

Lemma checked_add_None {bits} (x y : uint bits) :
  checked_add x y = None ↔ 2 ^ Zpos bits <= x + y.
Proof.
  unfold checked_add. rewrite uint_try_None.
  pose proof (uval_range x). pose proof (uval_range y). lia.
Qed.

Lemma wrapping_add_spec {bits} (x y : uint bits) :
  uval (wrapping_add x y) =
    if decide (x + y < 2 ^ Zpos bits) then x + y else x + y - 2 ^ Zpos bits.
Proof.
  unfold wrapping_add; simpl.
  pose proof (uval_range x). pose proof (uval_range y). case_decide.
  - apply Z.mod_small. lia.
  - symmetry. apply Z.mod_unique_pos with 1; lia.
Qed.

Lemma checked_wrapping_add {bits} (x y z : uint bits) :
  checked_add x y = Some z → wrapping_add x y = z.
Proof.
  intros Hz%checked_add_Some. apply uint_eq. rewrite wrapping_add_spec.
  pose proof (uval_range z). case_decide; lia.
Qed.

(** Widening ([u32 as u64], [u64::from]) keeps the value. *)
Definition widen {b : positive} (b' : positive) (x : uint b) : uint b' := #(x).

Lemma widen_spec {b} b' (x : uint b) : (b <= b')%positive → uval (widen b' x) = uval x.
Proof.
  intros Hb. apply uint_wrap_small. pose proof (uval_range x) as Hx.
  assert (2 ^ Zpos b <= 2 ^ Zpos b') by (apply Z.pow_le_mono_r; lia). lia.
Qed.

(** A cast to a wider type can be undone. *)
Lemma widen_try {b} b' (x : uint b) :
  (b <= b')%positive → uint_try b (uval (uint_wrap b' (uval x))) = Some x.
Proof. intros Hb. apply uint_try_Some. symmetry. by apply (widen_spec b' x). Qed.

(** ** Bytes of a hash *)

(** The [n] low bytes of [z], most significant first. *)
Fixpoint be_bytes (n : nat) (z : Z) : bytes :=
  match n with
  | O => []
  | S m => #(z / 2 ^ (8 * Z.of_nat m)) :: be_bytes m z
  end.

Fixpoint be_value (l : bytes) : Z :=
  match l with
  | [] => 0
  | b :: l' => uval b * 2 ^ (8 * Z.of_nat (length l')) + be_value l'
  end.

Lemma length_be_bytes n z : length (be_bytes n z) = n.
Proof. induction n; simpl; congruence. Qed.

Lemma be_value_bytes n z : be_value (be_bytes n z) = z mod 2 ^ (8 * Z.of_nat n).
Proof.
  induction n as [|n IH]; simpl be_value.
  - by rewrite Z.mod_1_r.
  - rewrite IH, length_be_bytes. simpl uval.
    replace (8 * Z.of_nat (S n)) with (8 * Z.of_nat n + 8) by lia.
    rewrite Z.pow_add_r, Z.rem_mul_r by lia. lia.
Qed.

(** [H256::as_bytes] / [AsRef<[u8]>], and what SCALE writes for a fixed-size
    array: the 32 bytes of the hash, most significant first. *)
Definition h256_bytes (h : H256) : bytes := be_bytes 32 h.

Lemma h256_bytes_length h : length (h256_bytes h) = 32%nat.
Proof. apply length_be_bytes. Qed.

#[export] Instance h256_bytes_inj : Inj eq eq h256_bytes.
Proof.
  intros x y H. apply uint_eq.
  apply (f_equal be_value) in H. unfold h256_bytes in H. rewrite !be_value_bytes in H.
  pose proof (uval_range x). pose proof (uval_range y).
  by rewrite !Z.mod_small in H by lia.
Qed.

(** [H256::zero()] and [H256::default()]. *)
Definition H256_zero : H256 := #0.
(** [H256::from(&[b; 32])]. *)
Definition H256_repeat (b : u8) : H256 := #(be_value (replicate 32 b)).

Lemma be_value_range l : 0 <= be_value l < 2 ^ (8 * Z.of_nat (length l)).
Proof.
  induction l as [|b l IH]; simpl be_value; [simpl; lia|].
  simpl length. replace (8 * Z.of_nat (S (length l))) with (8 + 8 * Z.of_nat (length l)) by lia.
  rewrite Z.pow_add_r by lia. pose proof (uval_range b). nia.
Qed.

Lemma be_bytes_mod n z k : be_bytes n (z + k * 2 ^ (8 * Z.of_nat n)) = be_bytes n z.
Proof.
  revert k. induction n as [|n IH]; intros k; simpl be_bytes; [done|].
  replace (8 * Z.of_nat (S n)) with (8 + 8 * Z.of_nat n) by lia.
  rewrite Z.pow_add_r by lia.
  replace (z + k * (2 ^ 8 * 2 ^ (8 * Z.of_nat n)))
    with (z + k * 2 ^ 8 * 2 ^ (8 * Z.of_nat n)) by lia.
  f_equal; [|apply IH]. apply uint_eq. simpl uval.
  rewrite Z.div_add by lia. change (2 ^ Zpos 8) with (2 ^ 8). by rewrite Z_mod_plus_full.
Qed.

Lemma be_bytes_value l : be_bytes (length l) (be_value l) = l.
Proof.
  induction l as [|b l IH]; simpl; [done|].
  pose proof (be_value_range l). f_equal.
  - apply uint_eq. simpl uval. rewrite Z.add_comm, Z.div_add, Z.div_small, Z.add_0_l by lia.
    apply Z.mod_small. apply (uval_range b).
  - by rewrite Z.add_comm, be_bytes_mod.
Qed.

Lemma H256_repeat_bytes b : h256_bytes (H256_repeat b) = replicate 32 b.
Proof.
  unfold h256_bytes, H256_repeat.
  pose proof (be_value_range (replicate 32 b)) as Hr. rewrite length_replicate in Hr.
  rewrite uint_wrap_small by done.
  rewrite <- (length_replicate 32 b) at 1. apply be_bytes_value.
Qed.

(** The order of [[u8; 32]], hence of [H256] keys in a [BTreeMap]: lexicographic
    on the bytes. *)
Fixpoint lex_ltb (l k : bytes) : bool :=
  match l, k with
  | x :: l', y :: k' => (x <? y) || ((x =? y) && lex_ltb l' k')
  | [], _ :: _ => true
  | _, [] => false
  end.

Lemma lex_ltb_value l k :
  length l = length k → lex_ltb l k = (be_value l <? be_value k).
Proof.
  revert k. induction l as [|x l IH]; intros [|y k] Hlen; simpl in *; [done..|].
  apply (inj S) in Hlen.
  rewrite (IH k Hlen), Hlen. pose proof (be_value_range l) as Hl.
  pose proof (be_value_range k). rewrite Hlen in Hl.
  apply eq_true_iff_eq. rewrite orb_true_iff, andb_true_iff, !Z.ltb_lt, Z.eqb_eq. nia.
Qed.

(** Comparing hashes as integers is comparing their bytes. *)
Lemma h256_lex (x y : H256) : lex_ltb (h256_bytes x) (h256_bytes y) = (x <? y).
Proof.
  unfold h256_bytes. rewrite lex_ltb_value by by rewrite !length_be_bytes.
  rewrite !be_value_bytes. pose proof (uval_range x). pose proof (uval_range y).
  by rewrite !Z.mod_small by lia.
Qed.

#[global] Arguments be_bytes : simpl never.
#[global] Arguments uint_wrap : simpl never.
#[global] Arguments uint_try : simpl never.
