(* ===== verification/Sdk.v ===== *)
(** * The interfaces of the SDK

    The pallets, the runtime and the relayer call libraries of the Polkadot SDK
    that are not part of this repository: FRAME's origins and storage bounds, the
    MMR and binary Merkle tree verifiers, and the SCALE codec. Each is a type
    class here, with one field per function or type the repository uses and no
    definition; the laws a theorem relies on are separate classes, named after
    the documented behaviour they state. *)
From S2P Require Import Prelude Words.

(** ** [frame_system] *)

Class FrameSystem := {
  Origin : Type;
  AccountId : Type;
  (** [ensure_signed]: the signer of a signed extrinsic, an error otherwise. *)
  ensure_signed : Origin → option AccountId;
}.

(** [DispatchError], as far as the pallets produce it. *)
Inductive DispatchError (Error : Type) : Type :=
| BadOrigin
| Module (e : Error).
Arguments BadOrigin {Error}.
Arguments Module {Error} _.

(** [WeakBoundedVec<H256, S>]: a vector with a declared bound. *)
Class WeakBoundedVecLib := {
  (** [WeakBoundedVec::force_from] (for a bound), then the inner vector. *)
  force_from : u32 → list H256 → list H256;
}.

(** "Create [Self] from [t] without any checks": the bound is only logged. *)
Class WeakBoundedVecLaws `{!WeakBoundedVecLib} : Prop := {
  force_from_unchecked : ∀ bound l, force_from bound l = l;
}.

(** ** [pallet_mmr] and [sp_mmr_primitives] *)

(** [OpaqueLeaf(pub Vec<u8>)]. *)
Record OpaqueLeaf : Type := mkOpaqueLeaf { opaque_leaf_0 : bytes }.

#[export] Instance OpaqueLeaf_eq_dec : EqDecision OpaqueLeaf.
Proof. solve_decision. Defined.

(** [DataOrHash<Keccak256, OpaqueLeaf>]. *)
Inductive DataOrHash : Type :=
| Data (leaf : OpaqueLeaf)
| Hash (hash : H256).

Class MmrLib := {
  (** [Proof<H256>]. *)
  MmrProof : Type;
  MmrError : Type;
  EncodableOpaqueLeaf : Type;
  into_opaque_leaf : EncodableOpaqueLeaf → OpaqueLeaf;
  verify_leaves_proof : H256 → list DataOrHash → MmrProof → result MmrError ();
}.

(** The verifier recomputes the root from the leaves and the proof and compares it. *)
Class MmrRootLaws `{!MmrLib} : Prop := {
  mmr_one_root : ∀ r r' nodes pf, verify_leaves_proof r nodes pf = Ok tt →
    verify_leaves_proof r' nodes pf = Ok tt → r = r';
}.

(** ** [binary_merkle_tree] *)

(** [Leaf]: a value still to be hashed, or its hash. *)
Inductive Leaf : Type :=
| Leaf_Value (value : bytes)
| Leaf_Hash (hash : H256).

(** [MerkleProof<H256, T>]. *)
Record MerkleProof (T : Type) (bits : positive) : Type := mkMerkleProof {
  mp_root : H256;
  mp_proof : list H256;
  mp_number_of_leaves : uint bits;
  mp_leaf_index : uint bits;
  mp_leaf : T
}.
Arguments mkMerkleProof {T bits} _ _ _ _ _.
Arguments mp_root {T bits} _.
Arguments mp_proof {T bits} _.
Arguments mp_number_of_leaves {T bits} _.
Arguments mp_leaf_index {T bits} _.
Arguments mp_leaf {T bits} _.

Class MerkleLib := {
  (** The width of the library's leaf counts and indices. *)
  index_bits : positive;
  (** [merkle_root::<Keccak256, _>], on the bytes of the leaves. *)
  merkle_root : list bytes → H256;
  (** [merkle_proof::<Keccak256, _, T>], which panics on an index out of range;
      [T: AsRef<[u8]>] is the first argument. *)
  merkle_proof : ∀ {T : Type}, (T → bytes) → list T → uint index_bits →
    run (MerkleProof T index_bits);
  (** [verify_proof::<Keccak256, _, _>]. *)
  verify_proof : H256 → list H256 → uint index_bits → uint index_bits → Leaf → bool;
}.

(** The proof generated for an index in range carries the root of the tree, the
    index and the leaf asked for, and verifies. *)
Class MerkleLaws `{!MerkleLib} : Prop := {
  merkle_proof_correct : ∀ T (as_ref : T → bytes) (leaves : list T) (i : uint index_bits) (x : T),
    leaves !! Z.to_nat i = Some x →
    ∃ path n, merkle_proof as_ref leaves i =
        Ret (mkMerkleProof (merkle_root (as_ref <$> leaves)) path n i x) ∧
      verify_proof (merkle_root (as_ref <$> leaves)) path n i (Leaf_Value (as_ref x)) = true;
}.

(** ** Relay chain and SCALE types *)

(** [polkadot_runtime_parachains::paras::ParaLeaf]. *)
Record ParaLeaf : Type := mkParaLeaf { para_id : u32; head_data : bytes }.

(** [polkadot_runtime_parachains::paras::ParaMerkleProof]. The width of its two
    counters is not visible in this repository, so they are integers. *)
Record ParaMerkleProof : Type := mkParaMerkleProof {
  pmp_root : H256;
  pmp_proof : list H256;
  pmp_num_leaves : Z;
  pmp_leaf_index : Z;
  pmp_leaf : ParaLeaf
}.

Class ScaleLib `{!MmrLib} := {
  (** [sp_consensus_beefy::mmr::MmrLeaf<BlockNumber, H256, H256, H256>]. *)
  BeefyMmrLeaf : Type;
  leaf_extra : BeefyMmrLeaf → H256;
  (** [generic::Header<u32, BlakeTwo256>] and its digest. *)
  Header : Type;
  Digest : Type;
  header_number : Header → u32;
  header_digest : Header → Digest;
  (** [cumulus_primitives_core::xcmr_digest]. *)
  extract_xcmp_channel_merkle_root : Digest → option H256;
  (** [Decode::decode] at the types the repository decodes, [Encode::encode] of a
      [ParaLeaf]. *)
  decode_beefy_leaf : bytes → option BeefyMmrLeaf;
  decode_header : bytes → option Header;
  decode_leaves : bytes → option (list EncodableOpaqueLeaf);
  decode_mmr_proof : bytes → option MmrProof;
  encode_para_leaf : ParaLeaf → bytes;
}.

(** SCALE encodings determine the value. *)
Class ScaleLaws `{!MmrLib} `{!ScaleLib} : Prop := {
  encode_para_leaf_inj : Inj (=) (=) encode_para_leaf;
}.
#[export] Existing Instance encode_para_leaf_inj.

(** [sp_consensus_beefy::mmr::MmrLeafVersion]. *)
Class LeafVersionLib := {
  MmrLeafVersion : Type;
  MmrLeafVersion_new : u8 → u8 → MmrLeafVersion;
}.
