(* ===== verification/MessageStuffer.v ===== *)
(** * The XCMP message stuffer pallet

    [pallets/xcmp_message_stuffer/src/lib.rs]: the storage of one pallet instance,
    its hook, its three extrinsics, the leaf it hands to its channel's MMR and the
    extraction of a channel root from a parachain header. Every function is
    translated statement by statement; log lines are dropped. The properties that
    need more than the definitions (invariants, soundness) are in
    [StufferSafety]. *)
From S2P Require Import Prelude Words Sdk.

(** ** Data *)

(** [ChannelMerkleProof]. *)
Record ChannelMerkleProof : Type := mkChannelMerkleProof {
  root : H256;
  proof : list H256;
  num_leaves : u64;
  leaf_index : u64;
  leaf : H256
}.

#[export] Instance ChannelMerkleProof_eq_dec : EqDecision ChannelMerkleProof.
Proof. solve_decision. Defined.

(** [impl Default for ChannelMerkleProof]. *)
Definition ChannelMerkleProof_default : ChannelMerkleProof :=
  {| root := H256_zero; proof := []; num_leaves := #0; leaf_index := #0; leaf := H256_zero |}.

Abbreviation ChannelId := u64.

(** [XcmpProof]: the four tiers, from the BEEFY MMR down to the messages. *)
Record XcmpProof `{!MmrLib} : Type := mkXcmpProof {
  stage_1 : MmrProof * list EncodableOpaqueLeaf;
  stage_2 : ParaMerkleProof;
  stage_3 : ChannelMerkleProof;
  stage_4 : MmrProof * list EncodableOpaqueLeaf
}.

(** [MmrLeaf<BlockNumber, Hash, XcmpMessages>]. *)
Record MmrLeaf `{!LeafVersionLib} (BlockNumber Messages : Type) : Type := mkMmrLeaf {
  xcmp_msgs : Messages;
  version : MmrLeafVersion;
  parent_number_and_hash : BlockNumber * H256
}.
Arguments mkMmrLeaf {_ _ _} _ _ _.
Arguments xcmp_msgs {_ _ _} _.
Arguments version {_ _ _} _.
Arguments parent_number_and_hash {_ _ _} _.

(** [Error<T, I>]. *)
Inductive Error : Set :=
| XcmpProofNotValid
| XcmpProofAccepted
| XcmpProofLeavesNotValid
| XcmpNoChannelRootForChannelId
| XcmpBeefyRootTargetedNeverSeen
| XcmpStage1LeavesTooLarge
| XcmpStage1ProofDoesntVerify
| XcmpStage2RootDoesntMatch
| XcmpStage2LeafDoesntDecode
| XcmpStage2ProofDoesntVerify
| XcmpStage3HeaderDoesntDecode
| XcmpStage3CannotBeExtracted
| XcmpStage3RootDoesntMatch
| XcmpStage3ProofDoesntVerify
| XcmpStage4ProofDoesntVerify.

#[export] Instance Error_eq_dec : EqDecision Error.
Proof. solve_decision. Defined.

(** ** Configuration *)

(** [trait XcmpMessageProvider<Hash>]; [Env] is the state of the other pallets
    that an implementation reads. *)
Class XcmpMessageProvider (Env : Type) := {
  XcmpMessages : Type;
  get_xcmp_messages : Env → H256 → u32 → run XcmpMessages;
}.

(** [trait Config<I>], with what the pallet uses of [frame_system::Config] and
    [pallet_mmr::Config]. *)
Class Config (Env : Type) `{!FrameSystem} `{!LeafVersionLib} `{!XcmpMessageProvider Env} := {
  ParaIdentifier : u32;
  LeafVersion : MmrLeafVersion;
  RelayerOrigin : Origin → bool;
  BeefyRootProvider_get_root : Env → option H256;
  MaxBeefyRootsKept : u32;
  BlockNumber : Type;
  Weight : Type;
  DbWeight_writes : Z → Weight;
  Hashing_hash_of : XcmpMessages → H256;
  ParentNumberAndHash_leaf_data : Env → BlockNumber * H256;
}.

Section pallet.
Context {Env : Type}.
Context {FS : FrameSystem} {LV : LeafVersionLib} {MP : XcmpMessageProvider Env}.
Context {CFG : Config Env} {WB : WeakBoundedVecLib} {ML : MmrLib} {BM : MerkleLib}.
Context {SC : ScaleLib}.

(** ** Storage *)

(** [Event<T, I>]. *)
Inductive Event : Type :=
| XcmpMessageSent (msg_hash : H256) (block_num : BlockNumber)
| XcmpMessagesAccepted (mmr_channel_root : H256) (channel_id : ChannelId).

(** The storage items of one instance, and the events it has deposited. *)
Record Storage : Type := mkStorage {
  XcmpChannelRoots : gmap ChannelId H256;
  SeenBeefyRoots : gmap H256 BlockNumber;
  SeenBeefyRootsOrder : list H256;
  Events : list Event
}.

Definition genesis : Storage := mkStorage ∅ ∅ [] [].

Abbreviation Call A := (M Storage (DispatchError Error) A).

Definition XcmpChannelRoots_insert (k : ChannelId) (v : H256) : Call () :=
  modify (λ s, mkStorage (<[k:=v]> (XcmpChannelRoots s)) (SeenBeefyRoots s)
    (SeenBeefyRootsOrder s) (Events s)).
Definition SeenBeefyRoots_insert (k : H256) (v : BlockNumber) : Call () :=
  modify (λ s, mkStorage (XcmpChannelRoots s) (<[k:=v]> (SeenBeefyRoots s))
    (SeenBeefyRootsOrder s) (Events s)).
Definition SeenBeefyRootsOrder_put (v : list H256) : Call () :=
  modify (λ s, mkStorage (XcmpChannelRoots s) (SeenBeefyRoots s) v (Events s)).
Definition deposit_event (e : Event) : Call () :=
  modify (λ s, mkStorage (XcmpChannelRoots s) (SeenBeefyRoots s)
    (SeenBeefyRootsOrder s) (Events s ++ [e])).

(** ** Hooks *)

(** [on_initialize]. *)
Definition on_initialize (env : Env) (n : BlockNumber) : Call Weight :=
  let beefy_root := default H256_zero (BeefyRootProvider_get_root env) in
  _ ← SeenBeefyRoots_insert beefy_root n;
  order ← gets SeenBeefyRootsOrder;
  let item := force_from MaxBeefyRootsKept (order ++ [beefy_root]) in
  _ ← SeenBeefyRootsOrder_put item;
  mret (DbWeight_writes 3).

(** ** Extrinsics *)

(** [leaves.into_iter().map(|leaf| DataOrHash::Data(leaf.into_opaque_leaf()))]. *)
Definition leaf_nodes (leaves : list EncodableOpaqueLeaf) : list DataOrHash :=
  (λ leaf, Data (into_opaque_leaf leaf)) <$> leaves.

(** [submit_test_proof]. *)
Definition submit_test_proof (origin : Origin) (mmr_proof : MmrProof)
    (leaves : list EncodableOpaqueLeaf) (channel_id : ChannelId) : Call () :=
  _ ← ok_or (ensure_signed origin) BadOrigin;
  let nodes := leaf_nodes leaves in
  channel_root ← gets (λ s, XcmpChannelRoots s !! channel_id);
  root ← ok_or channel_root (Module XcmpNoChannelRootForChannelId);
  _ ← map_err (verify_leaves_proof root nodes mmr_proof) (Module XcmpProofNotValid);
  deposit_event (XcmpMessagesAccepted root channel_id).

(** [update_root]. *)
Definition update_root (origin : Origin) (root : H256) (channel_id : ChannelId) : Call () :=
  _ ← ok_or (ensure_signed origin) BadOrigin;
  XcmpChannelRoots_insert channel_id root.

(** [extract_xcmp_channel_root], whose error the caller converts with [?]. *)
Definition extract_xcmp_channel_root (leaf : ParaLeaf) : Call H256 :=
  header ← ok_or (decode_header (head_data leaf)) (Module XcmpStage3HeaderDoesntDecode);
  ok_or (extract_xcmp_channel_merkle_root (header_digest header))
    (Module XcmpStage3CannotBeExtracted).

(** [submit_xcmp_proof]. *)
Definition submit_xcmp_proof (origin : Origin) (xcmp_proof : XcmpProof)
    (beefy_root_targeted : H256) : Call () :=
  _ ← ok_or (ensure_signed origin) BadOrigin;
  seen ← gets (λ s, bool_decide (is_Some (SeenBeefyRoots s !! beefy_root_targeted)));
  _ ← bail_if (negb seen) (Module XcmpBeefyRootTargetedNeverSeen);
  let '(stage_1_proof, stage_1_leaves) := stage_1 xcmp_proof in
  let nodes := leaf_nodes stage_1_leaves in
  _ ← map_err (verify_leaves_proof beefy_root_targeted nodes stage_1_proof)
        (Module XcmpStage1ProofDoesntVerify);
  _ ← bail_if (bool_decide (1 < length stage_1_leaves)%nat) (Module XcmpStage1LeavesTooLarge);
  stage_1_leaf ← unwrap (stage_1_leaves !! 0%nat);
  let stage_1_leaf := into_opaque_leaf stage_1_leaf in
  stage_2_leaf ← ok_or (decode_beefy_leaf (opaque_leaf_0 stage_1_leaf))
        (Module XcmpStage2LeafDoesntDecode);
  let stage_2_root_from_proof := pmp_root (stage_2 xcmp_proof) in
  let stage_2_root := leaf_extra stage_2_leaf in
  _ ← bail_if (bool_decide (stage_2_root ≠ stage_2_root_from_proof))
        (Module XcmpStage2RootDoesntMatch);
  stage_2_num_leaves ← unwrap (uint_try index_bits (pmp_num_leaves (stage_2 xcmp_proof)));
  stage_2_leaf_index ← unwrap (uint_try index_bits (pmp_leaf_index (stage_2 xcmp_proof)));
  let stage_2_result := verify_proof (pmp_root (stage_2 xcmp_proof))
        (pmp_proof (stage_2 xcmp_proof)) stage_2_num_leaves stage_2_leaf_index
        (Leaf_Value (encode_para_leaf (pmp_leaf (stage_2 xcmp_proof)))) in
  _ ← bail_if (negb stage_2_result) (Module XcmpStage2ProofDoesntVerify);
  stage_3_root ← extract_xcmp_channel_root (pmp_leaf (stage_2 xcmp_proof));
  _ ← bail_if (bool_decide (stage_3_root ≠ root (stage_3 xcmp_proof)))
        (Module XcmpStage3RootDoesntMatch);
  stage_3_num_leaves ← unwrap (uint_try index_bits (num_leaves (stage_3 xcmp_proof)));
  stage_3_leaf_index ← unwrap (uint_try index_bits (leaf_index (stage_3 xcmp_proof)));
  let stage_3_result := verify_proof (root (stage_3 xcmp_proof))
        (proof (stage_3 xcmp_proof)) stage_3_num_leaves stage_3_leaf_index
        (Leaf_Value (h256_bytes (leaf (stage_3 xcmp_proof)))) in
  _ ← bail_if (negb stage_3_result) (Module XcmpStage3ProofDoesntVerify);
  let stage_4_root := leaf (stage_3 xcmp_proof) in
  let '(stage_4_proof, stage_4_leaves) := stage_4 xcmp_proof in
  let nodes := leaf_nodes stage_4_leaves in
  _ ← map_err (verify_leaves_proof stage_4_root nodes stage_4_proof)
        (Module XcmpStage4ProofDoesntVerify);
  mret tt.

(** ** The leaf of the channel MMR *)

(** [LeafDataProvider::leaf_data]. *)
Definition leaf_data (env : Env) : Call (MmrLeaf BlockNumber XcmpMessages) :=
  raw_messages ← call (get_xcmp_messages env (ParentNumberAndHash_leaf_data env).2
                         ParaIdentifier);
  _ ← deposit_event (XcmpMessageSent (Hashing_hash_of raw_messages)
                       (ParentNumberAndHash_leaf_data env).1);
  mret {| xcmp_msgs := raw_messages;
          version := LeafVersion;
          parent_number_and_hash := ParentNumberAndHash_leaf_data env |}.

(** [OnNewRootSatisfier::on_new_root] does nothing. *)
Definition on_new_root (_root : H256) : Call () := mret tt.

End pallet.

#[global] Arguments leaf_nodes : simpl never.
#[global] Arguments extract_xcmp_channel_root : simpl never.
