(* ===== verification/TestDouble.v ===== *)
(** * A concrete SDK

    An executable instance of every interface of [Sdk] and of the pallet's
    configuration, in which proofs are checked by looking the leaves up in a fixed
    table of committed lists: the root of entry [k] of the table is the hash [k+1].
    It shows that the hypotheses of the theorems can hold together and gives their
    witnesses something to evaluate. *)
From S2P Require Import Prelude Words Sdk MessageStuffer.

(** ** The committed lists *)

Definition td_message : bytes := [ #7].
Definition td_channel_mmr_root : H256 := #1.
Definition td_channel_root : H256 := #2.
Definition td_heads_root : H256 := #3.
Definition td_beefy_root : H256 := #4.

(** A header is one byte, the number of the channel root in its digest; a BEEFY
    leaf is one byte, the number of the heads root it holds. *)
Definition td_para_leaf : ParaLeaf := mkParaLeaf #1000 [ #2].
Definition td_beefy_leaf : bytes := [ #3].

Definition td_encode_para_leaf (pl : ParaLeaf) : bytes :=
  be_bytes 4 (para_id pl) ++ head_data pl.

Definition td_table : list (list bytes) :=
  [ [td_message];
    [h256_bytes td_channel_mmr_root];
    [td_encode_para_leaf td_para_leaf];
    [td_beefy_leaf] ].

(** The list committed to by a root. *)
Definition td_committed (r : H256) : list bytes :=
  if decide (uval r = 0)%Z then [] else default [] (td_table !! Z.to_nat (r - 1)).

Definition td_node_ok (r : H256) (n : DataOrHash) : bool :=
  match n with
  | Data l => bool_decide (opaque_leaf_0 l ∈ td_committed r)
  | Hash _ => false
  end.

(** The lists have no element in common. *)
Lemma td_committed_index r x :
  x ∈ td_committed r → ∃ i, (td_table !! i) ≫= head = Some x ∧ r = #(Z.of_nat i + 1).
Proof.
  unfold td_committed. destruct (decide _) as [|Hr]; [by intros []%elem_of_nil|].
  pose proof (uval_range r). destruct (td_table !! Z.to_nat (r - 1)) as [l|] eqn:Hl; [|by intros []%elem_of_nil].
  simpl. intros Hx. exists (Z.to_nat (r - 1)). split.
  - rewrite Hl. simpl. assert (l = [x]) as ->; [|done].
    destruct (Z.to_nat (r - 1)) as [|[|[|[|]]]]; simplify_eq/=; by apply list_elem_of_singleton in Hx as ->.
  - rewrite Z2Nat.id by lia. replace (r - 1 + 1)%Z with (uval r) by lia. symmetry. apply uint_wrap_uval.
Qed.
Lemma td_table_disjoint i i' x :
  (td_table !! i) ≫= head = Some x → (td_table !! i') ≫= head = Some x → i = i'.
Proof. destruct i as [|[|[|[|]]]], i' as [|[|[|[|]]]]; intros H1 H2; simplify_eq/=; try done. Qed.

(** ** Instances *)

#[export] Instance td_frame : FrameSystem :=
  {| Origin := option u64; AccountId := u64; ensure_signed := id |}.

#[export] Instance td_weak : WeakBoundedVecLib := {| force_from := λ _ l, l |}.
#[export] Instance td_weak_laws : WeakBoundedVecLaws.
Proof. constructor. reflexivity. Qed.

#[export] Instance td_mmr : MmrLib := {|
  MmrProof := ();
  MmrError := ();
  EncodableOpaqueLeaf := bytes;
  into_opaque_leaf := mkOpaqueLeaf;
  verify_leaves_proof := λ r nodes _,
    if bool_decide (nodes ≠ []) && forallb (td_node_ok r) nodes then Ok tt else Err tt
|}.

#[export] Instance td_merkle : MerkleLib := {|
  index_bits := 32;
  merkle_root := λ _, H256_zero;
  merkle_proof := λ T as_ref leaves i,
    match leaves !! Z.to_nat i with
    | Some x => Ret (mkMerkleProof H256_zero [] #(Z.of_nat (length leaves)) i x)
    | None => Panic
    end;
  verify_proof := λ r _ n i l,
    match l with
    | Leaf_Value v => bool_decide (td_committed r !! Z.to_nat i = Some v)
    | Leaf_Hash _ => false
    end
|}.

#[export] Instance td_scale : ScaleLib := {|
  BeefyMmrLeaf := H256;
  leaf_extra := id;
  Header := u8;
  Digest := H256;
  header_number := λ h, widen 32 h;
  header_digest := λ h, widen 256 h;
  extract_xcmp_channel_merkle_root := Some;
  decode_beefy_leaf := λ b, match b with [x] => Some (widen 256 x) | _ => None end;
  decode_header := λ b, match b with [x] => Some x | _ => None end;
  decode_leaves := λ b, match b with [] => None | _ => Some [b] end;
  decode_mmr_proof := λ b, Some tt;
  encode_para_leaf := td_encode_para_leaf
|}.

#[export] Instance td_scale_laws : ScaleLaws.
Proof.
  constructor. intros [x h] [y k] Heq.
  apply app_inj_1 in Heq as [Hid Hd]; [|by rewrite !length_be_bytes].
  cbn [para_id head_data] in Hid, Hd. subst k.
  f_equal. apply uint_eq. apply (f_equal be_value) in Hid.
  rewrite !be_value_bytes in Hid. pose proof (uval_range x). pose proof (uval_range y).
  by rewrite !Z.mod_small in Hid by lia.
Qed.

#[export] Instance td_version : LeafVersionLib :=
  {| MmrLeafVersion := u8 * u8; MmrLeafVersion_new := pair |}.

(** The chain around the pallet: the BEEFY root it holds and the outbound messages. *)
Definition td_env : Type := option H256 * bytes.

#[export] Instance td_provider : XcmpMessageProvider td_env :=
  {| XcmpMessages := bytes; get_xcmp_messages := λ env _ _, Ret env.2 |}.

#[export] Instance td_config : Config td_env := {|
  ParaIdentifier := #1;
  LeafVersion := MmrLeafVersion_new #0 #0;
  RelayerOrigin := λ _, false;
  BeefyRootProvider_get_root := fst;
  MaxBeefyRootsKept := #2;
  BlockNumber := u32;
  Weight := Z;
  DbWeight_writes := id;
  Hashing_hash_of := λ _, H256_zero;
  ParentNumberAndHash_leaf_data := λ _, ( #0, H256_zero)
|}.

(** ** A valid proof *)

Definition td_channel_proof : ChannelMerkleProof := {|
  root := td_channel_root; proof := []; num_leaves := #1; leaf_index := #0;
  leaf := td_channel_mmr_root
|}.

Definition td_xcmp_proof : XcmpProof := {|
  stage_1 := (tt, [td_beefy_leaf]);
  stage_2 := mkParaMerkleProof td_heads_root [] 1 0 td_para_leaf;
  stage_3 := td_channel_proof;
  stage_4 := (tt, [td_message])
|}.

Definition td_signed : Origin := Some #9.
Definition td_mmr_proof : MmrProof := tt.
Definition td_message_leaf : EncodableOpaqueLeaf := td_message.

(** The storage after one block with the BEEFY root known. *)
Definition td_storage : Storage :=
  match on_initialize (Some td_beefy_root, []) ( #5 : u32) genesis with
  | Ret (_, s) => s
  | _ => genesis
  end.

Example td_accepts :
  submit_xcmp_proof td_signed td_xcmp_proof td_beefy_root td_storage = Ret (Ok tt, td_storage).
Proof. reflexivity. Qed.
