(* ===== verification/StufferSafety.v ===== *)
(** * Correctness of the message stuffer pallet

    What [MessageStuffer]'s functions guarantee: the exact condition under which
    an XCMP proof is accepted, the exact condition under which the extrinsic
    panics, the invariant that ties the set of seen BEEFY roots to their order,
    and soundness: in a reachable state an accepted proof ends in messages that
    the sending parachain committed to. *)
From S2P Require Import Prelude Words Sdk MessageStuffer.

Section acceptance.
Context {Env : Type}.
Context {FS : FrameSystem} {LV : LeafVersionLib} {MP : XcmpMessageProvider Env}.
Context {CFG : Config Env} {WB : WeakBoundedVecLib} {ML : MmrLib} {BM : MerkleLib}.
Context {SC : ScaleLib}.
Implicit Types (s : Storage) (p : XcmpProof).

(** ** The specification of a proof *)

(** A Merkle inclusion proof whose counters fit the library's width. *)
Definition merkle_included (root : H256) (proof : list H256) (num_leaves leaf_index : Z)
    (value : bytes) : Prop :=
  ∃ n i, uint_try index_bits num_leaves = Some n ∧ uint_try index_bits leaf_index = Some i ∧
    verify_proof root proof n i (Leaf_Value value) = true.

(** Leaves verified against an MMR root. *)
Definition mmr_included (root : H256) (st : MmrProof * list EncodableOpaqueLeaf) : Prop :=
  verify_leaves_proof root (leaf_nodes st.2) st.1 = Ok tt.

(** The single BEEFY leaf of stage 1 and the root of the parachain heads it holds. *)
Definition beefy_leaf_of (leaves : list EncodableOpaqueLeaf) (heads_root : H256) : Prop :=
  ∃ l bl, leaves = [l] ∧ decode_beefy_leaf (opaque_leaf_0 (into_opaque_leaf l)) = Some bl ∧
    leaf_extra bl = heads_root.

(** The channel root announced in the header of a parachain head. *)
Definition channel_root_of (pl : ParaLeaf) : option H256 :=
  h ← decode_header (head_data pl); extract_xcmp_channel_merkle_root (header_digest h).

(** The four tiers hang together, each root being what the tier above commits to. *)
Record xcmp_proof_valid (beefy_root : H256) (p : XcmpProof) : Prop := {
  valid_stage_1 : mmr_included beefy_root (stage_1 p);
  valid_stage_1_leaf : beefy_leaf_of (stage_1 p).2 (pmp_root (stage_2 p));
  valid_stage_2 : merkle_included (pmp_root (stage_2 p)) (pmp_proof (stage_2 p))
    (pmp_num_leaves (stage_2 p)) (pmp_leaf_index (stage_2 p))
    (encode_para_leaf (pmp_leaf (stage_2 p)));
  valid_stage_3_root : channel_root_of (pmp_leaf (stage_2 p)) = Some (root (stage_3 p));
  valid_stage_3 : merkle_included (root (stage_3 p)) (proof (stage_3 p))
    (num_leaves (stage_3 p)) (leaf_index (stage_3 p)) (h256_bytes (leaf (stage_3 p)));
  valid_stage_4 : mmr_included (leaf (stage_3 p)) (stage_4 p)
}.

Lemma extract_Ok pl (s : Storage) r s' :
  extract_xcmp_channel_root pl s = Ret (Ok r, s') ↔ channel_root_of pl = Some r ∧ s' = s.
Proof.
  unfold extract_xcmp_channel_root, channel_root_of. step.
  destruct (decode_header _) as [h|]; simpl; [apply ok_or_Ok|naive_solver].
Qed.

Lemma extract_no_Panic pl (s : Storage) : extract_xcmp_channel_root pl s ≠ Panic.
Proof.
  unfold extract_xcmp_channel_root. step.
  destruct (decode_header _); simpl; [|done]. by destruct (extract_xcmp_channel_merkle_root _).
Qed.

(** The part of [submit_xcmp_proof] after the checks on the origin and the root. *)
Lemma submit_xcmp_proof_accepted origin p b s s' :
  submit_xcmp_proof origin p b s = Ret (Ok tt, s') ↔
  s' = s ∧ is_Some (ensure_signed origin) ∧ is_Some (SeenBeefyRoots s !! b) ∧
  xcmp_proof_valid b p.
Proof.
  unfold submit_xcmp_proof. destruct p as [[p1 l1] st2 st3 [p4 l4]]; simpl. split.
  - intros Hrun. run_ok.
    match goal with Hx : extract_xcmp_channel_root _ _ = _ |- _ =>
      apply extract_Ok in Hx as [? ->] end.
    run_ok. split_and!; [done|by eexists|done|].
    match goal with Hl : l1 !! 0 = Some _ |- _ => apply list_singleton_of in Hl; [|done] end.
    subst l1. by repeat (esplit; simpl).
  - intros (-> & [a Ha] & Hseen & Hv).
    destruct Hv as [Hv1 (l & bl & Hl1 & Hl & Hx) (n2 & i2 & Hn2 & Hi2 & Hv2) Hr3
      (n3 & i3 & Hn3 & Hi3 & Hv3) Hv4]; simpl in *.
    unfold mmr_included in *; simpl in *; subst l1.
    assert (He : extract_xcmp_channel_root (pmp_leaf st2) s = Ret (Ok (root st3), s))
      by by apply extract_Ok.
    by run_fwd.
Qed.

(** ** Failures *)

(** How far a submission got: the checks passed so far, in the order of the code. *)
Definition passed_root (s : Storage) (origin : Origin) (b : H256) : Prop :=
  is_Some (ensure_signed origin) ∧ is_Some (SeenBeefyRoots s !! b).
Definition passed_1 s origin p b : Prop :=
  passed_root s origin b ∧ mmr_included b (stage_1 p).
Definition passed_1_leaf s origin p b : Prop :=
  passed_1 s origin p b ∧ beefy_leaf_of (stage_1 p).2 (pmp_root (stage_2 p)).
Definition included_2 p : Prop :=
  merkle_included (pmp_root (stage_2 p)) (pmp_proof (stage_2 p)) (pmp_num_leaves (stage_2 p))
    (pmp_leaf_index (stage_2 p)) (encode_para_leaf (pmp_leaf (stage_2 p))).
Definition passed_2 s origin p b : Prop := passed_1_leaf s origin p b ∧ included_2 p.
Definition passed_3_root s origin p b : Prop :=
  passed_2 s origin p b ∧ channel_root_of (pmp_leaf (stage_2 p)) = Some (root (stage_3 p)).
Definition included_3 p : Prop :=
  merkle_included (root (stage_3 p)) (proof (stage_3 p)) (num_leaves (stage_3 p))
    (leaf_index (stage_3 p)) (h256_bytes (leaf (stage_3 p))).
Definition passed_3 s origin p b : Prop := passed_3_root s origin p b ∧ included_3 p.

(** Both counters of an inclusion proof fit the library's width. *)
Definition sized (n i : Z) : Prop :=
  is_Some (uint_try index_bits n) ∧ is_Some (uint_try index_bits i).

(** What each error of [submit_xcmp_proof] says about the submission: the check it
    names failed and every check before it passed. *)
Definition xcmp_error (s : Storage) (origin : Origin) (p : XcmpProof) (b : H256)
    (e : DispatchError Error) : Prop :=
  match e with
  | BadOrigin => ¬ is_Some (ensure_signed origin)
  | Module XcmpBeefyRootTargetedNeverSeen =>
      is_Some (ensure_signed origin) ∧ SeenBeefyRoots s !! b = None
  | Module XcmpStage1ProofDoesntVerify =>
      passed_root s origin b ∧ ¬ mmr_included b (stage_1 p)
  | Module XcmpStage1LeavesTooLarge => passed_1 s origin p b ∧ (1 < length (stage_1 p).2)%nat
  | Module XcmpStage2LeafDoesntDecode => passed_1 s origin p b ∧ ∃ l, (stage_1 p).2 = [l] ∧
      decode_beefy_leaf (opaque_leaf_0 (into_opaque_leaf l)) = None
  | Module XcmpStage2RootDoesntMatch => passed_1 s origin p b ∧ ∃ r,
      r ≠ pmp_root (stage_2 p) ∧ beefy_leaf_of (stage_1 p).2 r
  | Module XcmpStage2ProofDoesntVerify => passed_1_leaf s origin p b ∧
      sized (pmp_num_leaves (stage_2 p)) (pmp_leaf_index (stage_2 p)) ∧ ¬ included_2 p
  | Module XcmpStage3HeaderDoesntDecode => passed_2 s origin p b ∧
      decode_header (head_data (pmp_leaf (stage_2 p))) = None
  | Module XcmpStage3CannotBeExtracted => passed_2 s origin p b ∧
      is_Some (decode_header (head_data (pmp_leaf (stage_2 p)))) ∧
      channel_root_of (pmp_leaf (stage_2 p)) = None
  | Module XcmpStage3RootDoesntMatch => passed_2 s origin p b ∧ ∃ r,
      r ≠ root (stage_3 p) ∧ channel_root_of (pmp_leaf (stage_2 p)) = Some r
  | Module XcmpStage3ProofDoesntVerify => passed_3_root s origin p b ∧
      sized (num_leaves (stage_3 p)) (leaf_index (stage_3 p)) ∧ ¬ included_3 p
  | Module XcmpStage4ProofDoesntVerify => passed_3 s origin p b ∧
      ¬ mmr_included (leaf (stage_3 p)) (stage_4 p)
  | _ => False
  end.

(** When [submit_xcmp_proof] panics: stage 1 verified without any leaf to index, or
    a counter of the Merkle proofs does not fit ([try_into().unwrap()]). *)
Definition xcmp_panics (s : Storage) (origin : Origin) (p : XcmpProof) (b : H256) : Prop :=
  (passed_1 s origin p b ∧ (stage_1 p).2 = []) ∨
  (passed_1_leaf s origin p b ∧
     ¬ sized (pmp_num_leaves (stage_2 p)) (pmp_leaf_index (stage_2 p))) ∨
  (passed_3_root s origin p b ∧ ¬ sized (num_leaves (stage_3 p)) (leaf_index (stage_3 p))).

Ltac unfold_xcmp :=
  unfold xcmp_panics, xcmp_error, passed_3, passed_3_root, passed_2, passed_1_leaf, passed_1,
    passed_root, included_2, included_3, sized in *.

Lemma not_mmr_included r st :
  res_ok (verify_leaves_proof r (leaf_nodes st.2) st.1) = false ↔ ¬ mmr_included r st.
Proof. unfold mmr_included. destruct (verify_leaves_proof _ _ _) as [[]|]; naive_solver. Qed.

Lemma not_merkle_included r pf n i v n' i' :
  uint_try index_bits n = Some n' → uint_try index_bits i = Some i' →
  verify_proof r pf n' i' (Leaf_Value v) = false → ¬ merkle_included r pf n i v.
Proof. intros Hn Hi Hv (n'' & i'' & ? & ? & ?). congruence. Qed.

Lemma extract_Err pl (s : Storage) e s' :
  extract_xcmp_channel_root pl s = Ret (Err e, s') ↔ s' = s ∧ channel_root_of pl = None ∧
    e = Module (if decode_header (head_data pl) then XcmpStage3CannotBeExtracted
                else XcmpStage3HeaderDoesntDecode).
Proof.
  unfold extract_xcmp_channel_root, channel_root_of. step.
  destruct (decode_header _) as [h|]; simpl; [rewrite ok_or_Err|]; naive_solver.
Qed.

Lemma not_mmr_included_Err r st :
  ¬ mmr_included r st → ∃ e, verify_leaves_proof r (leaf_nodes st.2) st.1 = Err e.
Proof. unfold mmr_included. destruct (verify_leaves_proof _ _ _) as [[]|]; naive_solver. Qed.

Lemma not_merkle_included_false r pf n i v :
  is_Some (uint_try index_bits n) → is_Some (uint_try index_bits i) →
  ¬ merkle_included r pf n i v →
  ∃ n' i', uint_try index_bits n = Some n' ∧ uint_try index_bits i = Some i' ∧
    verify_proof r pf n' i' (Leaf_Value v) = false.
Proof.
  intros [n' Hn] [i' Hi] Hm. exists n', i'. split_and!; [done..|].
  apply not_true_is_false. intros Hv. apply Hm. by exists n', i'.
Qed.

(** Turn the hypotheses of a submission into equations for the calls it makes. *)
Ltac xcmp_facts s :=
  repeat match goal with
  | H : ¬ is_Some ?o |- _ => apply eq_None_not_Some in H
  | H : ¬ mmr_included _ _ |- _ => apply not_mmr_included_Err in H as [? H]; simpl in H
  | H : ¬ merkle_included _ _ _ _ _ |- _ =>
      apply not_merkle_included_false in H as (? & ? & ? & ? & ?); [|by destruct_and?..]
  | H : mmr_included _ _ |- _ => unfold mmr_included in H; simpl in H
  | H : merkle_included _ _ _ _ _ |- _ => destruct H as (? & ? & ? & ? & ?)
  | H : beefy_leaf_of _ _ |- _ => destruct H as (? & ? & ? & ? & ?); simpl in *
  | H : channel_root_of ?pl = Some ?r |- _ =>
      assert (extract_xcmp_channel_root pl s = Ret (Ok r, s)) by (by apply extract_Ok);
      clear H
  | H : decode_header (head_data ?pl) = None |- _ =>
      assert (extract_xcmp_channel_root pl s = Ret (Err (Module XcmpStage3HeaderDoesntDecode), s))
        by (apply extract_Err; unfold channel_root_of; by rewrite H); clear H
  | Hd : is_Some (decode_header (head_data ?pl)), H : channel_root_of ?pl = None |- _ =>
      destruct Hd as [? Hd];
      assert (extract_xcmp_channel_root pl s = Ret (Err (Module XcmpStage3CannotBeExtracted), s))
        by (apply extract_Err; by rewrite Hd); clear H
  | H : _ ∧ _ |- _ => destruct H
  | H : ∃ _, _ |- _ => destruct H
  | H : is_Some (ensure_signed _) |- _ => destruct H
  | H : is_Some (uint_try _ _) |- _ => destruct H
  end.

Lemma submit_xcmp_proof_errors origin p b s e s' :
  submit_xcmp_proof origin p b s = Ret (Err e, s') ↔ s' = s ∧ xcmp_error s origin p b e.
Proof.
  unfold submit_xcmp_proof. destruct p as [[p1 l1] st2 st3 [p4 l4]]; simpl. split.
  - intros Hrun. run_err.
    all: try match goal with Hx : extract_xcmp_channel_root _ _ = Ret (Ok _, _) |- _ =>
      apply extract_Ok in Hx as [? ->] end; run_err.
    all: try match goal with Hx : extract_xcmp_channel_root _ _ = Ret (Err _, _) |- _ =>
      apply extract_Err in Hx as (-> & ? & ->) end.
    all: try match goal with Hl : ?l !! 0 = Some _ |- _ =>
      apply list_singleton_of in Hl; [subst l|done] end.
    all: split; [done|].
    all: repeat match goal with
      | Hm : res_ok (verify_leaves_proof ?r (leaf_nodes ?l) ?q) = false |- _ =>
          apply (not_mmr_included r (q, l)) in Hm
      | Hm : verify_proof _ _ _ _ _ = false |- _ => eapply not_merkle_included in Hm; [|done..]
      end.
    all: try destruct (decode_header _) eqn:?.
    all: unfold_xcmp; unfold beefy_leaf_of; simpl.
    all: rewrite <- ?eq_None_not_Some.
    all: split_and?; try done; try (by eexists); try (by repeat esplit).
    by apply eq_None_not_Some.
  - intros [-> He]. destruct e as [|e]; [|destruct e]; simpl in He; try done; unfold_xcmp.
    all: xcmp_facts s; subst; by run_fwd.
Qed.

Lemma not_sized n i :
  ¬ sized n i ↔ uint_try index_bits n = None ∨
    (is_Some (uint_try index_bits n) ∧ uint_try index_bits i = None).
Proof.
  unfold sized. destruct (uint_try _ n), (uint_try _ i); split; try naive_solver.
  all: intros Hns; exfalso; apply Hns; by split; eexists.
Qed.

Lemma submit_xcmp_proof_panics origin p b s :
  submit_xcmp_proof origin p b s = Panic ↔ xcmp_panics s origin p b.
Proof.
  unfold submit_xcmp_proof. destruct p as [[p1 l1] st2 st3 [p4 l4]]; simpl. split.
  - intros Hrun. run_err.
    all: try match goal with Hx : extract_xcmp_channel_root _ _ = Panic |- _ =>
      by apply extract_no_Panic in Hx end.
    all: try match goal with Hx : extract_xcmp_channel_root _ _ = Ret (Ok _, _) |- _ =>
      apply extract_Ok in Hx as [? ->] end; run_err.
    all: try match goal with Hl : ?l !! 0 = Some _ |- _ =>
      apply list_singleton_of in Hl; [subst l|done] end.
    all: unfold xcmp_panics; rewrite ?not_sized; simpl.
    1: left. 2-3: right; left. 4-5: right; right.
    all: unfold_xcmp; unfold beefy_leaf_of, is_Some; simpl.
    1: by destruct l1; naive_solver.
    all: split; [by repeat (done || esplit)|eauto].
  - intros [(H1 & ?)|[(H1 & [H2|[H2 ?]]%not_sized)|(H1 & [H2|[H2 ?]]%not_sized)]];
      unfold_xcmp; xcmp_facts s; simpl in *; subst; by run_fwd.
Qed.
Lemma extract_no_Diverge pl (s : Storage) : extract_xcmp_channel_root pl s ≠ Diverge.
Proof.
  unfold extract_xcmp_channel_root. step.
  destruct (decode_header _); simpl; [|done]. by destruct (extract_xcmp_channel_merkle_root _).
Qed.

Lemma submit_xcmp_proof_terminates origin p b : terminates (submit_xcmp_proof origin p b).
Proof.
  unfold submit_xcmp_proof. destruct p as [[p1 l1] st2 st3 [p4 l4]]; simpl.
  pose proof extract_no_Diverge.
  repeat (apply terminates_bind; [auto with effects|intros ?]).
  all: auto with effects.
Qed.
End acceptance.
