(* ===== verification/StufferTrace.v ===== *)
(** * Histories of the message stuffer pallet

    The pallet as a state machine: a history is the sequence of hook, extrinsic and
    leaf calls made on one instance. The storage after a history is related to an
    abstract log (the roots reported block by block, the root updates, the events),
    and soundness of accepted proofs is proved for every reachable storage. *)
From S2P Require Import Prelude Words Sdk MessageStuffer TestDouble StufferSafety.

(** The last value logged for each key. *)
Definition latest {K V} `{Countable K} (log : list (K * V)) : gmap K V :=
  list_to_map (reverse log).

Lemma latest_snoc {K V} `{Countable K} (log : list (K * V)) k v :
  latest (log ++ [(k, v)]) = <[k:=v]> (latest log).
Proof. unfold latest. by rewrite reverse_app. Qed.

Lemma latest_is_Some {K V} `{Countable K} (log : list (K * V)) k :
  is_Some (latest log !! k) ↔ k ∈ log.*1.
Proof.
  unfold latest. rewrite list_elem_of_fmap. split.
  - intros [v Hv%elem_of_list_to_map_2]. exists (k, v). split; [done|].
    by apply elem_of_reverse.
  - intros ([k' v] & -> & Hin). destruct ((list_to_map (reverse log) : gmap K V) !! k') eqn:E; [by eexists|].
    apply not_elem_of_list_to_map in E. destruct E. apply list_elem_of_fmap.
    exists (k', v). split; [done|]. by apply elem_of_reverse.
Qed.

Section trace.
Context {Env : Type}.
Context {FS : FrameSystem} {LV : LeafVersionLib} {MP : XcmpMessageProvider Env}.
Context {CFG : Config Env} {WB : WeakBoundedVecLib} {ML : MmrLib} {BM : MerkleLib}.
Context {SC : ScaleLib}.
Implicit Types (s : Storage).

(** ** The state machine *)

Inductive Op : Type :=
| OpInitialize (env : Env) (n : BlockNumber)
| OpSubmitTestProof (origin : Origin) (mmr_proof : MmrProof)
    (leaves : list EncodableOpaqueLeaf) (channel_id : ChannelId)
| OpUpdateRoot (origin : Origin) (root : H256) (channel_id : ChannelId)
| OpSubmitXcmpProof (origin : Origin) (xcmp_proof : XcmpProof) (beefy_root_targeted : H256)
| OpLeafData (env : Env).

(** The storage a call leaves behind; one that panics or diverges is not executed. *)
Definition after {E A} (r : run (result E A * Storage)) (s : Storage) : Storage :=
  match r with Ret (_, s') => s' | _ => s end.

Definition apply_op (s : Storage) (op : Op) : Storage :=
  match op with
  | OpInitialize env n => after (on_initialize env n s) s
  | OpSubmitTestProof o pf ls c => after (submit_test_proof o pf ls c s) s
  | OpUpdateRoot o r c => after (update_root o r c s) s
  | OpSubmitXcmpProof o p b => after (submit_xcmp_proof o p b s) s
  | OpLeafData env => after (leaf_data env s) s
  end.

Definition run_ops (ops : list Op) : Storage := foldl apply_op genesis ops.

Lemma run_ops_app ops ops' : run_ops (ops ++ ops') = foldl apply_op (run_ops ops) ops'.
Proof. apply foldl_app. Qed.

(** ** The abstract log *)

(** The roots reported by the provider, with the block that asked. *)
Definition reported (op : Op) : option (H256 * BlockNumber) :=
  match op with
  | OpInitialize env n => Some (default H256_zero (BeefyRootProvider_get_root env), n)
  | _ => None
  end.

(** The signed updates of channel roots. *)
Definition updated (op : Op) : option (ChannelId * H256) :=
  match op with
  | OpUpdateRoot o r c => (λ _, (c, r)) <$> ensure_signed o
  | _ => None
  end.

(** The storage of a history, read off the log. *)
Record refines (s : Storage) (ops : list Op) : Prop := {
  refines_order : SeenBeefyRootsOrder s = (omap reported ops).*1;
  refines_seen : SeenBeefyRoots s = latest (omap reported ops);
  refines_roots : XcmpChannelRoots s = latest (omap updated ops)
}.

Lemma after_read_only {E A} (m : M Storage E A) s : read_only m → after (m s) s = s.
Proof.
  intros Hro. unfold after. destruct (m s) as [[r s']| |] eqn:E'; [|done..].
  by apply Hro in E'.
Qed.

Lemma submit_xcmp_proof_read_only o p b : read_only (submit_xcmp_proof o p b).
Proof.
  intros s [[]|e] s' Hrun.
  - by apply submit_xcmp_proof_accepted in Hrun as [-> _].
  - by apply submit_xcmp_proof_errors in Hrun as [-> _].
Qed.

(** [submit_test_proof] and [leaf_data] only deposit an event. *)
Lemma submit_test_proof_after o pf ls c s :
  ∃ evs, after (submit_test_proof o pf ls c s) s =
    mkStorage (XcmpChannelRoots s) (SeenBeefyRoots s) (SeenBeefyRootsOrder s) (Events s ++ evs).
Proof.
  unfold submit_test_proof. step. destruct (ensure_signed o); simpl.
  2: { exists []. rewrite app_nil_r. by destruct s. }
  destruct (_ !! c); simpl; [|exists []; rewrite app_nil_r; by destruct s].
  destruct (verify_leaves_proof _ _ _); simpl; [by eexists|].
  exists []. rewrite app_nil_r. by destruct s.
Qed.

Lemma leaf_data_after env s :
  ∃ evs, after (leaf_data env s) s =
    mkStorage (XcmpChannelRoots s) (SeenBeefyRoots s) (SeenBeefyRootsOrder s) (Events s ++ evs).
Proof.
  unfold leaf_data. step. destruct (get_xcmp_messages _ _ _); simpl; [by eexists|..].
  all: exists []; rewrite app_nil_r; by destruct s.
Qed.

Lemma apply_op_refines `{!WeakBoundedVecLaws} s ops op :
  refines s ops → refines (apply_op s op) (ops ++ [op]).
Proof.
  intros [Ho Hs Hr]. destruct op; simpl.
  - split; simpl; rewrite !omap_app; simpl; rewrite ?app_nil_r.
    + by rewrite force_from_unchecked, Ho, fmap_app.
    + by rewrite latest_snoc, Hs.
    + done.
  - destruct (submit_test_proof_after origin mmr_proof leaves channel_id s) as [evs ->].
    split; simpl; by rewrite omap_app, app_nil_r.
  - unfold update_root. split; simpl; rewrite !omap_app; simpl; step;
      destruct (ensure_signed origin); simpl; by rewrite ?app_nil_r, ?latest_snoc, ?Hr.
  - rewrite after_read_only by apply submit_xcmp_proof_read_only.
    split; by rewrite omap_app, app_nil_r.
  - destruct (leaf_data_after env s) as [evs ->]. split; simpl; by rewrite omap_app, app_nil_r.
Qed.

Lemma run_ops_refines `{!WeakBoundedVecLaws} ops : refines (run_ops ops) ops.
Proof.
  induction ops as [|op ops IH] using rev_ind; [by split|].
  rewrite run_ops_app. simpl. by apply apply_op_refines.
Qed.
(** ** What honest chains commit to *)

(** Every leaf that verifies under an MMR root satisfies [P]: no forged leaves. *)
Definition mmr_binds (root : H256) (P : OpaqueLeaf → Prop) : Prop :=
  ∀ nodes pf, verify_leaves_proof root nodes pf = Ok tt → ∀ l, Data l ∈ nodes → P l.

(** The same for a binary Merkle root. *)
Definition merkle_binds (root : H256) (P : bytes → Prop) : Prop :=
  ∀ pf n i v, verify_proof root pf n i (Leaf_Value v) = true → P v.

(** What was committed to under each kind of root: BEEFY leaves by the relay chain,
    parachain heads by a BEEFY leaf, channel MMR roots by a parachain header,
    messages by a channel MMR. *)
Record Ledger : Type := mkLedger {
  relay_leaf : H256 → OpaqueLeaf → Prop;
  para_head : H256 → ParaLeaf → Prop;
  channel : H256 → H256 → Prop;
  message : H256 → OpaqueLeaf → Prop
}.

(** The roots below a BEEFY root bind what the ledger says they commit to. *)
Record honest_root (L : Ledger) (b : H256) : Prop := {
  honest_relay : mmr_binds b (relay_leaf L b);
  honest_heads : ∀ l bl, relay_leaf L b l → decode_beefy_leaf (opaque_leaf_0 l) = Some bl →
    merkle_binds (leaf_extra bl)
      (λ v, ∃ pl, v = encode_para_leaf pl ∧ para_head L (leaf_extra bl) pl);
  honest_channels : ∀ hr pl cr, para_head L hr pl → channel_root_of pl = Some cr →
    merkle_binds cr (λ v, ∃ r, v = h256_bytes r ∧ channel L cr r);
  honest_messages : ∀ cr r, channel L cr r → mmr_binds r (message L r)
}.

(** A message leaf with its chain of custody from a BEEFY root. *)
Definition delivered (L : Ledger) (b : H256) (m : OpaqueLeaf) : Prop :=
  ∃ l bl pl cr r, relay_leaf L b l ∧ decode_beefy_leaf (opaque_leaf_0 l) = Some bl ∧
    para_head L (leaf_extra bl) pl ∧ channel_root_of pl = Some cr ∧
    channel L cr r ∧ message L r m.

Lemma leaf_node_in l leaves : l ∈ leaves → Data (into_opaque_leaf l) ∈ leaf_nodes leaves.
Proof. intros Hl. unfold leaf_nodes. apply list_elem_of_fmap. eauto. Qed.

Lemma valid_delivered `{!ScaleLaws} L b p l :
  honest_root L b → xcmp_proof_valid b p → l ∈ (stage_4 p).2 →
  delivered L b (into_opaque_leaf l).
Proof.
  intros [Hr Hh Hc Hm] [H1 (l1 & bl & Hl1 & Hbl & Hroot) H2 Hcr H3 H4] Hl.
  assert (relay_leaf L b (into_opaque_leaf l1)) as Hrl.
  { eapply Hr; [exact H1|]. apply leaf_node_in. rewrite Hl1. set_solver. }
  destruct H2 as (n2 & i2 & _ & _ & H2). rewrite <- Hroot in H2.
  destruct (Hh _ _ Hrl Hbl _ _ _ _ H2) as (pl & Hpl%(inj encode_para_leaf) & Hhead).
  subst pl. destruct H3 as (n3 & i3 & _ & _ & H3).
  destruct (Hc _ _ _ Hhead Hcr _ _ _ _ H3) as (r & Hlr%(inj h256_bytes) & Hch). subst r.
  exists (into_opaque_leaf l1), bl, (pmp_leaf (stage_2 p)), (root (stage_3 p)),
    (leaf (stage_3 p)).
  split_and!; [done..|]. eapply (Hm _ _ Hch); [exact H4|]. by apply leaf_node_in.
Qed.

(** ** Properties *)

(** [C1] Complete behaviour of [submit_xcmp_proof]: it accepts exactly the
    submissions of a signed origin whose BEEFY root was seen and whose four tiers
    verify and hang together, and then changes nothing; each error is returned
    exactly when the check it names is the first to fail, and changes nothing; it
    panics exactly when stage 1 verifies without a leaf or a leaf counter of stage
    2 or 3 does not fit the width of the Merkle library; it always terminates. *)
Theorem submit_xcmp_proof_spec origin p b s :
  (∀ s', submit_xcmp_proof origin p b s = Ret (Ok tt, s') ↔
     s' = s ∧ is_Some (ensure_signed origin) ∧ is_Some (SeenBeefyRoots s !! b) ∧
     xcmp_proof_valid b p) ∧
  (∀ e s', submit_xcmp_proof origin p b s = Ret (Err e, s') ↔
     s' = s ∧ xcmp_error s origin p b e) ∧
  (submit_xcmp_proof origin p b s = Panic ↔ xcmp_panics s origin p b) ∧
  submit_xcmp_proof origin p b s ≠ Diverge.
Proof.
  split_and!; [apply submit_xcmp_proof_accepted|apply submit_xcmp_proof_errors
    |apply submit_xcmp_proof_panics|apply submit_xcmp_proof_terminates].
Qed.

(** [C2] Soundness of the four-tier proof: in the storage after any history, if
    [submit_xcmp_proof] accepts a proof then the BEEFY root it targets was reported
    to the pallet in some block, and every message leaf it carries was committed to
    by a channel MMR that a parachain header commits to, that the relay chain
    commits to under that root; assuming the reported roots are honest and the
    verifiers accept no forged leaves. *)
Theorem xcmp_soundness `{!WeakBoundedVecLaws} `{!ScaleLaws} L ops origin p b s' :
  (∀ r, r ∈ (omap reported ops).*1 → honest_root L r) →
  submit_xcmp_proof origin p b (run_ops ops) = Ret (Ok tt, s') →
  b ∈ (omap reported ops).*1 ∧
  ∀ l, l ∈ (stage_4 p).2 → delivered L b (into_opaque_leaf l).
Proof.
  intros Hhon (_ & _ & Hseen & Hv)%submit_xcmp_proof_accepted.
  rewrite (refines_seen _ _ (run_ops_refines ops)), latest_is_Some in Hseen.
  split; [done|]. intros l Hl. eapply valid_delivered; eauto.
Qed.

(** Refinement: after any history, the order of seen roots is the sequence of
    roots the provider reported (zero when it had none), the map of seen roots
    holds for each the last block that reported it, the channel roots are the last
    signed updates, and a root is in the map exactly when it is in the order. *)
Theorem stuffer_refines_log `{!WeakBoundedVecLaws} ops :
  refines (run_ops ops) ops ∧
  ∀ r, is_Some (SeenBeefyRoots (run_ops ops) !! r) ↔ r ∈ SeenBeefyRootsOrder (run_ops ops).
Proof.
  destruct (run_ops_refines ops) as [Ho Hs Hr]. split; [by split|].
  intros r. by rewrite Hs, Ho, latest_is_Some.
Qed.

(** [C17] Acceptance is permanent: no later call, block or root update makes a proof
    that was accepted unacceptable, so a relayer may submit late, and nothing stops
    the same proof from being accepted again. *)
Theorem acceptance_permanent `{!WeakBoundedVecLaws} ops ops' origin p b s' :
  submit_xcmp_proof origin p b (run_ops ops) = Ret (Ok tt, s') →
  submit_xcmp_proof origin p b (run_ops (ops ++ ops')) = Ret (Ok tt, run_ops (ops ++ ops')).
Proof.
  intros (_ & Ho & Hseen & Hv)%submit_xcmp_proof_accepted.
  apply submit_xcmp_proof_accepted. split_and!; [done..| |done].
  rewrite (refines_seen _ _ (run_ops_refines _)), latest_is_Some in Hseen.
  rewrite (refines_seen _ _ (run_ops_refines _)), latest_is_Some.
  rewrite omap_app, fmap_app. set_solver.
Qed.

(** The bound on kept roots is never enforced: after [k] blocks the order holds
    [k] roots, whatever [MaxBeefyRootsKept] is, and none is ever dropped from it. *)
Theorem seen_roots_unbounded `{!WeakBoundedVecLaws} ops ops' :
  length (SeenBeefyRootsOrder (run_ops ops)) = length (omap reported ops) ∧
  SeenBeefyRootsOrder (run_ops ops) `prefix_of` SeenBeefyRootsOrder (run_ops (ops ++ ops')).
Proof.
  rewrite !(refines_order _ _ (run_ops_refines _)). split; [by rewrite length_fmap|].
  rewrite omap_app, fmap_app. by apply prefix_app_r.
Qed.

(** A proof whose stage 3 claims another number of leaves. *)
Definition with_num_leaves (p : XcmpProof) (n : u64) : XcmpProof :=
  mkXcmpProof _ (stage_1 p) (stage_2 p)
    (mkChannelMerkleProof (root (stage_3 p)) (proof (stage_3 p)) n (leaf_index (stage_3 p))
       (leaf (stage_3 p)))
    (stage_4 p).

(** [C22] A signed caller can make the runtime panic: take any proof that is
    accepted and raise the leaf count of stage 3 beyond the width of the Merkle
    library; [try_into().unwrap()] then panics instead of returning an error. *)
Theorem oversized_count_panics origin p b s s' (n : u64) :
  submit_xcmp_proof origin p b s = Ret (Ok tt, s') → (2 ^ Zpos index_bits <= n)%Z →
  submit_xcmp_proof origin (with_num_leaves p n) b s = Panic.
Proof.
  intros (_ & Ho & Hseen & [H1 Hl H2 Hr H3 H4])%submit_xcmp_proof_accepted Hn.
  apply submit_xcmp_proof_panics. right; right. split.
  - by repeat split.
  - intros [Hs _]. simpl in Hs.
    destruct (uint_try_None index_bits n) as [_ Hnone]. rewrite Hnone in Hs by lia.
    by destruct Hs.
Qed.

(** The event that [submit_test_proof] deposits. *)
Definition with_event (s : Storage) (e : Event) : Storage :=
  mkStorage (XcmpChannelRoots s) (SeenBeefyRoots s) (SeenBeefyRootsOrder s) (Events s ++ [e]).

(** Complete behaviour of [submit_test_proof]: accepted exactly for a signed
    origin, a channel with a root and leaves that verify against it, when it
    deposits one [XcmpMessagesAccepted] event with that root; otherwise the error
    names the first failing check and nothing changes. *)
Theorem submit_test_proof_spec origin pf leaves c s :
  submit_test_proof origin pf leaves c s =
  match ensure_signed origin, XcmpChannelRoots s !! c with
  | None, _ => Ret (Err BadOrigin, s)
  | Some _, None => Ret (Err (Module XcmpNoChannelRootForChannelId), s)
  | Some _, Some r =>
      if res_ok (verify_leaves_proof r (leaf_nodes leaves) pf)
      then Ret (Ok tt, with_event s (XcmpMessagesAccepted r c))
      else Ret (Err (Module XcmpProofNotValid), s)
  end.
Proof.
  unfold submit_test_proof. step. destruct (ensure_signed origin); [|done]. simpl.
  destruct (_ !! c); [|done]. simpl. by destruct (verify_leaves_proof _ _ _).
Qed.

(** [C23] [update_root] trusts every signed caller: whatever [RelayerOrigin] says of
    it, it can set the root of any channel, and from then on leaves that verify
    against the root it chose are accepted on that channel, while no other channel
    and no seen root changes. *)
Theorem update_root_unrestricted origin origin' r c pf leaves s :
  is_Some (ensure_signed origin) → is_Some (ensure_signed origin') →
  mmr_included r (pf, leaves) →
  ∃ s1, update_root origin r c s = Ret (Ok tt, s1) ∧
    submit_test_proof origin' pf leaves c s1 =
      Ret (Ok tt, with_event s1 (XcmpMessagesAccepted r c)) ∧
    SeenBeefyRoots s1 = SeenBeefyRoots s ∧
    ∀ c', c' ≠ c → XcmpChannelRoots s1 !! c' = XcmpChannelRoots s !! c'.
Proof.
  intros [a Ha] [a' Ha'] Hm. unfold mmr_included in Hm; simpl in Hm.
  eexists. split_and!.
  - unfold update_root. by run_fwd.
  - unfold submit_test_proof. step. rewrite Ha'. simpl.
    rewrite lookup_insert_eq. simpl. by rewrite Hm.
  - done.
  - intros c' Hc. simpl. by rewrite lookup_insert_ne.
Qed.

(** The leaf handed to the channel MMR holds the messages the provider returns
    for the configured parachain at the parent block, with that block's number and
    hash; making it deposits one [XcmpMessageSent] event with the hash of the
    messages and changes nothing else; it fails to return exactly when the
    provider does. *)
Theorem leaf_data_spec env s :
  let '(number, hash) := ParentNumberAndHash_leaf_data env in
  leaf_data env s =
  match get_xcmp_messages env hash ParaIdentifier with
  | Ret msgs => Ret (Ok (mkMmrLeaf msgs LeafVersion (number, hash)),
      with_event s (XcmpMessageSent (Hashing_hash_of msgs) number))
  | Panic => Panic
  | Diverge => Diverge
  end.
Proof.
  unfold leaf_data. destruct (ParentNumberAndHash_leaf_data env) as [n h] eqn:E.
  step. by destruct (get_xcmp_messages _ _ _).
Qed.
End trace.

(** ** Witnesses *)

(** What the table of the concrete SDK commits to. *)
Definition td_ledger : Ledger := {|
  relay_leaf := λ r l, opaque_leaf_0 l ∈ td_committed r;
  para_head := λ r pl, r = td_heads_root ∧ encode_para_leaf pl ∈ td_committed r;
  channel := λ cr r, cr = td_channel_root ∧ h256_bytes r ∈ td_committed cr;
  message := λ r l, opaque_leaf_0 l ∈ td_committed r
|}.

Definition td_ops : list (Op (Env:=td_env)) := [OpInitialize (Some td_beefy_root, []) #5].

Lemma td_mmr_binds r : mmr_binds r (λ l, opaque_leaf_0 l ∈ td_committed r).
Proof.
  intros nodes pf Hv l Hl. simpl in Hv.
  destruct (forallb _ nodes) eqn:Hf; [|by rewrite andb_false_r in Hv].
  rewrite forallb_forall in Hf. apply list_elem_of_In, Hf in Hl. simpl in Hl.
  by apply bool_decide_eq_true_1 in Hl.
Qed.

Lemma td_merkle_binds r : merkle_binds r (λ v, v ∈ td_committed r).
Proof.
  intros pf n i v Hv. simpl in Hv. apply bool_decide_eq_true_1 in Hv.
  by eapply list_elem_of_lookup_2.
Qed.

Lemma td_honest : honest_root td_ledger td_beefy_root.
Proof.
  split.
  - apply td_mmr_binds.
  - intros l bl Hl Hbl pf n i v Hv%td_merkle_binds.
    change (td_committed td_beefy_root) with [td_beefy_leaf] in Hl.
    apply list_elem_of_singleton in Hl. rewrite Hl in Hbl. injection Hbl as <-.
    exists td_para_leaf. change (td_committed _) with [encode_para_leaf td_para_leaf] in Hv.
    apply list_elem_of_singleton in Hv. split; [done|]. split; [reflexivity|].
    change (td_committed _) with [encode_para_leaf td_para_leaf]. set_solver.
  - intros hr pl cr [-> Hpl] Hcr pf n i v Hv%td_merkle_binds.
    change (td_committed _) with [encode_para_leaf td_para_leaf] in Hpl.
    apply list_elem_of_singleton, (inj encode_para_leaf) in Hpl as ->.
    injection Hcr as <-. exists td_channel_mmr_root.
    change (td_committed _) with [h256_bytes td_channel_mmr_root] in Hv.
    apply list_elem_of_singleton in Hv. split; [done|]. split; [reflexivity|].
    change (td_committed _) with [h256_bytes td_channel_mmr_root]. set_solver.
  - intros cr r _. apply td_mmr_binds.
Qed.

Lemma xcmp_soundness_witness :
  td_beefy_root ∈ (omap reported td_ops).*1 ∧
  ∀ l, l ∈ (stage_4 td_xcmp_proof).2 → delivered td_ledger td_beefy_root (into_opaque_leaf l).
Proof.
  apply (xcmp_soundness td_ledger td_ops td_signed td_xcmp_proof td_beefy_root td_storage).
  - intros r Hr. apply list_elem_of_singleton in Hr. rewrite Hr. apply td_honest.
  - reflexivity.
Defined.

Lemma stuffer_refines_log_witness :
  refines (run_ops td_ops) td_ops ∧
  ∀ r, is_Some (SeenBeefyRoots (run_ops td_ops) !! r) ↔ r ∈ SeenBeefyRootsOrder (run_ops td_ops).
Proof. apply (stuffer_refines_log td_ops). Defined.

Lemma acceptance_permanent_witness :
  submit_xcmp_proof td_signed td_xcmp_proof td_beefy_root (run_ops (td_ops ++ td_ops)) =
    Ret (Ok tt, run_ops (td_ops ++ td_ops)).
Proof.
  apply (acceptance_permanent td_ops td_ops td_signed td_xcmp_proof td_beefy_root td_storage).
  reflexivity.
Defined.

(** Three blocks, with a bound of two. *)
Lemma seen_roots_unbounded_witness :
  length (SeenBeefyRootsOrder (run_ops (td_ops ++ td_ops ++ td_ops))) = 3 ∧
  uval (MaxBeefyRootsKept (Env:=td_env)) = 2%Z.
Proof.
  split; [|reflexivity].
  apply (seen_roots_unbounded (td_ops ++ td_ops ++ td_ops) []).
Defined.

Lemma oversized_count_panics_witness :
  submit_xcmp_proof td_signed (with_num_leaves td_xcmp_proof #(2 ^ 32)) td_beefy_root td_storage
    = Panic.
Proof.
  apply (oversized_count_panics td_signed td_xcmp_proof td_beefy_root td_storage td_storage);
    [reflexivity|vm_compute; discriminate].
Defined.

Lemma update_root_unrestricted_witness :
  RelayerOrigin td_signed = false ∧
  ∃ s1, update_root td_signed td_channel_mmr_root #0 td_storage = Ret (Ok tt, s1) ∧
    submit_test_proof td_signed td_mmr_proof [td_message_leaf] #0 s1 =
      Ret (Ok tt, with_event s1 (XcmpMessagesAccepted td_channel_mmr_root #0)) ∧
    SeenBeefyRoots s1 = SeenBeefyRoots td_storage ∧
    ∀ c', c' ≠ #0 → XcmpChannelRoots s1 !! c' = XcmpChannelRoots td_storage !! c'.
Proof.
  split; [reflexivity|].
  apply (update_root_unrestricted td_signed td_signed td_channel_mmr_root #0 td_mmr_proof
           [td_message_leaf]);
    [by eexists|by eexists|reflexivity].
Defined.
