(* ===== verification/RuntimeXcmp.v ===== *)
(** * The XCMP part of the runtime

    [runtime/src/lib.rs]: the providers the two pallet instances are configured
    with (outbound messages, channel roots, channel Merkle proofs), the
    configurations themselves, and the runtime APIs that expose MMR roots and
    proofs to the relayer. *)
From S2P Require Import Prelude Words Sdk MessageStuffer TestDouble StufferSafety StufferTrace.

(** ** The state the providers read *)

(** The two MMR instances of [construct_runtime!]. *)
Inductive MmrInstance : Set := ParaAMmr | ParaBMmr.

(** [pallet_mmr::Pallet<Runtime, I>], for both instances, as far as the runtime
    calls it, and the error values it names. *)
Class MmrPallet {ML : MmrLib} (Chain : Type) := {
  MmrLeafData : MmrInstance → Type;
  GetRoot : MmrError;
  GenerateProof : MmrError;
  Verify : MmrError;
  mmr_root : MmrInstance → Chain → H256;
  mmr_root_hash : MmrInstance → Chain → H256;
  mmr_leaves : MmrInstance → Chain → u64;
  mmr_generate_proof : ∀ i, Chain → list u32 → option u32 →
    result MmrError (list (MmrLeafData i) * MmrProof);
  mmr_verify_leaves : ∀ i, Chain → list (MmrLeafData i) → MmrProof → result MmrError ();
  from_leaf : ∀ i, MmrLeafData i → EncodableOpaqueLeaf;
  try_decode : ∀ i, OpaqueLeaf → option (MmrLeafData i);
}.

(** [mmr_root()] returns the stored root hash. *)
Class MmrPalletLaws {ML : MmrLib} (Chain : Type) {MMR : MmrPallet Chain} : Prop := {
  mmr_root_is_hash : ∀ i (c : Chain), mmr_root i c = mmr_root_hash i c;
}.

(** [generate_proof] for the current best block: one leaf per block asked for, with a
    proof that verifies them against the current root, which [verify_leaves] accepts too;
    a leaf can be decoded again from its opaque form. *)
Class MmrGenerateLaws {ML : MmrLib} (Chain : Type) {MMR : MmrPallet Chain} : Prop := {
  mmr_generate_correct : ∀ i (c : Chain) blocks leaves pr,
    mmr_generate_proof i c blocks None = Ok (leaves, pr) →
    length leaves = length blocks ∧
    verify_leaves_proof (mmr_root_hash i c)
      ((λ l, Data (into_opaque_leaf (from_leaf i l))) <$> leaves) pr = Ok tt ∧
    mmr_verify_leaves i c leaves pr = Ok tt;
  leaf_decodes : ∀ i l, try_decode i (into_opaque_leaf (from_leaf i l)) = Some l;
}.

(** What the providers read of the other pallets' storage: the outbound message
    fragments of the XCMP queue by destination and index, the BEEFY root known to
    [ParachainSystem], and the parent block. *)
Record ChainState : Type := mkChainState {
  OutboundXcmpMessages : gmap (u32 * u16) bytes;
  ParachainSystem_beefy_root : option H256;
  parent_block : u32 * H256
}.

Section messages.
(** Whether the build checks arithmetic overflow (a debug build does). *)
Context (overflow_checks : bool).

(** [counter += 1] on a [u16]; [None] is the overflow panic. *)
Definition incr (counter : u16) : option u16 :=
  if overflow_checks then checked_add counter #1 else Some (wrapping_add counter #1).

(** The [while let] loop of [get_xcmp_messages], stopped after [fuel] lookups. *)
Fixpoint collect_fragments (fuel : nat) (outbound : gmap (u32 * u16) bytes) (para_id : u32)
    (counter : u16) (msg_buffer : bytes) : option (run bytes) :=
  match fuel with
  | O => None
  | S fuel' =>
      match outbound !! (para_id, counter) with
      | None => Some (Ret msg_buffer)
      | Some buffer =>
          match incr counter with
          | None => Some Panic
          | Some counter' =>
              collect_fragments fuel' outbound para_id counter' (msg_buffer ++ buffer)
          end
      end
  end.

(** One more lookup than there are counters: by then the loop has left, or it will
    go round for ever. *)
Definition counter_fuel : nat := S (Z.to_nat (2 ^ 16)).

(** [XcmpDataProvider::get_xcmp_messages]; the block hash is not used. *)
Definition runtime_xcmp_messages (chain : ChainState) (block_hash : H256) (para_id : u32)
    : run bytes :=
  match collect_fragments counter_fuel (OutboundXcmpMessages chain) para_id #0
          [ #1; #2; #3] with
  | Some r => r
  | None => Diverge
  end.

(** *** What the loop computes *)

Definition fragment (outbound : gmap (u32 * u16) bytes) (para_id : u32) (i : nat) : bytes :=
  default [] (outbound !! (para_id, #(Z.of_nat i))).

Lemma incr_nat i :
  (S i < Z.to_nat (2 ^ 16))%nat → incr #(Z.of_nat i) = Some #(Z.of_nat (S i)).
Proof.
  intros Hi. unfold incr. assert (uval (#(Z.of_nat i) : u16) = Z.of_nat i) as Hv
    by (apply uint_wrap_small; lia).
  assert (uval (#1 : u16) = 1%Z) as H1 by reflexivity.
  destruct overflow_checks.
  - apply checked_add_Some. rewrite Hv, H1, uint_wrap_small; lia.
  - f_equal. apply uint_eq. rewrite wrapping_add_spec, Hv, H1, uint_wrap_small by lia.
    case_decide; lia.
Qed.

Lemma collect_fragments_found outbound para_id k i fuel buf :
  (k < Z.to_nat (2 ^ 16))%nat → (i <= k)%nat → (k - i < fuel)%nat →
  (∀ j, (i <= j < k)%nat → is_Some (outbound !! (para_id, #(Z.of_nat j)))) →
  outbound !! (para_id, #(Z.of_nat k)) = None →
  collect_fragments fuel outbound para_id #(Z.of_nat i) buf =
    Some (Ret (buf ++ mjoin (fragment outbound para_id <$> seq i (k - i)))).
Proof.
  intros Hk. revert i buf. induction fuel as [|fuel IH]; intros i buf Hi Hfuel Hpres Habs; [lia|].
  simpl. destruct (decide (i = k)) as [->|Hne].
  - rewrite Habs, Nat.sub_diag. simpl. by rewrite app_nil_r.
  - destruct (Hpres i) as [b Hb]; [lia|]. rewrite Hb, incr_nat by lia.
    rewrite IH; [|lia|lia|intros j Hj; apply Hpres; lia|done].
    replace (k - i)%nat with (S (k - S i)) by lia. simpl. do 2 f_equal.
    unfold fragment at 2. rewrite Hb. simpl. by rewrite <- app_assoc.
Qed.
End messages.

#[global] Arguments incr : simpl never.
#[global] Arguments counter_fuel : simpl never.

Lemma collect_fragments_wraps outbound para_id fuel counter buf :
  (∀ c : u16, is_Some (outbound !! (para_id, c))) →
  collect_fragments false fuel outbound para_id counter buf = None.
Proof.
  intros Hall. revert counter buf.
  induction fuel as [|fuel IH]; intros counter buf; [done|]. simpl.
  destruct (Hall counter) as [b ->]. apply IH.
Qed.

Lemma collect_fragments_panics outbound para_id fuel i buf :
  (∀ c : u16, is_Some (outbound !! (para_id, c))) →
  (i < Z.to_nat (2 ^ 16))%nat → (Z.to_nat (2 ^ 16) - i <= fuel)%nat →
  collect_fragments true fuel outbound para_id #(Z.of_nat i) buf = Some Panic.
Proof.
  intros Hall. revert i buf. induction fuel as [|fuel IH]; intros i buf Hi Hf; [lia|].
  simpl. destruct (Hall #(Z.of_nat i)) as [b ->].
  destruct (decide (S i < Z.to_nat (2 ^ 16))%nat) as [Hs|Hs].
  - rewrite incr_nat by done. apply IH; lia.
  - assert (incr true #(Z.of_nat i) = None) as ->; [|done].
    apply checked_add_None. rewrite uint_wrap_small by lia.
    assert (uval (#1 : u16) = 1%Z) as -> by reflexivity. lia.
Qed.

Lemma runtime_xcmp_messages_found overflow_checks chain hash para_id k :
  (k < Z.to_nat (2 ^ 16))%nat →
  (∀ j, (j < k)%nat → is_Some (OutboundXcmpMessages chain !! (para_id, #(Z.of_nat j)))) →
  OutboundXcmpMessages chain !! (para_id, #(Z.of_nat k)) = None →
  runtime_xcmp_messages overflow_checks chain hash para_id =
    Ret ([ #1; #2; #3] ++ mjoin (fragment (OutboundXcmpMessages chain) para_id <$> seq 0 k)).
Proof.
  intros Hk Hpres Habs. unfold runtime_xcmp_messages.
  rewrite (collect_fragments_found overflow_checks _ _ k 0 counter_fuel);
    [by rewrite Nat.sub_0_r|done|lia|unfold counter_fuel; lia|auto with lia|done].
Qed.

(** [C19] When all [2^16] indices of a parachain are taken the loop does not end: a
    release build never returns, however long it runs, because the counter wraps
    round; a build with overflow checks panics. *)
Theorem xcmp_messages_full_queue chain hash para_id :
  (∀ c : u16, is_Some (OutboundXcmpMessages chain !! (para_id, c))) →
  runtime_xcmp_messages true chain hash para_id = Panic ∧
  runtime_xcmp_messages false chain hash para_id = Diverge ∧
  ∀ fuel counter buf,
    collect_fragments false fuel (OutboundXcmpMessages chain) para_id counter buf = None.
Proof.
  intros Hall. unfold runtime_xcmp_messages. split_and!.
  - by rewrite (collect_fragments_panics _ _ counter_fuel 0) by (done || unfold counter_fuel; lia).
  - by rewrite collect_fragments_wraps.
  - intros. by apply collect_fragments_wraps.
Qed.

Section runtime.
Context {FS : FrameSystem} {LV : LeafVersionLib} {WB : WeakBoundedVecLib} {ML : MmrLib}.
Context {BM : MerkleLib} {SC : ScaleLib} {MMR : MmrPallet ChainState}.
Context (overflow_checks : bool).
(** [frame_system]'s hashing of messages and database weights. *)
Context (hash_of : bytes → H256) (RuntimeWeight : Type) (RocksDbWeight_writes : Z → RuntimeWeight).
(** [EnsureRoot]. *)
Context (EnsureRoot : Origin → bool).

(** ** Pallet configurations *)

#[export] Instance runtime_provider : XcmpMessageProvider ChainState := {|
  XcmpMessages := bytes;
  get_xcmp_messages := runtime_xcmp_messages overflow_checks
|}.

Definition runtime_LeafVersion : MmrLeafVersion := MmrLeafVersion_new #0 #0.
Definition ParaAIdentifier : u32 := #1.
Definition ParaBIdentifier : u32 := #2.
Definition runtime_MaxBeefyRootsKept : u32 := #64000.

(** [impl pallet_xcmp_message_stuffer::Config<ParaAChannel> for Runtime]. *)
Definition ParaAChannel : Config ChainState := {|
  ParaIdentifier := ParaAIdentifier;
  LeafVersion := runtime_LeafVersion;
  RelayerOrigin := EnsureRoot;
  BeefyRootProvider_get_root := ParachainSystem_beefy_root;
  MaxBeefyRootsKept := runtime_MaxBeefyRootsKept;
  BlockNumber := u32;
  Weight := RuntimeWeight;
  DbWeight_writes := RocksDbWeight_writes;
  Hashing_hash_of := hash_of;
  ParentNumberAndHash_leaf_data := parent_block
|}.

(** [impl pallet_xcmp_message_stuffer::Config<ParaBChannel> for Runtime]. *)
Definition ParaBChannel : Config ChainState := {|
  ParaIdentifier := ParaBIdentifier;
  LeafVersion := runtime_LeafVersion;
  RelayerOrigin := EnsureRoot;
  BeefyRootProvider_get_root := ParachainSystem_beefy_root;
  MaxBeefyRootsKept := runtime_MaxBeefyRootsKept;
  BlockNumber := u32;
  Weight := RuntimeWeight;
  DbWeight_writes := RocksDbWeight_writes;
  Hashing_hash_of := hash_of;
  ParentNumberAndHash_leaf_data := parent_block
|}.

(** The configuration of the pallet instance that feeds each MMR
    ([pallet_mmr::Config::LeafData]). *)
Definition channel_config (i : MmrInstance) : Config ChainState :=
  match i with ParaAMmr => ParaAChannel | ParaBMmr => ParaBChannel end.

(** Both instances count blocks in [u32]. *)
Definition channel_number (i : MmrInstance) (n : u32)
    : @BlockNumber _ _ _ _ (channel_config i) :=
  match i with ParaAMmr => n | ParaBMmr => n end.

(** ** Channel roots and proofs *)

(** [XcmpChannelRootCollector::collect_roots]. *)
Definition collect_roots (chain : ChainState) : H256 :=
  let xcmp_channel_mmr_roots := [mmr_root_hash ParaAMmr chain; mmr_root_hash ParaBMmr chain] in
  merkle_root (h256_bytes <$> xcmp_channel_mmr_roots).

(** [ChannelMerkleProofGen::gen_merkle_proof]; the channel is not used. *)
Definition gen_merkle_proof (_channel_id : u64) (chain : ChainState)
    : run (option ChannelMerkleProof) :=
  let index_to_prove := #0 in
  merkle_proof ← merkle_proof h256_bytes
    [mmr_root_hash ParaAMmr chain; mmr_root_hash ParaBMmr chain] index_to_prove;
  let result_proof := {|
    root := mp_root merkle_proof;
    proof := mp_proof merkle_proof;
    num_leaves := #(mp_number_of_leaves merkle_proof);
    leaf_index := #(mp_leaf_index merkle_proof);
    leaf := mp_leaf merkle_proof
  |} in
  mret (Some result_proof).

(** ** Runtime APIs *)

(** [MessagingApi::get_current_beefy_root]. *)
Definition get_current_beefy_root (chain : ChainState) : H256 :=
  default (H256_repeat #1) (ParachainSystem_beefy_root chain).

(** [ChannelMerkleApi::get_xcmp_channels_proof]. *)
Definition get_xcmp_channels_proof (channel_id : u64) (chain : ChainState)
    : run (option ChannelMerkleProof) := gen_merkle_proof channel_id chain.

(** [MmrApi::mmr_root]. *)
Definition api_mmr_root (mmr_id : u64) (chain : ChainState) : result MmrError H256 :=
  match uval mmr_id with
  | 0%Z => Ok (mmr_root ParaAMmr chain)
  | 1%Z => Ok (mmr_root ParaBMmr chain)
  | _ => Err GetRoot
  end.

(** [MmrApi::mmr_leaf_count]. *)
Definition api_mmr_leaf_count (chain : ChainState) : result MmrError u64 :=
  Ok (mmr_leaves ParaAMmr chain).

(** The closure both arms of [generate_proof] map over the result. *)
Definition opaque_proof (i : MmrInstance)
    (r : result MmrError (list (MmrLeafData i) * MmrProof))
    : result MmrError (list EncodableOpaqueLeaf * MmrProof) :=
  match r with
  | Ok (leaves, proof) => Ok (from_leaf i <$> leaves, proof)
  | Err e => Err e
  end.

(** [MmrApi::generate_proof]. *)
Definition api_generate_proof (block_numbers : list u32) (best_known_block_number : option u32)
    (mmr_id : u64) (chain : ChainState)
    : result MmrError (list EncodableOpaqueLeaf * MmrProof) :=
  match uval mmr_id with
  | 0%Z => opaque_proof ParaAMmr
      (mmr_generate_proof ParaAMmr chain block_numbers best_known_block_number)
  | 1%Z => opaque_proof ParaBMmr
      (mmr_generate_proof ParaBMmr chain block_numbers best_known_block_number)
  | _ => Err GenerateProof
  end.

(** [MmrApi::verify_proof]: decodes every leaf as a leaf of channel A. *)
Definition api_verify_proof (leaves : list EncodableOpaqueLeaf) (proof : MmrProof)
    (chain : ChainState) : result MmrError () :=
  match mapM (λ leaf, try_decode ParaAMmr (into_opaque_leaf leaf)) leaves with
  | None => Err Verify
  | Some leaves => mmr_verify_leaves ParaAMmr chain leaves proof
  end.

(** [MmrApi::verify_proof_stateless]. *)
Definition api_verify_proof_stateless (root : H256) (leaves : list EncodableOpaqueLeaf)
    (proof : MmrProof) : result MmrError () :=
  let nodes := (λ leaf, Data (into_opaque_leaf leaf)) <$> leaves in
  verify_leaves_proof root nodes proof.

(** ** Properties *)

Lemma channel_proof_served `{!MerkleLaws} `{!MmrPalletLaws ChainState} channel_id chain :
  (index_bits <= 64)%positive →
  ∃ c, get_xcmp_channels_proof channel_id chain = Ret (Some c) ∧
    root c = collect_roots chain ∧ api_mmr_root #0 chain = Ok (leaf c) ∧
    merkle_included (root c) (proof c) (num_leaves c) (leaf_index c) (h256_bytes (leaf c)).
Proof.
  intros Hbits. unfold get_xcmp_channels_proof, gen_merkle_proof.
  set (roots := [mmr_root_hash ParaAMmr chain; mmr_root_hash ParaBMmr chain]).
  destruct (merkle_proof_correct _ h256_bytes roots #0 (mmr_root_hash ParaAMmr chain))
    as (path & n & -> & Hv).
  { by rewrite uint_wrap_small by lia. }
  eexists. split; [reflexivity|]. simpl. split_and!; [done| |].
  - unfold api_mmr_root. simpl. by rewrite mmr_root_is_hash.
  - exists n, #0. split_and!; [by apply (widen_try 64 n)|by apply (widen_try 64 #0)|done].
Qed.

(** [C11] Completeness of stage 3: for every channel asked for, the runtime serves a
    proof of the MMR root of channel A under the root it writes into the block's
    digest, and that proof passes the checks of [submit_xcmp_proof]'s stage 3. *)
Theorem channel_proof_complete `{!MerkleLaws} `{!MmrPalletLaws ChainState} channel_id chain :
  (index_bits <= 64)%positive →
  ∃ c, get_xcmp_channels_proof channel_id chain = Ret (Some c) ∧
    root c = collect_roots chain ∧ api_mmr_root #0 chain = Ok (leaf c) ∧
    merkle_included (root c) (proof c) (num_leaves c) (leaf_index c) (h256_bytes (leaf c)).
Proof. apply channel_proof_served. Qed.

(** The channel that an MMR id stands for. *)
Definition mmr_channel (mmr_id : u64) : option MmrInstance :=
  if decide (mmr_id = #0) then Some ParaAMmr else
  if decide (mmr_id = #1) then Some ParaBMmr else None.

Lemma api_mmr_channel (mmr_id : u64) blocks best chain :
  api_mmr_root mmr_id chain =
    match mmr_channel mmr_id with Some i => Ok (mmr_root i chain) | None => Err GetRoot end ∧
  api_generate_proof blocks best mmr_id chain =
    match mmr_channel mmr_id with
    | Some i => opaque_proof i (mmr_generate_proof i chain blocks best)
    | None => Err GenerateProof
    end.
Proof.
  unfold api_mmr_root, api_generate_proof, mmr_channel.
  destruct (decide (mmr_id = #0)) as [->|H0]; [done|].
  destruct (decide (mmr_id = #1)) as [->|H1]; [done|].
  assert (uval mmr_id ≠ 0 ∧ uval mmr_id ≠ 1)%Z as [Hn0 Hn1]
    by (split; intros Heq; [apply H0|apply H1]; by apply uint_eq).
  destruct (uval mmr_id) as [|[]|]; done.
Qed.

Lemma leaves_decode `{!MmrGenerateLaws ChainState} i (leaves : list (MmrLeafData i)) :
  mapM (λ leaf, try_decode i (into_opaque_leaf leaf)) (from_leaf i <$> leaves) = Some leaves.
Proof. apply mapM_Some. induction leaves; constructor; [apply leaf_decodes|done]. Qed.

(** [C20] The MMR APIs fit together: id 0 is channel A and id 1 channel B in both APIs that
    take one, and any other id is refused by both; the root that is served for an id is
    that of its channel; a proof that is generated for an id, for the current best block,
    has one leaf per block and passes the stateless check against exactly the root served
    for that id, and one of channel A also the check against the chain's own storage; an
    error of the MMR pallet is passed on. *)
Theorem mmr_api_roundtrip `{!MmrPalletLaws ChainState} `{!MmrGenerateLaws ChainState}
    (mmr_id : u64) blocks best chain :
  match mmr_channel mmr_id with
  | Some i =>
      api_mmr_root mmr_id chain = Ok (mmr_root_hash i chain) ∧
      (∀ leaves pf, api_generate_proof blocks None mmr_id chain = Ok (leaves, pf) →
         length leaves = length blocks ∧
         api_verify_proof_stateless (mmr_root_hash i chain) leaves pf = Ok tt ∧
         (i = ParaAMmr → api_verify_proof leaves pf chain = Ok tt)) ∧
      (∀ e, mmr_generate_proof i chain blocks best = Err e →
         api_generate_proof blocks best mmr_id chain = Err e)
  | None =>
      api_mmr_root mmr_id chain = Err GetRoot ∧
      api_generate_proof blocks best mmr_id chain = Err GenerateProof
  end.
Proof.
  destruct (api_mmr_channel mmr_id blocks None chain) as [Hroot Hnone].
  destruct (api_mmr_channel mmr_id blocks best chain) as [_ Hbest].
  destruct (mmr_channel mmr_id) as [i|]; [|done]. rewrite Hroot, Hnone, Hbest. split_and!.
  - by rewrite mmr_root_is_hash.
  - unfold opaque_proof. destruct (mmr_generate_proof i chain blocks None) as [[ls pf']|] eqn:Hg; [|done].
    intros leaves pf [= <- <-]. apply mmr_generate_correct in Hg as (Hlen & Hv & Hself).
    rewrite length_fmap. split_and!; [done| |].
    + unfold api_verify_proof_stateless. by rewrite <- list_fmap_compose.
    + intros ->. unfold api_verify_proof. by rewrite leaves_decode.
  - by intros e ->.
Qed.

(** Two fallbacks that disagree: while the chain knows no BEEFY root the pallet
    records the zero hash as seen, so a proof may target it, whereas the API
    reports [0x0101..01], which the pallet has not seen. *)
Theorem missing_beefy_root_fallbacks `{!WeakBoundedVecLaws} chain n ops :
  ParachainSystem_beefy_root chain = None →
  let s := @run_ops _ FS _ _ ParaAChannel _ _ _ _ ops in
  SeenBeefyRoots s !! get_current_beefy_root chain = None →
  let s' := apply_op s (@OpInitialize _ FS _ _ ParaAChannel _ chain n) in
  SeenBeefyRoots s' !! H256_zero = Some n ∧
  SeenBeefyRoots s' !! get_current_beefy_root chain = None.
Proof.
  intros Hnone s Hs. simpl. unfold get_current_beefy_root in *. rewrite Hnone in *.
  simpl in *. split; [apply lookup_insert_eq|]. by rewrite lookup_insert_ne.
Qed.

(** [C18] The leaf each channel's MMR gets: for the instance of channel A the
    fragments queued for parachain 1, for channel B those for parachain 2, each
    after the bytes [1, 2, 3], with version 0.0 and the parent block, and one event with
    the hash of the messages and the parent's number. *)
Theorem channel_leaf_contents i chain k s :
  let cfg := channel_config i in
  let para : u32 := match i with ParaAMmr => #1 | ParaBMmr => #2 end in
  (k < Z.to_nat (2 ^ 16))%nat →
  (∀ j, (j < k)%nat → is_Some (OutboundXcmpMessages chain !! (para, #(Z.of_nat j)))) →
  OutboundXcmpMessages chain !! (para, #(Z.of_nat k)) = None →
  ∃ l, @leaf_data _ _ _ _ cfg chain s = Ret (Ok l, @with_event _ _ _ _ cfg s
         (XcmpMessageSent (Hashing_hash_of (xcmp_msgs l)) (parent_number_and_hash l).1)) ∧
    xcmp_msgs l = [ #1; #2; #3] ++ mjoin (fragment (OutboundXcmpMessages chain) para <$> seq 0 k) ∧
    version l = MmrLeafVersion_new #0 #0 ∧
    parent_number_and_hash l = (channel_number i (parent_block chain).1, (parent_block chain).2).
Proof.
  intros cfg para Hk Hpres Habs. unfold leaf_data. step.
  assert (@ParaIdentifier _ _ _ _ cfg = para) as -> by by destruct i.
  rewrite (runtime_xcmp_messages_found _ _ _ _ k) by done.
  eexists (mkMmrLeaf _ (@LeafVersion _ _ _ _ cfg) (@ParentNumberAndHash_leaf_data _ _ _ _ cfg chain)).
  split; [reflexivity|]. cbn. destruct i; cbn; by destruct (parent_block chain).
Qed.
End runtime.

(** ** Witnesses *)

(** The MMR pallets of the concrete SDK: the MMR of channel A has the one message, under
    the committed root. *)
Definition td_mmr_pallet_root (i : MmrInstance) : H256 :=
  match i with ParaAMmr => td_channel_mmr_root | ParaBMmr => H256_zero end.
#[export] Instance td_mmr_pallet : MmrPallet ChainState := {|
  MmrLeafData := λ _, bytes;
  GetRoot := tt;
  GenerateProof := tt;
  Verify := tt;
  mmr_root := λ i _, td_mmr_pallet_root i;
  mmr_root_hash := λ i _, td_mmr_pallet_root i;
  mmr_leaves := λ _ _, #1;
  mmr_generate_proof := λ i _ blocks _,
    match i, blocks with ParaAMmr, [_] => Ok ([td_message], tt) | _, _ => Err tt end;
  mmr_verify_leaves := λ i _ leaves pr,
    verify_leaves_proof (td_mmr_pallet_root i) ((λ l, Data (mkOpaqueLeaf l)) <$> leaves) pr;
  from_leaf := λ _ l, l;
  try_decode := λ _ l, Some (opaque_leaf_0 l)
|}.

#[export] Instance td_mmr_pallet_laws : MmrPalletLaws ChainState.
Proof. split. reflexivity. Qed.

#[export] Instance td_mmr_generate : MmrGenerateLaws ChainState.
Proof.
  split; [|done]. intros [] c [|n [|]] leaves pr; simpl; try done. intros [= <- <-]. by split_and!.
Qed.

(** A Merkle library whose verifier accepts every path. *)
Definition td_merkle_all : MerkleLib := {|
  index_bits := 32;
  merkle_root := λ _, td_channel_root;
  merkle_proof := λ T as_ref leaves i,
    match leaves !! Z.to_nat i with
    | Some x => Ret (mkMerkleProof td_channel_root [] #(Z.of_nat (length leaves)) i x)
    | None => Panic
    end;
  verify_proof := λ _ _ _ _ _, true
|}.

Lemma td_merkle_all_laws : @MerkleLaws td_merkle_all.
Proof.
  split. intros T as_ref leaves i x Hx. cbn in i, Hx |- *. rewrite Hx. by eexists _, _.
Qed.

Definition td_chain : ChainState := mkChainState
  {[ ( #1, #0) := [ #8]; ( #1, #1) := [ #9] ]} None ( #3, H256_zero).

Lemma channel_proof_complete_witness :
  ∃ c, @get_xcmp_channels_proof _ td_merkle_all _ #5 td_chain = Ret (Some c) ∧
    root c = @collect_roots _ td_merkle_all _ td_chain ∧ api_mmr_root #0 td_chain = Ok (leaf c) ∧
    @merkle_included td_merkle_all (root c) (proof c) (num_leaves c) (leaf_index c)
      (h256_bytes (leaf c)).
Proof.
  apply (@channel_proof_complete _ td_merkle_all _ td_merkle_all_laws _). vm_compute. discriminate.
Defined.

Lemma mmr_api_roundtrip_witness :
  api_verify_proof_stateless td_channel_mmr_root [td_message_leaf] td_mmr_proof = Ok tt ∧
  api_verify_proof [td_message_leaf] td_mmr_proof td_chain = Ok tt.
Proof.
  destruct (mmr_api_roundtrip #0 [ #7] None td_chain) as (_ & Hgen & _).
  destruct (Hgen [td_message_leaf] td_mmr_proof eq_refl) as (_ & Hv & Ha).
  split; [exact Hv|exact (Ha eq_refl)].
Defined.

(** The first [n] indices of parachain 1 taken. *)
Definition td_queue (n : nat) : gmap (u32 * u16) bytes :=
  list_to_map ((λ i : nat, (( #1, #(Z.of_nat i)), [])) <$> seq 0 n).

Lemma td_queue_taken n (c : u16) :
  (Z.to_nat c < n)%nat → is_Some (td_queue n !! ( #1, c)).
Proof.
  intros Hc. apply not_eq_None_Some. unfold td_queue. rewrite <- not_elem_of_list_to_map.
  intros Hnone. apply Hnone.
  apply list_elem_of_fmap. exists (( #1, c), []). split; [done|].
  apply list_elem_of_fmap. exists (Z.to_nat c). pose proof (uval_range c). split.
  - do 2 f_equal. rewrite Z2Nat.id by lia. symmetry. apply uint_wrap_uval.
  - apply elem_of_seq. lia.
Qed.

Definition td_full_queue : ChainState :=
  mkChainState (td_queue (Z.to_nat (2 ^ 16))) None ( #3, H256_zero).

Lemma td_full_queue_full (c : u16) : is_Some (OutboundXcmpMessages td_full_queue !! ( #1, c)).
Proof. apply td_queue_taken. pose proof (uval_range c). lia. Qed.

Lemma xcmp_messages_full_queue_witness :
  runtime_xcmp_messages true td_full_queue H256_zero #1 = Panic ∧
  runtime_xcmp_messages false td_full_queue H256_zero #1 = Diverge ∧
  ∀ fuel counter buf,
    collect_fragments false fuel (OutboundXcmpMessages td_full_queue) #1 counter buf = None.
Proof. apply (xcmp_messages_full_queue td_full_queue H256_zero #1 td_full_queue_full). Defined.

Lemma missing_beefy_root_fallbacks_witness :
  let cfg := ParaAChannel false (λ _, H256_zero) Z id (λ _, false) in
  let s' := apply_op (@run_ops _ _ _ _ cfg _ _ _ _ [])
    (@OpInitialize _ _ _ _ cfg _ td_chain ( #4 : u32)) in
  SeenBeefyRoots s' !! H256_zero = Some ( #4 : u32) ∧
  SeenBeefyRoots s' !! get_current_beefy_root td_chain = None.
Proof.
  apply (missing_beefy_root_fallbacks false (λ _, H256_zero) Z id (λ _, false) td_chain #4 []);
    reflexivity.
Defined.

Definition td_channel_config : @Config ChainState td_frame td_version (runtime_provider false) :=
  channel_config false (λ _, H256_zero) Z id (λ _, false) ParaAMmr.

Lemma channel_leaf_contents_witness :
  ∃ l : @MmrLeaf td_version u32 bytes,
    @leaf_data _ _ _ (runtime_provider false) td_channel_config td_chain
      (@genesis _ _ _ _ td_channel_config) =
    Ret (Ok l, @with_event _ _ _ _ td_channel_config (@genesis _ _ _ _ td_channel_config)
      (@XcmpMessageSent _ _ _ _ td_channel_config
        (@Hashing_hash_of _ _ _ _ td_channel_config (xcmp_msgs l)) (parent_number_and_hash l).1)) ∧
    xcmp_msgs l =
      [ #1; #2; #3] ++ mjoin (fragment (OutboundXcmpMessages td_chain) #1 <$> seq 0 2) ∧
    version l = MmrLeafVersion_new #0 #0 ∧ parent_number_and_hash l = ( #3, H256_zero).
Proof.
  apply (channel_leaf_contents false (λ _, H256_zero) Z id (λ _, false) ParaAMmr td_chain 2).
  - lia.
  - intros [|[|j]] Hj; [by eexists|by eexists|lia].
  - reflexivity.
Defined.
