(* ===== verification/BTree.v ===== *)
(** * Ordered maps

    [std::collections::BTreeMap], as the relayer uses it: [insert], [get],
    [contains_key], [remove], and iteration in ascending key order. A map is its
    sequence of entries; the invariant [btree_ok] says it is strictly sorted, every
    operation keeps it, and the operations are those of the finite map of the same
    entries ([btree_map]). *)
From Stdlib Require Sorting.Sorted.
From S2P Require Import Prelude Words.

(** ** Keys *)

(** [Ord]: a strict total order, decided by [key_ltb]. *)
Class KeyOrder (K : Type) := {
  key_ltb : K → K → bool;
  key_irrefl : ∀ x, key_ltb x x = false;
  key_trans : ∀ x y z, key_ltb x y = true → key_ltb y z = true → key_ltb x z = true;
  key_total : ∀ x y, key_ltb x y = false → key_ltb y x = false → x = y;
}.

(** Integers and hashes (for hashes the order of the bytes, see [h256_lex]). *)
#[export] Program Instance uint_order bits : KeyOrder (uint bits) :=
  {| key_ltb x y := (uval x <? uval y)%Z |}.
Next Obligation. intros bits x. apply Z.ltb_irrefl. Qed.
Next Obligation. intros bits x y z. rewrite !Z.ltb_lt. lia. Qed.
Next Obligation. intros bits x y. rewrite !Z.ltb_ge. intros. apply uint_eq. lia. Qed.

(** Tuples, lexicographically. *)
#[export] Program Instance pair_order {A B} `{EqDecision A, KeyOrder A, KeyOrder B} :
  KeyOrder (A * B) :=
  {| key_ltb x y := key_ltb x.1 y.1 || (bool_decide (x.1 = y.1) && key_ltb x.2 y.2) |}.
Next Obligation.
  intros A B ??? [a b]; simpl. by rewrite !key_irrefl, andb_false_r.
Qed.
Next Obligation.
  intros A B ??? [a b] [a' b'] [a'' b'']; simpl.
  rewrite !orb_true_iff, !andb_true_iff, !bool_decide_eq_true.
  intros [?|[-> ?]] [?|[-> ?]]; eauto using key_trans.
Qed.
Next Obligation.
  intros A B ??? [a b] [a' b']; simpl.
  rewrite !orb_false_iff, !andb_false_iff. intros [Ha Hb] [Ha' Hb'].
  assert (a = a') as -> by by apply key_total. f_equal.
  rewrite bool_decide_true in Hb, Hb' by done. apply key_total; naive_solver.
Qed.

(** ** Operations *)

Section btree.
Context {K V : Type} `{EqDecision K} {KO : KeyOrder K}.
Implicit Types (m : list (K * V)) (k : K) (v : V).

(** [BTreeMap::insert]: the value of a present key is replaced. *)
Fixpoint btree_insert (k : K) (v : V) (m : list (K * V)) : list (K * V) :=
  match m with
  | [] => [(k, v)]
  | (k', v') :: m' =>
      if decide (k = k') then (k, v) :: m'
      else if key_ltb k k' then (k, v) :: m
      else (k', v') :: btree_insert k v m'
  end.

(** [BTreeMap::get]. *)
Fixpoint btree_get (k : K) (m : list (K * V)) : option V :=
  match m with
  | [] => None
  | (k', v') :: m' => if decide (k = k') then Some v' else btree_get k m'
  end.

(** [BTreeMap::contains_key]. *)
Definition btree_contains (k : K) (m : list (K * V)) : bool :=
  bool_decide (is_Some (btree_get k m)).

(** [BTreeMap::remove]: the removed value and the map left. *)
Fixpoint btree_remove (k : K) (m : list (K * V)) : option V * list (K * V) :=
  match m with
  | [] => (None, [])
  | (k', v') :: m' =>
      if decide (k = k') then (Some v', m')
      else let '(o, m'') := btree_remove k m' in (o, (k', v') :: m'')
  end.

(** ** Membership *)

Lemma elem_of_btree_insert k v m e :
  e ∈ btree_insert k v m → e = (k, v) ∨ e ∈ m.
Proof.
  induction m as [|[k' v'] m IH]; simpl; [set_solver|].
  case_decide; [set_solver|]. destruct (key_ltb k k'); set_solver.
Qed.

Lemma btree_get_elem k v m : btree_get k m = Some v → (k, v) ∈ m.
Proof.
  induction m as [|[k' v'] m IH]; simpl; [done|].
  case_decide as E; [intros [= <-]; subst|]; set_solver.
Qed.

Lemma elem_of_btree_remove k m e : e ∈ (btree_remove k m).2 → e ∈ m.
Proof.
  induction m as [|[k' v'] m IH]; simpl; [done|].
  case_decide; [set_solver|]. destruct (btree_remove k m) as [o m']. set_solver.
Qed.

(** ** Sorted maps *)

(** Strictly ascending keys. *)
Definition btree_ok (m : list (K * V)) : Prop :=
  Sorted.StronglySorted (λ a b, key_ltb a.1 b.1 = true) m.

Lemma key_ltb_neq (x y : K) : key_ltb x y = true → x ≠ y.
Proof. intros Hlt ->. by rewrite key_irrefl in Hlt. Qed.

Lemma btree_insert_ok k v m : btree_ok m → btree_ok (btree_insert k v m).
Proof.
  unfold btree_ok. induction m as [|[k' v'] m IH]; simpl; intros Hm; [by repeat constructor|].
  inversion Hm as [|?? Hs Hall]; subst. case_decide as E; [subst; by constructor|].
  destruct (key_ltb k k') eqn:Hlt.
  - constructor; [done|]. constructor; [done|].
    eapply list.Forall_impl; [exact Hall|]. intros [k1 v1]; simpl. by apply key_trans.
  - constructor; [by apply IH|]. apply list.Forall_forall. intros e He.
    apply elem_of_btree_insert in He as [->|He]; simpl.
    + destruct (key_ltb k' k) eqn:Hlt'; [done|]. by destruct E; apply key_total.
    + by apply (proj1 (list.Forall_forall _ _) Hall).
Qed.

Lemma btree_remove_ok k m : btree_ok m → btree_ok (btree_remove k m).2.
Proof.
  unfold btree_ok. induction m as [|[k' v'] m IH]; simpl; intros Hm; [done|].
  inversion Hm as [|?? Hs Hall]; subst. case_decide; [done|].
  specialize (IH Hs). pose proof (elem_of_btree_remove k m) as Hin.
  destruct (btree_remove k m) as [o m']; simpl in *. constructor; [done|].
  apply list.Forall_forall. intros e He. by apply (proj1 (list.Forall_forall _ _) Hall), Hin.
Qed.

Lemma btree_get_above k m : Forall (λ e, key_ltb k e.1 = true) m → btree_get k m = None.
Proof.
  induction 1 as [|[k' v'] m Hlt _ IH]; simpl; [done|].
  rewrite decide_False by (by apply key_ltb_neq). done.
Qed.

Lemma btree_get_insert k k' v m :
  btree_get k' (btree_insert k v m) = if decide (k = k') then Some v else btree_get k' m.
Proof.
  induction m as [|[k1 v1] m IH]; simpl.
  - repeat case_decide; congruence.
  - repeat (case_decide || case_match); simpl; repeat case_decide; congruence.
Qed.

Lemma btree_get_remove k k' m :
  btree_ok m →
  btree_get k' (btree_remove k m).2 = if decide (k = k') then None else btree_get k' m.
Proof.
  unfold btree_ok. induction m as [|[k1 v1] m IH]; simpl; intros Hm.
  - by case_decide.
  - inversion Hm as [|?? Hs Hall]; subst. specialize (IH Hs). destruct (decide (k = k1)) as [->|E1].
    + simpl. case_decide as E2; [|by rewrite decide_False by congruence].
      subst k'. by apply btree_get_above.
    + destruct (btree_remove k m) as [o m'] eqn:Er; simpl in *. rewrite IH.
      repeat case_decide; congruence.
Qed.

Lemma btree_remove_get k m : (btree_remove k m).1 = btree_get k m.
Proof.
  induction m as [|[k1 v1] m IH]; simpl; [done|]. case_decide; [done|].
  by destruct (btree_remove k m).
Qed.

(** The first entry has the least key. *)
Lemma btree_first_least k v m e :
  btree_ok ((k, v) :: m) → e ∈ (k, v) :: m → e = (k, v) ∨ key_ltb k e.1 = true.
Proof.
  intros Hm He. inversion Hm as [|?? _ Hall]; subst.
  apply elem_of_cons in He as [->|He]; [by left|right].
  by apply (proj1 (list.Forall_forall _ _) Hall).
Qed.
End btree.

(** ** Refinement *)

(** The finite map with the same entries. *)
Definition btree_map {K V} `{Countable K} (m : list (K * V)) : gmap K V := list_to_map m.

Lemma btree_map_lookup {K V} `{Countable K} {KO : KeyOrder K} (m : list (K * V)) k :
  btree_map m !! k = btree_get k m.
Proof.
  induction m as [|[k' v'] m IH]; [apply lookup_empty|]. unfold btree_map in *. simpl.
  destruct (decide (k = k')) as [->|]; [apply lookup_insert_eq|].
  by rewrite lookup_insert_ne.
Qed.

(** The operations of a sorted map are those of a finite map, and keep it sorted. *)
Lemma btree_refines {K V} `{Countable K} {KO : KeyOrder K} (m : list (K * V)) k v :
  btree_ok m →
  btree_ok (btree_insert k v m) ∧ btree_map (btree_insert k v m) = <[k:=v]> (btree_map m) ∧
  btree_ok (btree_remove k m).2 ∧ btree_map (btree_remove k m).2 = delete k (btree_map m) ∧
  (btree_remove k m).1 = btree_map m !! k.
Proof.
  intros Hm. split_and!; auto using btree_insert_ok, btree_remove_ok.
  - apply map_eq. intros k'. rewrite btree_map_lookup, btree_get_insert, lookup_insert.
    by rewrite btree_map_lookup.
  - apply map_eq. intros k'. rewrite btree_map_lookup, btree_get_remove, lookup_delete by done.
    by rewrite btree_map_lookup.
  - by rewrite btree_remove_get, btree_map_lookup.
Qed.
