(* ===== verification/Conc.v ===== *)
(** * Concurrent tasks over shared maps

    The relayer is a set of [tokio] tasks that share maps behind [Mutex]es and
    talk to nodes. A task is a resumable program ([prog]): between two visible
    actions (taking a lock, an awaited request, a spawn) it is a pure function of
    the answers it got. The interleaving semantics [cstep] runs any number of tasks
    against one store, with any answers that [answers] allows; [exec] is the same
    machine driven by a schedule and an oracle, for evaluation. A weakest
    precondition [wp] with a store invariant proves safety of every interleaving
    ([adequacy]). *)
From S2P Require Import Prelude.

(** ** Programs *)

Section conc.
(** The shared store; the requests, indexed by the type of their answer; the names
    of the tasks that can be spawned; the type of errors. *)
Context {St : Type} {Req : Type → Type} {Task E : Type}.

(** - [Done]: the function has returned, panicked or entered an endless loop;
    - [TryLock f k]: [Mutex::try_lock]; with the lock, run the critical section [f]
      and release it, otherwise go on with [None];
    - [Lock f k]: [Mutex::lock], which waits;
    - [Request q k]: an awaited call to a node or to the timer;
    - [Spawn t k]: [task::spawn]. *)
Inductive prog (A : Type) : Type :=
| Done (r : run (result E A))
| TryLock {B : Type} (f : St → B * St) (k : option B → prog A)
| Lock {B : Type} (f : St → B * St) (k : B → prog A)
| Request {B : Type} (q : Req B) (k : B → prog A)
| Spawn (t : Task) (k : prog A).
Arguments Done {A} _.
Arguments TryLock {A B} _ _.
Arguments Lock {A B} _ _.
Arguments Request {A B} _ _.
Arguments Spawn {A} _ _.

(** Sequencing, with [?] on the first part. *)
Fixpoint pbind {A B} (k : A → prog B) (p : prog A) : prog B :=
  match p with
  | Done (Ret (Ok a)) => k a
  | Done (Ret (Err e)) => Done (Ret (Err e))
  | Done Panic => Done Panic
  | Done Diverge => Done Diverge
  | TryLock f g => TryLock f (λ b, pbind k (g b))
  | Lock f g => Lock f (λ b, pbind k (g b))
  | Request q g => Request q (λ b, pbind k (g b))
  | Spawn t g => Spawn t (pbind k g)
  end.

(** A call whose [Result] the caller matches on. *)
Fixpoint pcatch {A} (p : prog A) : prog (result E A) :=
  match p with
  | Done (Ret r) => Done (Ret (Ok r))
  | Done Panic => Done Panic
  | Done Diverge => Done Diverge
  | TryLock f g => TryLock f (λ b, pcatch (g b))
  | Lock f g => Lock f (λ b, pcatch (g b))
  | Request q g => Request q (λ b, pcatch (g b))
  | Spawn t g => Spawn t (pcatch g)
  end.

Definition preturn {A} (a : A) : prog A := Done (Ret (Ok a)).
Definition pthrow {A} (e : E) : prog A := Done (Ret (Err e)).
Definition request {B} (q : Req B) : prog B := Request q preturn.
Definition try_lock {B} (f : St → B * St) : prog (option B) := TryLock f preturn.
Definition lock {B} (f : St → B * St) : prog B := Lock f preturn.
Definition spawn (t : Task) : prog () := Spawn t (preturn tt).

(** [Option::ok_or(e)?] and [Result::map_err(f)?]. *)
Definition pok_or {A} (o : option A) (e : E) : prog A :=
  match o with Some a => preturn a | None => pthrow e end.
Definition pmap_err {A E'} (r : result E' A) (f : E' → E) : prog A :=
  match r with Ok a => preturn a | Err e => pthrow (f e) end.
(** Indexing and the like: [None] is the panic. *)
Definition pindex {A} (o : option A) : prog A :=
  match o with Some a => preturn a | None => Done Panic end.

(** ** Tasks *)

(** A spawned [async] block: what it does first, then the body of its [while let]
    loop over the variables [t_L]; the body gives [None] to leave the loop. *)
Record task : Type := mkTask {
  t_L : Type;
  t_init : prog t_L;
  t_body : t_L → prog (option t_L)
}.

(** One request and its answer. *)
Inductive event : Type :=
| Ev (B : Type) (q : Req B) (b : B).
Arguments Ev {B} _ _.

(** A running task: its loop, what is left of the current round, and its requests
    so far, latest first. *)
Record thread : Type := mkThread {
  th_L : Type;
  th_body : th_L → prog (option th_L);
  th_cur : prog (option th_L);
  th_hist : list event
}.

Definition start (t : task) : thread :=
  mkThread (t_L t) (t_body t) (pbind (λ l, preturn (Some l)) (t_init t)) [].

Definition set_cur (th : thread) (p : prog (option (th_L th))) (h : list event) : thread :=
  mkThread (th_L th) (th_body th) p h.

Record config : Type := mkConfig { store : St; threads : list thread }.

(** ** Interleaving *)

Section semantics.
Context (tasks : Task → task).
(** The answers a node may give, which may depend on the thread's history. *)
Context (answers : list event → ∀ B, Req B → B → Prop).

(** One action of a thread: the store, the thread and the tasks it spawns. A
    [try_lock] may always fail: another thread may be inside the critical section. *)
Inductive tstep (s : St) (th : thread) : St → thread → list Task → Prop :=
| ts_loop l :
    th_cur th = preturn (Some l) →
    tstep s th s (set_cur th (th_body th l) (th_hist th)) []
| ts_try_lock B (f : St → B * St) k :
    th_cur th = TryLock f k →
    tstep s th (f s).2 (set_cur th (k (Some (f s).1)) (th_hist th)) []
| ts_try_lock_fails B (f : St → B * St) k :
    th_cur th = TryLock f k →
    tstep s th s (set_cur th (k None) (th_hist th)) []
| ts_lock B (f : St → B * St) k :
    th_cur th = Lock f k →
    tstep s th (f s).2 (set_cur th (k (f s).1) (th_hist th)) []
| ts_request B (q : Req B) k b :
    th_cur th = Request q k → answers (th_hist th) B q b →
    tstep s th s (set_cur th (k b) (Ev q b :: th_hist th)) []
| ts_spawn t k :
    th_cur th = Spawn t k →
    tstep s th s (set_cur th k (th_hist th)) [t].

Inductive cstep : config → config → Prop :=
| cstep_thread s s' ths1 ths2 th th' ts :
    tstep s th s' th' ts →
    cstep (mkConfig s (ths1 ++ th :: ths2))
      (mkConfig s' (ths1 ++ th' :: ths2 ++ ((λ t, start (tasks t)) <$> ts))).

(** *** Execution *)

(** The step of a thread when the oracle answers and the lock is free or not;
    [None] when the thread has nothing left to do. *)
Definition texec (orc : list event → ∀ B, Req B → B) (free : bool) (s : St) (th : thread) :
    option (St * thread * list Task) :=
  match th_cur th with
  | Done (Ret (Ok (Some l))) => Some (s, set_cur th (th_body th l) (th_hist th), [])
  | Done _ => None
  | TryLock f k =>
      if free then Some ((f s).2, set_cur th (k (Some (f s).1)) (th_hist th), [])
      else Some (s, set_cur th (k None) (th_hist th), [])
  | Lock f k => Some ((f s).2, set_cur th (k (f s).1) (th_hist th), [])
  | @Request _ B q k =>
      let b := orc (th_hist th) B q in
      Some (s, set_cur th (k b) (Ev q b :: th_hist th), [])
  | Spawn t k => Some (s, set_cur th k (th_hist th), [t])
  end.

(** Run a schedule: which thread moves, and whether its lock is free. *)
Fixpoint exec (orc : list event → ∀ B, Req B → B) (sched : list (nat * bool))
    (c : config) : config :=
  match sched with
  | [] => c
  | (i, free) :: sched' =>
      match threads c !! i with
      | None => exec orc sched' c
      | Some th =>
          match texec orc free (store c) th with
          | None => exec orc sched' c
          | Some (s', th', ts) =>
              exec orc sched' (mkConfig s' (<[i:=th']> (threads c) ++ ((λ t, start (tasks t)) <$> ts)))
          end
      end
  end.

Lemma texec_tstep orc free s th s' th' ts :
  (∀ h B q, answers h B q (orc h B q)) →
  texec orc free s th = Some (s', th', ts) → tstep s th s' th' ts.
Proof.
  intros Horc. unfold texec.
  destruct (th_cur th) as [[[[l|]|]| |]|B f k|B f k|B q k|t k] eqn:Hcur; try done.
  - intros [= <- <- <-]. by apply ts_loop.
  - destruct free; intros [= <- <- <-]; [by eapply ts_try_lock|by eapply ts_try_lock_fails].
  - intros [= <- <- <-]. by eapply ts_lock.
  - intros [= <- <- <-]. by apply ts_request.
  - intros [= <- <- <-]. by eapply ts_spawn.
Qed.

(** What a schedule computes is an interleaving. *)
Lemma exec_steps orc sched c :
  (∀ h B q, answers h B q (orc h B q)) → rtc cstep c (exec orc sched c).
Proof.
  intros Horc. revert c. induction sched as [|[i free] sched IH]; intros [s ths]; simpl; [done|].
  destruct (ths !! i) as [th|] eqn:Hi; [|apply IH].
  destruct (texec orc free s th) as [[[s' th'] ts]|] eqn:Ht; [|apply IH].
  eapply rtc_l; [|apply IH].
  rewrite <- (take_drop_middle _ _ _ Hi) at 1.
  rewrite insert_take_drop by (by eapply lookup_lt_Some).
  rewrite <- app_assoc. simpl. apply cstep_thread. by eapply texec_tstep.
Qed.

(** ** Safety *)

Section safety.
(** What holds of the store when no critical section is running. *)
Context (I : St → Prop).
(** What a thread may ask, given its history; which tasks it may spawn. *)
Context (allowed : list event → ∀ B, Req B → Prop) (spawnable : Task → Prop).

(** [wp h p Q]: from history [h], whatever the others do to the store within [I],
    [p] keeps [I], asks only what is allowed, and ends as [Q] says. A panic or an
    error ends the task and is always safe. *)
Fixpoint wp {A} (h : list event) (p : prog A) (Q : list event → run (result E A) → Prop) : Prop :=
  match p with
  | Done r => Q h r
  | TryLock f k =>
      (∀ s, I s → I (f s).2 ∧ wp h (k (Some (f s).1)) Q) ∧ wp h (k None) Q
  | Lock f k => ∀ s, I s → I (f s).2 ∧ wp h (k (f s).1) Q
  | @Request _ B q k =>
      allowed h B q ∧ ∀ b, answers h B q b → wp (Ev q b :: h) (k b) Q
  | Spawn t k => spawnable t ∧ wp h k Q
  end.

Lemma wp_mono {A} (p : prog A) h (Q Q' : list event → run (result E A) → Prop) :
  (∀ h r, Q h r → Q' h r) → wp h p Q → wp h p Q'.
Proof.
  clear tasks. intros HQ. revert h. induction p; simpl; intros h; naive_solver.
Qed.

Definition bind_post {A B} (k : A → prog B) (Q : list event → run (result E B) → Prop)
    (h : list event) (r : run (result E A)) : Prop :=
  match r with
  | Ret (Ok a) => wp h (k a) Q
  | Ret (Err e) => Q h (Ret (Err e))
  | Panic => Q h Panic
  | Diverge => Q h Diverge
  end.

Lemma wp_bind {A B} (p : prog A) (k : A → prog B) h Q :
  wp h p (bind_post k Q) → wp h (pbind k p) Q.
Proof.
  clear tasks. revert h. induction p as [[[]| |]| | | |]; simpl; intros h; naive_solver.
Qed.

Definition catch_post {A} (Q : list event → run (result E (result E A)) → Prop)
    (h : list event) (r : run (result E A)) : Prop :=
  match r with
  | Ret r => Q h (Ret (Ok r))
  | Panic => Q h Panic
  | Diverge => Q h Diverge
  end.

Lemma wp_catch {A} (p : prog A) h Q : wp h p (catch_post Q) → wp h (pcatch p) Q.
Proof.
  clear tasks. revert h. induction p as [[[]| |]| | | |]; simpl; intros h; naive_solver.
Qed.

(** *** Safe triples *)

(** [wps h p Φ]: as [wp], when only a value that is returned matters. *)
Definition wps {A} (h : list event) (p : prog A) (Φ : list event → A → Prop) : Prop :=
  wp h p (λ h r, match r with Ret (Ok a) => Φ h a | _ => True end).

Lemma wps_mono {A} (p : prog A) h (Φ Ψ : list event → A → Prop) :
  wps h p Φ → (∀ h a, Φ h a → Ψ h a) → wps h p Ψ.
Proof. intros Hp HΦ. eapply wp_mono; [|exact Hp]. intros h' [[]| |]; simpl; auto. Qed.

Lemma wps_ret {A} h (a : A) (Φ : list event → A → Prop) : Φ h a → wps h (preturn a) Φ.
Proof. done. Qed.
Lemma wps_throw {A} h e (Φ : list event → A → Prop) : wps h (pthrow e) Φ.
Proof. done. Qed.

Lemma wps_bind {A B} h (p : prog A) (k : A → prog B) Φ :
  wps h p (λ h' a, wps h' (k a) Φ) → wps h (pbind k p) Φ.
Proof.
  intros Hp. apply wp_bind. eapply wp_mono; [|exact Hp]. by intros h' [[]| |].
Qed.

Lemma wps_catch {A} h (p : prog A) (Φ : list event → result E A → Prop) :
  wps h p (λ h' a, Φ h' (Ok a)) → (∀ h' e, Φ h' (Err e)) → wps h (pcatch p) Φ.
Proof.
  intros Hp He. apply wp_catch. eapply wp_mono; [|exact Hp]. intros h' [[]| |]; simpl; auto.
Qed.

(** A call whose outcome is not looked at. *)
Lemma wps_catch_any {A} h (p : prog A) (Φ : list event → result E A → Prop) :
  wps h p (λ _ _, True) → (∀ h' r, Φ h' r) → wps h (pcatch p) Φ.
Proof. intros Hp HΦ. apply wps_catch; [|auto]. eapply wps_mono; [exact Hp|auto]. Qed.

Lemma wps_request {B} h (q : Req B) (Φ : list event → B → Prop) :
  allowed h B q → (∀ b, answers h B q b → Φ (Ev q b :: h) b) → wps h (request q) Φ.
Proof. by split. Qed.

Lemma wps_try_lock {B} h (f : St → B * St) (Φ : list event → option B → Prop) :
  (∀ s, I s → I (f s).2 ∧ Φ h (Some (f s).1)) → Φ h None → wps h (try_lock f) Φ.
Proof. by split. Qed.

(** A critical section whose result is not looked at. *)
Lemma wps_try_write {B} h (f : St → B * St) (Φ : list event → option B → Prop) :
  (∀ s, I s → I (f s).2) → (∀ o, Φ h o) → wps h (try_lock f) Φ.
Proof. intros Hf HΦ. apply wps_try_lock; auto. Qed.

(** A critical section that only reads: an absent lock reads nothing. *)
Lemma wps_try_read {B} h (f : St → B * St) (Φ : list event → option B → Prop) :
  (∀ s, (f s).2 = s) → (∀ s, I s → Φ h (Some (f s).1)) → Φ h None → wps h (try_lock f) Φ.
Proof. intros Hf HΦ HN. apply wps_try_lock; [|done]. intros s Hs. rewrite Hf. auto. Qed.

Lemma wps_lock {B} h (f : St → B * St) (Φ : list event → B → Prop) :
  (∀ s, I s → I (f s).2 ∧ Φ h (f s).1) → wps h (lock f) Φ.
Proof. done. Qed.

Lemma wps_spawn h t (Φ : list event → () → Prop) :
  spawnable t → Φ h tt → wps h (spawn t) Φ.
Proof. by split. Qed.

Lemma wps_pok_or {A} h (o : option A) e (Φ : list event → A → Prop) :
  (∀ a, o = Some a → Φ h a) → wps h (pok_or o e) Φ.
Proof. destruct o; simpl; [|done]. intros HΦ. by apply HΦ. Qed.

Lemma wps_pmap_err {A E'} h (r : result E' A) (f : E' → E) (Φ : list event → A → Prop) :
  (∀ a, r = Ok a → Φ h a) → wps h (pmap_err r f) Φ.
Proof. destruct r; simpl; [|done]. intros HΦ. by apply HΦ. Qed.

Lemma wps_pindex {A} h (o : option A) (Φ : list event → A → Prop) :
  (∀ a, o = Some a → Φ h a) → wps h (pindex o) Φ.
Proof. destruct o; simpl; [|done]. intros HΦ. by apply HΦ. Qed.

(** Every request in a history was allowed when it was made. *)
Fixpoint guarded (h : list event) : Prop :=
  match h with
  | [] => True
  | @Ev B q b :: h' => allowed h' B q ∧ guarded h'
  end.

Lemma guarded_elem h e :
  guarded h → e ∈ h → ∃ h', match e with @Ev B q _ => allowed h' B q end.
Proof.
  induction h as [|[B q b] h IH]; simpl; intros Hg Hin; [by apply elem_of_nil in Hin|].
  destruct Hg as [Hq Hg]. apply elem_of_cons in Hin as [->|Hin]; [by exists h|by apply IH].
Qed.

(** The end of a round: the loop variables still satisfy their invariant. *)
Definition round_post {L} (J : L → Prop) (_ : list event) (o : option L) : Prop :=
  match o with Some l => J l | None => True end.

Definition thread_ok (th : thread) : Prop :=
  guarded (th_hist th) ∧
  ∃ J : th_L th → Prop,
    (∀ h l, J l → wps h (th_body th l) (round_post J)) ∧
    wps (th_hist th) (th_cur th) (round_post J).

(** A loop with an invariant on its variables that its start establishes. *)
Lemma start_ok (t : task) (J : t_L t → Prop) :
  wps [] (t_init t) (λ _, J) →
  (∀ h l, J l → wps h (t_body t l) (round_post J)) →
  thread_ok (start t).
Proof.
  intros Hinit Hbody. split; [done|]. exists J. split; [done|].
  apply wps_bind. eapply wps_mono; [exact Hinit|]. done.
Qed.

Lemma tstep_ok s th s' th' ts :
  tstep s th s' th' ts → I s → thread_ok th →
  I s' ∧ thread_ok th' ∧ Forall spawnable ts.
Proof.
  intros Hstep Hs (Hg & J & Hbody & Hcur).
  destruct Hstep as [l Hp|B f k Hp|B f k Hp|B f k Hp|B q k b Hp Hb|t k Hp];
    rewrite Hp in Hcur; unfold wps in Hcur; simpl in Hcur.
  - split_and!; [done| |done]. split; [done|]. exists J. split; [done|]. by apply Hbody.
  - destruct Hcur as [H1 _]. destruct (H1 s Hs). split_and!; [done| |done].
    split; [done|]. by exists J.
  - split_and!; [done| |done]. split; [done|]. exists J. split; [done|]. apply Hcur.
  - destruct (Hcur s Hs). split_and!; [done| |done]. split; [done|]. by exists J.
  - destruct Hcur as [H1 H2]. split_and!; [done| |done]. split; [done|].
    exists J. split; [done|]. by apply H2.
  - destruct Hcur as [H1 H2]. split_and!; [done| |by constructor].
    split; [done|]. by exists J.
Qed.

(** The store invariant and the safety of every thread hold in every interleaving. *)
Theorem adequacy c c' :
  (∀ t, spawnable t → thread_ok (start (tasks t))) →
  rtc cstep c c' → I (store c) → Forall thread_ok (threads c) →
  I (store c') ∧ Forall thread_ok (threads c').
Proof.
  intros Htasks Hsteps. induction Hsteps as [c|c1 c2 c3 Hstep Hsteps IH]; [done|].
  intros Hs Hths. destruct Hstep as [s s' ths1 ths2 th th' ts Ht]; simpl in *.
  apply list.Forall_app in Hths as [Hths1 [Hth Hths2]%list.Forall_cons].
  apply tstep_ok in Ht as (Hs' & Hth' & Hts); [|done..].
  apply IH; [done|]. apply list.Forall_app. split; [done|]. constructor; [done|].
  apply list.Forall_app. split; [done|]. apply list.Forall_fmap.
  eapply list.Forall_impl; [exact Hts|]. intros t Ht. by apply Htasks.
Qed.
End safety.

(** A thread that has returned, failed or panicked takes no further step. *)
Lemma finished_stuck s th s' th' ts r :
  th_cur th = Done r → (∀ l, r ≠ Ret (Ok (Some l))) → ¬ tstep s th s' th' ts.
Proof.
  intros Hcur Hr Hstep.
  destruct Hstep as [l Hp|B f k Hp|B f k Hp|B f k Hp|B q k b Hp _|t k Hp];
    rewrite Hcur in Hp; try discriminate Hp.
  injection Hp as ->. by destruct (Hr l).
Qed.
End semantics.

(** Fewer answers, fewer interleavings. *)
Lemma tstep_mono (ans ans' : list event → ∀ B, Req B → B → Prop) s th s' th' ts :
  (∀ h B q b, ans h B q b → ans' h B q b) → tstep ans s th s' th' ts → tstep ans' s th s' th' ts.
Proof. intros Hans Ht. destruct Ht; econstructor; eauto. Qed.

Lemma cstep_mono (tasks : Task → task) (ans ans' : list event → ∀ B, Req B → B → Prop) c c' :
  (∀ h B q b, ans h B q b → ans' h B q b) → cstep tasks ans c c' → cstep tasks ans' c c'.
Proof.
  intros Hans [s s' ths1 ths2 th th' ts Ht]. apply cstep_thread. by eapply tstep_mono.
Qed.

Lemma rtc_cstep_mono (tasks : Task → task) (ans ans' : list event → ∀ B, Req B → B → Prop) c c' :
  (∀ h B q b, ans h B q b → ans' h B q b) →
  rtc (cstep tasks ans) c c' → rtc (cstep tasks ans') c c'.
Proof. intros Hans. apply rtc_subrel. intros ??. by apply cstep_mono. Qed.

(** *** What was answered *)

(** A thread of [c] asked [q] when its history was [h], and got [b]. *)
Definition recorded (c : config) (h : list event) {B} (q : Req B) (b : B) : Prop :=
  ∃ th h0, th ∈ threads c ∧ th_hist th = h0 ++ Ev q b :: h.

(** A step keeps the histories of the threads, and adds at most one answer. *)
Lemma tstep_hist ans s th s' th' ts :
  tstep ans s th s' th' ts →
  tstep (λ h B q b, ans h B q b ∧ recorded (mkConfig s' [th']) h q b) s th s' th' ts ∧
  ∃ h0, th_hist th' = h0 ++ th_hist th.
Proof.
  intros [l Hp|B f k Hp|B f k Hp|B f k Hp|B q k b Hp Hb|t k Hp].
  5: { split; [|by exists [Ev q b]]. apply ts_request; [done|]. split; [done|].
       exists (set_cur th (k b) (Ev q b :: th_hist th)), []. split; [apply list_elem_of_here|done]. }
  all: (split; [|by exists []]); by econstructor.
Qed.

Lemma recorded_step tasks ans c c' h B (q : Req B) b :
  cstep tasks ans c c' → recorded c h q b → recorded c' h q b.
Proof.
  intros [s s' ths1 ths2 th th' ts [_ [h1 Ht]]%tstep_hist] (th0 & h0 & Hin & Hh). simpl in Hin.
  apply elem_of_app in Hin as [Hin|[->|Hin]%elem_of_cons].
  - exists th0, h0. split; [set_solver|done].
  - exists th', (h1 ++ h0). split; [set_solver|]. by rewrite Ht, Hh, app_assoc.
  - exists th0, h0. split; [set_solver|done].
Qed.

(** Every answer on the way to a state is in the history of one of its threads. *)
Lemma rtc_cstep_recorded tasks ans c0 c :
  rtc (cstep tasks ans) c0 c →
  rtc (cstep tasks (λ h B q b, ans h B q b ∧ recorded c h q b)) c0 c.
Proof.
  revert c. refine (rtc_ind_r (λ c, _) c0 _ _); [done|]. intros c1 c2 Hsteps Hstep IH.
  eapply rtc_r.
  - eapply rtc_cstep_mono; [|exact IH]. intros h B q b [Hans Hr]. split; [done|].
    by eapply recorded_step.
  - destruct Hstep as [s s' ths1 ths2 th th' ts Ht]. apply cstep_thread.
    apply tstep_hist in Ht as [Ht _]. eapply tstep_mono; [|exact Ht].
    intros h B q b [Hb (th0 & h0 & Hin & Hh)]. split; [done|]. exists th0, h0. split; [|done].
    apply list_elem_of_singleton in Hin as ->. apply elem_of_app. right. apply list_elem_of_here.
Qed.

(** ** Evaluation of one function *)

(** Run a function alone: every lock is free, the oracle answers. It always comes
    to an end, since a [prog] is a well-founded tree of actions. *)
Fixpoint peval {A} (orc : list event → ∀ B, Req B → B) (p : prog A) (s : St) (h : list event) :
    run (result E A) * St * list event :=
  match p with
  | Done r => (r, s, h)
  | TryLock f k => let '(b, s') := f s in peval orc (k (Some b)) s' h
  | Lock f k => let '(b, s') := f s in peval orc (k b) s' h
  | @Request _ B q k => let b := orc h B q in peval orc (k b) s (Ev q b :: h)
  | Spawn _ k => peval orc k s h
  end.

Lemma peval_bind {A B} orc (p : prog A) (k : A → prog B) s h :
  peval orc (pbind k p) s h =
  match peval orc p s h with
  | (Ret (Ok a), s', h') => peval orc (k a) s' h'
  | (Ret (Err e), s', h') => (Ret (Err e), s', h')
  | (Panic, s', h') => (Panic, s', h')
  | (Diverge, s', h') => (Diverge, s', h')
  end.
Proof.
  revert s h. induction p as [r|C f g IH|C f g IH|C q g IH|t g IH]; simpl; intros s h; auto.
  - by destruct r as [[]| |].
  - destruct (f s). apply IH.
  - destruct (f s). apply IH.
Qed.

(** What [wp] promises holds of an evaluation with admitted answers. *)
Lemma wp_peval {A} answers I allowed spawnable orc (p : prog A) s h Q r s' h' :
  (∀ h B q, answers h B q (orc h B q)) → I s → guarded allowed h →
  wp answers I allowed spawnable h p Q →
  peval orc p s h = (r, s', h') → I s' ∧ guarded allowed h' ∧ Q h' r.
Proof.
  intros Horc. revert s h. induction p as [r0|C f g IH|C f g IH|C q g IH|t g IH]; simpl;
    intros s h Hs Hg Hwp Hrun.
  - by injection Hrun as -> -> ->.
  - destruct Hwp as [Hwp _]. destruct (Hwp s Hs) as [Hs1 Hk]. destruct (f s) as [b s1].
    by eapply IH.
  - destruct (Hwp s Hs) as [Hs1 Hk]. destruct (f s) as [b s1]. by eapply IH.
  - destruct Hwp as [Hq Hk]. eapply IH; [done| |by apply Hk|done]. by split.
  - destruct Hwp as [_ Hk]. by eapply IH.
Qed.

(** The most requests a function can make, whatever the answers. *)
Fixpoint requests_le {A} (n : nat) (p : prog A) : Prop :=
  match p with
  | Done _ => True
  | TryLock _ k => ∀ b, requests_le n (k b)
  | Lock _ k => ∀ b, requests_le n (k b)
  | Request _ k => match n with O => False | S n' => ∀ b, requests_le n' (k b) end
  | Spawn _ k => requests_le n k
  end.
End conc.

Arguments prog : clear implicits.
Arguments task : clear implicits.
Arguments thread : clear implicits.
Arguments config : clear implicits.
Arguments event : clear implicits.
Arguments Done {St Req Task E A} _.
Arguments TryLock {St Req Task E A B} _ _.
Arguments Lock {St Req Task E A B} _ _.
Arguments Request {St Req Task E A B} _ _.
Arguments Spawn {St Req Task E A} _ _.
Arguments Ev {Req B} _ _.

#[export] Instance prog_ret {St Req Task E} : MRet (prog St Req Task E) := λ A a, preturn a.
#[export] Instance prog_bind {St Req Task E} : MBind (prog St Req Task E) := λ A B k p, pbind k p.

(** ** Embedding *)

(** A program that makes its requests as some of a larger set of requests and whose
    errors are converted. *)
Section translate.
Context {St Task E E' : Type} {Req Req' : Type → Type}.
Context (emb : ∀ B, Req B → Req' B) (conv : E → E').

Definition conv_run {A} (r : run (result E A)) : run (result E' A) :=
  match r with
  | Ret (Ok a) => Ret (Ok a)
  | Ret (Err e) => Ret (Err (conv e))
  | Panic => Panic
  | Diverge => Diverge
  end.

Fixpoint ptranslate {A} (p : prog St Req Task E A) : prog St Req' Task E' A :=
  match p with
  | Done r => Done (conv_run r)
  | TryLock f k => TryLock f (λ b, ptranslate (k b))
  | Lock f k => Lock f (λ b, ptranslate (k b))
  | Request q k => Request (emb _ q) (λ b, ptranslate (k b))
  | Spawn t k => Spawn t (ptranslate k)
  end.

Definition emb_event (e : event Req) : event Req' :=
  match e with @Ev _ B q b => Ev (emb B q) b end.

Lemma wp_translate {A} answers I allowed spawnable (p : prog St Req Task E A) h h0 Q :
  wp (λ h B q b, answers (map emb_event h ++ h0) B (emb B q) b) I
    (λ h B q, allowed (map emb_event h ++ h0) B (emb B q)) spawnable h p
    (λ h r, Q (map emb_event h ++ h0) (conv_run r)) →
  wp answers I allowed spawnable (map emb_event h ++ h0) (ptranslate p) Q.
Proof.
  revert h. induction p as [r|C f g IH|C f g IH|C q g IH|t g IH]; simpl; intros h.
  - done.
  - intros [H1 H2]. split; [|by apply IH]. intros s Hs. destruct (H1 s Hs). split; [done|].
    by apply IH.
  - intros H1 s Hs. destruct (H1 s Hs). split; [done|]. by apply IH.
  - intros [H1 H2]. split; [done|]. intros b Hb. apply (IH b (Ev q b :: h)). by apply H2.
  - intros [H1 H2]. split; [done|]. by apply IH.
Qed.

(** The evaluation of an embedded program, with an oracle for the larger set. *)
Lemma peval_translate {A} orc (p : prog St Req Task E A) s h h0 :
  peval orc (ptranslate p) s (map emb_event h ++ h0) =
  let '(r, s', h') :=
    peval (λ h B q, orc (map emb_event h ++ h0) B (emb B q)) p s h in
  (conv_run r, s', map emb_event h' ++ h0).
Proof.
  revert s h. induction p as [r|C f g IH|C f g IH|C q g IH|t g IH]; simpl; intros s h; auto.
  - destruct (f s). apply IH.
  - destruct (f s). apply IH.
  - apply (IH _ s (Ev q _ :: h)).
Qed.
End translate.

(** ** Stepping an evaluation *)

Section steps.
Context {St : Type} {Req : Type → Type} {Task E : Type}.
Context (orc : list (event Req) → ∀ B, Req B → B).
Abbreviation async A := (prog St Req Task E A).

Lemma peval_request {A B} (q : Req B) (k : B → async A) s h b :
  orc h B q = b → peval orc (x ← request q; k x) s h = peval orc (k b) s (Ev q b :: h).
Proof. by intros <-. Qed.
Lemma peval_try_lock {A B} (f : St → B * St) (k : option B → async A) s h :
  peval orc (x ← try_lock f; k x) s h = peval orc (k (Some (f s).1)) (f s).2 h.
Proof. unfold mbind, prog_bind. simpl. by destruct (f s). Qed.
Lemma peval_lock_to {A B} (f : St → B * St) (k : option B → async A) s h b s' :
  f s = (b, s') → peval orc (x ← try_lock f; k x) s h = peval orc (k (Some b)) s' h.
Proof. intros Hf. by rewrite peval_try_lock, Hf. Qed.
Lemma peval_ok_or {A B} (o : option B) e (k : B → async A) s h b :
  o = Some b → peval orc (x ← pok_or o e; k x) s h = peval orc (k b) s h.
Proof. by intros ->. Qed.
Lemma peval_map_err {A B E'} (r : result E' B) (f : E' → E) (k : B → async A) s h b :
  r = Ok b → peval orc (x ← pmap_err r f; k x) s h = peval orc (k b) s h.
Proof. by intros ->. Qed.
Lemma peval_map_err_Err {A B E'} (r : result E' B) (f : E' → E) (k : B → async A) s h e :
  r = Err e → peval orc (x ← pmap_err r f; k x) s h = (Ret (Err (f e)), s, h).
Proof. by intros ->. Qed.
Lemma peval_index {A B} (o : option B) (k : B → async A) s h b :
  o = Some b → peval orc (x ← pindex o; k x) s h = peval orc (k b) s h.
Proof. by intros ->. Qed.
Lemma peval_call {A B} (p : async B) (k : B → async A) s h b s' h' :
  peval orc p s h = (Ret (Ok b), s', h') →
  peval orc (x ← p; k x) s h = peval orc (k b) s' h'.
Proof. intros Hp. unfold mbind, prog_bind. by rewrite peval_bind, Hp. Qed.
Lemma peval_call_Err {A B} (p : async B) (k : B → async A) s h e s' h' :
  peval orc p s h = (Ret (Err e), s', h') →
  peval orc (x ← p; k x) s h = (Ret (Err e), s', h').
Proof. intros Hp. unfold mbind, prog_bind. by rewrite peval_bind, Hp. Qed.
Lemma peval_catch {A B} (p : async B) (k : result E B → async A) s h r s' h' :
  peval orc p s h = (Ret r, s', h') →
  peval orc (x ← pcatch p; k x) s h = peval orc (k r) s' h'.
Proof.
  unfold mbind, prog_bind.
  revert s h. induction p as [r'|C f g IH|C f g IH|C q g IH|t g IH]; simpl; intros s h; auto.
  - by intros [= -> -> ->].
  - destruct (f s). apply IH.
  - destruct (f s). apply IH.
Qed.
End steps.

(** Run one statement, its value being known from the hypotheses. *)
Ltac peval_step :=
  first
  [ erewrite peval_request by eauto
  | rewrite peval_try_lock
  | erewrite peval_ok_or by eauto
  | erewrite peval_map_err by eauto
  | erewrite peval_index by eauto ]; cbv beta zeta iota.

(** ** Which requests a program can make *)

Section asks.
Context {St : Type} {Req : Type → Type} {Task E : Type}.

(** Every request of the program satisfies [P], whatever the answers. *)
Fixpoint asks {A} (P : ∀ B, Req B → bool) (p : prog St Req Task E A) : Prop :=
  match p with
  | Done _ => True
  | TryLock _ k => ∀ b, asks P (k b)
  | Lock _ k => ∀ b, asks P (k b)
  | Request q k => P _ q = true ∧ ∀ b, asks P (k b)
  | Spawn _ k => asks P k
  end.

Context (P : ∀ B, Req B → bool).
Abbreviation async A := (prog St Req Task E A).

Lemma asks_done {A} (r : run (result E A)) : asks P (Done r : async A).
Proof. done. Qed.
Lemma asks_ret {A} (a : A) : asks P (mret a : async A).
Proof. done. Qed.
Lemma asks_throw {A} (e : E) : asks P (pthrow e : async A).
Proof. done. Qed.
Lemma asks_request {B} (q : Req B) : P B q = true → asks P (request q : async B).
Proof. by split. Qed.
Lemma asks_pmap_err {A E'} (r : result E' A) (f : E' → E) : asks P (pmap_err r f : async A).
Proof. by destruct r. Qed.
Lemma asks_bind {A B} (p : async A) (k : A → async B) :
  asks P p → (∀ a, asks P (k a)) → asks P (x ← p; k x).
Proof.
  intros Hp Hk. unfold mbind, prog_bind.
  induction p as [[[]| |]|C f g IH|C f g IH|C q g IH|t g IH]; simpl in *; auto.
  destruct Hp as [Hq Hg]. auto.
Qed.

Definition event_asks (e : event Req) : bool := match e with @Ev _ B q _ => P B q end.

Lemma asks_peval {A} orc (p : async A) s h r s' h' :
  asks P p → peval orc p s h = (r, s', h') →
  ∃ h0, h' = h0 ++ h ∧ Forall (λ e, event_asks e = true) h0.
Proof.
  revert s h. induction p as [r0|C f g IH|C f g IH|C q g IH|t g IH]; simpl; intros s h Hp Hrun.
  - injection Hrun as <- <- <-. by exists [].
  - destruct (f s). by eapply IH.
  - destruct (f s). by eapply IH.
  - destruct Hp as [Hq Hg]. apply IH in Hrun as (h0 & -> & Hall); [|done].
    exists (h0 ++ [Ev q (orc h C q)]). split; [by rewrite <- app_assoc|].
    apply list.Forall_app. split; [done|]. by constructor.
  - by eapply IH.
Qed.
End asks.

Lemma asks_translate {St Task E E' A} {Req Req' : Type → Type} (emb : ∀ B, Req B → Req' B)
    (conv : E → E') (P : ∀ B, Req' B → bool) (p : prog St Req Task E A) :
  asks (λ B q, P B (emb B q)) p → asks P (ptranslate emb conv p).
Proof. induction p; simpl; naive_solver. Qed.

Create HintDb asks.
#[export] Hint Resolve asks_done asks_ret asks_throw asks_request asks_pmap_err asks_bind : asks.
#[export] Hint Extern 1 (asks _ (match ?x with _ => _ end)) => destruct x : asks.

(** An evaluation only adds to the history. *)
Lemma peval_history {St Req Task E A} orc (p : prog St Req Task E A) s h r s' h' :
  peval orc p s h = (r, s', h') → ∃ h0, h' = h0 ++ h.
Proof.
  intros Hrun. destruct (asks_peval (λ _ _, true) orc p s h r s' h') as (h0 & -> & _);
    [|done|by exists h0].
  clear Hrun. induction p; simpl; auto.
Qed.
