(* ===== verification/Relayer.v ===== *)
(** * The relayer

    [xcmp_relayer/src/main.rs]: the conversions between the types generated from
    the chains' metadata, the five shared maps, the two collectors, the assembly
    and submission of an XCMP proof, the helpers and [main]. Every function is a
    [prog] of [Conc]; calls to the nodes are the requests [Req], whose answers are
    not restricted here. Log lines are dropped. *)
From S2P Require Import Prelude Words Sdk MessageStuffer BTree Conc.

(** ** Data *)

(** [LeavesProof<H256>] of [mmr_rpc]. *)
Record LeavesProof : Type := mkLeavesProof {
  lp_block_hash : H256;
  lp_leaves : bytes;
  lp_proof : bytes
}.

(** A block of a subscription. *)
Record Block : Type := mkBlock { block_number : u32; block_hash : H256 }.

(** The types generated from the relay chain's metadata. *)
Record ParaId : Type := mkParaId { para_id_0 : u32 }.
Record RelayParaLeaf : Type := mkRelayParaLeaf { rpl_para_id : ParaId; rpl_head_data : bytes }.
Record RelayParaMerkleProof : Type := mkRelayParaMerkleProof {
  rpmp_root : H256;
  rpmp_proof : list H256;
  rpmp_num_leaves : Z;
  rpmp_leaf_index : Z;
  rpmp_leaf : RelayParaLeaf
}.

(** The types generated from the parachain's metadata; the parachain's own
    [ParaMerkleProof] and [ParaLeaf] have the fields of the relay chain's. *)
Record SubxtChannelMerkleProof : Type := mkSubxtChannelMerkleProof {
  scmp_root : H256;
  scmp_proof : list H256;
  scmp_num_leaves : u64;
  scmp_leaf_index : u64;
  scmp_leaf : H256
}.
Record SubxtXcmpProof `{!MmrLib} : Type := mkSubxtXcmpProof {
  sx_stage_1 : MmrProof * list EncodableOpaqueLeaf;
  sx_stage_2 : ParaMerkleProof;
  sx_stage_3 : SubxtChannelMerkleProof;
  sx_stage_4 : MmrProof * list EncodableOpaqueLeaf
}.

(** [ClientType] and [ClientType::from_index]; [None] is the panic. *)
Inductive ClientType : Set := Sender | Receiver | Relay.

Definition from_index (index : nat) : option ClientType :=
  match index with
  | 0 => Some Sender
  | 1 => Some Receiver
  | 2 => Some Relay
  | _ => None
  end%nat.

(** *** Conversions *)

(** [impl From<SubxtChannelMerkleProof> for ChannelMerkleProof]. *)
Definition channel_proof_from_subxt (x : SubxtChannelMerkleProof) : ChannelMerkleProof := {|
  root := scmp_root x;
  proof := scmp_proof x;
  num_leaves := scmp_num_leaves x;
  leaf_index := scmp_leaf_index x;
  leaf := scmp_leaf x
|}.

(** [impl From<ChannelMerkleProof> for SubxtChannelMerkleProof]. *)
Definition channel_proof_to_subxt (x : ChannelMerkleProof) : SubxtChannelMerkleProof := {|
  scmp_root := root x;
  scmp_proof := proof x;
  scmp_num_leaves := num_leaves x;
  scmp_leaf_index := leaf_index x;
  scmp_leaf := leaf x
|}.

(** [impl From<ParaId> for ParachainParaId]. *)
Definition para_id_into (x : ParaId) : u32 := para_id_0 x.

(** [impl From<RelayParaLeaf> for ParaLeaf]. *)
Definition para_leaf_into (x : RelayParaLeaf) : ParaLeaf := {|
  para_id := para_id_into (rpl_para_id x);
  head_data := rpl_head_data x
|}.

(** [impl From<RelayParaMerkleProof> for ParaMerkleProof]. *)
Definition para_merkle_proof_into (x : RelayParaMerkleProof) : ParaMerkleProof := {|
  pmp_root := rpmp_root x;
  pmp_proof := rpmp_proof x;
  pmp_num_leaves := rpmp_num_leaves x;
  pmp_leaf_index := rpmp_leaf_index x;
  pmp_leaf := para_leaf_into (rpmp_leaf x)
|}.

(** [impl Clone for ParaId]. *)
Definition para_id_clone (x : ParaId) : ParaId := mkParaId (para_id_0 x).

(** [impl Clone for RelayParaLeaf]. *)
Definition relay_para_leaf_clone (x : RelayParaLeaf) : RelayParaLeaf := {|
  rpl_para_id := para_id_clone (rpl_para_id x);
  rpl_head_data := rpl_head_data x
|}.

(** [impl Clone for RelayParaMerkleProof]. *)
Definition relay_para_merkle_proof_clone (x : RelayParaMerkleProof) : RelayParaMerkleProof := {|
  rpmp_root := rpmp_root x;
  rpmp_proof := rpmp_proof x;
  rpmp_num_leaves := rpmp_num_leaves x;
  rpmp_leaf_index := rpmp_leaf_index x;
  rpmp_leaf := relay_para_leaf_clone (rpmp_leaf x)
|}.

(** [impl Clone for SubxtChannelMerkleProof]. *)
Definition subxt_channel_proof_clone (x : SubxtChannelMerkleProof) : SubxtChannelMerkleProof := {|
  scmp_root := scmp_root x;
  scmp_proof := scmp_proof x;
  scmp_num_leaves := scmp_num_leaves x;
  scmp_leaf_index := scmp_leaf_index x;
  scmp_leaf := scmp_leaf x
|}.

(** ** The shared maps *)

(** The five [lazy_static] maps. *)
Record Maps : Type := mkMaps {
  LEAVES_BEEFY_MMR_MAP : list ((H256 * u32) * (H256 * LeavesProof));
  PARA_HEADERS_MAP : list (H256 * RelayParaMerkleProof);
  MSG_ROOT_MAP : list (H256 * LeavesProof);
  MSG_ROOT_CHANNEL_MERKLE_MAP : list (H256 * ChannelMerkleProof);
  CHANNEL_ROOT_PROOF_MAP : list (H256 * ChannelMerkleProof)
}.

Definition empty_maps : Maps := mkMaps [] [] [] [] [].

(** A critical section on one of the maps. *)
Definition on_LEAVES_BEEFY_MMR_MAP {B} (f : _ → B * _) (s : Maps) : B * Maps :=
  let '(b, m) := f (LEAVES_BEEFY_MMR_MAP s) in
  (b, mkMaps m (PARA_HEADERS_MAP s) (MSG_ROOT_MAP s) (MSG_ROOT_CHANNEL_MERKLE_MAP s)
    (CHANNEL_ROOT_PROOF_MAP s)).
Definition on_PARA_HEADERS_MAP {B} (f : _ → B * _) (s : Maps) : B * Maps :=
  let '(b, m) := f (PARA_HEADERS_MAP s) in
  (b, mkMaps (LEAVES_BEEFY_MMR_MAP s) m (MSG_ROOT_MAP s) (MSG_ROOT_CHANNEL_MERKLE_MAP s)
    (CHANNEL_ROOT_PROOF_MAP s)).
Definition on_MSG_ROOT_MAP {B} (f : _ → B * _) (s : Maps) : B * Maps :=
  let '(b, m) := f (MSG_ROOT_MAP s) in
  (b, mkMaps (LEAVES_BEEFY_MMR_MAP s) (PARA_HEADERS_MAP s) m (MSG_ROOT_CHANNEL_MERKLE_MAP s)
    (CHANNEL_ROOT_PROOF_MAP s)).
Definition on_MSG_ROOT_CHANNEL_MERKLE_MAP {B} (f : _ → B * _) (s : Maps) : B * Maps :=
  let '(b, m) := f (MSG_ROOT_CHANNEL_MERKLE_MAP s) in
  (b, mkMaps (LEAVES_BEEFY_MMR_MAP s) (PARA_HEADERS_MAP s) (MSG_ROOT_MAP s) m
    (CHANNEL_ROOT_PROOF_MAP s)).
Definition on_CHANNEL_ROOT_PROOF_MAP {B} (f : _ → B * _) (s : Maps) : B * Maps :=
  let '(b, m) := f (CHANNEL_ROOT_PROOF_MAP s) in
  (b, mkMaps (LEAVES_BEEFY_MMR_MAP s) (PARA_HEADERS_MAP s) (MSG_ROOT_MAP s)
    (MSG_ROOT_CHANNEL_MERKLE_MAP s) m).

(** Reading a map, and replacing it. *)
Definition reading {X B} (f : X → B) (m : X) : B * X := (f m, m).
Definition writing {X} (f : X → X) (m : X) : () * X := (tt, f m).

(** ** Clients and requests *)

(** The endpoints. *)
Definition DEFAULT_ENDPOINT_PARA_SENDER : string := "ws://localhost:54888".
Definition DEFAULT_RPC_ENDPOINT_PARA_SENDER : string := "http://localhost:54888".
Definition DEFAULT_ENDPOINT_PARA_RECEIVER : string := "ws://localhost:54887".
Definition DEFAULT_RPC_ENDPOINT_PARA_RECEIVER : string := "http://localhost:54887".
Definition DEFAULT_ENDPOINT_RELAY : string := "ws://localhost:54886".
Definition DEFAULT_RPC_ENDPOINT_RELAY : string := "http://localhost:54886".

Definition RECEIVER_CHANNEL_ID : u64 := #0.

(** [MultiClient]: the endpoints its two clients are connected to. *)
Record MultiClient : Type := mkMultiClient { subxt_client : string; rpc_client : string }.

(** The error types of the two client libraries. *)
Class ClientLib := { RpcError : Type; SubxtError : Type }.

Inductive RelayerError : Set := Default.

(** [anyhow::Error], by what it was made from. *)
Inductive Anyhow `{!ClientLib} : Type :=
| Relayer (e : RelayerError)
| Rpc (e : RpcError)
| Subxt (e : SubxtError)
| Codec
| Message (msg : string).

(** The keys of [subxt_signer::sr25519::dev]. *)
Inductive Signer : Set := alice | bob | charlie.

(** The transactions of [msg_stuffer_para_a]. *)
Inductive Tx `{!MmrLib} : Type :=
| tx_update_root (root : H256) (channel_id : u64)
| tx_submit_xcmp_proof (xcmp_proof : SubxtXcmpProof) (beefy_root : H256)
| tx_submit_test_proof (mmr_proof : MmrProof) (leaves : list EncodableOpaqueLeaf)
    (channel_id : u64).

(** What the relayer awaits, with the type of the answer; the first argument is the
    endpoint asked. *)
Inductive Req `{!ClientLib} `{!MmrLib} `{!ScaleLib} : Type → Type :=
| from_url (endpoint : string) : Req (result SubxtError ())
| http_build (endpoint : string) : Req (result RpcError ())
| mmr_root (rpc : string) (at_block : option H256) (channel_id : option u64) :
    Req (result RpcError (option H256))
| chain_getHeader (rpc : string) (at_block : option H256) :
    Req (result RpcError (option Header))
| mmr_generateProof (rpc : string) (blocks : list u64) (best_known : option u32)
    (at_block : option H256) (channel_id : option u64) :
    Req (result RpcError (option LeavesProof))
| mmr_verifyProofStateless (rpc : string) (root : H256) (proof : LeavesProof) :
    Req (result RpcError (option bool))
| subscribe_best (endpoint : string) : Req (result SubxtError ())
| next_block (endpoint : string) : Req (option (result SubxtError Block))
| blocks_at_latest (endpoint : string) : Req (result SubxtError Block)
| get_para_heads_proof (endpoint : string) (at_block : H256) (id : ParaId) :
    Req (result SubxtError (option RelayParaMerkleProof))
| get_xcmp_channels_proof (endpoint : string) (at_block : H256) (channel_id : u64) :
    Req (result SubxtError (option SubxtChannelMerkleProof))
| runtime_api_at_latest (endpoint : string) : Req (result SubxtError ())
| get_current_beefy_root (endpoint : string) : Req (result SubxtError H256)
| storage_at_latest (endpoint : string) : Req (result SubxtError ())
| fetch_xcmp_channel_roots (endpoint : string) (key : u64) :
    Req (result SubxtError (option H256))
| sign_and_submit_then_watch (endpoint : string) (tx : Tx) (signer : Signer) :
    Req (result SubxtError ())
| wait_for_in_block (endpoint : string) : Req (result SubxtError ())
| wait_for_success (endpoint : string) : Req (result SubxtError ())
| sleep (seconds : u64) : Req ().

(** The [async] blocks that are spawned, with the variables they capture. *)
Inductive Task : Type :=
| CollectRelayData (client : MultiClient)
| CollectParaData (client : MultiClient)
| LogAllMmrRoots (client : MultiClient)
| LogAllMmrProofs (client : MultiClient)
| ProofAndVerify (client relay_client recv_client : MultiClient) (root : H256)
    (proof : LeavesProof)
| LogAllBlocks (client_index : nat) (client : MultiClient).

Section relayer.
Context {CL : ClientLib} {ML : MmrLib} {SC : ScaleLib}.
(** Whether the build checks for arithmetic overflow. *)
Context (overflow_checks : bool).

Abbreviation async A := (prog Maps Req Task Anyhow A).

(** [x += y] on a [u64]. *)
Definition add_u64 (x y : u64) : run u64 :=
  if overflow_checks
  then match checked_add x y with Some z => Ret z | None => Panic end
  else Ret (wrapping_add x y).

Definition call_run {A} (r : run A) : async A :=
  match r with Ret a => mret a | Panic => Done Panic | Diverge => Done Diverge end.

(** [MultiClient::new]. *)
Definition MultiClient_new (endpoint rpc_endpoint : string) : async MultiClient :=
  c ← request (from_url endpoint);
  _ ← pmap_err c Subxt;
  r ← request (http_build rpc_endpoint);
  _ ← pmap_err r Rpc;
  mret (mkMultiClient endpoint rpc_endpoint).

(** [generate_mmr_proof]. *)
Definition generate_mmr_proof (client : MultiClient) (block_num : u64) (channel_id : option u64)
    (block_hash : option H256) : async LeavesProof :=
  answer ← request (mmr_generateProof (rpc_client client) [block_num] None block_hash channel_id);
  let request := match answer with Ok opt_proof => opt_proof | Err _ => None end in
  pok_or request (Relayer Default).

(** [generate_mmr_root]. *)
Definition generate_mmr_root (client : MultiClient) (channel_id : option u64)
    (block_hash : option H256) : async H256 :=
  answer ← request (mmr_root (rpc_client client) block_hash channel_id);
  request ← pmap_err answer Rpc;
  pok_or request (Relayer Default).

(** [try_generate_mmr_proof]: the loop, with [fuel] rounds left. *)
Definition MAX_ATTEMPTS : u32 := #3.
Definition RETRY_INTERVAL : u64 := #4.

Fixpoint try_generate_loop (fuel : nat) (client : MultiClient) (block_num : u64)
    (channel_id : option u64) (attempts : u32) : async LeavesProof :=
  match fuel with
  | O => Done Diverge
  | S fuel' =>
      answer ← request (mmr_generateProof (rpc_client client) [block_num] None None channel_id);
      match answer with
      | Ok opt_proof => pok_or opt_proof (Message "Proof was None")
      | Err e =>
          if bool_decide (uval attempts < uval MAX_ATTEMPTS)%Z
          then _ ← request (sleep RETRY_INTERVAL);
               try_generate_loop fuel' client block_num channel_id (wrapping_add attempts #1)
          else pthrow (Rpc e)
      end
  end.

Definition try_generate_mmr_proof (client : MultiClient) (block_num : u64)
    (channel_id : option u64) : async LeavesProof :=
  try_generate_loop (S (Z.to_nat MAX_ATTEMPTS)) client block_num channel_id #0.

(** [extract_xcmp_channel_root]. *)
Definition extract_channel_root (leaf : ParaLeaf) : async H256 :=
  header ← pok_or (decode_header (head_data leaf)) Codec;
  pok_or (extract_xcmp_channel_merkle_root (header_digest header)) (Relayer Default).

(** ** The collectors *)

(** One round of the loop of [collect_relay_data]. *)
Definition collect_relay_round (client : MultiClient) : async (option ()) :=
  next ← request (next_block (subxt_client client));
  match next with
  | None => mret None
  | Some block =>
      block ← pmap_err block Subxt;
      answer ← request (mmr_root (rpc_client client) None (Some #0));
      let request_root := match answer with Ok opt => opt | Err _ => None end in
      root ← pok_or request_root (Relayer Default);
      answer ← request (chain_getHeader (rpc_client client) None);
      let request_header := match answer with Ok block => block | Err _ => None end in
      _rpc_header ← pok_or request_header (Relayer Default);
      proof ← pcatch (generate_mmr_proof client (widen 64 (block_number block))
                (Some RECEIVER_CHANNEL_ID) (Some (block_hash block)));
      proof ← pmap_err proof (λ _, Relayer Default);
      beefy_leaves ← pok_or (decode_leaves (lp_leaves proof)) Codec;
      leaf ← pindex (beefy_leaves !! 0%nat);
      let leaf := into_opaque_leaf leaf in
      mmr_leaf ← pok_or (decode_beefy_leaf (opaque_leaf_0 leaf)) Codec;
      _ ← try_lock (on_LEAVES_BEEFY_MMR_MAP (writing
            (btree_insert (leaf_extra mmr_leaf, block_number block) (root, proof))));
      answer ← request (get_para_heads_proof (subxt_client client) (block_hash block)
                 (mkParaId #1000));
      let para_merkle_proof := match answer with Ok opt_proof => opt_proof | Err _ => None end in
      para_merkle_proof ← pok_or para_merkle_proof (Relayer Default);
      extracted ← pcatch (extract_channel_root
                    (para_leaf_into (relay_para_leaf_clone (rpmp_leaf para_merkle_proof))));
      let para_header_root := match extracted with Ok root => root | Err _ => H256_zero end in
      if bool_decide (para_header_root = H256_zero) then pthrow (Relayer Default)
      else
        _ ← try_lock (on_PARA_HEADERS_MAP (writing
              (btree_insert para_header_root (relay_para_merkle_proof_clone para_merkle_proof))));
        mret (Some tt)
  end.

Definition collect_relay_data (client : MultiClient) : async () :=
  spawn (CollectRelayData client).

(** One round of the loop of [collect_para_data]. *)
Definition collect_para_round (client : MultiClient) : async (option ()) :=
  next ← request (next_block (subxt_client client));
  match next with
  | None => mret None
  | Some block =>
      block ← pmap_err block Subxt;
      msg_root ← generate_mmr_root client (Some RECEIVER_CHANNEL_ID) (Some (block_hash block));
      msg_proof ← generate_mmr_proof client (widen 64 (block_number block))
                    (Some RECEIVER_CHANNEL_ID) (Some (block_hash block));
      _ ← try_lock (on_MSG_ROOT_MAP (writing (btree_insert msg_root msg_proof)));
      answer ← request (get_xcmp_channels_proof (subxt_client client) (block_hash block)
                 RECEIVER_CHANNEL_ID);
      let channel_merkle_proof := match answer with Ok proof => proof | Err _ => None end in
      channel_merkle_proof ← pok_or channel_merkle_proof (Relayer Default);
      _ ← try_lock (on_CHANNEL_ROOT_PROOF_MAP (writing
            (btree_insert (scmp_root channel_merkle_proof)
              (channel_proof_from_subxt (subxt_channel_proof_clone channel_merkle_proof)))));
      contains ← try_lock (on_MSG_ROOT_MAP (reading
                   (btree_contains (scmp_leaf channel_merkle_proof))));
      let roots_match := default false contains in
      if negb roots_match then mret (Some tt)
      else
        _ ← try_lock (on_MSG_ROOT_CHANNEL_MERKLE_MAP (writing
              (btree_insert msg_root (channel_proof_from_subxt channel_merkle_proof))));
        mret (Some tt)
  end.

Definition collect_para_data (client : MultiClient) : async () :=
  spawn (CollectParaData client).

(** ** Transactions *)

(** Waiting for a transaction, whose outcome is only logged. *)
Definition watch (client : MultiClient) : async () :=
  in_block ← request (wait_for_in_block (subxt_client client));
  match in_block with
  | Ok _ => _ ← request (wait_for_success (subxt_client client)); mret tt
  | Err _ => mret tt
  end.

(** [update_root]. *)
Definition relayer_update_root (client : MultiClient) (root : H256) : async () :=
  let channel_id : u64 := #0 in
  tx_progress ← request (sign_and_submit_then_watch (subxt_client client)
                  (tx_update_root root channel_id) alice);
  _ ← pmap_err tx_progress Subxt;
  watch client.

(** [submit_xcmp_proof]. *)
Definition relayer_submit_xcmp_proof (client : MultiClient) (xcmp_proof : SubxtXcmpProof)
    (beefy_root : H256) : async () :=
  tx_progress ← request (sign_and_submit_then_watch (subxt_client client)
                  (tx_submit_xcmp_proof xcmp_proof beefy_root) charlie);
  _ ← pmap_err tx_progress Subxt;
  watch client.

(** [submit_proof]. *)
Definition submit_proof (client : MultiClient) (proof : LeavesProof) : async () :=
  let channel_id : u64 := #0 in
  leaves ← pok_or (decode_leaves (lp_leaves proof)) Codec;
  decoded_proof ← pok_or (decode_mmr_proof (lp_proof proof)) Codec;
  tx_progress ← request (sign_and_submit_then_watch (subxt_client client)
                  (tx_submit_test_proof decoded_proof leaves channel_id) bob);
  _ ← pmap_err tx_progress Subxt;
  watch client.

(** ** The assembly of a proof *)

(** The values of [LEAVES_BEEFY_MMR_MAP] whose key has the given heads root. *)
Definition beefy_entries_of (heads_root : H256)
    (m : list ((H256 * u32) * (H256 * LeavesProof))) : list (H256 * LeavesProof) :=
  snd <$> filter (λ e, e.1.1 = heads_root) m.

(** [generate_xcmp_proof]. *)
Definition generate_xcmp_proof (client _relay_client recv_client : MultiClient) : async () :=
  block ← request (blocks_at_latest (subxt_client client));
  _block ← pmap_err block Subxt;
  first ← try_lock (on_MSG_ROOT_MAP (reading head));
  '(stage_4_root, stage_4_proof) ← pok_or (mjoin first) (Relayer Default);
  contains ← try_lock (on_MSG_ROOT_CHANNEL_MERKLE_MAP (reading (btree_contains stage_4_root)));
  let roots_match := default false contains in
  if negb roots_match then
    _ ← lock (on_MSG_ROOT_CHANNEL_MERKLE_MAP (reading (λ _, tt)));
    pthrow (Relayer Default)
  else
  stage_4_leaves ← pok_or (decode_leaves (lp_leaves stage_4_proof)) Codec;
  stage_4_decoded_proof ← pok_or (decode_mmr_proof (lp_proof stage_4_proof)) Codec;
  found ← try_lock (on_MSG_ROOT_CHANNEL_MERKLE_MAP (reading (btree_get stage_4_root)));
  stage_3_proof ← pok_or (mjoin found) (Relayer Default);
  found ← try_lock (on_PARA_HEADERS_MAP (reading (btree_get (root stage_3_proof))));
  stage_2_proof ← pok_or (mjoin found) (Relayer Default);
  entries ← try_lock (on_LEAVES_BEEFY_MMR_MAP (reading
              (beefy_entries_of (rpmp_root stage_2_proof))));
  let beefy_entries := default [] entries in
  if bool_decide (beefy_entries = []) then pthrow (Relayer Default)
  else
  '(stage_1_beefy_root, stage_1_proof) ← pindex (beefy_entries !! (length beefy_entries - 1)%nat);
  stage_1_leaves ← pok_or (decode_leaves (lp_leaves stage_1_proof)) Codec;
  stage_1_decoded_proof ← pok_or (decode_mmr_proof (lp_proof stage_1_proof)) Codec;
  removed ← try_lock (on_MSG_ROOT_MAP (btree_remove stage_4_root));
  _ ← pok_or (mjoin removed) (Relayer Default);
  api ← request (runtime_api_at_latest (subxt_client client));
  _ ← pmap_err api Subxt;
  _beefy_root ← request (get_current_beefy_root (subxt_client client));
  let xcmp_proof := {|
    sx_stage_1 := (stage_1_decoded_proof, stage_1_leaves);
    sx_stage_2 := para_merkle_proof_into stage_2_proof;
    sx_stage_3 := channel_proof_to_subxt stage_3_proof;
    sx_stage_4 := (stage_4_decoded_proof, stage_4_leaves) |} in
  relayer_submit_xcmp_proof client xcmp_proof stage_1_beefy_root.

(** One round of the loop of [get_proof_and_verify], over [root] and [proof]. *)
Definition proof_and_verify_round (client relay_client recv_client : MultiClient)
    (vars : H256 * LeavesProof) : async (option (H256 * LeavesProof)) :=
  let '(root, proof) := vars in
  next ← request (next_block (subxt_client client));
  match next with
  | None => mret None
  | Some block =>
      _block ← pmap_err block Subxt;
      storage ← request (storage_at_latest (subxt_client client));
      _ ← pmap_err storage Subxt;
      fetched ← request (fetch_xcmp_channel_roots (subxt_client client) #0);
      let onchain_root :=
        match fetched with Ok (Some root) => root | Ok None => H256_zero | Err _ => H256_zero end in
      _ ← pcatch (relayer_update_root client root);
      _ ← pcatch (generate_xcmp_proof client relay_client recv_client);
      if bool_decide (onchain_root = root) then
        submitted ← pcatch (submit_proof client proof);
        match submitted with
        | Ok _ =>
            root ← generate_mmr_root client (Some RECEIVER_CHANNEL_ID) None;
            proof ← generate_mmr_proof client #1 (Some RECEIVER_CHANNEL_ID) None;
            mret (Some (root, proof))
        | Err _ => mret (Some (root, proof))
        end
      else mret (Some (root, proof))
  end.

(** [get_proof_and_verify]. *)
Definition get_proof_and_verify (client relay_client recv_client : MultiClient) : async () :=
  root ← generate_mmr_root client (Some RECEIVER_CHANNEL_ID) None;
  proof ← generate_mmr_proof client #1 (Some RECEIVER_CHANNEL_ID) None;
  answer ← request (mmr_verifyProofStateless (rpc_client client) root proof);
  request ← pmap_err answer Rpc;
  _verification ← pok_or request (Relayer Default);
  spawn (ProofAndVerify client relay_client recv_client root proof).

(** ** Logging tasks *)

(** [log_all_blocks]: one task per client. *)
Definition log_all_blocks_round (client : MultiClient) : async (option ()) :=
  next ← request (next_block (subxt_client client));
  match next with
  | None => mret None
  | Some block => _block ← pmap_err block Subxt; mret (Some tt)
  end.

Fixpoint log_all_blocks_from (client_index : nat) (clients : list MultiClient) : async () :=
  match clients with
  | [] => mret tt
  | client :: clients' =>
      _ ← spawn (LogAllBlocks client_index client);
      log_all_blocks_from (S client_index) clients'
  end.

Definition log_all_blocks (clients : list MultiClient) : async () :=
  log_all_blocks_from 0 clients.

(** [log_all_mmr_roots]. *)
Definition log_all_mmr_roots_round (client : MultiClient) : async (option ()) :=
  next ← request (next_block (subxt_client client));
  match next with
  | None => mret None
  | Some block =>
      _block ← pmap_err block Subxt;
      answer ← request (mmr_root (rpc_client client) None (Some #0));
      request ← pmap_err answer Rpc;
      _hash ← pok_or request (Relayer Default);
      mret (Some tt)
  end.

Definition log_all_mmr_roots (client : MultiClient) : async () :=
  spawn (LogAllMmrRoots client).

(** [do_mean]: the sum may overflow, and the mean of no numbers divides by zero. *)
Fixpoint sum_u64 (sum : u64) (vec : list u64) : run u64 :=
  match vec with
  | [] => Ret sum
  | difference :: vec' => sum' ← add_u64 sum difference; sum_u64 sum' vec'
  end.

Definition do_mean (vec : list u64) : run u64 :=
  let len : u64 := #(Z.of_nat (length vec)) in
  sum ← (sum_u64 #0 vec : run u64);
  if bool_decide (uval len = 0%Z) then Panic else Ret #(uval sum / uval len).

(** [log_all_mmr_proofs], over [proof_sizes], [mmr_blocks_to_query] and
    [mmr_blocks_benchmark_counter]. *)
Definition log_all_mmr_proofs_round (client : MultiClient)
    (vars : list u64 * list u64 * u64) : async (option (list u64 * list u64 * u64)) :=
  let '(proof_sizes, mmr_blocks_to_query, counter) := vars in
  next ← request (next_block (subxt_client client));
  match next with
  | None => mret None
  | Some block =>
      _block ← pmap_err block Subxt;
      answer ← request (mmr_generateProof (rpc_client client) mmr_blocks_to_query None None
                 (Some #0));
      request ← pmap_err answer Rpc;
      proof ← pok_or request (Relayer Default);
      let mmr_blocks_to_query := mmr_blocks_to_query ++ [counter] in
      counter ← call_run (add_u64 counter #1);
      let curr_proof_size : u64 := #(Z.of_nat (length (lp_proof proof))) in
      let proof_sizes := proof_sizes ++ [curr_proof_size] in
      _mean ← call_run (do_mean proof_sizes);
      mret (Some (proof_sizes, mmr_blocks_to_query, counter))
  end.

Definition log_all_mmr_proofs (client : MultiClient) : async () :=
  spawn (LogAllMmrProofs client).

(** ** The program *)

Definition subscribe {A} (client : MultiClient) (vars : A) : async A :=
  blocks_sub ← request (subscribe_best (subxt_client client));
  _ ← pmap_err blocks_sub Subxt;
  mret vars.

(** The spawned blocks. *)
Definition tasks (t : Task) : task Maps Req Task Anyhow :=
  match t with
  | CollectRelayData client =>
      mkTask () (subscribe client tt) (λ _, collect_relay_round client)
  | CollectParaData client =>
      mkTask () (subscribe client tt) (λ _, collect_para_round client)
  | LogAllMmrRoots client =>
      mkTask () (subscribe client tt) (λ _, log_all_mmr_roots_round client)
  | LogAllMmrProofs client =>
      mkTask _ (subscribe client ([], [ #1], #1)) (log_all_mmr_proofs_round client)
  | ProofAndVerify client relay_client recv_client root proof =>
      mkTask _ (subscribe client (root, proof))
        (proof_and_verify_round client relay_client recv_client)
  | LogAllBlocks client_index client =>
      mkTask () (_client_type ← pindex (from_index client_index); subscribe client tt)
        (λ _, log_all_blocks_round client)
  end.

(** [main]: at the end it waits for ever. *)
Definition main : async () :=
  para_sender_api ← MultiClient_new DEFAULT_ENDPOINT_PARA_SENDER DEFAULT_RPC_ENDPOINT_PARA_SENDER;
  para_receiver_api ← MultiClient_new DEFAULT_ENDPOINT_PARA_RECEIVER
                        DEFAULT_RPC_ENDPOINT_PARA_RECEIVER;
  relay_api ← MultiClient_new DEFAULT_ENDPOINT_RELAY DEFAULT_RPC_ENDPOINT_RELAY;
  _ ← collect_relay_data relay_api;
  _ ← collect_para_data para_sender_api;
  _ ← log_all_mmr_roots para_sender_api;
  _ ← log_all_mmr_proofs para_sender_api;
  _ ← get_proof_and_verify para_sender_api relay_api para_receiver_api;
  _ ← log_all_blocks [para_sender_api; para_receiver_api; relay_api];
  Done Diverge.

(** The process when it starts: [main] alone, the maps empty. *)
Definition boot : config Maps Req Task Anyhow :=
  mkConfig empty_maps [start (mkTask () main (λ _, preturn None))].
End relayer.

(** The value the chain decodes from a submitted proof: its fields, in order. *)
Definition decoded_call `{!MmrLib} (p : SubxtXcmpProof) : XcmpProof := {|
  stage_1 := sx_stage_1 p;
  stage_2 := sx_stage_2 p;
  stage_3 := channel_proof_from_subxt (sx_stage_3 p);
  stage_4 := sx_stage_4 p
|}.
