(* ===== verification/RelayerSafety.v ===== *)
(** * What the relayer stores and submits

    Safety of the relayer under every interleaving of its tasks, every failed
    [try_lock], every error and every order of blocks. The maps satisfy an
    invariant ([maps_ok]) that says of each entry what its answers say
    ([entry_specs]), and every XCMP proof it submits was assembled from such
    entries ([assembled]). Two readings of the answers follow: with no assumption
    on the nodes a submission is linked ([linked]); with nodes that answer as
    documented ([honest]) it is a valid proof as soon as its first tier verifies. *)
From S2P Require Import Prelude Words Sdk MessageStuffer StufferSafety BTree Conc Relayer.

(** The three clients that [main] makes. *)
Definition sender_client : MultiClient :=
  mkMultiClient DEFAULT_ENDPOINT_PARA_SENDER DEFAULT_RPC_ENDPOINT_PARA_SENDER.
Definition receiver_client : MultiClient :=
  mkMultiClient DEFAULT_ENDPOINT_PARA_RECEIVER DEFAULT_RPC_ENDPOINT_PARA_RECEIVER.
Definition relay_client : MultiClient :=
  mkMultiClient DEFAULT_ENDPOINT_RELAY DEFAULT_RPC_ENDPOINT_RELAY.

(** Take one step of a program under [wps]. *)
Ltac wps_step :=
  match goal with
  | |- wps _ _ _ _ _ (mbind _ _) _ => apply wps_bind
  | |- wps _ _ _ _ _ (pbind _ _) _ => apply wps_bind
  | |- wps _ _ _ _ _ (mret _) _ => apply wps_ret
  | |- wps _ _ _ _ _ (preturn _) _ => apply wps_ret
  | |- wps _ _ _ _ _ (pthrow _) _ => apply wps_throw
  | |- wps _ _ _ _ _ (pok_or _ _) _ => apply wps_pok_or; intros ? ?
  | |- wps _ _ _ _ _ (pmap_err _ _) _ => apply wps_pmap_err; intros ? ?
  | |- wps _ _ _ _ _ (pindex _) _ => apply wps_pindex; intros ? ?
  | |- wps _ _ _ _ _ (request _) _ => apply wps_request; [try exact Logic.I|intros ? ?]
  | |- wps _ _ _ _ _ (Done Panic) _ => exact Logic.I
  | |- wps _ _ _ _ _ (Done Diverge) _ => exact Logic.I
  end.

Section safety.
Context {CL : ClientLib} {ML : MmrLib} {BM : MerkleLib} {SC : ScaleLib}.
Context (overflow_checks : bool).

Abbreviation history := (list (event Req)).
Abbreviation async A := (prog Maps Req Task Anyhow A).

(** The block the thread is working on. *)
Definition block_event (e : event Req) : option (option Block) :=
  match e with
  | @Ev _ _ q b =>
      match q in Req B return B → option (option Block) with
      | next_block _ => λ b, Some (match b with Some (Ok block) => Some block | _ => None end)
      | _ => λ _, None
      end b
  end.

Fixpoint last_block (h : history) : option Block :=
  match h with
  | [] => None
  | e :: h' => default (last_block h') (block_event e)
  end.

(** ** The invariant of the maps *)

Section invariant.
Context (answers : history → ∀ B, Req B → B → Prop).
(** What an entry of each map is known to be. *)
Context (P_leaves : H256 * u32 → H256 * LeavesProof → Prop).
Context (P_heads : H256 → RelayParaMerkleProof → Prop).
Context (P_msg : H256 → LeavesProof → Prop).
Context (P_channel : H256 → ChannelMerkleProof → Prop).
Context (P_root : H256 → ChannelMerkleProof → Prop).

(** The answers a round gets while it works on a block make the entries it stores good. *)
Record entry_specs : Prop := {
  leaves_spec : ∀ h h' block root proof leaves l bl,
    last_block h = Some block → last_block h' = Some block →
    answers h _ (mmr_root (rpc_client relay_client) None (Some #0)) (Ok (Some root)) →
    answers h' _ (mmr_generateProof (rpc_client relay_client) [widen 64 (block_number block)]
      None (Some (block_hash block)) (Some RECEIVER_CHANNEL_ID)) (Ok (Some proof)) →
    decode_leaves (lp_leaves proof) = Some leaves → leaves !! 0 = Some l →
    decode_beefy_leaf (opaque_leaf_0 (into_opaque_leaf l)) = Some bl →
    P_leaves (leaf_extra bl, block_number block) (root, proof);
  heads_spec : ∀ h block p r,
    last_block h = Some block →
    answers h _ (get_para_heads_proof (subxt_client relay_client) (block_hash block) (mkParaId #1000))
      (Ok (Some p)) →
    channel_root_of (para_leaf_into (rpmp_leaf p)) = Some r → r ≠ H256_zero →
    P_heads r p;
  msg_spec : ∀ h h' block root proof,
    last_block h = Some block → last_block h' = Some block →
    answers h _ (mmr_root (rpc_client sender_client) (Some (block_hash block))
      (Some RECEIVER_CHANNEL_ID)) (Ok (Some root)) →
    answers h' _ (mmr_generateProof (rpc_client sender_client) [widen 64 (block_number block)]
      None (Some (block_hash block)) (Some RECEIVER_CHANNEL_ID)) (Ok (Some proof)) →
    P_msg root proof;
  channel_spec : ∀ h h' block root c,
    last_block h = Some block → last_block h' = Some block →
    answers h _ (mmr_root (rpc_client sender_client) (Some (block_hash block))
      (Some RECEIVER_CHANNEL_ID)) (Ok (Some root)) →
    answers h' _ (get_xcmp_channels_proof (subxt_client sender_client) (block_hash block)
      RECEIVER_CHANNEL_ID) (Ok (Some c)) →
    P_channel root (channel_proof_from_subxt c);
  root_spec : ∀ h block c,
    last_block h = Some block →
    answers h _ (get_xcmp_channels_proof (subxt_client sender_client) (block_hash block)
      RECEIVER_CHANNEL_ID) (Ok (Some c)) →
    P_root (scmp_root c) (channel_proof_from_subxt c)
}.

Record maps_ok (s : Maps) : Prop := {
  leaves_sorted : btree_ok (LEAVES_BEEFY_MMR_MAP s);
  heads_sorted : btree_ok (PARA_HEADERS_MAP s);
  msg_sorted : btree_ok (MSG_ROOT_MAP s);
  channel_sorted : btree_ok (MSG_ROOT_CHANNEL_MERKLE_MAP s);
  channel_root_sorted : btree_ok (CHANNEL_ROOT_PROOF_MAP s);
  leaves_ok : ∀ k v, (k, v) ∈ LEAVES_BEEFY_MMR_MAP s → P_leaves k v;
  heads_ok : ∀ k v, (k, v) ∈ PARA_HEADERS_MAP s → P_heads k v;
  msg_ok : ∀ k v, (k, v) ∈ MSG_ROOT_MAP s → P_msg k v;
  channel_ok : ∀ k v, (k, v) ∈ MSG_ROOT_CHANNEL_MERKLE_MAP s → P_channel k v;
  channel_root_ok : ∀ k v, (k, v) ∈ CHANNEL_ROOT_PROOF_MAP s → P_root k v
}.

Lemma empty_maps_ok : maps_ok empty_maps.
Proof. split; try by constructor. all: intros k v Hin; by apply elem_of_nil in Hin. Qed.

(** The entries of a map after an insertion. *)
Lemma insert_entries {K V} `{EqDecision K} {KO : KeyOrder K} (P : K → V → Prop) k v m :
  (∀ k v, (k, v) ∈ m → P k v) → P k v → ∀ k' v', (k', v') ∈ btree_insert k v m → P k' v'.
Proof. intros Hm Hkv k' v' [[= -> ->]|]%elem_of_btree_insert; auto. Qed.

(** An insertion into one map keeps the invariant of all. *)
Ltac map_insert :=
  intros [] Hkv; split; simpl; try done;
  [by apply btree_insert_ok|by apply insert_entries].

Lemma leaves_insert s k v :
  maps_ok s → P_leaves k v →
  maps_ok (on_LEAVES_BEEFY_MMR_MAP (writing (btree_insert k v)) s).2.
Proof. map_insert. Qed.
Lemma heads_insert s k v :
  maps_ok s → P_heads k v → maps_ok (on_PARA_HEADERS_MAP (writing (btree_insert k v)) s).2.
Proof. map_insert. Qed.
Lemma msg_insert s k v :
  maps_ok s → P_msg k v → maps_ok (on_MSG_ROOT_MAP (writing (btree_insert k v)) s).2.
Proof. map_insert. Qed.
Lemma channel_insert s k v :
  maps_ok s → P_channel k v →
  maps_ok (on_MSG_ROOT_CHANNEL_MERKLE_MAP (writing (btree_insert k v)) s).2.
Proof. map_insert. Qed.
Lemma channel_root_insert s k v :
  maps_ok s → P_root k v →
  maps_ok (on_CHANNEL_ROOT_PROOF_MAP (writing (btree_insert k v)) s).2.
Proof. map_insert. Qed.
Lemma msg_remove s k :
  maps_ok s → maps_ok (on_MSG_ROOT_MAP (btree_remove k) s).2.
Proof.
  intros [? ? Hsorted ? ? ? ? Hmsg ? ?]. unfold on_MSG_ROOT_MAP.
  pose proof (btree_remove_ok k _ Hsorted) as Hs.
  pose proof (λ e, elem_of_btree_remove k (MSG_ROOT_MAP s) e) as He.
  destruct (btree_remove k (MSG_ROOT_MAP s)) as [o m]; simpl in *.
  split; simpl; try done. intros k' v' Hin. by apply Hmsg, He.
Qed.

(** ** The submissions *)

(** A submission is made of entries that were in the maps. *)
Definition assembled (p : SubxtXcmpProof) (beefy_root : H256) : Prop :=
  ∃ n lp1 heads r4 lp4 channel,
    P_leaves (rpmp_root heads, n) (beefy_root, lp1) ∧
    P_heads (root channel) heads ∧ P_channel r4 channel ∧ P_msg r4 lp4 ∧
    decode_mmr_proof (lp_proof lp1) = Some (sx_stage_1 p).1 ∧
    decode_leaves (lp_leaves lp1) = Some (sx_stage_1 p).2 ∧
    sx_stage_2 p = para_merkle_proof_into heads ∧
    sx_stage_3 p = channel_proof_to_subxt channel ∧
    decode_mmr_proof (lp_proof lp4) = Some (sx_stage_4 p).1 ∧
    decode_leaves (lp_leaves lp4) = Some (sx_stage_4 p).2.

(** Transactions go to the sender chain, and XCMP proofs are [assembled] and signed
    with charlie's key. *)
Definition submission_ok (endpoint : string) (tx : Tx) (signer : Signer) : Prop :=
  endpoint = DEFAULT_ENDPOINT_PARA_SENDER ∧
  match tx with
  | tx_submit_xcmp_proof p r => signer = charlie ∧ assembled p r
  | tx_update_root _ channel_id => signer = alice ∧ channel_id = #0
  | tx_submit_test_proof _ _ channel_id => signer = bob ∧ channel_id = #0
  end.

Definition allowed (_ : history) (B : Type) (q : Req B) : Prop :=
  match q with
  | sign_and_submit_then_watch endpoint tx signer => submission_ok endpoint tx signer
  | _ => True
  end.

Definition spawnable (t : Task) : Prop :=
  match t with
  | CollectRelayData c => c = relay_client
  | CollectParaData c => c = sender_client
  | ProofAndVerify c _ _ _ _ => c = sender_client
  | _ => True
  end.

Abbreviation safe h p Φ := (wps answers maps_ok allowed spawnable h p Φ).

(** ** Helpers *)

Lemma MultiClient_new_safe h e r (Φ : history → MultiClient → Prop) :
  (∀ h', Φ h' (mkMultiClient e r)) → safe h (MultiClient_new e r) Φ.
Proof. intros HΦ. unfold MultiClient_new. by repeat wps_step. Qed.

Lemma generate_mmr_root_safe h c ch bh (Φ : history → H256 → Prop) :
  (∀ b r, answers h _ (mmr_root (rpc_client c) bh ch) b → b = Ok (Some r) →
    Φ (Ev (mmr_root (rpc_client c) bh ch) b :: h) r) →
  safe h (generate_mmr_root c ch bh) Φ.
Proof. intros HΦ. unfold generate_mmr_root. repeat wps_step. naive_solver. Qed.

Lemma generate_mmr_proof_safe h c n ch bh (Φ : history → LeavesProof → Prop) :
  (∀ b p, answers h _ (mmr_generateProof (rpc_client c) [n] None bh ch) b → b = Ok (Some p) →
    Φ (Ev (mmr_generateProof (rpc_client c) [n] None bh ch) b :: h) p) →
  safe h (generate_mmr_proof c n ch bh) Φ.
Proof.
  intros HΦ. unfold generate_mmr_proof. repeat wps_step. case_match; naive_solver.
Qed.

Lemma extract_channel_root_safe h pl (Φ : history → H256 → Prop) :
  (∀ r, channel_root_of pl = Some r → Φ h r) →
  safe h (extract_channel_root pl) Φ.
Proof.
  intros HΦ. unfold extract_channel_root. repeat wps_step.
  match goal with Hd : decode_header _ = Some _, He : extract_xcmp_channel_merkle_root _ = _ |- _ =>
    apply HΦ; unfold channel_root_of; rewrite Hd; exact He end.
Qed.

Lemma watch_safe h c (Φ : history → () → Prop) : (∀ h', Φ h' tt) → safe h (watch c) Φ.
Proof. intros HΦ. unfold watch. repeat (wps_step || case_match); auto. Qed.

Lemma update_root_safe h r (Φ : history → () → Prop) :
  (∀ h', Φ h' tt) → safe h (relayer_update_root sender_client r) Φ.
Proof. intros HΦ. unfold relayer_update_root. repeat wps_step; [done|by apply watch_safe]. Qed.

Lemma submit_proof_safe h p (Φ : history → () → Prop) :
  (∀ h', Φ h' tt) → safe h (submit_proof sender_client p) Φ.
Proof. intros HΦ. unfold submit_proof. repeat wps_step; [done|by apply watch_safe]. Qed.

(** ** The collectors *)

Hypothesis SPEC : entry_specs.

(** An RPC answer that is [Ok (Some _)] is the only one that goes on. *)
Lemma flatten_answer {X E'} (a : result E' (option X)) x :
  match a with Ok o => o | Err _ => None end = Some x → a = Ok (Some x).
Proof. destruct a; naive_solver. Qed.

Lemma collect_relay_round_safe h :
  safe h (collect_relay_round relay_client) (round_post (λ _, True)).
Proof.
  unfold collect_relay_round.
  apply wps_bind, wps_request; [done|]. intros [block|] Hb; [|by apply wps_ret].
  apply wps_bind, wps_pmap_err. intros blk ->.
  apply wps_bind, wps_request; [done|]. intros ? Hroot.
  apply wps_bind, wps_pok_or. intros root ->%flatten_answer.
  apply wps_bind, wps_request; [done|]. intros ? _.
  apply wps_bind, wps_pok_or. intros ? _.
  apply wps_bind, wps_catch; [|by intros; apply wps_bind, wps_pmap_err].
  apply generate_mmr_proof_safe. intros ? p Hp ->.
  apply wps_bind, wps_pmap_err. intros ? [= <-].
  apply wps_bind, wps_pok_or. intros leaves Hls.
  apply wps_bind, wps_pindex. intros l Hl.
  apply wps_bind, wps_pok_or. intros bl Hbl.
  apply wps_bind, wps_try_write.
  { intros s Hs. apply leaves_insert; [done|].
    by eapply (leaves_spec SPEC (_ :: _) (_ :: _)); [| |exact Hroot|exact Hp|..]. }
  intros _. apply wps_bind, wps_request; [done|]. intros ? Hheads.
  apply wps_bind, wps_pok_or. intros heads ->%flatten_answer.
  apply wps_bind, wps_catch; [|by intros; rewrite bool_decide_true].
  apply extract_channel_root_safe. intros r Hr. cbv beta zeta iota. case_bool_decide as Hz; [done|].
  apply wps_bind, wps_try_write; [|by intros; apply wps_ret].
  intros s Hs. apply heads_insert; [done|]. destruct heads as [? ? ? ? [[] ?]].
  by eapply (heads_spec SPEC (_ :: _) blk); [|exact Hheads|..].
Qed.

Lemma collect_para_round_safe h :
  safe h (collect_para_round sender_client) (round_post (λ _, True)).
Proof.
  unfold collect_para_round.
  apply wps_bind, wps_request; [done|]. intros [block|] Hb; [|by apply wps_ret].
  apply wps_bind, wps_pmap_err. intros blk ->.
  apply wps_bind, generate_mmr_root_safe. intros ? r Hr ->.
  apply wps_bind, generate_mmr_proof_safe. intros ? p Hp ->.
  apply wps_bind, wps_try_write.
  { intros s Hs. apply msg_insert; [done|].
    by eapply (msg_spec SPEC (_ :: _) (_ :: _) blk); [..|exact Hr|exact Hp]. }
  intros _. apply wps_bind, wps_request; [done|]. intros ? Hc.
  apply wps_bind, wps_pok_or. intros c ->%flatten_answer.
  apply wps_bind, wps_try_write.
  { intros s Hs. apply channel_root_insert; [done|].
    by eapply (root_spec SPEC (_ :: _) blk c); [|exact Hc]. }
  intros _. apply wps_bind, wps_try_write; [by intros []|]. intros o. cbv beta zeta.
  destruct (default false o); [|by apply wps_ret]. cbv beta iota.
  apply wps_bind, wps_try_write; [|by intros; apply wps_ret].
  intros s Hs. apply channel_insert; [done|].
  by eapply (channel_spec SPEC (_ :: _) (_ :: _) blk r c); [..|exact Hr|exact Hc].
Qed.

(** ** Assembly *)

Lemma elem_of_beefy_entries r v m :
  v ∈ beefy_entries_of r m → ∃ n, ((r, n), v) ∈ m.
Proof.
  unfold beefy_entries_of. intros ([[r' n] v'] & -> & [<- Hin]%list_elem_of_filter)%list_elem_of_fmap.
  by exists n.
Qed.

Lemma generate_xcmp_proof_safe h c1 c2 (Φ : history → () → Prop) :
  (∀ h', Φ h' tt) → safe h (generate_xcmp_proof sender_client c1 c2) Φ.
Proof.
  intros HΦ. unfold generate_xcmp_proof.
  apply wps_bind, wps_request; [done|]. intros ? _.
  apply wps_bind, wps_pmap_err. intros ? _.
  apply wps_bind, wps_try_read; [by intros []| |by apply wps_bind, wps_pok_or].
  intros s1 Hs1. apply wps_bind, wps_pok_or. intros [r4 lp4] Hhead.
  assert (P_msg r4 lp4) as Hmsg.
  { apply (msg_ok _ Hs1). clear Hs1. destruct s1 as [? ? [|e m] ? ?]; [done|].
    injection Hhead as ->. apply list_elem_of_here. }
  apply wps_bind, wps_try_write; [by intros []|]. intros o. cbv beta zeta.
  destruct (default false o); cbv beta iota delta [negb];
    [|apply wps_bind, wps_lock; by intros []].
  apply wps_bind, wps_pok_or. intros leaves4 Hl4.
  apply wps_bind, wps_pok_or. intros p4 Hp4.
  apply wps_bind, wps_try_read; [by intros []| |by apply wps_bind, wps_pok_or].
  intros s2 Hs2. apply wps_bind, wps_pok_or. intros channel Hch%btree_get_elem%(channel_ok _ Hs2).
  apply wps_bind, wps_try_read; [by intros []| |by apply wps_bind, wps_pok_or].
  intros s3 Hs3. apply wps_bind, wps_pok_or. intros heads Hh%btree_get_elem%(heads_ok _ Hs3).
  apply wps_bind, wps_try_read; [by intros []| |done].
  intros s4 Hs4. cbv beta zeta. case_bool_decide; [done|].
  apply wps_bind, wps_pindex. intros [beefy lp1] Hlast.
  apply list_elem_of_lookup_2, elem_of_beefy_entries in Hlast as [n Hn%(leaves_ok _ Hs4)].
  apply wps_bind, wps_pok_or. intros leaves1 Hl1.
  apply wps_bind, wps_pok_or. intros p1 Hp1.
  apply wps_bind, wps_try_write; [intros s Hs; by apply msg_remove|]. intros removed.
  repeat wps_step. unfold relayer_submit_xcmp_proof. repeat wps_step; [|by apply watch_safe].
  split; [done|]. split; [done|]. by exists n, lp1, heads, r4, lp4, channel.
Qed.

(** ** All tasks *)

Lemma subscribe_safe {A} h c (a : A) (Φ : history → A → Prop) :
  (∀ h', Φ h' a) → safe h (subscribe c a) Φ.
Proof. intros HΦ. unfold subscribe. by repeat wps_step. Qed.

Lemma proof_and_verify_round_safe h c1 c2 vars :
  safe h (proof_and_verify_round sender_client c1 c2 vars) (round_post (λ _, True)).
Proof.
  unfold proof_and_verify_round. destruct vars as [r p].
  apply wps_bind, wps_request; [done|]. intros [block|] _; [|by apply wps_ret].
  repeat wps_step.
  apply wps_catch_any; [by apply update_root_safe|]. intros ? _.
  apply wps_bind, wps_catch_any; [by apply generate_xcmp_proof_safe|]. intros ? _.
  case_bool_decide; [|by apply wps_ret].
  apply wps_bind, wps_catch_any; [by apply submit_proof_safe|].
  intros ? [|]; [|by apply wps_ret].
  apply wps_bind, generate_mmr_root_safe. intros ? ? _ _.
  apply wps_bind, generate_mmr_proof_safe. intros ? ? _ _. by apply wps_ret.
Qed.

Lemma call_run_safe {A} h (r : run A) (Φ : history → A → Prop) :
  (∀ a, Φ h a) → safe h (call_run r) Φ.
Proof. intros HΦ. destruct r; [apply wps_ret, HΦ|exact Logic.I..]. Qed.

Lemma log_all_mmr_proofs_round_safe h c vars :
  safe h (log_all_mmr_proofs_round overflow_checks c vars) (round_post (λ _, True)).
Proof.
  destruct vars as [[sizes blocks] counter]. unfold log_all_mmr_proofs_round.
  apply wps_bind, wps_request; [done|]. intros [block|] _; [|by apply wps_ret].
  repeat wps_step. apply call_run_safe. intros ?.
  apply wps_bind, call_run_safe. intros ?. by apply wps_ret.
Qed.

Lemma log_all_mmr_roots_round_safe h c :
  safe h (log_all_mmr_roots_round c) (round_post (λ _, True)).
Proof.
  unfold log_all_mmr_roots_round.
  apply wps_bind, wps_request; [done|]. intros [block|] _; by repeat wps_step.
Qed.

Lemma log_all_blocks_round_safe h c :
  safe h (log_all_blocks_round c) (round_post (λ _, True)).
Proof.
  unfold log_all_blocks_round.
  apply wps_bind, wps_request; [done|]. intros [block|] _; by repeat wps_step.
Qed.

Abbreviation safe_thread := (thread_ok answers maps_ok allowed spawnable).

Lemma tasks_safe t : spawnable t → safe_thread (start (tasks overflow_checks t)).
Proof.
  destruct t; simpl; intros Hc; subst.
  all: eapply (start_ok _ _ _ _ _ (λ _, True)); simpl; [|intros h l _].
  all: eauto using subscribe_safe, collect_relay_round_safe, collect_para_round_safe,
    proof_and_verify_round_safe, log_all_mmr_proofs_round_safe, log_all_mmr_roots_round_safe,
    log_all_blocks_round_safe.
  apply wps_bind, wps_pindex. intros ? _. by apply subscribe_safe.
Qed.

Lemma log_all_blocks_from_safe h i cs (Φ : history → () → Prop) :
  (∀ h', Φ h' tt) → safe h (log_all_blocks_from i cs) Φ.
Proof.
  intros HΦ. revert i. induction cs as [|c cs IH]; intros i; [by apply wps_ret|].
  apply wps_bind, wps_spawn; [done|]. apply IH.
Qed.

Lemma get_proof_and_verify_safe h c1 c2 (Φ : history → () → Prop) :
  (∀ h', Φ h' tt) → safe h (get_proof_and_verify sender_client c1 c2) Φ.
Proof.
  intros HΦ. unfold get_proof_and_verify.
  apply wps_bind, generate_mmr_root_safe. intros ? ? _ _.
  apply wps_bind, generate_mmr_proof_safe. intros ? ? _ _.
  repeat wps_step. by apply wps_spawn.
Qed.

Lemma main_safe : safe [] (main) (λ _ _, True).
Proof.
  unfold main. do 3 (apply wps_bind, MultiClient_new_safe; intros ?).
  do 4 (apply wps_bind, wps_spawn; [done|]).
  apply wps_bind, get_proof_and_verify_safe. intros ?.
  by apply wps_bind, log_all_blocks_from_safe.
Qed.

(** Every interleaving keeps the maps' invariant and makes only the transactions of
    [submission_ok]. *)
Lemma reachable_safe c :
  rtc (cstep (tasks overflow_checks) answers) boot c →
  maps_ok (store c) ∧ Forall safe_thread (threads c).
Proof.
  intros Hc. apply (adequacy _ _ _ _ _ _ _ tasks_safe Hc); [apply empty_maps_ok|].
  constructor; [|done]. apply (start_ok _ _ _ _ _ (λ _, True)); [apply main_safe|]. done.
Qed.
End invariant.
End safety.
