(* ===== verification/RelayerDouble.v ===== *)
(** * Concrete nodes

    An oracle that answers the relayer's requests from the tables of [TestDouble],
    and schedules under which the relayer collects a message and submits its proof. *)
From S2P Require Import Prelude Words Sdk MessageStuffer TestDouble BTree Conc Relayer.

#[export] Instance td_client : ClientLib := {| RpcError := (); SubxtError := () |}.

Definition td_block : Block := mkBlock #1 #11.

Definition td_leaves_proof (leaf : bytes) : LeavesProof := mkLeavesProof #11 leaf [].

Definition td_heads_proof : RelayParaMerkleProof :=
  mkRelayParaMerkleProof td_heads_root [] 1 0 (mkRelayParaLeaf (mkParaId #1000) [ #2]).

(** The sender's RPC speaks of the channel MMR, the relay chain's of the BEEFY MMR. *)
Definition td_orc (_ : list (event Req)) (B : Type) (q : Req B) : B :=
  match q in Req B return B with
  | from_url _ => Ok tt
  | http_build _ => Ok tt
  | mmr_root rpc _ _ =>
      Ok (Some (if decide (rpc = DEFAULT_RPC_ENDPOINT_PARA_SENDER) then td_channel_mmr_root
                else td_beefy_root))
  | chain_getHeader _ _ => Ok (Some ( #1 : Header))
  | mmr_generateProof rpc _ _ _ _ =>
      Ok (Some (td_leaves_proof (if decide (rpc = DEFAULT_RPC_ENDPOINT_PARA_SENDER)
                                 then td_message else td_beefy_leaf)))
  | mmr_verifyProofStateless _ _ _ => Ok (Some true)
  | subscribe_best _ => Ok tt
  | next_block _ => Some (Ok td_block)
  | blocks_at_latest _ => Ok td_block
  | get_para_heads_proof _ _ _ => Ok (Some td_heads_proof)
  | get_xcmp_channels_proof _ _ _ => Ok (Some (channel_proof_to_subxt td_channel_proof))
  | runtime_api_at_latest _ => Ok tt
  | get_current_beefy_root _ => Ok td_beefy_root
  | storage_at_latest _ => Ok tt
  | fetch_xcmp_channel_roots _ _ => Ok None
  | sign_and_submit_then_watch _ _ _ => Ok tt
  | wait_for_in_block _ => Ok tt
  | wait_for_success _ => Ok tt
  | sleep _ => tt
  end.

(** [main] first (thread 0), then one round of each collector (threads 1 and 2),
    then one round of the submitter (thread 5). *)
Definition td_schedule : list (nat * bool) :=
  repeat (0, true) 30 ++ repeat (1, true) 12 ++ repeat (2, true) 12 ++ repeat (5, true) 21.

Definition td_run : config Maps Req Task Anyhow := exec (tasks true) td_orc td_schedule boot.

(** The proof that is submitted in that run. *)
Definition td_submitted : SubxtXcmpProof := {|
  sx_stage_1 := (tt, [td_beefy_leaf]);
  sx_stage_2 := para_merkle_proof_into td_heads_proof;
  sx_stage_3 := channel_proof_to_subxt td_channel_proof;
  sx_stage_4 := (tt, [td_message])
|}.

(** The same nodes, except for the answers about roots and the runtime API. *)
Definition td_orc_with (roots : result () (option H256)) (api : result () ())
    (h : list (event Req)) (B : Type) (q : Req B) : B :=
  match q in Req B return B with
  | mmr_root _ _ _ => roots
  | runtime_api_at_latest _ => api
  | q => td_orc h _ q
  end.

(** The maps after one round of each collector. *)
Definition td_maps : Maps := {|
  LEAVES_BEEFY_MMR_MAP := [((td_heads_root, #1), (td_beefy_root, td_leaves_proof td_beefy_leaf))];
  PARA_HEADERS_MAP := [(td_channel_root, td_heads_proof)];
  MSG_ROOT_MAP := [(td_channel_mmr_root, td_leaves_proof td_message)];
  MSG_ROOT_CHANNEL_MERKLE_MAP := [(td_channel_mmr_root, td_channel_proof)];
  CHANNEL_ROOT_PROOF_MAP := [(td_channel_root, td_channel_proof)]
|}.
