(* ===== verification/RelayerClaims.v ===== *)
(** * Guarantees of the relayer

    The theorems about every interleaving of the relayer's tasks: what its maps
    hold and where it comes from, how the proofs it submits are linked whatever the nodes
    answer, and the interface [honest] under which only the first tier is left to check. *)
From S2P Require Import Prelude Words Sdk MessageStuffer StufferSafety TestDouble.
From S2P Require Import BTree Conc Relayer RelayerSafety RelayerDouble.

(** ** Submissions *)

Section submissions.
Context {CL : ClientLib} {ML : MmrLib} {SC : ScaleLib}.

Definition tx_event (e : event Req) : option (string * Tx * Signer) :=
  match e with
  | @Ev _ _ q _ =>
      match q with
      | sign_and_submit_then_watch endpoint tx signer => Some (endpoint, tx, signer)
      | _ => None
      end
  end.

(** The transactions submitted so far. *)
Definition submissions (c : config Maps Req Task Anyhow) : list (string * Tx * Signer) :=
  threads c ≫= λ th, omap tx_event (th_hist th).
End submissions.

Section claims.
Context {CL : ClientLib} {ML : MmrLib} {BM : MerkleLib} {SC : ScaleLib}.
Context (overflow_checks : bool).
Abbreviation history := (list (event Req)).

Section generic.
Context (answers : history → ∀ B, Req B → B → Prop).
Context (P_leaves : H256 * u32 → H256 * LeavesProof → Prop).
Context (P_heads : H256 → RelayParaMerkleProof → Prop).
Context (P_msg : H256 → LeavesProof → Prop).
Context (P_channel : H256 → ChannelMerkleProof → Prop).
Context (P_root : H256 → ChannelMerkleProof → Prop).
Hypothesis SPEC : entry_specs answers P_leaves P_heads P_msg P_channel P_root.

Lemma submissions_safe c endpoint tx signer :
  rtc (cstep (tasks overflow_checks) answers) boot c →
  (endpoint, tx, signer) ∈ submissions c →
  submission_ok P_leaves P_heads P_msg P_channel endpoint tx signer.
Proof.
  intros [_ Hths]%(reachable_safe _ _ _ _ _ _ _ SPEC) Hin.
  apply list_elem_of_bind in Hin as (th & Hin & Hth).
  apply list_elem_of_omap in Hin as (e & He & Htx).
  destruct (proj1 (list.Forall_forall _ _) Hths th Hth) as [Hg _].
  apply (guarded_elem _ _ _ Hg) in He as [h' Ha].
  destruct e as [B q b]. destruct q; simpl in *; try done. by injection Htx as -> -> ->.
Qed.
End generic.

(** ** Links *)

(** Each tier of a submission names the root of the next one. *)
Definition linked (p : XcmpProof) : Prop :=
  (∃ l bl, (stage_1 p).2 !! 0 = Some l ∧
    decode_beefy_leaf (opaque_leaf_0 (into_opaque_leaf l)) = Some bl ∧
    leaf_extra bl = pmp_root (stage_2 p)) ∧
  channel_root_of (pmp_leaf (stage_2 p)) = Some (root (stage_3 p)) ∧
  root (stage_3 p) ≠ H256_zero.

Definition leaves_linked (k : H256 * u32) (v : H256 * LeavesProof) : Prop :=
  ∃ leaves l bl, decode_leaves (lp_leaves v.2) = Some leaves ∧ leaves !! 0 = Some l ∧
    decode_beefy_leaf (opaque_leaf_0 (into_opaque_leaf l)) = Some bl ∧ leaf_extra bl = k.1.
Definition heads_linked (k : H256) (v : RelayParaMerkleProof) : Prop :=
  channel_root_of (para_leaf_into (rpmp_leaf v)) = Some k ∧ k ≠ H256_zero.

Lemma linked_specs answers :
  entry_specs answers leaves_linked heads_linked (λ _ _, True) (λ _ _, True) (λ _ _, True).
Proof. split; unfold leaves_linked, heads_linked; naive_solver. Qed.

(** [C9] Whatever the nodes answer, however the tasks interleave and whichever locks
    are busy: every transaction of the relayer goes to the sending parachain, and
    every XCMP proof among them is signed with charlie's key and linked from tier 1
    to tier 3. *)
Theorem submissions_linked answers c endpoint p beefy_root signer :
  rtc (cstep (tasks overflow_checks) answers) boot c →
  (endpoint, tx_submit_xcmp_proof p beefy_root, signer) ∈ submissions c →
  endpoint = DEFAULT_ENDPOINT_PARA_SENDER ∧ signer = charlie ∧ linked (decoded_call p).
Proof.
  intros Hc Hin. apply (submissions_safe _ _ _ _ _ _ (linked_specs answers) _ _ _ _ Hc) in Hin.
  destruct Hin as (-> & -> & n & lp1 & heads & r4 & lp4 & ch & (ls & l & bl & Hls & Hl & Hbl & Hx)
    & [Hh Hz] & _ & _ & _ & Hls1 & Hs2 & Hs3 & _).
  split_and!; [done..|]. destruct p as [[p1 l1] s2 s3 s4]; simpl in *.
  rewrite Hls in Hls1. injection Hls1 as ->. subst s2 s3. simpl in *.
  split_and!; [by exists l, bl|done|done].
Qed.

(** ** Where entries come from *)

(** A thread asked [q] while it was working on [block], and got [b]. *)
Definition received (c : config Maps Req Task Anyhow) (block : Block) {B} (q : Req B) (b : B) : Prop :=
  ∃ h, recorded c h q b ∧ last_block h = Some block.

(** The requests a collector makes for a block. *)
Definition ask_beefy_root : Req _ := mmr_root (rpc_client relay_client) None (Some #0).
Definition ask_proof (client : MultiClient) (block : Block) : Req _ :=
  mmr_generateProof (rpc_client client) [widen 64 (block_number block)] None
    (Some (block_hash block)) (Some RECEIVER_CHANNEL_ID).
Definition ask_heads (block : Block) : Req _ :=
  get_para_heads_proof (subxt_client relay_client) (block_hash block) (mkParaId #1000).
Definition ask_msg_root (block : Block) : Req _ :=
  mmr_root (rpc_client sender_client) (Some (block_hash block)) (Some RECEIVER_CHANNEL_ID).
Definition ask_channel (block : Block) : Req _ :=
  get_xcmp_channels_proof (subxt_client sender_client) (block_hash block) RECEIVER_CHANNEL_ID.

Section provenance.
Context (c : config Maps Req Task Anyhow).

Definition leaves_from (k : H256 * u32) (v : H256 * LeavesProof) : Prop :=
  leaves_linked k v ∧ ∃ block, block_number block = k.2 ∧
    received c block ask_beefy_root (Ok (Some v.1)) ∧
    received c block (ask_proof relay_client block) (Ok (Some v.2)).
Definition heads_from (k : H256) (v : RelayParaMerkleProof) : Prop :=
  heads_linked k v ∧ ∃ block, received c block (ask_heads block) (Ok (Some v)).
Definition msg_from (k : H256) (v : LeavesProof) : Prop :=
  ∃ block, received c block (ask_msg_root block) (Ok (Some k)) ∧
    received c block (ask_proof sender_client block) (Ok (Some v)).
Definition channel_from (k : H256) (v : ChannelMerkleProof) : Prop :=
  ∃ block, received c block (ask_msg_root block) (Ok (Some k)) ∧
    received c block (ask_channel block) (Ok (Some (channel_proof_to_subxt v))).
Definition root_from (k : H256) (v : ChannelMerkleProof) : Prop :=
  k = root v ∧ ∃ block, received c block (ask_channel block) (Ok (Some (channel_proof_to_subxt v))).

Lemma provenance_specs answers :
  entry_specs (λ h B q b, answers h B q b ∧ recorded c h q b)
    leaves_from heads_from msg_from channel_from root_from.
Proof.
  assert (∀ x, channel_proof_to_subxt (channel_proof_from_subxt x) = x) as Hsubxt by (by intros []).
  split; unfold leaves_from, heads_from, msg_from, channel_from, root_from, received.
  - intros h h' block r p ls l bl Hh Hh' [_ Hr] [_ Hp] Hls Hl Hbl.
    split; [by exists ls, l, bl|]. exists block. split_and!; [done|by exists h|by exists h'].
  - intros h block p r Hh [_ Hp] Hr Hz. split; [done|]. exists block. by exists h.
  - intros h h' block r p Hh Hh' [_ Hr] [_ Hp]. exists block. split; [by exists h|by exists h'].
  - intros h h' block r p Hh Hh' [_ Hr] [_ Hp]. rewrite Hsubxt.
    exists block. split; [by exists h|by exists h'].
  - intros h block p Hh [_ Hp]. rewrite Hsubxt. split; [done|]. exists block. by exists h.
Qed.
End provenance.

(** [C10] Whatever the nodes answer and however the tasks interleave, the maps stay
    sorted, and every entry is what some round was told while it worked on one block. In
    [LEAVES_BEEFY_MMR_MAP] the key is the heads root in the first leaf of the stored proof
    and the number of the relay block that the round worked on, for which the stored proof
    was answered, next to the root answered for the best block. In [PARA_HEADERS_MAP] the
    value is the heads proof answered for one relay block and the key the non-zero channel
    root in its header. In [MSG_ROOT_MAP] key and value are the root and the proof answered
    for one block of the sender, in [MSG_ROOT_CHANNEL_MERKLE_MAP] the root and the channel
    proof. In [CHANNEL_ROOT_PROOF_MAP] the value was answered for one block and the key is
    its root. *)
Theorem maps_invariant answers c :
  rtc (cstep (tasks overflow_checks) answers) boot c →
  maps_ok (leaves_from c) (heads_from c) (msg_from c) (channel_from c) (root_from c) (store c).
Proof.
  intros Hc%rtc_cstep_recorded.
  by apply (reachable_safe overflow_checks _ _ _ _ _ _ (provenance_specs c answers)).
Qed.

(** ** Honest nodes *)

Section honest.
(** The root of the relay chain's MMR and of the channel's MMR on the sending
    parachain, by block hash. *)
Context (relay_mmr_root para_mmr_root : H256 → H256).

(** A leaves proof decodes and verifies against a root. *)
Definition proves (root : H256) (p : LeavesProof) : Prop :=
  ∃ pr ls, decode_mmr_proof (lp_proof p) = Some pr ∧ decode_leaves (lp_leaves p) = Some ls ∧
    mmr_included root (pr, ls).

(** The documented behaviour of the nodes' APIs: a proof generated at a block verifies
    against the root of the MMR at that block, a proof for one block has one leaf, the
    sender's [mmr_root] at a block is that root, the Merkle proofs of the runtime APIs
    verify, and the channel proof is for the root of the channel's MMR. Nothing is said of
    the root that the relay chain's node answers for its best block, which need not be the
    block the thread is working on. Errors and [None] are always allowed. *)
Definition honest (h : history) (B : Type) (q : Req B) : B → Prop :=
  match q in Req B return B → Prop with
  | mmr_root rpc at_block ch => λ b, ∀ r bh, b = Ok (Some r) → ch = Some RECEIVER_CHANNEL_ID →
      rpc = DEFAULT_RPC_ENDPOINT_PARA_SENDER → at_block = Some bh → r = para_mmr_root bh
  | mmr_generateProof rpc blocks best at_block ch => λ b, ∀ p bh, b = Ok (Some p) →
      best = None → at_block = Some bh → ch = Some RECEIVER_CHANNEL_ID →
      (rpc = DEFAULT_RPC_ENDPOINT_PARA_SENDER → proves (para_mmr_root bh) p) ∧
      (rpc = DEFAULT_RPC_ENDPOINT_RELAY → proves (relay_mmr_root bh) p) ∧
      ∀ n, blocks = [n] → ∀ ls, decode_leaves (lp_leaves p) = Some ls → length ls = 1
  | get_para_heads_proof endpoint _ _ => λ b, ∀ p, b = Ok (Some p) →
      endpoint = DEFAULT_ENDPOINT_RELAY →
      merkle_included (rpmp_root p) (rpmp_proof p) (rpmp_num_leaves p) (rpmp_leaf_index p)
        (encode_para_leaf (para_leaf_into (rpmp_leaf p)))
  | get_xcmp_channels_proof endpoint bh _ => λ b, ∀ c, b = Ok (Some c) →
      endpoint = DEFAULT_ENDPOINT_PARA_SENDER →
      scmp_leaf c = para_mmr_root bh ∧
      merkle_included (scmp_root c) (scmp_proof c) (scmp_num_leaves c) (scmp_leaf_index c)
        (h256_bytes (scmp_leaf c))
  | _ => λ _, True
  end.

Definition leaves_honest c (k : H256 * u32) (v : H256 * LeavesProof) : Prop :=
  (∃ block, received c block ask_beefy_root (Ok (Some v.1)) ∧ proves (relay_mmr_root (block_hash block)) v.2) ∧
  ∀ ls, decode_leaves (lp_leaves v.2) = Some ls → beefy_leaf_of ls k.1.
Definition heads_honest (k : H256) (v : RelayParaMerkleProof) : Prop :=
  channel_root_of (para_leaf_into (rpmp_leaf v)) = Some k ∧
  merkle_included (rpmp_root v) (rpmp_proof v) (rpmp_num_leaves v) (rpmp_leaf_index v)
    (encode_para_leaf (para_leaf_into (rpmp_leaf v))).
Definition channel_honest (k : H256) (v : ChannelMerkleProof) : Prop :=
  leaf v = k ∧ merkle_included (root v) (proof v) (num_leaves v) (leaf_index v)
    (h256_bytes (leaf v)).

Lemma honest_specs c :
  entry_specs (λ h B q b, honest h B q b ∧ recorded c h q b)
    (leaves_honest c) heads_honest proves channel_honest (λ _ _, True).
Proof.
  split; simpl.
  - intros h h' block root p ls l bl Hlast _ [_ Hr] [Hp _] Hls Hl Hbl.
    destruct (Hp p (block_hash block) eq_refl eq_refl eq_refl eq_refl) as (_ & Hproves & Hone).
    split; [exists block; split; [by exists h|by apply Hproves]|].
    intros ls' Hls'. simpl in Hls'. rewrite Hls in Hls'. injection Hls' as <-.
    specialize (Hone _ eq_refl _ Hls). destruct ls as [|l' [|]]; try done.
    injection Hl as ->. by exists l, bl.
  - intros h block p r _ [Hp _] Hr Hz. by split; [|apply Hp].
  - intros h h' block root p _ _ [Hr _] [Hp _]. rewrite (Hr root _ eq_refl eq_refl eq_refl eq_refl).
    by apply (Hp p (block_hash block)).
  - intros h h' block root p _ _ [Hr _] [Hc _]. destruct (Hc p eq_refl eq_refl) as [Hleaf Hincl].
    split; [|done]. simpl. rewrite Hleaf. symmetry. by apply Hr.
  - done.
Qed.

(** What is left open of a submission is whether its first tier verifies against the
    targeted root; it does against the root of the block it was generated for. *)
Lemma assembled_valid c p beefy_root :
  assembled (leaves_honest c) heads_honest proves channel_honest p beefy_root →
  (mmr_included beefy_root (sx_stage_1 p) → xcmp_proof_valid beefy_root (decoded_call p)) ∧
  ∃ block, received c block ask_beefy_root (Ok (Some beefy_root)) ∧
    mmr_included (relay_mmr_root (block_hash block)) (sx_stage_1 p).
Proof.
  intros (n & lp1 & heads & r4 & lp4 & ch & [(block & Hblock & pr1 & ls1 & Hpr1 & Hls1 & Hin1) Hleaf] & [Hh Hin2]
    & [Hl3 Hin3] & (pr4 & ls4 & Hpr4 & Hls4 & Hin4) & Hp1 & Hd1 & Hs2 & Hs3 & Hp4 & Hd4).
  destruct p as [[p1 l1] s2 s3 [p4 l4]]; simpl in *.
  rewrite Hpr1 in Hp1; rewrite Hls1 in Hd1; rewrite Hpr4 in Hp4; rewrite Hls4 in Hd4.
  injection Hp1 as ->; injection Hd1 as ->; injection Hp4 as ->; injection Hd4 as ->. subst.
  split; [|by exists block]. split; simpl; auto.
Qed.

Context {Env : Type} {FS : FrameSystem} {LV : LeafVersionLib} {MP : XcmpMessageProvider Env}.
Context {CFG : Config Env} {WB : WeakBoundedVecLib}.

Lemma submissions_accepted c endpoint p beefy_root signer origin (s : Storage) :
  rtc (cstep (tasks overflow_checks) honest) boot c →
  (endpoint, tx_submit_xcmp_proof p beefy_root, signer) ∈ submissions c →
  is_Some (ensure_signed origin) → is_Some (SeenBeefyRoots s !! beefy_root) →
  (mmr_included beefy_root (sx_stage_1 p) →
     submit_xcmp_proof origin (decoded_call p) beefy_root s = Ret (Ok tt, s)) ∧
  (¬ mmr_included beefy_root (sx_stage_1 p) →
     submit_xcmp_proof origin (decoded_call p) beefy_root s =
       Ret (Err (Module XcmpStage1ProofDoesntVerify), s)) ∧
  ∃ block, received c block ask_beefy_root (Ok (Some beefy_root)) ∧
    mmr_included (relay_mmr_root (block_hash block)) (sx_stage_1 p).
Proof.
  intros Hc%rtc_cstep_recorded Hin Ho Hs.
  apply (submissions_safe _ _ _ _ _ _ (honest_specs c) _ _ _ _ Hc) in Hin.
  destruct Hin as (_ & _ & [Hvalid Hblock]%assembled_valid). split_and!; [| |done].
  - intros Hin%Hvalid. by apply submit_xcmp_proof_accepted.
  - intros Hin. by apply submit_xcmp_proof_errors.
Qed.

End honest.
End claims.

(** ** Witnesses *)

Lemma td_run_any : rtc (cstep (tasks true) (λ _ _ _ _, True)) boot td_run.
Proof. by apply exec_steps. Qed.

Lemma td_submissions :
  submissions td_run =
    [(DEFAULT_ENDPOINT_PARA_SENDER, tx_submit_xcmp_proof td_submitted td_beefy_root, charlie);
     (DEFAULT_ENDPOINT_PARA_SENDER, tx_update_root td_channel_mmr_root #0, alice)].
Proof. reflexivity. Qed.

Lemma td_run_submits :
  (DEFAULT_ENDPOINT_PARA_SENDER, tx_submit_xcmp_proof td_submitted td_beefy_root, charlie)
    ∈ submissions td_run.
Proof. rewrite td_submissions. apply list_elem_of_here. Qed.

Lemma submissions_linked_witness :
  DEFAULT_ENDPOINT_PARA_SENDER = DEFAULT_ENDPOINT_PARA_SENDER ∧ charlie = charlie ∧
  linked (decoded_call td_submitted).
Proof.
  exact (submissions_linked true _ _ _ _ _ _ td_run_any td_run_submits).
Defined.

Lemma maps_invariant_witness :
  maps_ok (leaves_from td_run) (heads_from td_run) (msg_from td_run) (channel_from td_run)
    (root_from td_run) (store td_run) ∧ length (PARA_HEADERS_MAP (store td_run)) = 1.
Proof. split; [exact (maps_invariant true (λ _ _ _ _, True) td_run td_run_any)|vm_compute; reflexivity]. Defined.
