(* ===== verification/RelayerRuns.v ===== *)
(** * Runs of the relayer's functions

    What each function of the relayer computes when it runs without contention:
    what a round of a collector stores, which proof the assembly submits, and
    what is lost when a call fails. [peval] makes these runs total: every function
    returns, whatever the oracle. *)
From S2P Require Import Prelude Words Sdk MessageStuffer StufferSafety TestDouble.
From S2P Require Import BTree Conc Relayer RelayerSafety RelayerDouble RelayerClaims.

Section runs.
Context {CL : ClientLib} {ML : MmrLib} {BM : MerkleLib} {SC : ScaleLib}.
Context (orc : list (event Req) → ∀ B, Req B → B).
Implicit Types (s : Maps) (h : list (event Req)).

Lemma generate_mmr_root_run c ch bh s h r :
  (∀ h, orc h _ (mmr_root (rpc_client c) bh ch) = Ok (Some r)) →
  peval orc (generate_mmr_root c ch bh) s h =
    (Ret (Ok r), s, Ev (mmr_root (rpc_client c) bh ch) (Ok (Some r)) :: h).
Proof. intros Hr. simpl. by rewrite Hr. Qed.

Lemma generate_mmr_proof_run c n ch bh s h p :
  (∀ h, orc h _ (mmr_generateProof (rpc_client c) [n] None bh ch) = Ok (Some p)) →
  peval orc (generate_mmr_proof c n ch bh) s h =
    (Ret (Ok p), s, Ev (mmr_generateProof (rpc_client c) [n] None bh ch) (Ok (Some p)) :: h).
Proof. intros Hp. simpl. by rewrite Hp. Qed.

(** ** The parachain collector *)

(** The maps after a round on the sending parachain. *)
Definition para_stored (s : Maps) (msg_root : H256) (msg_proof : LeavesProof)
    (c : SubxtChannelMerkleProof) : Maps :=
  let roots := btree_insert msg_root msg_proof (MSG_ROOT_MAP s) in
  let channel := channel_proof_from_subxt c in
  {| LEAVES_BEEFY_MMR_MAP := LEAVES_BEEFY_MMR_MAP s;
     PARA_HEADERS_MAP := PARA_HEADERS_MAP s;
     MSG_ROOT_MAP := roots;
     MSG_ROOT_CHANNEL_MERKLE_MAP :=
       if btree_contains (scmp_leaf c) roots
       then btree_insert msg_root channel (MSG_ROOT_CHANNEL_MERKLE_MAP s)
       else MSG_ROOT_CHANNEL_MERKLE_MAP s;
     CHANNEL_ROOT_PROOF_MAP := btree_insert (scmp_root c) channel (CHANNEL_ROOT_PROOF_MAP s) |}.

(** The nodes answer every request of a round for [block]. *)
Record para_answers (client : MultiClient) (block : Block) (msg_root : H256)
    (msg_proof : LeavesProof) (c : SubxtChannelMerkleProof) : Prop := {
  para_next : ∀ h, orc h _ (next_block (subxt_client client)) = Some (Ok block);
  para_root : ∀ h, orc h _ (mmr_root (rpc_client client) (Some (block_hash block))
    (Some RECEIVER_CHANNEL_ID)) = Ok (Some msg_root);
  para_proof : ∀ h, orc h _ (mmr_generateProof (rpc_client client)
    [widen 64 (block_number block)] None (Some (block_hash block)) (Some RECEIVER_CHANNEL_ID)) =
    Ok (Some msg_proof);
  para_channel : ∀ h, orc h _ (get_xcmp_channels_proof (subxt_client client) (block_hash block)
    RECEIVER_CHANNEL_ID) = Ok (Some c)
}.

Lemma collect_para_round_evals client block r p c s h :
  para_answers client block r p c →
  ∃ h', peval orc (collect_para_round client) s h = (Ret (Ok (Some tt)), para_stored s r p c, h').
Proof.
  intros [Hnext Hroot Hproof Hchannel]. unfold collect_para_round.
  peval_step. erewrite peval_map_err by done.
  erewrite peval_call by (by apply generate_mmr_root_run).
  erewrite peval_call by (by apply generate_mmr_proof_run).
  do 5 peval_step. eexists.
  unfold para_stored. destruct s as [ml mh mm mc mr]. simpl.
  by destruct (btree_contains (scmp_leaf c) _).
Qed.

(** ** The relay chain collector *)

(** The nodes answer every request of a round for [block], with a decodable leaf and
    a head that announces a channel root. *)
Record relay_answers (client : MultiClient) (block : Block) (root : H256) (proof : LeavesProof)
    (bl : BeefyMmrLeaf) (heads : RelayParaMerkleProof) (channel_root : H256) : Prop := {
  relay_next : ∀ h, orc h _ (next_block (subxt_client client)) = Some (Ok block);
  relay_root : ∀ h, orc h _ (mmr_root (rpc_client client) None (Some #0)) = Ok (Some root);
  relay_header : ∀ h, ∃ hd, orc h _ (chain_getHeader (rpc_client client) None) = Ok (Some hd);
  relay_proof : ∀ h, orc h _ (mmr_generateProof (rpc_client client)
    [widen 64 (block_number block)] None (Some (block_hash block)) (Some RECEIVER_CHANNEL_ID)) =
    Ok (Some proof);
  relay_leaf : ∃ leaves l, decode_leaves (lp_leaves proof) = Some leaves ∧ leaves !! 0 = Some l ∧
    decode_beefy_leaf (opaque_leaf_0 (into_opaque_leaf l)) = Some bl;
  relay_heads : ∀ h, orc h _ (get_para_heads_proof (subxt_client client) (block_hash block)
    (mkParaId #1000)) = Ok (Some heads);
  relay_channel_root : channel_root_of (para_leaf_into (rpmp_leaf heads)) = Some channel_root;
  relay_channel_root_ne : channel_root ≠ H256_zero
}.

Definition relay_stored (s : Maps) (block : Block) (root : H256) (proof : LeavesProof)
    (bl : BeefyMmrLeaf) (heads : RelayParaMerkleProof) (channel_root : H256) : Maps :=
  {| LEAVES_BEEFY_MMR_MAP := btree_insert (leaf_extra bl, block_number block) (root, proof)
       (LEAVES_BEEFY_MMR_MAP s);
     PARA_HEADERS_MAP := btree_insert channel_root heads (PARA_HEADERS_MAP s);
     MSG_ROOT_MAP := MSG_ROOT_MAP s;
     MSG_ROOT_CHANNEL_MERKLE_MAP := MSG_ROOT_CHANNEL_MERKLE_MAP s;
     CHANNEL_ROOT_PROOF_MAP := CHANNEL_ROOT_PROOF_MAP s |}.

Lemma extract_channel_root_run pl r s h :
  channel_root_of pl = Some r → peval orc (extract_channel_root pl) s h = (Ret (Ok r), s, h).
Proof.
  unfold channel_root_of, extract_channel_root. intros Hr.
  destruct (decode_header _) as [hd|]; [|done]. simpl in *. by rewrite Hr.
Qed.

Lemma heads_clone heads : relay_para_merkle_proof_clone heads = heads.
Proof. by destruct heads as [? ? ? ? [[] ?]]. Qed.
Lemma leaf_clone l : relay_para_leaf_clone l = l.
Proof. by destruct l as [[] ?]. Qed.

Lemma collect_relay_round_evals client block r p bl heads cr s h :
  relay_answers client block r p bl heads cr →
  ∃ h', peval orc (collect_relay_round client) s h =
    (Ret (Ok (Some tt)), relay_stored s block r p bl heads cr, h').
Proof.
  intros [Hnext Hroot Hheader Hproof (ls & l & Hls & Hl & Hbl) Hheads Hcr Hne].
  unfold collect_relay_round.
  peval_step. erewrite peval_map_err by done. peval_step. peval_step.
  edestruct Hheader as [hd Hhd]. erewrite peval_request by exact Hhd.
  erewrite peval_ok_or by done.
  erewrite peval_catch by (by apply generate_mmr_proof_run).
  erewrite peval_map_err by done. do 6 peval_step.
  rewrite leaf_clone, heads_clone. erewrite peval_catch by (by apply extract_channel_root_run).
  cbv beta zeta iota. rewrite bool_decide_false by done. rewrite peval_try_lock. by eexists.
Qed.

(** ** Errors end a collector *)

Lemma collect_relay_round_fails client block e s h :
  (∀ h, orc h _ (next_block (subxt_client client)) = Some (Ok block)) →
  (∀ h, orc h _ (mmr_root (rpc_client client) None (Some #0)) = Err e) →
  ∃ h', peval orc (collect_relay_round client) s h = (Ret (Err (Relayer Default)), s, h').
Proof.
  intros Hnext Hroot. unfold collect_relay_round.
  peval_step. erewrite peval_map_err by done. peval_step. by eexists.
Qed.

Lemma collect_para_round_fails client block e s h :
  (∀ h, orc h _ (next_block (subxt_client client)) = Some (Ok block)) →
  (∀ h, orc h _ (mmr_root (rpc_client client) (Some (block_hash block))
    (Some RECEIVER_CHANNEL_ID)) = Err e) →
  ∃ h', peval orc (collect_para_round client) s h = (Ret (Err (Rpc e)), s, h').
Proof.
  intros Hnext Hroot. unfold collect_para_round.
  peval_step. erewrite peval_map_err by done. simpl. rewrite Hroot. by eexists.
Qed.

(** ** Assembly *)

(** The maps hold every tier for the first message root. *)
Record ready (s : Maps) (r4 : H256) (lp4 : LeavesProof) (rest : list (H256 * LeavesProof))
    (channel : ChannelMerkleProof) (heads : RelayParaMerkleProof) (beefy_root : H256)
    (lp1 : LeavesProof) (p : SubxtXcmpProof) : Prop := {
  ready_msg : MSG_ROOT_MAP s = (r4, lp4) :: rest;
  ready_channel : btree_get r4 (MSG_ROOT_CHANNEL_MERKLE_MAP s) = Some channel;
  ready_heads : btree_get (root channel) (PARA_HEADERS_MAP s) = Some heads;
  ready_leaves : ∃ before,
    beefy_entries_of (rpmp_root heads) (LEAVES_BEEFY_MMR_MAP s) = before ++ [(beefy_root, lp1)];
  ready_stage_4 : decode_leaves (lp_leaves lp4) = Some (sx_stage_4 p).2 ∧
    decode_mmr_proof (lp_proof lp4) = Some (sx_stage_4 p).1;
  ready_stage_1 : decode_leaves (lp_leaves lp1) = Some (sx_stage_1 p).2 ∧
    decode_mmr_proof (lp_proof lp1) = Some (sx_stage_1 p).1;
  ready_stage_2 : sx_stage_2 p = para_merkle_proof_into heads;
  ready_stage_3 : sx_stage_3 p = channel_proof_to_subxt channel
}.

(** The maps without the first message root. *)
Definition dequeued (s : Maps) (rest : list (H256 * LeavesProof)) : Maps :=
  mkMaps (LEAVES_BEEFY_MMR_MAP s) (PARA_HEADERS_MAP s) rest (MSG_ROOT_CHANNEL_MERKLE_MAP s)
    (CHANNEL_ROOT_PROOF_MAP s).

(** The rest of [generate_xcmp_proof] once the first message root is removed. *)
Definition finish (client : MultiClient) (p : SubxtXcmpProof) (beefy_root : H256) :
    prog Maps Req Task Anyhow () :=
  api ← request (runtime_api_at_latest (subxt_client client));
  _ ← pmap_err api Subxt;
  _beefy_root ← request (get_current_beefy_root (subxt_client client));
  relayer_submit_xcmp_proof client p beefy_root.

Lemma generate_xcmp_proof_ready client c1 c2 block s h r4 lp4 rest channel heads beefy_root lp1 p :
  orc h _ (blocks_at_latest (subxt_client client)) = Ok block →
  ready s r4 lp4 rest channel heads beefy_root lp1 p →
  peval orc (generate_xcmp_proof client c1 c2) s h =
  peval orc (finish client p beefy_root) (dequeued s rest)
    (Ev (blocks_at_latest (subxt_client client)) (Ok block) :: h).
Proof.
  intros Hblock [Hmsg Hch Hheads [before Hleaves] [Hl4 Hp4] [Hl1 Hp1] Hs2 Hs3].
  destruct s as [ml mh mm mc mr], p as [[p1 l1] s2 s3 [p4 l4]].
  simpl in Hmsg, Hch, Hheads, Hleaves, Hl4, Hp4, Hl1, Hp1, Hs2, Hs3; subst mm s2 s3.
  assert (btree_contains r4 mc = true) as Hcontains by (unfold btree_contains; by rewrite Hch).
  unfold generate_xcmp_proof. erewrite peval_request by exact Hblock.
  erewrite peval_map_err by done. erewrite peval_lock_to by done.
  erewrite peval_ok_or by done. cbv beta iota zeta.
  erewrite peval_lock_to by (unfold on_MSG_ROOT_CHANNEL_MERKLE_MAP; simpl; by rewrite Hcontains).
  cbv beta iota zeta delta [default negb id from_option].
  erewrite peval_ok_or by exact Hl4. erewrite peval_ok_or by exact Hp4.
  erewrite peval_lock_to by done. erewrite peval_ok_or by exact Hch.
  erewrite peval_lock_to by done. erewrite peval_ok_or by exact Hheads.
  erewrite peval_lock_to by (unfold on_LEAVES_BEEFY_MMR_MAP; simpl; by rewrite Hleaves).
  cbv beta iota zeta delta [default id from_option].
  rewrite bool_decide_false by (by destruct before).
  erewrite peval_index by (rewrite length_app, Nat.add_sub; by apply list_lookup_middle).
  cbv beta iota. erewrite peval_ok_or by exact Hl1. erewrite peval_ok_or by exact Hp1.
  erewrite peval_lock_to by (unfold on_MSG_ROOT_MAP; simpl; by rewrite decide_True).
  by erewrite peval_ok_or by done.
Qed.

Lemma finish_submits client p beefy_root s h :
  (∀ h, orc h _ (runtime_api_at_latest (subxt_client client)) = Ok tt) →
  ∃ r h', peval orc (finish client p beefy_root) s h = (Ret r, s, h') ∧
    (subxt_client client, tx_submit_xcmp_proof p beefy_root, charlie) ∈ omap tx_event h' ∧
    ((∀ h, orc h _ (sign_and_submit_then_watch (subxt_client client)
        (tx_submit_xcmp_proof p beefy_root) charlie) = Ok tt) → r = Ok tt).
Proof.
  intros Hapi. unfold finish, relayer_submit_xcmp_proof.
  erewrite peval_request by apply Hapi. erewrite peval_map_err by done.
  erewrite peval_request by done. erewrite peval_request by done.
  destruct (orc _ _ (sign_and_submit_then_watch _ _ _)) as [[]|e] eqn:Hsubmit.
  - erewrite peval_map_err by done. unfold watch. erewrite peval_request by done.
    destruct (orc _ _ (wait_for_in_block _)); simpl; eexists _, _; (split; [done|]); simpl;
      (split; [set_solver|done]).
  - erewrite peval_map_err_Err by done. eexists _, _. split; [done|]. simpl.
    split; [set_solver|]. intros Hok. by rewrite Hok in Hsubmit.
Qed.

(** ** Guarantees *)

(** A round of the relay chain collector for which every call succeeds stores the
    BEEFY root and proof under the heads root and block number of the leaf, and the
    heads proof under the channel root that the parachain's header announces, and
    goes on to the next block. *)
Theorem collect_relay_round_run client block r p bl heads cr s h :
  relay_answers client block r p bl heads cr →
  ∃ h', peval orc (collect_relay_round client) s h =
    (Ret (Ok (Some tt)), relay_stored s block r p bl heads cr, h').
Proof. apply collect_relay_round_evals. Qed.

(** [C21] A round of the parachain collector for which every call succeeds stores the
    message root with its proof and the channel proof under its own root; it stores
    the channel proof under the message root exactly when the proof's leaf is one of
    the known message roots, the new one included. *)
Theorem collect_para_round_run client block r p c s h :
  para_answers client block r p c →
  ∃ h', peval orc (collect_para_round client) s h = (Ret (Ok (Some tt)), para_stored s r p c, h') ∧
    btree_get r (MSG_ROOT_CHANNEL_MERKLE_MAP (para_stored s r p c)) =
      if decide (scmp_leaf c = r ∨ is_Some (btree_get (scmp_leaf c) (MSG_ROOT_MAP s)))
      then Some (channel_proof_from_subxt c)
      else btree_get r (MSG_ROOT_CHANNEL_MERKLE_MAP s).
Proof.
  intros Ha. destruct (collect_para_round_evals client block r p c s h Ha) as [h' Hrun].
  exists h'. split; [done|]. simpl. unfold btree_contains. rewrite btree_get_insert.
  repeat case_decide; repeat case_bool_decide; rewrite ?btree_get_insert, ?decide_True by done;
    naive_solver.
Qed.


(** The first failed call for a root ends a collector for good: the round returns
    an error and stores nothing, and a task that ended with an error takes no further
    step, whatever happens to the store. *)
Theorem error_ends_collector client block e s h :
  (∀ h, orc h _ (next_block (subxt_client client)) = Some (Ok block)) →
  (∀ h a, orc h _ (mmr_root (rpc_client client) a (Some #0)) = Err e) →
  (∃ h', peval orc (collect_relay_round client) s h = (Ret (Err (Relayer Default)), s, h')) ∧
  (∃ h', peval orc (collect_para_round client) s h = (Ret (Err (Rpc e)), s, h')) ∧
  ∀ answers (th : thread Maps Req Task Anyhow) err s1 s2 th' ts,
    th_cur th = pthrow err → ¬ tstep answers s1 th s2 th' ts.
Proof.
  intros Hnext Hroot. split_and!.
  - by eapply collect_relay_round_fails.
  - by eapply collect_para_round_fails.
  - intros answers th err s1 s2 th' ts Hcur. by eapply finished_stuck.
Qed.

(** [C12] When the maps hold every tier for the least message root and the node
    answers, [generate_xcmp_proof] submits the proof made of those entries, with the
    last of the BEEFY entries for the heads root, and removes the message root. The
    root it picks is the least hash, not the oldest message. *)
Theorem generate_xcmp_proof_submits client c1 c2 block s h r4 lp4 rest channel heads beefy_root
    lp1 p :
  btree_ok (MSG_ROOT_MAP s) → ready s r4 lp4 rest channel heads beefy_root lp1 p →
  orc h _ (blocks_at_latest (subxt_client client)) = Ok block →
  (∀ h, orc h _ (runtime_api_at_latest (subxt_client client)) = Ok tt) →
  (∃ r h', peval orc (generate_xcmp_proof client c1 c2) s h = (Ret r, dequeued s rest, h') ∧
    (subxt_client client, tx_submit_xcmp_proof p beefy_root, charlie) ∈ omap tx_event h') ∧
  ∀ k v, (k, v) ∈ MSG_ROOT_MAP s → (uval r4 <= uval k)%Z.
Proof.
  intros Hsorted Hready Hblock Hapi. split.
  - erewrite generate_xcmp_proof_ready by done.
    edestruct finish_submits as (r & h' & Hrun & Hin & _); [done|]. by exists r, h'.
  - intros k v Hin. rewrite (ready_msg _ _ _ _ _ _ _ _ _ Hready) in Hsorted, Hin.
    apply (btree_first_least _ _ _ _ Hsorted) in Hin as [[= -> ->]|Hlt]; [lia|].
    apply Z.ltb_lt in Hlt. simpl in Hlt. lia.
Qed.

(** [C40] The message root is removed before the proof is submitted: when the call for
    the runtime API fails in between, the function returns the error, nothing was
    submitted, and the message root is in the map no more. *)
Theorem failed_call_loses_root client c1 c2 block s h r4 lp4 rest channel heads beefy_root
    lp1 p e :
  btree_ok (MSG_ROOT_MAP s) → ready s r4 lp4 rest channel heads beefy_root lp1 p →
  orc h _ (blocks_at_latest (subxt_client client)) = Ok block →
  (∀ h, orc h _ (runtime_api_at_latest (subxt_client client)) = Err e) →
  ∃ s' h', peval orc (generate_xcmp_proof client c1 c2) s h = (Ret (Err (Subxt e)), s', h') ∧
    omap tx_event h' = omap tx_event h ∧ btree_get r4 (MSG_ROOT_MAP s') = None.
Proof.
  intros Hsorted Hready Hblock Hapi. erewrite generate_xcmp_proof_ready by done. unfold finish.
  erewrite peval_request by apply Hapi. erewrite peval_map_err_Err by done.
  eexists _, _. split; [done|]. split; [done|]. simpl.
  rewrite (ready_msg _ _ _ _ _ _ _ _ _ Hready) in Hsorted.
  inversion Hsorted as [|?? _ Hall]; subst. by apply btree_get_above.
Qed.
End runs.

(** ** Witnesses *)

Lemma collect_relay_round_run_witness :
  ∃ h', peval td_orc (collect_relay_round relay_client) empty_maps [] =
    (Ret (Ok (Some tt)), relay_stored empty_maps td_block td_beefy_root
      (td_leaves_proof td_beefy_leaf) td_heads_root td_heads_proof td_channel_root, h').
Proof.
  apply collect_relay_round_run. split; try done.
  - intros h. by eexists.
  - by exists [td_beefy_leaf], td_beefy_leaf.
Defined.

Lemma collect_para_round_run_witness :
  ∃ h', peval td_orc (collect_para_round sender_client) empty_maps [] =
    (Ret (Ok (Some tt)), para_stored empty_maps td_channel_mmr_root (td_leaves_proof td_message)
      (channel_proof_to_subxt td_channel_proof), h') ∧
    btree_get td_channel_mmr_root (MSG_ROOT_CHANNEL_MERKLE_MAP
      (para_stored empty_maps td_channel_mmr_root (td_leaves_proof td_message)
        (channel_proof_to_subxt td_channel_proof))) = Some td_channel_proof.
Proof.
  destruct (collect_para_round_run td_orc sender_client td_block td_channel_mmr_root
    (td_leaves_proof td_message) (channel_proof_to_subxt td_channel_proof) empty_maps [])
    as (h' & Hrun & Hget); [by split|]. by exists h'.
Defined.


Lemma error_ends_collector_witness :
  ∃ h', peval (td_orc_with (Err tt) (Ok tt)) (collect_relay_round relay_client) td_maps [] =
    (Ret (Err (Relayer Default)), td_maps, h').
Proof. by apply (error_ends_collector (td_orc_with (Err tt) (Ok tt)) _ td_block tt). Defined.

Lemma td_maps_ready :
  ready td_maps td_channel_mmr_root (td_leaves_proof td_message) [] td_channel_proof
    td_heads_proof td_beefy_root (td_leaves_proof td_beefy_leaf) td_submitted.
Proof. split; try done. by exists []. Qed.

Lemma td_maps_sorted : btree_ok (MSG_ROOT_MAP td_maps).
Proof. by repeat constructor. Qed.

Lemma generate_xcmp_proof_submits_witness :
  ∃ r h', peval td_orc (generate_xcmp_proof sender_client relay_client receiver_client) td_maps [] =
    (Ret r, dequeued td_maps [], h') ∧
    (DEFAULT_ENDPOINT_PARA_SENDER, tx_submit_xcmp_proof td_submitted td_beefy_root, charlie)
      ∈ omap tx_event h'.
Proof.
  by apply (generate_xcmp_proof_submits td_orc sender_client relay_client receiver_client td_block
    td_maps [] _ _ _ _ _ _ _ _ td_maps_sorted td_maps_ready).
Defined.

Lemma failed_call_loses_root_witness :
  ∃ s' h', peval (td_orc_with (Ok None) (Err tt))
      (generate_xcmp_proof sender_client relay_client receiver_client) td_maps [] =
      (Ret (Err (Subxt tt)), s', h') ∧
    omap tx_event h' = [] ∧ btree_get td_channel_mmr_root (MSG_ROOT_MAP s') = None.
Proof.
  by apply (failed_call_loses_root (td_orc_with (Ok None) (Err tt)) sender_client relay_client
    receiver_client td_block td_maps [] _ _ _ _ _ _ _ _ _ td_maps_sorted td_maps_ready).
Defined.
