(* ===== verification/RelayerProgress.v ===== *)
(** * Progress of the submitter

    What becomes of the queue of message roots over many rounds of the submitter's
    loop ([get_proof_and_verify]): with every tier collected it drains, in ascending
    order of the roots; one root that lacks a tier and comes first stops it for
    good. *)
From S2P Require Import Prelude Words Sdk MessageStuffer StufferSafety TestDouble.
From S2P Require Import BTree Conc Relayer RelayerSafety RelayerDouble RelayerClaims RelayerRuns.

(** ** What an evaluation keeps *)

Section keeps.
Context {St : Type} {Req : Type → Type} {Task E : Type}.
Context (orc : list (event Req) → ∀ B, Req B → B).
(** An invariant of the store and the history. *)
Context (P : St → list (event Req) → Prop).
Abbreviation async A := (prog St Req Task E A).

(** Whatever the oracle answers, the function keeps [P]. *)
Definition keeps {A} (p : async A) : Prop :=
  ∀ s h r s' h', P s h → peval orc p s h = (r, s', h') → P s' h'.

Lemma keeps_done {A} (r : run (result E A)) : keeps (Done r).
Proof. by intros s h r' s' h' HP [= <- <- <-]. Qed.
Lemma keeps_ret {A} (a : A) : keeps (mret a).
Proof. apply keeps_done. Qed.

Lemma keeps_bind {A B} (p : async A) (k : A → async B) :
  keeps p → (∀ a, keeps (k a)) → keeps (x ← p; k x).
Proof.
  intros Hp Hk s h r s' h' HP. unfold mbind, prog_bind. rewrite peval_bind.
  destruct (peval orc p s h) as [[r1 s1] h1] eqn:E1. apply (Hp _ _ _ _ _ HP) in E1.
  destruct r1 as [[a|e]| |]; [by apply Hk|by intros [= <- <- <-]..].
Qed.

Lemma keeps_catch {A} (p : async A) : keeps p → keeps (pcatch p).
Proof.
  intros Hp s h r s' h' HP Hrun.
  assert (∃ r0, peval orc p s h = (r0, s', h')) as [r0 Hr0]; [|by eapply Hp].
  clear Hp HP. revert s h Hrun.
  induction p as [r'|C f g IH|C f g IH|C q g IH|t g IH]; simpl; intros s h; eauto.
  - destruct r' as [r'| |]; intros [= <- <- <-]; eauto.
  - destruct (f s). apply IH.
  - destruct (f s). apply IH.
Qed.

Lemma keeps_request {B} (q : Req B) :
  (∀ s h, P s h → P s (Ev q (orc h B q) :: h)) → keeps (request q).
Proof. intros Hq s h r s' h' HP [= <- <- <-]. by apply Hq. Qed.

Lemma keeps_pmap_err {A E'} (x : result E' A) (f : E' → E) : keeps (pmap_err x f).
Proof. destruct x; apply keeps_done. Qed.
Lemma keeps_pok_or {A} (o : option A) e : keeps (pok_or o e).
Proof. destruct o; apply keeps_done. Qed.
End keeps.

Create HintDb keeps.
#[export] Hint Resolve keeps_done keeps_ret keeps_bind keeps_catch keeps_pmap_err keeps_pok_or : keeps.
#[export] Hint Extern 1 (keeps _ _ (match ?x with _ => _ end)) => destruct x : keeps.

(** ** The submitter's loop *)

Section progress.
Context {CL : ClientLib} {ML : MmrLib} {BM : MerkleLib} {SC : ScaleLib}.
Context (orc : list (event Req) → ∀ B, Req B → B).
Context (client relay_client recv_client : MultiClient).
Implicit Types (s : Maps) (h : list (event Req)).

Definition xcmp_event (e : event Req) : option (SubxtXcmpProof * H256) :=
  match tx_event e with
  | Some (_, tx_submit_xcmp_proof p beefy_root, _) => Some (p, beefy_root)
  | _ => None
  end.

(** The XCMP proofs submitted so far, latest first. *)
Definition xcmp_submissions h : list (SubxtXcmpProof * H256) := omap xcmp_event h.

(** [n] rounds of the [while let] loop of the submitter. *)
Fixpoint submitter_rounds (n : nat) (vars : H256 * LeavesProof) :
    prog Maps Req Task Anyhow (option (H256 * LeavesProof)) :=
  match n with
  | O => mret (Some vars)
  | S n' =>
      next ← proof_and_verify_round client relay_client recv_client vars;
      match next with
      | None => mret None
      | Some vars => submitter_rounds n' vars
      end
  end.

(** *** A root that blocks the queue *)

(** The least message root lacks a tier. *)
Inductive blocked (s : Maps) : Prop :=
| no_channel_proof r4 lp4 rest :
    MSG_ROOT_MAP s = (r4, lp4) :: rest →
    btree_get r4 (MSG_ROOT_CHANNEL_MERKLE_MAP s) = None → blocked s
| no_heads_proof r4 lp4 rest channel :
    MSG_ROOT_MAP s = (r4, lp4) :: rest →
    btree_get r4 (MSG_ROOT_CHANNEL_MERKLE_MAP s) = Some channel →
    btree_get (root channel) (PARA_HEADERS_MAP s) = None → blocked s
| no_beefy_proof r4 lp4 rest channel heads :
    MSG_ROOT_MAP s = (r4, lp4) :: rest →
    btree_get r4 (MSG_ROOT_CHANNEL_MERKLE_MAP s) = Some channel →
    btree_get (root channel) (PARA_HEADERS_MAP s) = Some heads →
    beefy_entries_of (rpmp_root heads) (LEAVES_BEEFY_MMR_MAP s) = [] → blocked s.

(** [generate_xcmp_proof] up to the lookup of the channel proof. *)
Lemma generate_xcmp_proof_blocked s h r s' h' :
  blocked s → peval orc (generate_xcmp_proof client relay_client recv_client) s h = (r, s', h') →
  s' = s ∧ xcmp_submissions h' = xcmp_submissions h.
Proof.
  intros Hb. unfold generate_xcmp_proof. erewrite peval_request by done.
  destruct (orc h _ (blocks_at_latest _)) as [block|e];
    [|erewrite peval_map_err_Err by done; by intros [= <- <- <-]].
  erewrite peval_map_err by done.
  assert (∃ r4 lp4 rest, MSG_ROOT_MAP s = (r4, lp4) :: rest ∧
    ∀ channel heads, btree_get r4 (MSG_ROOT_CHANNEL_MERKLE_MAP s) = Some channel →
      btree_get (root channel) (PARA_HEADERS_MAP s) = Some heads →
      beefy_entries_of (rpmp_root heads) (LEAVES_BEEFY_MMR_MAP s) = [])
    as (r4 & lp4 & rest & Hm & Hmissing) by (destruct Hb; do 3 eexists; naive_solver).
  clear Hb. destruct s as [ml mh mm mc mr]; cbn [MSG_ROOT_MAP MSG_ROOT_CHANNEL_MERKLE_MAP
    PARA_HEADERS_MAP LEAVES_BEEFY_MMR_MAP] in Hm, Hmissing; subst mm.
  erewrite peval_lock_to by done. erewrite peval_ok_or by done. cbv beta iota zeta.
  destruct (btree_contains r4 mc) eqn:Hcontains.
  2: { erewrite peval_lock_to by (unfold on_MSG_ROOT_CHANNEL_MERKLE_MAP; simpl; by rewrite Hcontains).
       by intros [= <- <- <-]. }
  apply bool_decide_eq_true in Hcontains as Hsome; destruct Hsome as [channel Hch].
  erewrite peval_lock_to by (unfold on_MSG_ROOT_CHANNEL_MERKLE_MAP; simpl; by rewrite Hcontains).
  cbv beta iota zeta delta [default negb id from_option].
  destruct (decode_leaves (lp_leaves lp4)); [|by intros [= <- <- <-]].
  erewrite peval_ok_or by done.
  destruct (decode_mmr_proof (lp_proof lp4)); [|by intros [= <- <- <-]].
  erewrite peval_ok_or by done. erewrite peval_lock_to by done. erewrite peval_ok_or by exact Hch.
  erewrite peval_lock_to by done.
  destruct (btree_get (root channel) mh) as [heads|] eqn:Hh;
    [|unfold reading; simpl; rewrite Hh; by intros [= <- <- <-]].
  erewrite peval_ok_or by exact Hh.
  erewrite peval_lock_to by (unfold on_LEAVES_BEEFY_MMR_MAP; simpl; by rewrite (Hmissing _ _ Hch Hh)).
  by intros [= <- <- <-].
Qed.

(** *** The parts of a round that do not concern the queue *)

(** A function that returns, touches no map and submits no XCMP proof. *)
Definition quiet {A} (p : prog Maps Req Task Anyhow A) : Prop :=
  ∀ s h, ∃ r h', peval orc p s h = (Ret r, s, h') ∧ xcmp_submissions h' = xcmp_submissions h.

Lemma quiet_ret {A} (r : result Anyhow A) : quiet (Done (Ret r)).
Proof. intros s h. by exists r, h. Qed.
Lemma quiet_mret {A} (a : A) : quiet (mret a).
Proof. apply quiet_ret. Qed.
Lemma quiet_pmap_err {A E'} (x : result E' A) (f : E' → Anyhow) : quiet (pmap_err x f).
Proof. destruct x; apply quiet_ret. Qed.
Lemma quiet_pok_or {A} (o : option A) e : quiet (pok_or o e).
Proof. destruct o; apply quiet_ret. Qed.
Lemma quiet_bind {A B} (p : prog Maps Req Task Anyhow A) (k : A → prog Maps Req Task Anyhow B) :
  quiet p → (∀ a, quiet (k a)) → quiet (x ← p; k x).
Proof.
  intros Hp Hk s h. unfold mbind, prog_bind. rewrite peval_bind.
  destruct (Hp s h) as ([a|e] & h1 & -> & H1); [|by eexists _, h1].
  destruct (Hk a s h1) as (r & h2 & -> & H2). exists r, h2. by rewrite H2.
Qed.
Lemma quiet_request {B} (q : Req B) : (∀ b, xcmp_event (Ev q b) = None) → quiet (request q).
Proof.
  intros Hq s h. eexists _, _. split; [done|]. unfold xcmp_submissions. simpl. by rewrite Hq.
Qed.
Hint Resolve quiet_ret quiet_mret quiet_pmap_err quiet_pok_or quiet_bind quiet_request : keeps.
Hint Extern 1 (quiet (match ?x with _ => _ end)) => destruct x : keeps.

Lemma watch_quiet : quiet (watch client).
Proof. unfold watch. eauto 8 with keeps. Qed.
Hint Resolve watch_quiet : keeps.
Lemma update_root_quiet r : quiet (relayer_update_root client r).
Proof. unfold relayer_update_root. eauto 8 with keeps. Qed.
Lemma submit_proof_quiet p : quiet (submit_proof client p).
Proof. unfold submit_proof. eauto 12 with keeps. Qed.
Lemma generate_mmr_root_quiet ch bh : quiet (generate_mmr_root client ch bh).
Proof. unfold generate_mmr_root. eauto 8 with keeps. Qed.
Lemma generate_mmr_proof_quiet n ch bh : quiet (generate_mmr_proof client n ch bh).
Proof. unfold generate_mmr_proof. eauto 8 with keeps. Qed.
Hint Resolve update_root_quiet submit_proof_quiet generate_mmr_root_quiet
  generate_mmr_proof_quiet : keeps.

(** *** A blocked queue stays blocked *)

(** The store is [s] and the XCMP submissions are [l]. *)
Definition stays (s : Maps) (l : list (SubxtXcmpProof * H256)) (s' : Maps) h : Prop :=
  s' = s ∧ xcmp_submissions h = l.

Lemma quiet_stays {A} s l (p : prog Maps Req Task Anyhow A) : quiet p → keeps orc (stays s l) p.
Proof.
  intros Hp s0 h r s' h' [-> <-] Hrun. destruct (Hp s h) as (r0 & h0 & Hrun' & Hsame).
  rewrite Hrun' in Hrun. injection Hrun as <- <- <-. by split.
Qed.
Hint Resolve quiet_stays : keeps.

Lemma generate_xcmp_proof_stays s l :
  blocked s → keeps orc (stays s l) (generate_xcmp_proof client relay_client recv_client).
Proof.
  intros Hb s0 h r s' h' [-> <-] Hrun. by eapply generate_xcmp_proof_blocked.
Qed.
Hint Resolve generate_xcmp_proof_stays : keeps.

Lemma round_stays s l vars :
  blocked s → keeps orc (stays s l) (proof_and_verify_round client relay_client recv_client vars).
Proof.
  intros Hb. destruct vars as [root proof]. unfold proof_and_verify_round.
  repeat first [apply keeps_bind; [solve [eauto with keeps]|intros ?]|case_match|apply keeps_ret].
Qed.

Lemma rounds_stay s l n vars : blocked s → keeps orc (stays s l) (submitter_rounds n vars).
Proof.
  intros Hb. revert vars. induction n as [|n IH]; intros vars; simpl; [apply keeps_ret|].
  apply keeps_bind; [by apply round_stays|]. intros [vars'|]; [apply IH|apply keeps_ret].
Qed.

(** *** A complete queue drains *)

(** The node answers every call of the submitter's round. *)
Record submitter_answers : Prop := {
  sub_next : ∀ h, ∃ b, orc h _ (next_block (subxt_client client)) = Some (Ok b);
  sub_storage : ∀ h, orc h _ (storage_at_latest (subxt_client client)) = Ok tt;
  sub_latest : ∀ h, ∃ b, orc h _ (blocks_at_latest (subxt_client client)) = Ok b;
  sub_api : ∀ h, orc h _ (runtime_api_at_latest (subxt_client client)) = Ok tt;
  sub_root : ∀ h, ∃ r,
    orc h _ (mmr_root (rpc_client client) None (Some RECEIVER_CHANNEL_ID)) = Ok (Some r);
  sub_proof : ∀ h, ∃ p, orc h _ (mmr_generateProof (rpc_client client) [ #1] None None
    (Some RECEIVER_CHANNEL_ID)) = Ok (Some p)
}.

Lemma finish_once p beefy_root s h :
  (∀ h, orc h _ (runtime_api_at_latest (subxt_client client)) = Ok tt) →
  ∃ r h', peval orc (finish client p beefy_root) s h = (Ret r, s, h') ∧
    xcmp_submissions h' = (p, beefy_root) :: xcmp_submissions h.
Proof.
  intros Hapi. unfold finish, relayer_submit_xcmp_proof.
  erewrite peval_request by apply Hapi. erewrite peval_map_err by done.
  erewrite peval_request by done. erewrite peval_request by done.
  match goal with |- ∃ r h', peval orc ?q _ ?h0 = _ ∧ _ =>
    assert (quiet q) as Hq by auto with keeps; destruct (Hq s h0) as (r & h' & Hrun & Hsubs) end.
  exists r, h'. by rewrite Hsubs.
Qed.

(** The end of a round, after the assembly. *)
Lemma round_end_continues onchain_root root proof s h :
  submitter_answers →
  ∃ vars h', peval orc
    (if bool_decide (onchain_root = root) then
       submitted ← pcatch (submit_proof client proof);
       match submitted with
       | Ok _ =>
           root ← generate_mmr_root client (Some RECEIVER_CHANNEL_ID) None;
           proof ← generate_mmr_proof client #1 (Some RECEIVER_CHANNEL_ID) None;
           mret (Some (root, proof))
       | Err _ => mret (Some (root, proof))
       end
     else mret (Some (root, proof))) s h = (Ret (Ok (Some vars)), s, h') ∧
    xcmp_submissions h' = xcmp_submissions h.
Proof.
  intros [_ _ _ _ Hroot Hproof]. case_bool_decide; [|by eexists _, _].
  destruct (submit_proof_quiet proof s h) as (r & h1 & Hrun & Hsame).
  erewrite peval_catch by exact Hrun. destruct r as [[]|e]; [|by eexists _, _].
  unfold generate_mmr_root, generate_mmr_proof. simpl.
  destruct (Hroot h1) as [r ->]. simpl.
  match goal with |- context [orc ?h0 _ (mmr_generateProof _ _ _ _ _)] =>
    destruct (Hproof h0) as [p ->] end.
  by eexists _, _.
Qed.

Lemma round_drains vars s h r4 lp4 rest channel heads beefy_root lp1 p :
  submitter_answers → ready s r4 lp4 rest channel heads beefy_root lp1 p →
  ∃ vars' h', peval orc (proof_and_verify_round client relay_client recv_client vars) s h =
    (Ret (Ok (Some vars')), dequeued s rest, h') ∧
    xcmp_submissions h' = (p, beefy_root) :: xcmp_submissions h.
Proof.
  intros Hans Hready. pose proof Hans as [Hnext Hst Hlatest Hapi _ _].
  destruct vars as [root proof]. unfold proof_and_verify_round.
  destruct (Hnext h) as [b Hb]. erewrite peval_request by exact Hb. cbv beta iota.
  erewrite peval_map_err by done. erewrite peval_request by apply Hst.
  erewrite peval_map_err by done. erewrite peval_request by done. cbv beta zeta.
  match goal with |- context [peval orc _ s ?h0] =>
    destruct (update_root_quiet root s h0) as (r1 & h1 & Hrun1 & Hsame1) end.
  erewrite peval_catch by exact Hrun1.
  destruct (Hlatest h1) as [b' Hb'].
  edestruct (finish_once p beefy_root (dequeued s rest)) as (r2 & h2 & Hrun2 & Hsub2); [done|].
  erewrite peval_catch by (by erewrite generate_xcmp_proof_ready).
  edestruct round_end_continues as (vars' & h3 & Hrun3 & Hsame3); [done|].
  eexists vars', h3. split; [exact Hrun3|]. rewrite Hsame3, Hsub2. simpl. by rewrite Hsame1.
Qed.

(** Every root of the queue has all its tiers; [ps] are the proofs made of them. *)
Inductive complete (s : Maps) :
    list (H256 * LeavesProof) → list (SubxtXcmpProof * H256) → Prop :=
| complete_nil : complete s [] []
| complete_cons r4 lp4 rest channel heads beefy_root lp1 p ps :
    ready (dequeued s ((r4, lp4) :: rest)) r4 lp4 rest channel heads beefy_root lp1 p →
    complete s rest ps → complete s ((r4, lp4) :: rest) ((p, beefy_root) :: ps).

Lemma rounds_drain s queue ps vars h :
  submitter_answers → complete s queue ps →
  ∃ vars' h', peval orc (submitter_rounds (length queue) vars) (dequeued s queue) h =
    (Ret (Ok (Some vars')), dequeued s [], h') ∧
    xcmp_submissions h' = reverse ps ++ xcmp_submissions h.
Proof.
  intros Hans Hall. revert vars h.
  induction Hall as [|r4 lp4 rest ch hd br lp1 p ps Hready Hall IH]; intros vars h.
  { by exists vars, h. }
  destruct (round_drains vars _ h _ _ _ _ _ _ _ _ Hans Hready) as (v1 & h1 & Hrun1 & Hsub1).
  destruct (IH v1 h1) as (v2 & h2 & Hrun2 & Hsub2). exists v2, h2.
  cbn [length submitter_rounds]. erewrite peval_call by exact Hrun1. split; [exact Hrun2|].
  by rewrite Hsub2, Hsub1, reverse_cons, <- app_assoc.
Qed.

(** ** Guarantees *)

Lemma dequeued_none s : dequeued s (MSG_ROOT_MAP s) = s.
Proof. by destruct s. Qed.

(** [C14] The queue drains: when the maps hold every tier for every message root and
    the sending node answers, as many rounds of the submitter's loop as there are
    roots submit the proof of each root exactly once, in ascending order of the
    roots, and leave the queue empty; the loop goes on. *)
Theorem queue_drains s ps vars h :
  submitter_answers → complete s (MSG_ROOT_MAP s) ps →
  ∃ vars' h', peval orc (submitter_rounds (length (MSG_ROOT_MAP s)) vars) s h =
    (Ret (Ok (Some vars')), dequeued s [], h') ∧
    xcmp_submissions h' = reverse ps ++ xcmp_submissions h.
Proof.
  intros Hans Hall. destruct (rounds_drain s _ ps vars h Hans Hall) as (vars' & h' & Hrun & Hsubs).
  rewrite dequeued_none in Hrun. by exists vars', h'.
Qed.

(** [C15] Head-of-line blocking: when the least message root lacks its channel proof,
    its heads proof or a BEEFY entry, then however many rounds the submitter's loop
    makes and whatever the nodes answer, no XCMP proof is submitted and no map
    changes: every other message waits behind that root. *)
Theorem missing_tier_blocks_queue s n vars h :
  blocked s →
  ∃ r h', peval orc (submitter_rounds n vars) s h = (r, s, h') ∧
    xcmp_submissions h' = xcmp_submissions h.
Proof.
  intros Hb. destruct (peval orc (submitter_rounds n vars) s h) as [[r s'] h'] eqn:Hrun.
  apply (rounds_stay s (xcmp_submissions h)) in Hrun as [-> Hsame]; [|done..]. by exists r, h'.
Qed.
End progress.

(** ** Witnesses *)

(** Two message roots with all their tiers. *)
Definition td_queue : Maps := {|
  LEAVES_BEEFY_MMR_MAP := LEAVES_BEEFY_MMR_MAP td_maps;
  PARA_HEADERS_MAP := PARA_HEADERS_MAP td_maps;
  MSG_ROOT_MAP := [(td_channel_mmr_root, td_leaves_proof td_message);
                   ( #9, td_leaves_proof td_message)];
  MSG_ROOT_CHANNEL_MERKLE_MAP := [(td_channel_mmr_root, td_channel_proof); ( #9, td_channel_proof)];
  CHANNEL_ROOT_PROOF_MAP := CHANNEL_ROOT_PROOF_MAP td_maps
|}.

Lemma td_submitter_answers : submitter_answers td_orc sender_client.
Proof. split; intros h; try done; by eexists. Qed.

Lemma td_queue_complete :
  complete td_queue (MSG_ROOT_MAP td_queue)
    [(td_submitted, td_beefy_root); (td_submitted, td_beefy_root)].
Proof.
  assert (∀ r rest, btree_get r (MSG_ROOT_CHANNEL_MERKLE_MAP td_queue) = Some td_channel_proof →
    ready (dequeued td_queue ((r, td_leaves_proof td_message) :: rest)) r (td_leaves_proof td_message)
      rest td_channel_proof td_heads_proof td_beefy_root (td_leaves_proof td_beefy_leaf)
      td_submitted) as Hready by (intros r rest Hr; split; try done; by exists []).
  do 2 (eapply complete_cons; [by apply Hready|]). apply complete_nil.
Qed.

Lemma queue_drains_witness :
  ∃ vars' h', peval td_orc
      (submitter_rounds sender_client relay_client receiver_client 2
        (td_channel_mmr_root, td_leaves_proof td_message)) td_queue [] =
    (Ret (Ok (Some vars')), dequeued td_queue [], h') ∧
    xcmp_submissions h' = [(td_submitted, td_beefy_root); (td_submitted, td_beefy_root)].
Proof.
  exact (queue_drains td_orc sender_client relay_client receiver_client td_queue _
    (td_channel_mmr_root, td_leaves_proof td_message) [] td_submitter_answers td_queue_complete).
Defined.

(** A root without a channel proof before one that has every tier. *)
Definition td_blocked : Maps := {|
  LEAVES_BEEFY_MMR_MAP := LEAVES_BEEFY_MMR_MAP td_maps;
  PARA_HEADERS_MAP := PARA_HEADERS_MAP td_maps;
  MSG_ROOT_MAP := ( #0, td_leaves_proof td_message) :: MSG_ROOT_MAP td_maps;
  MSG_ROOT_CHANNEL_MERKLE_MAP := MSG_ROOT_CHANNEL_MERKLE_MAP td_maps;
  CHANNEL_ROOT_PROOF_MAP := CHANNEL_ROOT_PROOF_MAP td_maps
|}.

Lemma missing_tier_blocks_queue_witness :
  ∃ r h', peval td_orc
      (submitter_rounds sender_client relay_client receiver_client 7
        (td_channel_mmr_root, td_leaves_proof td_message)) td_blocked [] = (r, td_blocked, h') ∧
    xcmp_submissions h' = [].
Proof.
  apply (missing_tier_blocks_queue td_orc sender_client relay_client receiver_client td_blocked 7
    (td_channel_mmr_root, td_leaves_proof td_message) []).
  by eapply no_channel_proof.
Defined.
