(* ===== verification/RelayerPass.v ===== *)
(** * One pass of the relayer

    What a round of each collector and then a round of the submitter achieve together:
    the message root that the sending parachain announces is submitted with the four
    tiers of these rounds, and the pallet accepts it; a BEEFY root that was read at another
    block than its proof costs the message. *)
From S2P Require Import Prelude Words Sdk MessageStuffer StufferSafety TestDouble.
From S2P Require Import BTree Conc Relayer RelayerSafety RelayerDouble RelayerClaims RelayerRuns RelayerProgress.

(** ** Maps after an insertion *)

(** A key below all others comes first. *)
Lemma btree_insert_least {K V} `{EqDecision K} {KO : KeyOrder K} k v (m : list (K * V)) :
  Forall (λ e, key_ltb k e.1 = true) m → btree_insert k v m = (k, v) :: m.
Proof.
  destruct 1 as [|[k' v'] m Hlt _]; [done|]. cbn [fst] in Hlt. simpl.
  by rewrite decide_False, Hlt by (by apply key_ltb_neq).
Qed.

(** Entries above a key with another heads root belong to other roots too. *)
Lemma beefy_entries_above hr k (m : list ((H256 * u32) * (H256 * LeavesProof))) :
  key_ltb hr k.1 = true → Forall (λ e, key_ltb k e.1 = true) m → beefy_entries_of hr m = [].
Proof.
  intros Hlt Hall. unfold beefy_entries_of. induction Hall as [|[[hr' n'] v'] m Hk _ IH]; [done|].
  rewrite filter_cons_False; [exact IH|]. cbn [fst snd] in *. intros ->.
  apply orb_true_iff in Hk as [Hk|[Hk%bool_decide_eq_true _]%andb_true_iff].
  - apply (key_trans _ _ _ Hlt), key_ltb_neq in Hk. done.
  - rewrite Hk in Hlt. by apply key_ltb_neq in Hlt.
Qed.

(** The entry of the newest block is the last one for its heads root. *)
Lemma beefy_entries_insert hr n v (m : list ((H256 * u32) * (H256 * LeavesProof))) :
  btree_ok m → (∀ e, e ∈ m → e.1.1 = hr → uval e.1.2 < uval n)%Z →
  ∃ before, beefy_entries_of hr (btree_insert (hr, n) v m) = before ++ [v].
Proof.
  unfold btree_ok. induction m as [|[[hr' n'] v'] m IH]; intros Hm Hnew.
  { exists []. unfold beefy_entries_of. simpl. by rewrite filter_cons_True. }
  inversion Hm as [|?? Hs Hall]; subst. cbn [btree_insert].
  assert (hr' = hr → uval n' < uval n)%Z as Hn by (apply (Hnew (hr', n', v')); set_solver).
  rewrite decide_False by (intros [= -> ->]; specialize (Hn eq_refl); lia).
  destruct (key_ltb (hr, n) (hr', n')) eqn:Hlt.
  - exists []. apply orb_true_iff in Hlt as [Hlt|[Heq%bool_decide_eq_true Hlt]%andb_true_iff];
      simpl in *; [|apply Z.ltb_lt in Hlt; naive_solver lia].
    unfold beefy_entries_of. rewrite filter_cons_True by done.
    rewrite filter_cons_False by (intros E; simpl in E; subst; by rewrite Z.ltb_irrefl in Hlt).
    pose proof (beefy_entries_above hr (hr', n') m Hlt Hall) as Hnone.
    unfold beefy_entries_of in Hnone. rewrite fmap_cons, Hnone. done.
  - destruct IH as [before Hb]; [done|intros e He; apply Hnew; set_solver|].
    unfold beefy_entries_of in *. rewrite filter_cons. case_decide.
    + rewrite fmap_cons, Hb. by exists (v' :: before).
    + by exists before.
Qed.

(** ** A pass *)

Section pass.
Context {CL : ClientLib} {ML : MmrLib} {BM : MerkleLib} {SC : ScaleLib}.
Context {Env : Type} {FS : FrameSystem} {LV : LeafVersionLib} {MP : XcmpMessageProvider Env}.
Context {CFG : Config Env} {WB : WeakBoundedVecLib}.
Context (orc : list (event Req) → ∀ B, Req B → B).
Context (client relay_client recv_client : MultiClient).
Implicit Types (s : Maps) (h : list (event Req)).

(** The proof that is made of the answers: the message proof [lp4] for the channel proof
    [c], the BEEFY proof [lp1] and the heads proof; the answers decode. *)
Record made_of (lp4 : LeavesProof) (c : SubxtChannelMerkleProof) (lp1 : LeavesProof)
    (heads : RelayParaMerkleProof) (p : SubxtXcmpProof) : Prop := {
  made_4 : decode_leaves (lp_leaves lp4) = Some (sx_stage_4 p).2 ∧
    decode_mmr_proof (lp_proof lp4) = Some (sx_stage_4 p).1;
  made_1 : decode_leaves (lp_leaves lp1) = Some (sx_stage_1 p).2 ∧
    decode_mmr_proof (lp_proof lp1) = Some (sx_stage_1 p).1;
  made_2 : sx_stage_2 p = para_merkle_proof_into heads;
  made_3 : sx_stage_3 p = channel_proof_to_subxt (channel_proof_from_subxt c)
}.

(** The answers belong to one message and verify: the channel proof is for the message
    root, the one BEEFY leaf has the root of the heads proof, and each proof leads to the
    root it is stored with. *)
Record verifies (r4 : H256) (c : SubxtChannelMerkleProof) (b : H256) (bl : BeefyMmrLeaf)
    (heads : RelayParaMerkleProof) (p : SubxtXcmpProof) : Prop := {
  ver_channel : scmp_leaf c = r4;
  ver_heads : leaf_extra bl = rpmp_root heads;
  ver_one : length (sx_stage_1 p).2 = 1%nat;
  ver_1 : mmr_included b (sx_stage_1 p);
  ver_2 : merkle_included (rpmp_root heads) (rpmp_proof heads) (rpmp_num_leaves heads)
    (rpmp_leaf_index heads) (encode_para_leaf (para_leaf_into (rpmp_leaf heads)));
  ver_3 : merkle_included (scmp_root c) (scmp_proof c) (scmp_num_leaves c) (scmp_leaf_index c)
    (h256_bytes (scmp_leaf c));
  ver_4 : mmr_included r4 (sx_stage_4 p)
}.

(** The collectors write different maps, so their order does not matter. *)
Lemma collectors_commute s block r p bl heads cr r4 lp4 c :
  para_stored (relay_stored s block r p bl heads cr) r4 lp4 c =
  relay_stored (para_stored s r4 lp4 c) block r p bl heads cr.
Proof. reflexivity. Qed.

(** After both, the maps are ready for the message. *)
Lemma collected_ready s block r4 lp4 c b lp1 bl heads p :
  btree_ok (LEAVES_BEEFY_MMR_MAP s) →
  (∀ e, e ∈ LEAVES_BEEFY_MMR_MAP s → e.1.1 = leaf_extra bl → uval e.1.2 < uval (block_number block))%Z →
  Forall (λ e, key_ltb r4 e.1 = true) (MSG_ROOT_MAP s) →
  made_of lp4 c lp1 heads p → scmp_leaf c = r4 → leaf_extra bl = rpmp_root heads →
  ready (relay_stored (para_stored s r4 lp4 c) block b lp1 bl heads (scmp_root c))
    r4 lp4 (MSG_ROOT_MAP s) (channel_proof_from_subxt c) heads b lp1 p.
Proof.
  intros Hsorted Hnew Hleast [H4 H1 H2 H3] Hc Hbl.
  split; try done; simpl; rewrite ?btree_get_insert.
  - by apply btree_insert_least.
  - unfold btree_contains. rewrite Hc, btree_get_insert, decide_True, bool_decide_true by done.
    by rewrite btree_get_insert, decide_True.
  - by rewrite decide_True.
  - rewrite <- Hbl. by apply beefy_entries_insert.
Qed.

Lemma made_valid block r4 c b lp1 bl heads lp4 p :
  relay_answers orc relay_client block b lp1 bl heads (scmp_root c) →
  made_of lp4 c lp1 heads p → verifies r4 c b bl heads p → xcmp_proof_valid b (decoded_call p).
Proof.
  intros Ha [H4 [Hl1 _] H2 H3] [Hc Hh Hone V1 V2 V3 V4].
  destruct (relay_leaf _ _ _ _ _ _ _ _ Ha) as (ls & l & Hls & Hl & Hbl).
  rewrite Hl1 in Hls. injection Hls as <-.
  assert ((sx_stage_1 p).2 = [l]) as Hl1'.
  { destruct (sx_stage_1 p).2 as [|l' [|]]; try done. by injection Hl as ->. }
  split; simpl; rewrite ?H2, ?H3; try done.
  - exists l, bl. by rewrite Hl1'.
  - by apply (relay_channel_root _ _ _ _ _ _ _ _ Ha).
  - simpl. by rewrite Hc.
Qed.

(** What a pass does, whether or not its proof verifies: the two collectors' rounds, in
    either order, and then one of the submitter, which submits the one proof. *)
Lemma pass_submits s h pblock r4 lp4 c rblock b lp1 bl heads p vars :
  btree_ok (LEAVES_BEEFY_MMR_MAP s) →
  (∀ e, e ∈ LEAVES_BEEFY_MMR_MAP s → e.1.1 = leaf_extra bl → uval e.1.2 < uval (block_number rblock))%Z →
  Forall (λ e, key_ltb r4 e.1 = true) (MSG_ROOT_MAP s) →
  para_answers orc client pblock r4 lp4 c →
  relay_answers orc relay_client rblock b lp1 bl heads (scmp_root c) →
  submitter_answers orc client →
  made_of lp4 c lp1 heads p → scmp_leaf c = r4 → leaf_extra bl = rpmp_root heads →
  ∃ s1 s1' s2 s3,
    (∃ h1 h2, peval orc (collect_para_round client) s h = (Ret (Ok (Some tt)), s1, h1) ∧
      peval orc (collect_relay_round relay_client) s1 h1 = (Ret (Ok (Some tt)), s2, h2)) ∧
    (∃ h1 h2, peval orc (collect_relay_round relay_client) s h = (Ret (Ok (Some tt)), s1', h1) ∧
      peval orc (collect_para_round client) s1' h1 = (Ret (Ok (Some tt)), s2, h2)) ∧
    (∀ h2, ∃ vars' h3, peval orc (proof_and_verify_round client relay_client recv_client vars) s2 h2 =
      (Ret (Ok (Some vars')), s3, h3) ∧ xcmp_submissions h3 = (p, b) :: xcmp_submissions h2) ∧
    MSG_ROOT_MAP s3 = MSG_ROOT_MAP s.
Proof.
  intros Hsorted Hnew Hleast Hpara Hrelay Hsub Hmade Hc Hbl.
  exists (para_stored s r4 lp4 c), (relay_stored s rblock b lp1 bl heads (scmp_root c)).
  exists (relay_stored (para_stored s r4 lp4 c) rblock b lp1 bl heads (scmp_root c)).
  exists (dequeued (relay_stored (para_stored s r4 lp4 c) rblock b lp1 bl heads (scmp_root c)) (MSG_ROOT_MAP s)).
  split_and!.
  - destruct (collect_para_round_evals orc client pblock r4 lp4 c s h Hpara) as [h1 H1].
    destruct (collect_relay_round_evals orc relay_client rblock b lp1 bl heads (scmp_root c)
      (para_stored s r4 lp4 c) h1 Hrelay) as [h2 H2]. by exists h1, h2.
  - destruct (collect_relay_round_evals orc relay_client rblock b lp1 bl heads (scmp_root c) s h Hrelay)
      as [h1 H1].
    destruct (collect_para_round_evals orc client pblock r4 lp4 c
      (relay_stored s rblock b lp1 bl heads (scmp_root c)) h1 Hpara) as [h2 H2].
    rewrite collectors_commute in H2. by exists h1, h2.
  - intros h2. apply (round_drains orc client relay_client recv_client vars _ h2 r4 lp4
      (MSG_ROOT_MAP s) (channel_proof_from_subxt c) heads b lp1 p Hsub).
    by apply collected_ready.
  - done.
Qed.

(** [C13] Delivery of one message: when the nodes answer a round of each collector for a
    message root and then the submitter, and their proofs verify, then after the two
    collectors' rounds, in either order, one round of the submitter submits exactly one
    XCMP proof, made of these answers; the message is in the queue no more, and the
    pallet accepts the proof once it has seen the BEEFY root. Before the pass the maps may
    hold anything of other messages, as long as the new root is the least of the queue and
    the relay chain's block the newest for its heads root. *)
Theorem message_delivered s h pblock r4 lp4 c rblock b lp1 bl heads p vars origin (st : Storage) :
  btree_ok (LEAVES_BEEFY_MMR_MAP s) →
  (∀ e, e ∈ LEAVES_BEEFY_MMR_MAP s → e.1.1 = leaf_extra bl → uval e.1.2 < uval (block_number rblock))%Z →
  Forall (λ e, key_ltb r4 e.1 = true) (MSG_ROOT_MAP s) →
  para_answers orc client pblock r4 lp4 c →
  relay_answers orc relay_client rblock b lp1 bl heads (scmp_root c) →
  submitter_answers orc client →
  made_of lp4 c lp1 heads p → verifies r4 c b bl heads p →
  ∃ s1 s1' s2 s3,
    (∃ h1 h2, peval orc (collect_para_round client) s h = (Ret (Ok (Some tt)), s1, h1) ∧
      peval orc (collect_relay_round relay_client) s1 h1 = (Ret (Ok (Some tt)), s2, h2)) ∧
    (∃ h1 h2, peval orc (collect_relay_round relay_client) s h = (Ret (Ok (Some tt)), s1', h1) ∧
      peval orc (collect_para_round client) s1' h1 = (Ret (Ok (Some tt)), s2, h2)) ∧
    (∀ h2, ∃ vars' h3, peval orc (proof_and_verify_round client relay_client recv_client vars) s2 h2 =
      (Ret (Ok (Some vars')), s3, h3) ∧ xcmp_submissions h3 = (p, b) :: xcmp_submissions h2) ∧
    MSG_ROOT_MAP s3 = MSG_ROOT_MAP s ∧
    (is_Some (ensure_signed origin) → is_Some (SeenBeefyRoots st !! b) →
      submit_xcmp_proof origin (decoded_call p) b st = Ret (Ok tt, st)).
Proof.
  intros Hsorted Hnew Hleast Hpara Hrelay Hsub Hmade Hver.
  destruct (pass_submits s h pblock r4 lp4 c rblock b lp1 bl heads p vars Hsorted Hnew Hleast Hpara
    Hrelay Hsub Hmade (ver_channel _ _ _ _ _ _ Hver) (ver_heads _ _ _ _ _ _ Hver))
    as (s1 & s1' & s2 & s3 & H1 & H2 & H3 & H4).
  exists s1, s1', s2, s3. split_and!; [done..|].
  intros Ho Hseen. apply submit_xcmp_proof_accepted. split_and!; try done. by eapply made_valid.
Qed.

(** [C16] The race of the relay chain's collector loses a message: it asks for the BEEFY
    root without naming a block, so that it gets the root of the best block, and for the
    proof at the block of its subscription. When the best block is another one with another
    root, and every proof is right for its own block, the pass goes on as if nothing had
    happened: one proof is submitted, targeting the best block's root; the message leaves
    the queue and no entry for it is left; and the pallet, having seen that root, answers
    with [XcmpStage1ProofDoesntVerify], since a proof verifies against one root only. The
    conditions on the maps are those of [message_delivered]. *)
Theorem stale_root_loses_message `{!MmrRootLaws} (relay_mmr_root : H256 → H256)
    s h pblock r4 lp4 c rblock best lp1 bl heads p vars origin (st : Storage) :
  btree_ok (LEAVES_BEEFY_MMR_MAP s) →
  (∀ e, e ∈ LEAVES_BEEFY_MMR_MAP s → e.1.1 = leaf_extra bl → uval e.1.2 < uval (block_number rblock))%Z →
  Forall (λ e, key_ltb r4 e.1 = true) (MSG_ROOT_MAP s) →
  para_answers orc client pblock r4 lp4 c →
  relay_answers orc relay_client rblock (relay_mmr_root (block_hash best)) lp1 bl heads (scmp_root c) →
  submitter_answers orc client →
  made_of lp4 c lp1 heads p → scmp_leaf c = r4 → leaf_extra bl = rpmp_root heads →
  mmr_included (relay_mmr_root (block_hash rblock)) (sx_stage_1 p) →
  relay_mmr_root (block_hash best) ≠ relay_mmr_root (block_hash rblock) →
  ∃ s1 s2 s3 h1 h2 vars' h3,
    peval orc (collect_para_round client) s h = (Ret (Ok (Some tt)), s1, h1) ∧
    peval orc (collect_relay_round relay_client) s1 h1 = (Ret (Ok (Some tt)), s2, h2) ∧
    peval orc (proof_and_verify_round client relay_client recv_client vars) s2 h2 =
      (Ret (Ok (Some vars')), s3, h3) ∧
    xcmp_submissions h3 = (p, relay_mmr_root (block_hash best)) :: xcmp_submissions h2 ∧
    btree_contains r4 (MSG_ROOT_MAP s3) = false ∧
    (is_Some (ensure_signed origin) → is_Some (SeenBeefyRoots st !! relay_mmr_root (block_hash best)) →
      submit_xcmp_proof origin (decoded_call p) (relay_mmr_root (block_hash best)) st =
        Ret (Err (Module XcmpStage1ProofDoesntVerify), st)).
Proof.
  intros Hsorted Hnew Hleast Hpara Hrelay Hsub Hmade Hc Hbl Hown Hrace.
  destruct (pass_submits s h pblock r4 lp4 c rblock _ lp1 bl heads p vars Hsorted Hnew Hleast Hpara
    Hrelay Hsub Hmade Hc Hbl) as (s1 & _ & s2 & s3 & (h1 & h2 & H1 & H2) & _ & H3 & Hqueue).
  destruct (H3 h2) as (vars' & h3 & Hround & Hsubs). exists s1, s2, s3, h1, h2, vars', h3.
  split_and!; [done..| |].
  - rewrite Hqueue. unfold btree_contains. by rewrite btree_get_above.
  - intros Ho Hseen. apply submit_xcmp_proof_errors. split; [done|]. split; [done|].
    intros Hin. apply Hrace. by eapply mmr_one_root.
Qed.
End pass.

(** ** Witnesses *)

(** Another message waits, and there is an older BEEFY entry for the same heads. *)
Definition td_before : Maps := {|
  LEAVES_BEEFY_MMR_MAP := [((td_heads_root, #0), ( #8, td_leaves_proof td_beefy_leaf))];
  PARA_HEADERS_MAP := [];
  MSG_ROOT_MAP := [( #9, td_leaves_proof td_message)];
  MSG_ROOT_CHANNEL_MERKLE_MAP := [];
  CHANNEL_ROOT_PROOF_MAP := []
|}.

Lemma message_delivered_witness :
  ∃ s1 s2 s3 h1 h2 vars' h3,
    peval td_orc (collect_para_round sender_client) td_before [] = (Ret (Ok (Some tt)), s1, h1) ∧
    peval td_orc (collect_relay_round relay_client) s1 h1 = (Ret (Ok (Some tt)), s2, h2) ∧
    peval td_orc (proof_and_verify_round sender_client relay_client receiver_client
      (td_channel_mmr_root, td_leaves_proof td_message)) s2 h2 = (Ret (Ok (Some vars')), s3, h3) ∧
    xcmp_submissions h3 = (td_submitted, td_beefy_root) :: xcmp_submissions h2 ∧
    submit_xcmp_proof td_signed (decoded_call td_submitted) td_beefy_root td_storage =
      Ret (Ok tt, td_storage).
Proof.
  destruct (message_delivered td_orc sender_client relay_client receiver_client td_before [] td_block
    td_channel_mmr_root (td_leaves_proof td_message) (channel_proof_to_subxt td_channel_proof) td_block
    td_beefy_root (td_leaves_proof td_beefy_leaf) td_heads_root td_heads_proof td_submitted
    (td_channel_mmr_root, td_leaves_proof td_message) td_signed td_storage)
    as (s1 & _ & s2 & s3 & (h1 & h2 & H1 & H2) & _ & Hround & _ & Hacc).
  - by repeat constructor.
  - intros e ->%list_elem_of_singleton _. reflexivity.
  - by repeat constructor.
  - by split.
  - split; try done; [intros h; by eexists|by exists [td_beefy_leaf], td_beefy_leaf].
  - apply td_submitter_answers.
  - by split.
  - split; try done; by exists #1, #0.
  - destruct (Hround h2) as (vars' & h3 & H3 & Hsub).
    exists s1, s2, s3, h1, h2, vars', h3. split_and!; [done..|]. apply Hacc; by eexists.
Defined.

(** A leaf is in one committed list only. *)
#[local] Instance td_mmr_root_laws : MmrRootLaws.
Proof.
  split. intros r r' nodes pf. simpl.
  destruct nodes as [|[l|hash] nodes]; simpl; [done| |done].
  destruct (bool_decide (opaque_leaf_0 l ∈ td_committed r)) eqn:E; [|done].
  destruct (bool_decide (opaque_leaf_0 l ∈ td_committed r')) eqn:E'; [|done]. intros _ _.
  apply bool_decide_eq_true, td_committed_index in E as (i & Hi & ->).
  apply bool_decide_eq_true, td_committed_index in E' as (i' & Hi' & ->).
  by rewrite (td_table_disjoint _ _ _ Hi Hi').
Qed.

(** The relay chain's best block 12 has the root 9; the proof is for block 11. *)
Definition td_relay_root (bh : H256) : H256 := if decide (bh = #11) then td_beefy_root else #9.
Definition td_best : Block := mkBlock #2 #12.
Definition td_race_orc (h : list (event Req)) (B : Type) (q : Req B) : B :=
  match q in Req B return B with
  | mmr_root rpc at_block ch =>
      if decide (rpc = DEFAULT_RPC_ENDPOINT_RELAY) then Ok (Some #9) else td_orc h _ (mmr_root rpc at_block ch)
  | q => td_orc h _ q
  end.
Definition td_storage_9 : Storage :=
  mkStorage ∅ {[ #9 := ( #5 : u32)]} [ #9] [].

Lemma stale_root_loses_message_witness :
  ∃ s1 s2 s3 h1 h2 vars' h3,
    peval td_race_orc (collect_para_round sender_client) td_before [] = (Ret (Ok (Some tt)), s1, h1) ∧
    peval td_race_orc (collect_relay_round relay_client) s1 h1 = (Ret (Ok (Some tt)), s2, h2) ∧
    peval td_race_orc (proof_and_verify_round sender_client relay_client receiver_client
      (td_channel_mmr_root, td_leaves_proof td_message)) s2 h2 = (Ret (Ok (Some vars')), s3, h3) ∧
    xcmp_submissions h3 = (td_submitted, #9) :: xcmp_submissions h2 ∧
    btree_contains td_channel_mmr_root (MSG_ROOT_MAP s3) = false ∧
    submit_xcmp_proof td_signed (decoded_call td_submitted) #9 td_storage_9 =
      Ret (Err (Module XcmpStage1ProofDoesntVerify), td_storage_9).
Proof.
  destruct (stale_root_loses_message td_race_orc sender_client relay_client receiver_client td_relay_root
    td_before [] td_block td_channel_mmr_root (td_leaves_proof td_message)
    (channel_proof_to_subxt td_channel_proof) td_block td_best (td_leaves_proof td_beefy_leaf) td_heads_root
    td_heads_proof td_submitted (td_channel_mmr_root, td_leaves_proof td_message) td_signed td_storage_9)
    as (s1 & s2 & s3 & h1 & h2 & vars' & h3 & H1 & H2 & H3 & Hsubs & Hgone & Hrefused).
  - by repeat constructor.
  - intros e ->%list_elem_of_singleton _. reflexivity.
  - by repeat constructor.
  - by split.
  - split; try done; [intros h; by eexists|by exists [td_beefy_leaf], td_beefy_leaf].
  - split; intros h; try done; by eexists.
  - by split.
  - done.
  - done.
  - done.
  - done.
  - exists s1, s2, s3, h1, h2, vars', h3. split_and!; [done..|]. apply Hrefused; by eexists.
Defined.
