(* ===== verification/RelayerHelpers.v ===== *)
(** * The relayer's helpers

    The retry loop [try_generate_mmr_proof], the mean and the query list of the
    benchmark log, and the conversions between generated types. *)
From S2P Require Import Prelude Words Sdk MessageStuffer TestDouble.
From S2P Require Import BTree Conc Relayer RelayerSafety RelayerDouble RelayerRuns.

(** ** Retries *)

Section retries.
Context {CL : ClientLib} {ML : MmrLib} {SC : ScaleLib}.
Context (orc : list (event Req) → ∀ B, Req B → B).

Definition is_proof_request (e : event Req) : bool :=
  match e with
  | @Ev _ _ q _ => match q with mmr_generateProof _ _ _ _ _ => true | _ => false end
  end.

(** The requests for a proof made so far. *)
Definition attempts_in (h : list (event Req)) : nat := length (filter is_proof_request h).

Context (client : MultiClient) (n : u64) (ch : option u64).
(** The node's answer to each attempt. *)
Context (ans : nat → result RpcError (option LeavesProof)).
Hypothesis ORC : ∀ h,
  orc h _ (mmr_generateProof (rpc_client client) [n] None None ch) = ans (attempts_in h).

Lemma attempts_request h b :
  attempts_in (Ev (mmr_generateProof (rpc_client client) [n] None None ch) b :: h) =
  S (attempts_in h).
Proof. unfold attempts_in. by rewrite filter_cons_True. Qed.
Lemma attempts_sleep h t b : attempts_in (Ev (sleep t) b :: h) = attempts_in h.
Proof. unfold attempts_in. by rewrite filter_cons_False by (intros []). Qed.

(** The value of an answer that is not an error. *)
Definition proof_or_none (o : option LeavesProof) : result Anyhow LeavesProof :=
  match o with Some p => Ok p | None => Err (Message "Proof was None") end.

Lemma next_attempt (a : u32) :
  (uval a <= 3)%Z → uval (wrapping_add a ( #1 : u32)) = (uval a + 1)%Z.
Proof.
  intros Ha. rewrite wrapping_add_spec, decide_True; [done|].
  change (uval ( #1 : u32)) with 1%Z. change (2 ^ 32)%Z with 4294967296%Z. lia.
Qed.

Lemma try_generate_loop_answer fuel (a : u32) s h k o :
  Z.of_nat (attempts_in h) = uval a → (attempts_in h <= k)%nat → (k < 4)%nat →
  (k - attempts_in h < fuel)%nat →
  (∀ i, (attempts_in h <= i < k)%nat → res_ok (ans i) = false) → ans k = Ok o →
  ∃ h', peval orc (try_generate_loop fuel client n ch a) s h = (Ret (proof_or_none o), s, h') ∧
    attempts_in h' = S k.
Proof.
  revert a h. induction fuel as [|fuel IH]; intros a h Ha Hle Hk Hfuel Hfail Hans; [lia|].
  cbn [try_generate_loop]. erewrite peval_request by apply ORC.
  destruct (decide (attempts_in h = k)) as [Heq|Hne].
  - rewrite Heq, Hans. eexists. split; [by destruct o|].
    by rewrite attempts_request, Heq.
  - pose proof (Hfail (attempts_in h)) as Hnow. destruct (ans (attempts_in h)) as [?|e]; [naive_solver lia|].
    pose proof (next_attempt a) as Ha1.
    rewrite bool_decide_true by (change (uval MAX_ATTEMPTS) with 3%Z; lia).
    erewrite peval_request by done.
    apply IH; rewrite ?attempts_sleep, ?attempts_request; try done; try lia.
    intros i Hi. apply Hfail. lia.
Qed.

Lemma try_generate_loop_fails fuel (a : u32) s h e :
  Z.of_nat (attempts_in h) = uval a → (attempts_in h <= 3)%nat → (3 - attempts_in h < fuel)%nat →
  (∀ i, (attempts_in h <= i < 3)%nat → res_ok (ans i) = false) → ans 3 = Err e →
  ∃ h', peval orc (try_generate_loop fuel client n ch a) s h = (Ret (Err (Rpc e)), s, h') ∧
    attempts_in h' = 4.
Proof.
  revert a h. induction fuel as [|fuel IH]; intros a h Ha Hle Hfuel Hfail Hans; [lia|].
  cbn [try_generate_loop]. erewrite peval_request by apply ORC.
  destruct (decide (attempts_in h = 3)) as [Heq|Hne].
  - rewrite Heq, Hans. rewrite bool_decide_false by (change (uval MAX_ATTEMPTS) with 3%Z; lia).
    eexists. split; [done|]. by rewrite attempts_request, Heq.
  - pose proof (Hfail (attempts_in h)) as Hnow. destruct (ans (attempts_in h)) as [?|e']; [naive_solver lia|].
    pose proof (next_attempt a) as Ha1.
    rewrite bool_decide_true by (change (uval MAX_ATTEMPTS) with 3%Z; lia).
    erewrite peval_request by done.
    apply IH; rewrite ?attempts_sleep, ?attempts_request; try done; try lia.
    intros i Hi. apply Hfail. lia.
Qed.

(** [C30] [try_generate_mmr_proof] always returns, after at most four requests: with
    the first answer that is not an error, or, when four in a row are, with the
    fourth error. *)
Theorem try_generate_spec s h :
  attempts_in h = 0 →
  (∀ k o, (k < 4)%nat → (∀ i, (i < k)%nat → res_ok (ans i) = false) → ans k = Ok o →
    ∃ h', peval orc (try_generate_mmr_proof client n ch) s h = (Ret (proof_or_none o), s, h') ∧
      attempts_in h' = S k) ∧
  (∀ e, (∀ i, (i < 3)%nat → res_ok (ans i) = false) → ans 3 = Err e →
    ∃ h', peval orc (try_generate_mmr_proof client n ch) s h = (Ret (Err (Rpc e)), s, h') ∧
      attempts_in h' = 4).
Proof.
  intros Hh. unfold try_generate_mmr_proof. change (S (Z.to_nat MAX_ATTEMPTS)) with 4.
  split; intros; [eapply try_generate_loop_answer|eapply try_generate_loop_fails];
    rewrite ?Hh; try done; try lia; auto with lia.
  all: intros i Hi; match goal with Hf : ∀ i, _ → res_ok _ = false |- _ => apply Hf; lia end.
Qed.
End retries.

(** ** The benchmark log *)

Section means.
Local Open Scope Z_scope.
Context (overflow_checks : bool).

Definition total (vec : list u64) : Z := foldr (λ x z, uval x + z) 0 vec.

Lemma total_nonneg vec : 0 <= total vec.
Proof. induction vec as [|x vec IH]; simpl; [done|]. pose proof (uval_range x). lia. Qed.

Lemma add_u64_fits x y :
  uval x + uval y < 2 ^ 64 → add_u64 overflow_checks x y = Ret #(uval x + uval y).
Proof.
  intros Hlt. pose proof (uval_range x). pose proof (uval_range y). unfold add_u64.
  assert (checked_add x y = Some #(uval x + uval y)) as Hadd.
  { apply checked_add_Some. rewrite uint_wrap_small; [done|]. lia. }
  destruct overflow_checks; [by rewrite Hadd|]. by apply checked_wrapping_add in Hadd as ->.
Qed.

Lemma sum_u64_fits sum vec :
  uval sum + total vec < 2 ^ 64 →
  sum_u64 overflow_checks sum vec = Ret #(uval sum + total vec).
Proof.
  revert sum. induction vec as [|x vec IH]; simpl; intros sum Hlt.
  - by rewrite Z.add_0_r, uint_wrap_uval.
  - pose proof (total_nonneg vec). pose proof (uval_range x). pose proof (uval_range sum).
    rewrite add_u64_fits by lia. unfold mbind, run_bind. rewrite IH.
    + by rewrite uint_wrap_small, Z.add_assoc by lia.
    + rewrite uint_wrap_small; lia.
Qed.

Lemma total_bounds lo hi vec :
  Forall (λ x, lo <= uval x <= hi) vec →
  lo * Z.of_nat (length vec) <= total vec <= hi * Z.of_nat (length vec).
Proof. induction 1 as [|x vec Hx _ IH]; simpl length; simpl total; [lia|]. nia. Qed.
End means.

Lemma sum_u64_overflows sum vec :
  (2 ^ 64 <= uval sum + total vec)%Z → sum_u64 true sum vec = Panic.
Proof.
  revert sum. induction vec as [|x vec IH]; intros sum Hge.
  - simpl in Hge. pose proof (uval_range sum). lia.
  - cbn [sum_u64]. unfold add_u64. simpl in Hge.
    destruct (checked_add sum x) as [y|] eqn:Hadd; [|done].
    apply checked_add_Some in Hadd. apply IH. lia.
Qed.

Lemma do_mean_fits overflow_checks vec :
  vec ≠ [] → (Z.of_nat (length vec) < 2 ^ 64)%Z → (total vec < 2 ^ 64)%Z →
  ∃ m, do_mean overflow_checks vec = Ret m ∧
    uval m = (total vec / Z.of_nat (length vec))%Z.
Proof.
  intros Hne Hlen Hfit. unfold do_mean.
  rewrite sum_u64_fits by (change (uval ( #0 : u64)) with 0%Z; lia).
  assert (0 < Z.of_nat (length vec))%Z as Hpos by (destruct vec; simpl; [done|lia]).
  pose proof (total_nonneg vec) as Hnn.
  assert (0 <= total vec / Z.of_nat (length vec) < 2 ^ 64)%Z as Hdiv.
  { split; [by apply Z.div_pos|]. apply Z.div_lt_upper_bound; nia. }
  unfold mbind, run_bind. change (uval ( #0 : u64)) with 0%Z. rewrite Z.add_0_l.
  rewrite !(uint_wrap_small 64) by lia. rewrite bool_decide_false by lia.
  eexists. split; [done|]. by apply uint_wrap_small.
Qed.

(** [do_mean] is the integer mean, between the least and the greatest number, when
    the vector is not empty and its sum is a [u64]; it panics on an empty vector
    and, with overflow checks, when the sum is not a [u64]. *)
Theorem do_mean_spec overflow_checks vec :
  (Z.of_nat (length vec) < 2 ^ 64)%Z →
  (vec ≠ [] → (total vec < 2 ^ 64)%Z →
    ∃ m, do_mean overflow_checks vec = Ret m ∧
      uval m = (total vec / Z.of_nat (length vec))%Z ∧
      ∀ lo hi, Forall (λ x, lo <= uval x <= hi)%Z vec → (lo <= uval m <= hi)%Z) ∧
  do_mean overflow_checks [] = Panic ∧
  ((2 ^ 64 <= total vec)%Z → do_mean true vec = Panic).
Proof.
  intros Hlen. split_and!; [|done|].
  - intros Hne Hfit. destruct (do_mean_fits overflow_checks vec) as (m & Hm & Hval); [done..|].
    exists m. split_and!; [done..|]. rewrite Hval.
    assert (0 < Z.of_nat (length vec))%Z as Hpos by (destruct vec; simpl; [done|lia]).
    intros lo hi Hall%total_bounds. split; [apply Z.div_le_lower_bound|apply Z.div_le_upper_bound]; lia.
  - intros Hover. unfold do_mean. by rewrite sum_u64_overflows by (change (uval ( #0 : u64)) with 0%Z; lia).
Qed.

(** The blocks queried in round [k] of the benchmark, counted from 0. *)
Definition query (k : nat) : list u64 := #1 :: ((λ i, #(Z.of_nat i)) <$> seq 1 k).

Lemma query_push k : query k ++ [ #(Z.of_nat (S k))] = query (S k).
Proof. unfold query. rewrite seq_S, fmap_app. done. Qed.

Section benchmark.
Context {CL : ClientLib} {ML : MmrLib} {SC : ScaleLib}.
Context (overflow_checks : bool).
Context (orc : list (event Req) → ∀ B, Req B → B).

(** Round [k] of the benchmark log asks for the blocks 1, 1, 2, ..., k: block 1
    twice from the second round on, because the counter starts at the block that is
    already in the list. *)
Theorem benchmark_queries client block proof k sizes s h :
  (∀ h, orc h _ (next_block (subxt_client client)) = Some (Ok block)) →
  (∀ h, orc h _ (mmr_generateProof (rpc_client client) (query k) None None (Some #0)) =
    Ok (Some proof)) →
  (Z.of_nat (S (S k)) < 2 ^ 64)%Z → length sizes = k →
  (total (sizes ++ [ #(Z.of_nat (length (lp_proof proof)))]) < 2 ^ 64)%Z →
  (∃ h', peval orc (log_all_mmr_proofs_round overflow_checks client
            (sizes, query k, #(Z.of_nat (S k)))) s h =
      (Ret (Ok (Some (sizes ++ [ #(Z.of_nat (length (lp_proof proof)))], query (S k),
        #(Z.of_nat (S (S k)))))), s, h')) ∧
  ((0 < k)%nat → ¬ NoDup (query k)).
Proof.
  intros Hnext Hproof Hk Hsizes Hfit. split.
  - unfold log_all_mmr_proofs_round. erewrite peval_request by apply Hnext. cbv beta iota.
    erewrite peval_map_err by done. erewrite peval_request by apply Hproof.
    erewrite peval_map_err by done. erewrite peval_ok_or by done. cbv zeta.
    rewrite add_u64_fits; rewrite (uint_wrap_small 64) by lia;
      change (uval ( #1 : u64)) with 1%Z; [|lia].
    edestruct (do_mean_fits overflow_checks (sizes ++ [ #(Z.of_nat (length (lp_proof proof)))]))
      as (m & Hm & _); [by destruct sizes|rewrite length_app; simpl; lia|done|].
    replace (Z.of_nat (S k) + 1)%Z with (Z.of_nat (S (S k))) by lia.
    rewrite query_push. simpl. rewrite Hm. by eexists.
  - intros Hpos Hnd. unfold query in Hnd. destruct k as [|k]; [lia|].
    apply list.NoDup_cons in Hnd as [Hnin _]. destruct Hnin. simpl. apply list_elem_of_here.
Qed.
End benchmark.

(** ** Conversions *)

(** The conversions between the generated types and the pallet's lose nothing:
    the two conversions of channel proofs are inverse to each other, the conversion
    of a relay chain proof is injective down to the parachain id, and the hand-written
    [Clone] implementations copy every field. *)
Theorem conversions_lossless :
  (∀ x, channel_proof_from_subxt (channel_proof_to_subxt x) = x) ∧
  (∀ x, channel_proof_to_subxt (channel_proof_from_subxt x) = x) ∧
  (∀ x y, para_merkle_proof_into x = para_merkle_proof_into y → x = y) ∧
  (∀ x, relay_para_merkle_proof_clone x = x) ∧ (∀ x, subxt_channel_proof_clone x = x).
Proof.
  split_and!.
  - by intros [].
  - by intros [].
  - intros [? ? ? ? [[] ?]] [? ? ? ? [[] ?]]. by intros [=]; subst.
  - apply heads_clone.
  - by intros [].
Qed.

(** ** Witnesses *)

(** Two failed attempts, then a proof. *)
Definition td_ans (i : nat) : result RpcError (option LeavesProof) :=
  if decide (i < 2)%nat then Err tt else Ok (Some (td_leaves_proof td_message)).

Definition td_retry_orc (h : list (event Req)) (B : Type) (q : Req B) : B :=
  match q in Req B return B with
  | mmr_generateProof _ _ _ _ _ => td_ans (attempts_in h)
  | q => td_orc h _ q
  end.

Lemma try_generate_spec_witness :
  ∃ h', peval td_retry_orc (try_generate_mmr_proof sender_client #1 None) empty_maps [] =
    (Ret (Ok (td_leaves_proof td_message)), empty_maps, h') ∧ attempts_in h' = 3.
Proof.
  apply (try_generate_spec td_retry_orc sender_client #1 None td_ans (λ h, eq_refl)
    empty_maps [] eq_refl) with (k := 2) (o := Some (td_leaves_proof td_message)); [lia| |done].
  intros i Hi. unfold td_ans. by rewrite decide_True.
Defined.

Lemma do_mean_spec_witness :
  ∃ m, do_mean true [ #3; #6; #9] = Ret m ∧ uval m = 6%Z.
Proof.
  destruct (do_mean_spec true [ #3; #6; #9]) as [Hmean _]; [done|].
  destruct Hmean as (m & Hrun & Hval & _); [done|done|]. by exists m.
Defined.

Lemma benchmark_queries_witness :
  ¬ NoDup (query 1).
Proof.
  destruct (benchmark_queries true td_orc sender_client td_block (td_leaves_proof td_message)
    1 [ #0] empty_maps []) as [_ Hdup]; [done..|]. apply Hdup. lia.
Defined.
