(* ===== verification/TemplatePallet.v ===== *)
(** * The template pallet

    [pallets/template/src/lib.rs]: one optional [u32], an extrinsic that sets it and
    one that increments it. The theorem gives the outcome of any sequence of calls:
    the value is the last one set plus the increments since, never wrapping. *)
From S2P Require Import Prelude Words Sdk.

Module Template.

(** [Error<T>]. *)
Inductive Error : Set := NoneValue | StorageOverflow.

Section pallet.
Context {FS : FrameSystem}.

(** [Event<T>]. *)
Inductive Event : Type :=
| SomethingStored (something : u32) (who : AccountId).

(** [Something<T>], and the events deposited. *)
Record Storage : Type := mkStorage { Something : option u32; Events : list Event }.

Definition genesis : Storage := mkStorage None [].

Abbreviation Call A := (M Storage (DispatchError Error) A).

Definition Something_put (v : u32) : Call () := modify (λ s, mkStorage (Some v) (Events s)).
Definition deposit_event (e : Event) : Call () :=
  modify (λ s, mkStorage (Something s) (Events s ++ [e])).

(** [do_something]. *)
Definition do_something (origin : Origin) (something : u32) : Call () :=
  who ← ok_or (ensure_signed origin) BadOrigin;
  _ ← Something_put something;
  deposit_event (SomethingStored something who).

(** [cause_error]. *)
Definition cause_error (origin : Origin) : Call () :=
  _who ← ok_or (ensure_signed origin) BadOrigin;
  old ← gets Something;
  match old with
  | None => throw (Module NoneValue)
  | Some old =>
      new ← ok_or (checked_add old #1) (Module StorageOverflow);
      Something_put new
  end.

(** ** Sequences of calls *)

Inductive Op : Type :=
| DoSomething (origin : Origin) (something : u32)
| CauseError (origin : Origin).

Definition apply_op (op : Op) : Call () :=
  match op with
  | DoSomething origin something => do_something origin something
  | CauseError origin => cause_error origin
  end.

(** A failed extrinsic is rolled back: its storage is the one before the call. *)
Definition dispatch (op : Op) (s : Storage) : Storage :=
  match apply_op op s with Ret (Ok _, s') => s' | _ => s end.

Definition run_ops (ops : list Op) (s : Storage) : Storage := foldl (λ s op, dispatch op s) s ops.

(** The specification: an integer that saturates at the greatest [u32]. *)
Definition spec_op (op : Op) (v : option Z) : option Z :=
  match op with
  | DoSomething origin something =>
      if ensure_signed origin then Some (uval something) else v
  | CauseError origin =>
      if ensure_signed origin then (λ z, Z.min (z + 1) (2 ^ 32 - 1)) <$> v else v
  end.

Definition spec_ops (ops : list Op) (v : option Z) : option Z := foldl (λ v op, spec_op op v) v ops.

Definition value (s : Storage) : option Z := uval <$> Something s.

Lemma dispatch_spec op s : value (dispatch op s) = spec_op op (value s).
Proof.
  destruct op as [origin something|origin]; unfold dispatch, apply_op, do_something, cause_error,
    value; simpl; destruct (ensure_signed origin) as [who|]; try done.
  destruct s as [[old|] evs]; [|done]. simpl.
  unfold mbind, M_bind, gets, ok_or; simpl. pose proof (uval_range old) as Hr.
  change (2 ^ 32)%Z with 4294967296%Z in *.
  destruct (checked_add old #1) as [new|] eqn:Hadd; simpl.
  - apply checked_add_Some in Hadd. rewrite Hadd. pose proof (uval_range new).
    change (2 ^ 32)%Z with 4294967296%Z in *. change (uval ( #1 : u32)) with 1%Z in *. f_equal. lia.
  - apply checked_add_None in Hadd. change (2 ^ 32)%Z with 4294967296%Z in *.
    change (uval ( #1 : u32)) with 1%Z in *. f_equal. lia.
Qed.

(** Any sequence of extrinsics leaves the value that the specification gives: the
    last value set by a signed call, plus one for each signed increment since,
    stopping at the greatest [u32]; unsigned calls and increments of an unset value
    change nothing. *)
Theorem template_refines ops s : value (run_ops ops s) = spec_ops ops (value s).
Proof.
  revert s. induction ops as [|op ops IH]; intros s; [done|].
  simpl. by rewrite IH, dispatch_spec.
Qed.

(** The outcome of [cause_error]: unsigned, unset and saturated values give the
    three errors, with the storage untouched; otherwise the value grows by one and no
    event is deposited. *)
Theorem cause_error_spec origin s :
  cause_error origin s =
    match ensure_signed origin, Something s with
    | None, _ => Ret (Err BadOrigin, s)
    | Some _, None => Ret (Err (Module NoneValue), s)
    | Some _, Some old =>
        if decide (uval old = 2 ^ 32 - 1)%Z then Ret (Err (Module StorageOverflow), s)
        else Ret (Ok tt, mkStorage (Some #(uval old + 1)) (Events s))
    end.
Proof.
  unfold cause_error, mbind, M_bind. destruct (ensure_signed origin) as [who|]; simpl; [|done].
  destruct s as [[old|] evs]; simpl; [|done]. pose proof (uval_range old).
  case_decide as Hmax.
  - assert (checked_add old #1 = None) as ->; [|done]. apply checked_add_None.
    change (uval ( #1 : u32)) with 1%Z. lia.
  - assert (checked_add old #1 = Some #(uval old + 1)) as ->; [|done]. apply checked_add_Some.
    rewrite uint_wrap_small; [done|]. lia.
Qed.
End pallet.
End Template.
