(* ===== verification/RuntimeConfig.v ===== *)
(** * Constants of the runtime

    The time, currency and weight constants of [runtime/src/lib.rs] and
    [runtime/src/weights/], the fee polynomial, and the table of pallet indices. The
    weight units, fixed-point fractions and the evaluation of a fee polynomial are
    the SDK's; the laws a theorem uses are stated as classes. *)
From S2P Require Import Prelude Words.

Local Open Scope Z_scope.

(** ** Interfaces of the SDK *)

(** [frame_support::weights::constants], in picoseconds of reference time. *)
Class WeightConstants := {
  WEIGHT_REF_TIME_PER_SECOND : u64;
  WEIGHT_REF_TIME_PER_MILLIS : u64;
  WEIGHT_REF_TIME_PER_MICROS : u64;
  WEIGHT_REF_TIME_PER_NANOS : u64;
}.

(** "1_000 picoseconds" and so on. *)
Class WeightConstantsLaws `{!WeightConstants} : Prop := {
  ref_time_second : uval WEIGHT_REF_TIME_PER_SECOND = 10 ^ 12;
  ref_time_millis : uval WEIGHT_REF_TIME_PER_MILLIS = 10 ^ 9;
  ref_time_micros : uval WEIGHT_REF_TIME_PER_MICROS = 10 ^ 6;
  ref_time_nanos : uval WEIGHT_REF_TIME_PER_NANOS = 10 ^ 3;
}.

(** [WeightToFeeCoefficient<u128>]; a [Perbill] is its parts per billion. *)
Record Coefficient : Type := mkCoefficient {
  coeff_integer : u128;
  coeff_frac : u32;
  negative : bool;
  degree : u8
}.

Class FeeLib := {
  (** [Perbill::from_rational]. *)
  from_rational : u128 → u128 → u32;
  (** [WeightToFeePolynomial::weight_to_fee], on the reference time of the weight. *)
  weight_to_fee : list Coefficient → u64 → u128;
}.

(** A fraction that is a whole number of parts per billion is represented exactly;
    the fee of one positive term of degree one is the coefficient times the weight, of
    which the fractional part is rounded to the nearest unit. *)
Class FeeLaws `{!FeeLib} : Prop := {
  from_rational_exact : ∀ p q : u128, 0 < uval q → uval p <= uval q →
    (uval q | uval p * 10 ^ 9) → uval (from_rational p q) = uval p * 10 ^ 9 / uval q;
  weight_to_fee_linear : ∀ (c : Coefficient) (w : u64),
    negative c = false → uval (degree c) = 1 → uval (coeff_frac c) <= 10 ^ 9 →
    (uval (coeff_integer c) + 1) * uval w < 2 ^ 128 →
    2 * Z.abs (10 ^ 9 * uval (weight_to_fee [c] w) -
      (uval (coeff_integer c) * 10 ^ 9 + uval (coeff_frac c)) * uval w) <= 10 ^ 9;
}.

(** ** Arithmetic *)

(** [saturating_mul] and [saturating_div] on [u64]. *)
Definition saturating_mul (x y : u64) : u64 := #(Z.min (uval x * uval y) (2 ^ 64 - 1)).
Definition saturating_div (x y : u64) : u64 := #(uval x / uval y).

(** Constant expressions, which the compiler rejects when they overflow. *)
Definition const_mul {bits} (x y : uint bits) : uint bits := #(uval x * uval y).
Definition const_div {bits} (x y : uint bits) : uint bits := #(uval x / uval y).

#[global] Arguments saturating_mul : simpl never.
#[global] Arguments saturating_div : simpl never.
#[global] Arguments const_mul : simpl never.
#[global] Arguments const_div : simpl never.

Lemma const_mul_fits {bits} (x y : uint bits) :
  uval x * uval y < 2 ^ Zpos bits → uval (const_mul x y) = uval x * uval y.
Proof.
  intros Hlt. apply uint_wrap_small. pose proof (uval_range x). pose proof (uval_range y). nia.
Qed.

(** ** Time *)

Definition MILLISECS_PER_BLOCK : u64 := #12000.
Definition SLOT_DURATION : u64 := MILLISECS_PER_BLOCK.
Definition MINUTES : u32 := const_div #60000 #(uval MILLISECS_PER_BLOCK).
Definition HOURS : u32 := const_mul MINUTES #60.
Definition DAYS : u32 := const_mul HOURS #24.
Definition MinimumPeriod : u64 := const_div SLOT_DURATION #2.
Definition Period : u32 := const_mul #6 HOURS.
Definition Offset : u32 := #0.
Definition SessionLength : u32 := const_mul #6 HOURS.

(** ** Currency *)

Definition UNIT : u128 := #1000000000000.
Definition MILLIUNIT : u128 := #1000000000.
Definition MICROUNIT : u128 := #1000000.
Definition EXISTENTIAL_DEPOSIT : u128 := MILLIUNIT.
Definition TransactionByteFee : u128 := const_mul #10 MICROUNIT.

(** ** Weights *)

(** [Weight]. *)
Record Weight : Type := mkWeight { ref_time : u64; proof_size : u64 }.
(** [RuntimeDbWeight]. *)
Record RuntimeDbWeight : Type := mkRuntimeDbWeight { db_read : u64; db_write : u64 }.

(** What a number of reads and of writes weighs. *)
Class DbWeightLib := {
  reads : RuntimeDbWeight → u64 → Weight;
  writes : RuntimeDbWeight → u64 → Weight;
}.
Class DbWeightLaws `{!DbWeightLib} : Prop := {
  reads_one : ∀ w, ref_time (reads w #1) = db_read w;
  writes_one : ∀ w, ref_time (writes w #1) = db_write w;
}.

Section weights.
Context {WC : WeightConstants}.

Definition BlockExecutionWeight : Weight :=
  mkWeight (saturating_mul WEIGHT_REF_TIME_PER_NANOS #5000000) #0.
Definition ExtrinsicBaseWeight : Weight :=
  mkWeight (saturating_mul WEIGHT_REF_TIME_PER_NANOS #125000) #0.
Definition RocksDbWeight : RuntimeDbWeight :=
  {| db_read := const_mul #25000 WEIGHT_REF_TIME_PER_NANOS;
     db_write := const_mul #100000 WEIGHT_REF_TIME_PER_NANOS |}.
Definition ParityDbWeight : RuntimeDbWeight :=
  {| db_read := const_mul #8000 WEIGHT_REF_TIME_PER_NANOS;
     db_write := const_mul #50000 WEIGHT_REF_TIME_PER_NANOS |}.

(** [MAXIMUM_BLOCK_WEIGHT]; the size of a proof of validity is the relay chain's. *)
Definition MAXIMUM_BLOCK_WEIGHT (MAX_POV_SIZE : u32) : Weight :=
  mkWeight (saturating_div WEIGHT_REF_TIME_PER_SECOND #2) (widen 64 MAX_POV_SIZE).

(** [WeightToFee::polynomial]. *)
Context {FL : FeeLib}.
Definition polynomial : list Coefficient :=
  let p : u128 := const_div MILLIUNIT #10 in
  let q : u128 := const_mul #100 (widen 128 (ref_time ExtrinsicBaseWeight)) in
  [{| degree := #1;
      negative := false;
      coeff_frac := from_rational #(uval p mod uval q) q;
      coeff_integer := const_div p q |}].

(** *** The sanity tests that come with the weights *)

Definition assert (b : bool) : run () := if b then Ret () else Panic.

(** [sane] of [block_weights.rs] and of [extrinsic_weights.rs]. *)
Definition block_weight_sane : run () :=
  let w := BlockExecutionWeight in
  _ ← assert (uval (const_mul #100 WEIGHT_REF_TIME_PER_MICROS) <=? uval (ref_time w));
  assert (uval (ref_time w) <=? uval (const_mul #50 WEIGHT_REF_TIME_PER_MILLIS)).
Definition extrinsic_weight_sane : run () :=
  let w := ExtrinsicBaseWeight in
  _ ← assert (uval (const_mul #10 WEIGHT_REF_TIME_PER_MICROS) <=? uval (ref_time w));
  assert (uval (ref_time w) <=? uval WEIGHT_REF_TIME_PER_MILLIS).

(** [sane] of [rocksdb_weights.rs] and of [paritydb_weights.rs]; [reads] and [writes] are
    the SDK's, for a number of accesses. *)
Context {DW : DbWeightLib}.
Definition db_weight_sane (W : RuntimeDbWeight) : run () :=
  _ ← assert (uval WEIGHT_REF_TIME_PER_MICROS <=? uval (ref_time (reads W #1)));
  _ ← assert (uval WEIGHT_REF_TIME_PER_MICROS <=? uval (ref_time (writes W #1)));
  _ ← assert (uval (ref_time (reads W #1)) <=? uval WEIGHT_REF_TIME_PER_MILLIS);
  assert (uval (ref_time (writes W #1)) <=? uval WEIGHT_REF_TIME_PER_MILLIS).
Definition rocksdb_weight_sane : run () := db_weight_sane RocksDbWeight.
Definition paritydb_weight_sane : run () := db_weight_sane ParityDbWeight.
End weights.

(** ** Pallets *)

(** [construct_runtime!]: the pallets and their indices in calls, events and errors. *)
Definition construct_runtime : list (string * u8) := [
  ("System", #0); ("ParachainSystem", #1); ("Timestamp", #2); ("ParachainInfo", #3);
  ("Balances", #10); ("TransactionPayment", #11);
  ("Sudo", #15);
  ("Authorship", #20); ("CollatorSelection", #21); ("Session", #22); ("Aura", #23);
  ("AuraExt", #24);
  ("XcmpQueue", #30); ("PolkadotXcm", #31); ("CumulusXcm", #32); ("DmpQueue", #33);
  ("MsgStufferParaA", #50); ("MsgStufferParaB", #51); ("MmrParaA", #52); ("MmrParaB", #53)
].

(** The pallet a call index belongs to, and the index of a pallet. *)
Definition pallet_at (i : u8) : option string :=
  (λ o, o.2.1) <$> list_find (λ e : string * u8, e.2 = i) construct_runtime.
Definition pallet_index (name : string) : option u8 :=
  (λ o, o.2.2) <$> list_find (λ e : string * u8, e.1 = name) construct_runtime.

(** Every entry is found by its name and by its index. *)
Lemma pallets_found :
  Forall (λ e, pallet_index e.1 = Some e.2 ∧ pallet_at e.2 = Some e.1) construct_runtime.
Proof. repeat constructor. Qed.

Lemma list_find_elem {A} (P : A → Prop) `{!∀ x, Decision (P x)} l j x :
  list_find P l = Some (j, x) → P x ∧ x ∈ l.
Proof.
  intros (Hj & HP & _)%list_find_Some. split; [done|]. by eapply list_elem_of_lookup_2.
Qed.

Lemma pallet_index_elem name i : pallet_index name = Some i → (name, i) ∈ construct_runtime.
Proof.
  unfold pallet_index. intros ([j [n k]] & [Hn Hin]%list_find_elem & ->)%fmap_Some.
  cbn [fst snd] in *. by subst n.
Qed.
Lemma pallet_at_elem name i : pallet_at i = Some name → (name, i) ∈ construct_runtime.
Proof.
  unfold pallet_at. intros ([j [n k]] & [Hn Hin]%list_find_elem & ->)%fmap_Some.
  cbn [fst snd] in *. by subst k.
Qed.

(** Calls are routed without ambiguity: a pallet has an index exactly when the
    index leads back to it. *)
Theorem pallet_index_roundtrip name i : pallet_index name = Some i ↔ pallet_at i = Some name.
Proof.
  pose proof (proj1 (list.Forall_forall _ _) pallets_found) as Hfound.
  split; [intros Hin%pallet_index_elem|intros Hin%pallet_at_elem]; by apply Hfound in Hin as [??].
Qed.

(** ** Guarantees *)

(** Time is counted in whole blocks: a minute, an hour and a day are exactly that
    many block intervals, a session is six hours, and the timestamp's minimum period
    is half a slot. *)
Theorem block_time :
  uval MINUTES * uval MILLISECS_PER_BLOCK = 60 * 1000 ∧
  uval HOURS * uval MILLISECS_PER_BLOCK = 60 * 60 * 1000 ∧
  uval DAYS * uval MILLISECS_PER_BLOCK = 24 * 60 * 60 * 1000 ∧
  uval Period * uval MILLISECS_PER_BLOCK = 6 * 60 * 60 * 1000 ∧
  Period = SessionLength ∧ 2 * uval MinimumPeriod = uval SLOT_DURATION.
Proof. by vm_compute. Qed.

Section guarantees.
Context {WC : WeightConstants} {WCL : WeightConstantsLaws}.

Lemma saturating_mul_fits (x y : u64) :
  uval x * uval y < 2 ^ 64 → uval (saturating_mul x y) = uval x * uval y.
Proof.
  intros Hlt. pose proof (uval_range x). pose proof (uval_range y).
  unfold saturating_mul. rewrite Z.min_l by lia. apply uint_wrap_small. nia.
Qed.

Lemma ExtrinsicBaseWeight_value : uval (ref_time ExtrinsicBaseWeight) = 125000000.
Proof.
  unfold ExtrinsicBaseWeight; cbn [ref_time].
  rewrite saturating_mul_fits; rewrite ref_time_nanos; reflexivity.
Qed.

Lemma BlockExecutionWeight_value : uval (ref_time BlockExecutionWeight) = 5000000000.
Proof.
  unfold BlockExecutionWeight; cbn [ref_time].
  rewrite saturating_mul_fits; rewrite ref_time_nanos; reflexivity.
Qed.

Lemma assert_true b : b = true → assert b = Ret ().
Proof. by intros ->. Qed.

(** The generated weights pass their sanity tests: a block's own weight is between
    100 µs and 50 ms, an extrinsic's between 10 µs and 1 ms, and a database access
    between 1 µs and 1 ms. *)
Theorem weights_sane `{!DbWeightLib} `{!DbWeightLaws} :
  block_weight_sane = Ret () ∧ extrinsic_weight_sane = Ret () ∧
  rocksdb_weight_sane = Ret () ∧ paritydb_weight_sane = Ret ().
Proof.
  unfold block_weight_sane, extrinsic_weight_sane, rocksdb_weight_sane, paritydb_weight_sane, db_weight_sane.
  rewrite BlockExecutionWeight_value, ExtrinsicBaseWeight_value, !reads_one, !writes_one.
  unfold RocksDbWeight, ParityDbWeight; cbn [db_read db_write].
  rewrite !const_mul_fits by (rewrite ?ref_time_nanos, ?ref_time_micros, ?ref_time_millis; done).
  rewrite ref_time_nanos, ref_time_micros, ref_time_millis.
  by rewrite !assert_true.
Qed.

Context {FL : FeeLib} {FLL : FeeLaws}.

(** The one coefficient of the polynomial: 8 units of fee per 1000 of reference time,
    rounded to the nearest unit. *)
Lemma polynomial_rounds (w : u64) :
  2 * Z.abs (1000 * uval (weight_to_fee polynomial w) - 8 * uval w) <= 1000.
Proof.
  unfold polynomial.
  assert (uval (const_mul ( #100 : u128) (widen 128 (ref_time ExtrinsicBaseWeight))) = 12500000000) as Hq.
  { rewrite const_mul_fits; rewrite widen_spec, ExtrinsicBaseWeight_value by done; reflexivity. }
  set (q := const_mul _ _) in *. rewrite Hq.
  assert (uval (from_rational #(uval (const_div MILLIUNIT #10) mod 12500000000) q) = 8000000) as Hfrac.
  { rewrite from_rational_exact; rewrite ?Hq; try done. by exists 8000000. }
  assert (uval (const_div (const_div MILLIUNIT #10) q) = 0) as Hint
    by (unfold const_div at 1; rewrite Hq; reflexivity).
  match goal with |- context [weight_to_fee [?c] w] => pose proof (weight_to_fee_linear c w) as Hfee end.
  cbn [coeff_frac coeff_integer negative degree] in Hfee. rewrite Hfrac, Hint in Hfee.
  pose proof (uval_range w). assert (2 ^ Zpos 64 < 2 ^ 128) by reflexivity.
  specialize (Hfee eq_refl eq_refl). lia.
Qed.
Lemma polynomial_fee (w : u64) :
  (125 | uval w) → 1000 * uval (weight_to_fee polynomial w) = 8 * uval w.
Proof. intros [k Hk]. pose proof (polynomial_rounds w). lia. Qed.

(** The fee of the base weight of an extrinsic is one MICROUNIT: a hundredth of the
    tenth of a MILLIUNIT that the comment announces. *)
Theorem base_fee :
  uval (weight_to_fee polynomial (ref_time ExtrinsicBaseWeight)) = uval MICROUNIT ∧
  100 * uval MICROUNIT = uval MILLIUNIT / 10.
Proof.
  split; [|done]. pose proof (polynomial_fee (ref_time ExtrinsicBaseWeight)) as Hfee.
  rewrite ExtrinsicBaseWeight_value in Hfee. change (uval MICROUNIT) with 1000000.
  assert (125 | 125000000) as Hdiv by (by exists 1000000). specialize (Hfee Hdiv). lia.
Qed.
End guarantees.

(** ** Witnesses *)

#[local] Instance td_weights : WeightConstants := {|
  WEIGHT_REF_TIME_PER_SECOND := #1000000000000;
  WEIGHT_REF_TIME_PER_MILLIS := #1000000000;
  WEIGHT_REF_TIME_PER_MICROS := #1000000;
  WEIGHT_REF_TIME_PER_NANOS := #1000
|}.

#[local] Instance td_weights_laws : WeightConstantsLaws.
Proof. by split. Qed.

#[local] Instance td_fees : FeeLib := {|
  from_rational := λ p q, #(uval p * 10 ^ 9 / uval q);
  weight_to_fee := λ cs w,
    match cs with
    | [c] => #(uval (coeff_integer c) * uval w + (uval (coeff_frac c) * uval w + 499999999) / 10 ^ 9)
    | _ => #0
    end
|}.

#[local] Instance td_fees_laws : FeeLaws.
Proof.
  split.
  - intros p q Hq Hle _. apply uint_wrap_small. pose proof (uval_range p).
    split; [apply Z.div_pos; lia|]. apply Z.div_lt_upper_bound; lia.
  - intros c w _ _ Hfrac Hlt. unfold weight_to_fee.
    pose proof (uval_range (coeff_integer c)). pose proof (uval_range (coeff_frac c)).
    pose proof (uval_range w).
    pose proof (Z.div_mod (uval (coeff_frac c) * uval w + 499999999) (10 ^ 9) ltac:(lia)) as Hdiv.
    pose proof (Z.mod_pos_bound (uval (coeff_frac c) * uval w + 499999999) (10 ^ 9) ltac:(lia)) as Hmod.
    set (d := (uval (coeff_frac c) * uval w + 499999999) / 10 ^ 9) in *.
    assert (0 <= d <= uval w) by nia.
    change (2 * Z.abs (10 ^ 9 * uval ( #(uval (coeff_integer c) * uval w + d) : u128) -
      (uval (coeff_integer c) * 10 ^ 9 + uval (coeff_frac c)) * uval w) <= 10 ^ 9).
    rewrite uint_wrap_small by nia. lia.
Qed.

#[local] Instance td_db_weights : DbWeightLib := {|
  reads := λ w n, mkWeight (saturating_mul (db_read w) n) #0;
  writes := λ w n, mkWeight (saturating_mul (db_write w) n) #0
|}.
#[local] Instance td_db_weights_laws : DbWeightLaws.
Proof.
  assert (∀ x : u64, saturating_mul x #1 = x) as Hone.
  { intros x. apply uint_eq. pose proof (uval_range x).
    rewrite saturating_mul_fits; change (uval ( #1 : u64)) with 1; lia. }
  split; intros; apply Hone.
Qed.

Lemma weights_sane_witness : rocksdb_weight_sane = Ret ().
Proof. exact (proj1 (proj2 (proj2 weights_sane))). Defined.

Lemma base_fee_witness :
  uval (weight_to_fee polynomial (ref_time ExtrinsicBaseWeight)) = uval MICROUNIT.
Proof. apply base_fee. Defined.
