(* ===== verification/Runtime.v ===== *)
(** * The runtime as a whole

    Both instances of the message stuffer pallet inside the runtime that
    [construct_runtime!] puts together: the calls of the runtime, what a block does
    to the two instances, and chains of blocks. The pallets of the SDK are a
    parameter: a type of storage of their own, and a function that reads from it what
    the instances ask for. [Executive] is the SDK's too; what is assumed of it is the
    documented order of a block: the hooks of all pallets as listed, then the
    extrinsics. *)
From S2P Require Import Prelude Words RuntimeConfig.
From S2P Require Import Sdk MessageStuffer TestDouble StufferSafety StufferTrace RuntimeXcmp.

(** ** Calls *)

Section calls.
Context {ML : MmrLib}.

(** The [Call] of the pallet: its three extrinsics. *)
Inductive PalletCall : Type :=
| Call_submit_test_proof (mmr_proof : MmrProof) (leaves : list EncodableOpaqueLeaf)
    (channel_id : u64)
| Call_update_root (root : H256) (channel_id : u64)
| Call_submit_xcmp_proof (xcmp_proof : XcmpProof) (beefy_root_targeted : H256).

Context {Env : Type}.
Context {FS : FrameSystem} {LV : LeafVersionLib} {MP : XcmpMessageProvider Env}.
Context {CFG : Config Env} {WB : WeakBoundedVecLib} {BM : MerkleLib} {SC : ScaleLib}.

(** The dispatch of a call of one instance. *)
Definition dispatch_call (origin : Origin) (c : PalletCall)
    : M Storage (DispatchError Error) () :=
  match c with
  | Call_submit_test_proof pf leaves channel_id => submit_test_proof origin pf leaves channel_id
  | Call_update_root root channel_id => update_root origin root channel_id
  | Call_submit_xcmp_proof p b => submit_xcmp_proof origin p b
  end.

(** The same call as an operation of [StufferTrace]. *)
Definition call_op (origin : Origin) (c : PalletCall) : Op :=
  match c with
  | Call_submit_test_proof pf leaves channel_id => OpSubmitTestProof origin pf leaves channel_id
  | Call_update_root root channel_id => OpUpdateRoot origin root channel_id
  | Call_submit_xcmp_proof p b => OpSubmitXcmpProof origin p b
  end.

Lemma dispatch_call_op origin c s : after (dispatch_call origin c s) s = apply_op s (call_op origin c).
Proof. by destruct c. Qed.

(** A failed call leaves the storage as it was, so that it does not matter whether
    the executive rolls back. *)
Lemma dispatch_call_Err origin c s e s' :
  dispatch_call origin c s = Ret (Err e, s') → s' = s.
Proof.
  destruct c; simpl.
  - unfold submit_test_proof. intros Hrun. by run_err.
  - unfold update_root. intros Hrun. by run_err.
  - intros Hrun. by apply submit_xcmp_proof_errors in Hrun as [-> _].
Qed.
End calls.

(** ** State and actions *)

Class SdkPallets := {
  (** The storage of the pallets that the repository does not define. *)
  Rest : Type;
  genesis_rest : Rest;
  (** What the two instances read of it. *)
  view : Rest → ChainState;
}.

(** The build's overflow checks, [frame_system]'s hashing of messages, the weight of
    database writes and [EnsureRoot], on which the configurations of the two instances
    depend. *)
Class RuntimeParams {FS : FrameSystem} := {
  overflow_checks : bool;
  hash_of : bytes → H256;
  RuntimeWeight : Type;
  RocksDbWeight_writes : Z → RuntimeWeight;
  EnsureRoot : Origin → bool;
}.

Section runtime.
Context {FS : FrameSystem} {LV : LeafVersionLib} {WB : WeakBoundedVecLib} {ML : MmrLib}.
Context {BM : MerkleLib} {SC : ScaleLib} {SP : SdkPallets} {RP : RuntimeParams}.

Abbreviation cfg := (channel_config overflow_checks hash_of RuntimeWeight RocksDbWeight_writes EnsureRoot).
Abbreviation MP := (runtime_provider overflow_checks).

(** The storage and the history of one instance. *)
Abbreviation Stuffer i := (@Storage ChainState FS LV MP (cfg i)).
Abbreviation StufferOp i := (@Op ChainState FS LV MP (cfg i) ML).

(** Both instances count blocks in [u32]. *)
Definition block_number (i : MmrInstance) (n : u32) : @BlockNumber _ FS LV MP (cfg i) :=
  match i with ParaAMmr => n | ParaBMmr => n end.

(** The storage of the runtime. *)
Record RuntimeState : Type := mkRuntimeState {
  rest : Rest;
  msg_stuffer_para_a : Stuffer ParaAMmr;
  msg_stuffer_para_b : Stuffer ParaBMmr
}.

Definition runtime_genesis : RuntimeState := mkRuntimeState genesis_rest genesis genesis.

Definition stuffer (s : RuntimeState) (i : MmrInstance) : Stuffer i :=
  match i with
  | ParaAMmr => msg_stuffer_para_a s
  | ParaBMmr => msg_stuffer_para_b s
  end.

Definition set_stuffer (s : RuntimeState) (i : MmrInstance) : Stuffer i → RuntimeState :=
  match i with
  | ParaAMmr => λ st, mkRuntimeState (rest s) st (msg_stuffer_para_b s)
  | ParaBMmr => λ st, mkRuntimeState (rest s) (msg_stuffer_para_a s) st
  end.

(** What happens to the storage: a pallet of the SDK writes its own part, a hook of an
    instance runs, an MMR pallet asks its instance for a leaf, a call is dispatched. *)
Inductive Action : Type :=
| SdkWrites (rest' : Rest)
| Initialize (i : MmrInstance) (n : u32)
| MakeLeaf (i : MmrInstance)
| Dispatch (i : MmrInstance) (origin : Origin) (c : PalletCall).

(** A call that returns, with a result or an error, is done; a panic ends the block. *)
Definition lift_stuffer {A} (s : RuntimeState) (i : MmrInstance)
    (r : run (result (DispatchError Error) A * Stuffer i)) : run RuntimeState :=
  match r with
  | Ret (_, st) => Ret (set_stuffer s i st)
  | Panic => Panic
  | Diverge => Diverge
  end.

Definition run_action (a : Action) (s : RuntimeState) : run RuntimeState :=
  match a with
  | SdkWrites rest' => Ret (mkRuntimeState rest' (msg_stuffer_para_a s) (msg_stuffer_para_b s))
  | Initialize i n => lift_stuffer s i
      (@on_initialize _ _ _ _ (cfg i) _ (view (rest s)) (block_number i n) (stuffer s i))
  | MakeLeaf i => lift_stuffer s i (@leaf_data _ _ _ _ (cfg i) (view (rest s)) (stuffer s i))
  | Dispatch i origin c => lift_stuffer s i
      (@dispatch_call _ _ _ _ _ (cfg i) _ _ origin c (stuffer s i))
  end.

Fixpoint run_actions (acts : list Action) (s : RuntimeState) : run RuntimeState :=
  match acts with
  | [] => Ret s
  | a :: acts => s' ← run_action a s; run_actions acts s'
  end.

(** ** Blocks *)

(** The hook of a pallet of [construct_runtime!]: the two instances run theirs, an MMR
    pallet asks for its leaf and stores what becomes of it, every other pallet writes
    its own storage. *)
Definition pallet_hook (n : u32) (name : string) (rest' : Rest) : list Action :=
  if bool_decide (name = "MsgStufferParaA") then [Initialize ParaAMmr n] else
  if bool_decide (name = "MsgStufferParaB") then [Initialize ParaBMmr n] else
  if bool_decide (name = "MmrParaA") then [MakeLeaf ParaAMmr; SdkWrites rest'] else
  if bool_decide (name = "MmrParaB") then [MakeLeaf ParaBMmr; SdkWrites rest'] else
  [SdkWrites rest'].

(** What follows the hooks: inherents, extrinsics, the messages of other chains and
    finalisation. Any pallet of the SDK may write, and any call of the instances may be
    dispatched with any origin ([BaseCallFilter] is [Everything]). *)
Inductive BodyStep : Type :=
| BodyWrites (rest' : Rest)
| BodyDispatch (i : MmrInstance) (origin : Origin) (c : PalletCall).

Definition body_action (b : BodyStep) : Action :=
  match b with
  | BodyWrites r => SdkWrites r
  | BodyDispatch i o c => Dispatch i o c
  end.

(** One run of a block: what the SDK's pallets write before and in the hooks, and the
    steps of the body. *)
Record BlockRun : Type := mkBlockRun {
  start_rest : Rest;
  hook_rest : string → Rest;
  body : list BodyStep
}.

Definition block_hooks (n : u32) (b : BlockRun) : list Action :=
  construct_runtime ≫= λ p, pallet_hook n p.1 (hook_rest b p.1).

Definition block_actions (n : u32) (b : BlockRun) : list Action :=
  SdkWrites (start_rest b) :: block_hooks n b ++ (body_action <$> body b).

(** [frame_executive::Executive<Runtime, Block, _, Runtime, AllPalletsWithSystem>]. *)
Class Executive := {
  Block : Type;
  header_number_of : Block → u32;
  execute_block : Block → RuntimeState → run RuntimeState;
}.

(** The documented course of a block. *)
Class ExecutiveLaws `{!Executive} : Prop := {
  execute_block_run : ∀ blk s s', execute_block blk s = Ret s' →
    ∃ b, run_actions (block_actions (header_number_of blk) b) s = Ret s';
}.

(** A chain of blocks that were all executed. *)
Fixpoint run_chain `{!Executive} (blocks : list Block) (s : RuntimeState) : run RuntimeState :=
  match blocks with
  | [] => Ret s
  | blk :: blocks => s' ← execute_block blk s; run_chain blocks s'
  end.

End runtime.
