(* ===== verification/RuntimeClaims.v ===== *)
(** * Guarantees of the runtime as a whole

    What a chain of blocks makes of the two instances of the message stuffer pallet:
    the storage of each is that of its own history, both histories report the same
    roots, one per block, and every block gives each channel exactly one leaf. The
    proofs project the actions of a block onto one instance. *)
From S2P Require Import Prelude Words Sdk MessageStuffer TestDouble StufferSafety StufferTrace.
From S2P Require Import RuntimeXcmp Runtime.

#[export] Instance MmrInstance_eq_dec : EqDecision MmrInstance.
Proof. solve_decision. Defined.

(** ** Queues that end *)

(** The fragments of a queue: the first [k] indices are taken, the next is free. *)
Definition queue_ends (chain : ChainState) (para : u32) (k : nat) : Prop :=
  (k < Z.to_nat (2 ^ 16))%nat ∧
  (∀ j, (j < k)%nat → is_Some (OutboundXcmpMessages chain !! (para, #(Z.of_nat j)))) ∧
  OutboundXcmpMessages chain !! (para, #(Z.of_nat k)) = None.

(** The message leaf of such a queue. *)
Definition queued_messages (chain : ChainState) (para : u32) (k : nat) : bytes :=
  [ #1; #2; #3] ++ mjoin (fragment (OutboundXcmpMessages chain) para <$> seq 0 k).

Lemma first_free chain para n :
  (n <= Z.to_nat (2 ^ 16))%nat →
  (∀ j, (j < n)%nat → is_Some (OutboundXcmpMessages chain !! (para, #(Z.of_nat j)))) ∨
  ∃ k, queue_ends chain para k.
Proof.
  induction n as [|n IH]; intros Hn; [left; lia|]. destruct IH as [Hall|Hk]; [lia| |by right].
  destruct (OutboundXcmpMessages chain !! (para, #(Z.of_nat n))) eqn:E.
  - left. intros j Hj. destruct (decide (j = n)) as [->|]; [by eexists|]. apply Hall. lia.
  - right. exists n. split_and!; [lia|done..].
Qed.

(** The messages are collected exactly when the queue ends. *)
Lemma runtime_xcmp_messages_Ret overflow_checks chain hash para m :
  runtime_xcmp_messages overflow_checks chain hash para = Ret m →
  ∃ k, queue_ends chain para k ∧ m = queued_messages chain para k.
Proof.
  intros Hrun. destruct (first_free chain para (Z.to_nat (2 ^ 16))) as [Hall|(k & Hk & Hpres & Habs)];
    [lia| |].
  - exfalso. assert (∀ c : u16, is_Some (OutboundXcmpMessages chain !! (para, c))) as Hfull.
    { intros c. pose proof (uval_range c). specialize (Hall (Z.to_nat c)).
      rewrite Z2Nat.id, uint_wrap_uval in Hall by lia. apply Hall. lia. }
    revert Hrun. unfold runtime_xcmp_messages. destruct overflow_checks.
    + by rewrite (collect_fragments_panics _ _ counter_fuel 0) by (done || unfold counter_fuel; lia).
    + by rewrite collect_fragments_wraps.
  - rewrite (runtime_xcmp_messages_found _ _ _ _ k) in Hrun by done. injection Hrun as <-.
    by exists k.
Qed.

(** What a call returns, without the storage. *)
Definition outcome {S X} (r : run (X * S)) : run X :=
  match r with Ret (x, _) => Ret x | Panic => Panic | Diverge => Diverge end.

(** ** What an operation makes of the seen roots *)

Section seen.
Context {Env : Type}.
Context {FS : FrameSystem} {LV : LeafVersionLib} {MP : XcmpMessageProvider Env}.
Context {CFG : Config Env} {WB : WeakBoundedVecLib} {ML : MmrLib} {BM : MerkleLib}.
Context {SC : ScaleLib} {WBL : WeakBoundedVecLaws}.

Lemma apply_op_seen (st : Storage) op :
  SeenBeefyRoots (apply_op st op) =
    match reported op with
    | Some e => <[e.1:=e.2]> (SeenBeefyRoots st)
    | None => SeenBeefyRoots st
    end ∧
  SeenBeefyRootsOrder (apply_op st op) =
    SeenBeefyRootsOrder st ++ match reported op with Some e => [e.1] | None => [] end.
Proof.
  destruct op; simpl.
  - by rewrite force_from_unchecked.
  - destruct (submit_test_proof_after origin mmr_proof leaves channel_id st) as [evs ->].
    by rewrite app_nil_r.
  - rewrite app_nil_r. unfold update_root. step. by destruct (ensure_signed origin).
  - rewrite app_nil_r. by rewrite after_read_only by apply submit_xcmp_proof_read_only.
  - destruct (leaf_data_after env st) as [evs ->]. by rewrite app_nil_r.
Qed.

Lemma ops_unseen ops (st : Storage) :
  omap reported ops = [] →
  SeenBeefyRoots (foldl apply_op st ops) = SeenBeefyRoots st ∧
  SeenBeefyRootsOrder (foldl apply_op st ops) = SeenBeefyRootsOrder st.
Proof.
  revert st. induction ops as [|op ops IH]; intros st; [done|]. cbn [omap list_omap foldl].
  destruct (apply_op_seen st op) as [Hs Ho]. destruct (reported op); [done|].
  rewrite app_nil_r in Ho. rewrite <- Hs, <- Ho. apply IH.
Qed.
End seen.

(** Two runs that agree on every call agree. *)
Lemma outcome_bind {S S' E A B} (m : M S E A) (m' : M S' E A) (f : A → M S E B) (f' : A → M S' E B) s s' :
  read_only m → read_only m' → outcome (m s) = outcome (m' s') →
  (∀ a, outcome (f a s) = outcome (f' a s')) →
  outcome ((m ≫= f) s) = outcome ((m' ≫= f') s').
Proof.
  intros Hm Hm' Heq Hf. unfold mbind, M_bind.
  destruct (m s) as [[r s1]| |] eqn:E1, (m' s') as [[r' s1']| |] eqn:E2; simpl in Heq; try done.
  apply Hm in E1 as ->. apply Hm' in E2 as ->. injection Heq as <-. destruct r; [apply Hf|done].
Qed.

Lemma outcome_ok_or {S S' E A} (o : option A) (e : E) (s : S) (s' : S') :
  outcome (ok_or o e s) = outcome (ok_or o e s').
Proof. by destruct o. Qed.
Lemma outcome_map_err {S S' E E' A} (r : result E' A) (e : E) (s : S) (s' : S') :
  outcome (map_err r e s) = outcome (map_err r e s').
Proof. by destruct r. Qed.
Lemma outcome_unwrap {S S' E A} (o : option A) (s : S) (s' : S') :
  outcome (unwrap (E:=E) o s) = outcome (unwrap o s').
Proof. by destruct o. Qed.
Lemma outcome_bail_if {S S' E} b (e : E) (s : S) (s' : S') :
  outcome (bail_if b e s) = outcome (bail_if b e s').
Proof. by destruct b. Qed.
#[export] Hint Resolve outcome_ok_or outcome_map_err outcome_unwrap outcome_bail_if : effects.

(** A submission reads of the storage only whether the root was seen, and of the
    configuration nothing. *)
Lemma submit_outcome {Env} `{!FrameSystem} `{!LeafVersionLib} `{!XcmpMessageProvider Env}
    `{!MmrLib} `{!MerkleLib} `{!ScaleLib} (cfg cfg' : Config Env) origin p b
    (st : @Storage _ _ _ _ cfg) (st' : @Storage _ _ _ _ cfg') :
  (is_Some (SeenBeefyRoots st !! b) ↔ is_Some (SeenBeefyRoots st' !! b)) →
  outcome (submit_xcmp_proof origin p b st) = outcome (submit_xcmp_proof origin p b st').
Proof.
  intros Hseen. unfold submit_xcmp_proof, extract_xcmp_channel_root.
  destruct p as [[p1 l1] st2 st3 [p4 l4]]. cbn -[leaf_nodes].
  repeat (apply outcome_bind; [eauto with effects..| |intros ?]); auto with effects.
  simpl. do 2 f_equal. by apply bool_decide_ext.
Qed.

Section runtime.
Context {FS : FrameSystem} {LV : LeafVersionLib} {WB : WeakBoundedVecLib} {ML : MmrLib}.
Context {BM : MerkleLib} {SC : ScaleLib} {SP : SdkPallets} {RP : RuntimeParams}.

Abbreviation cfg := (channel_config overflow_checks hash_of RuntimeWeight RocksDbWeight_writes EnsureRoot).
Abbreviation MP := (runtime_provider overflow_checks).
Abbreviation Stuffer i := (@Storage ChainState FS LV MP (cfg i)).
Abbreviation StufferOp i := (@Op ChainState FS LV MP (cfg i) ML).
Implicit Types (s : RuntimeState).

(** ** Projection onto one instance *)

(** The SDK's storage after an action. *)
Definition rest_after (a : Action) (r : Rest) : Rest :=
  match a with SdkWrites r' => r' | _ => r end.

(** The operation of instance [i] that an action is. *)
Definition action_op (i : MmrInstance) (a : Action) (r : Rest) : list (StufferOp i) :=
  match a with
  | SdkWrites _ => []
  | Initialize j n => if decide (j = i) then [OpInitialize (view r) (block_number i n)] else []
  | MakeLeaf j => if decide (j = i) then [OpLeafData (view r)] else []
  | Dispatch j o c => if decide (j = i) then [call_op o c] else []
  end.

Fixpoint project (i : MmrInstance) (l : list Action) (r : Rest) : list (StufferOp i) :=
  match l with
  | [] => []
  | a :: l => action_op i a r ++ project i l (rest_after a r)
  end.

Lemma project_app i l l' r :
  project i (l ++ l') r = project i l r ++ project i l' (foldl (flip rest_after) r l).
Proof.
  revert r. induction l as [|a l IH]; intros r; [done|]. simpl. by rewrite IH, app_assoc.
Qed.

Lemma run_action_project a s s' i :
  run_action a s = Ret s' →
  rest s' = rest_after a (rest s) ∧ stuffer s' i = foldl apply_op (stuffer s i) (action_op i a (rest s)).
Proof.
  destruct a as [r|j n|j|j o c]; simpl.
  - intros [= <-]. by destruct i.
  - intros [= <-]. by destruct i, j.
  - destruct (leaf_data _ _) as [[x s1]| |] eqn:Hrun; simpl; intros [= <-].
    destruct i, j; simpl in *; try done; by rewrite Hrun.
  - destruct (dispatch_call _ _ _) as [[x s1]| |] eqn:Hrun; simpl; intros [= <-].
    destruct i, j; simpl in *; try done; by rewrite <- dispatch_call_op, Hrun.
Qed.

Lemma run_actions_project l s s' i :
  run_actions l s = Ret s' →
  rest s' = foldl (flip rest_after) (rest s) l ∧ stuffer s' i = foldl apply_op (stuffer s i) (project i l (rest s)).
Proof.
  revert s. induction l as [|a l IH]; intros s; simpl; [by intros [= <-]|].
  intros (s1 & [Hr Hs]%(run_action_project _ _ _ i) & Hrun)%run_bind_Ret.
  apply IH in Hrun as [-> ->]. by rewrite Hr, Hs, foldl_app.
Qed.

(** ** One block *)

(** The calls of the body that instance [i] gets. *)
Definition body_op (i : MmrInstance) (b : BodyStep) : option (StufferOp i) :=
  match b with
  | BodyWrites _ => None
  | BodyDispatch j o c => if decide (j = i) then Some (call_op o c) else None
  end.

(** The SDK's storage when the hooks of the instances run, and when the MMR pallets
    ask for their leaves: what the last pallet before them left. *)
Definition hook_view (b : BlockRun) : ChainState := view (hook_rest b "DmpQueue").
Definition leaf_view (b : BlockRun) (i : MmrInstance) : ChainState :=
  match i with ParaAMmr => hook_view b | ParaBMmr => view (hook_rest b "MmrParaA") end.

Lemma project_body i l r : project i (body_action <$> l) r = omap (body_op i) l.
Proof.
  revert r. induction l as [|[r'|j o c] l IH]; intros r; simpl; [done|apply IH|].
  destruct (decide (j = i)); simpl; by rewrite IH.
Qed.

(** To one instance a block is its hook, its leaf, and its calls. *)
Lemma project_block i n b r :
  project i (block_actions n b) r =
  OpInitialize (hook_view b) (block_number i n) :: OpLeafData (leaf_view b i) :: omap (body_op i) (body b).
Proof.
  change (block_actions n b) with (SdkWrites (start_rest b) :: block_hooks n b ++ (body_action <$> body b)).
  cbn [project action_op rest_after app]. rewrite project_app, project_body.
  by destruct i.
Qed.

(** The root that a block reports to both instances. *)
Definition block_root (b : BlockRun) : H256 :=
  default H256_zero (ParachainSystem_beefy_root (hook_view b)).

Lemma body_op_unreported i l : omap reported (omap (body_op i) l) = [].
Proof.
  induction l as [|[r'|j o c] l IH]; simpl; [done..|].
  destruct (decide (j = i)); [|done]. by destruct c.
Qed.

Lemma cfg_root i env :
  @BeefyRootProvider_get_root _ _ _ _ (cfg i) env = ParachainSystem_beefy_root env.
Proof. by destruct i. Qed.

Lemma block_reported i n b r :
  omap reported (project i (block_actions n b) r) = [(block_root b, block_number i n)].
Proof.
  rewrite project_block. cbn [omap list_omap]. rewrite body_op_unreported.
  unfold block_root. by destruct i.
Qed.

(** ** Chains of blocks *)

Context {EX : Executive} {EXL : ExecutiveLaws}.

(** A log of the roots that were reported, with the blocks, read by instance [i]. *)
Definition log_of (i : MmrInstance) (log : list (H256 * u32))
    : list (H256 * @BlockNumber _ FS LV MP (cfg i)) := (λ e, (e.1, block_number i e.2)) <$> log.

Lemma log_of_roots i log : (log_of i log).*1 = log.*1.
Proof. unfold log_of. rewrite <- list_fmap_compose. by apply list_fmap_ext. Qed.

(** The blocks of a chain with their numbers, one run each. *)
Fixpoint run_blocks (l : list (u32 * BlockRun)) (s : RuntimeState) : run RuntimeState :=
  match l with
  | [] => Ret s
  | (n, b) :: l => s' ← run_actions (block_actions n b) s; run_blocks l s'
  end.

Lemma run_chain_blocks blocks s s' :
  run_chain blocks s = Ret s' → ∃ l, l.*1 = header_number_of <$> blocks ∧ run_blocks l s = Ret s'.
Proof.
  revert s. induction blocks as [|blk blocks IH]; intros s; simpl; [intros [= <-]; by exists []|].
  intros (s1 & [b Hb]%execute_block_run & (l & Hl & Hrun)%IH)%run_bind_Ret.
  exists ((header_number_of blk, b) :: l). split; [by rewrite fmap_cons, Hl|].
  cbn [run_blocks]. rewrite Hb. exact Hrun.
Qed.

(** What the blocks report, and the channel roots that signed calls set at instance [i]. *)
Definition blocks_log (l : list (u32 * BlockRun)) : list (H256 * u32) := (λ e, (block_root e.2, e.1)) <$> l.
Definition body_update (i : MmrInstance) (b : BodyStep) : option (u64 * H256) :=
  match b with
  | BodyDispatch j o (Call_update_root r c) =>
      if decide (j = i) then (λ _, (c, r)) <$> ensure_signed o else None
  | _ => None
  end.
Definition blocks_updates (i : MmrInstance) (l : list (u32 * BlockRun)) : list (u64 * H256) :=
  l ≫= λ e, omap (body_update i) (body e.2).

Lemma body_op_updated i (l : list BodyStep) : omap updated (omap (body_op i) l) = omap (body_update i) l.
Proof.
  induction l as [|[r'|j o c] l IH]; simpl; [done..|].
  destruct (decide (j = i)); [|by destruct c].
  destruct c; simpl; try exact IH. destruct (ensure_signed o); simpl; [|exact IH].
  f_equal. exact IH.
Qed.

Lemma block_updated i n b r :
  omap updated (project i (block_actions n b) r) = omap (body_update i) (body b).
Proof. rewrite project_block. cbn [omap list_omap updated]. apply body_op_updated. Qed.

(** To one instance a chain is a history with the log and the updates of its blocks. *)
Lemma run_blocks_history l s s' i :
  run_blocks l s = Ret s' → ∃ ops, stuffer s' i = foldl apply_op (stuffer s i) ops ∧
    omap reported ops = log_of i (blocks_log l) ∧ omap updated ops = blocks_updates i l.
Proof.
  revert s. induction l as [|[n b] l IH]; intros s; cbn [run_blocks]; [intros [= <-]; by exists []|].
  intros (s1 & [_ Hst]%(run_actions_project _ _ _ i) & (ops & Hs' & Hrep & Hupd)%IH)%run_bind_Ret.
  exists (project i (block_actions n b) (rest s) ++ ops).
  rewrite foldl_app, <- Hst, !omap_app, block_reported, block_updated, Hrep, Hupd. by split_and!.
Qed.

(** ** Leaves *)

(** The destination of a channel. *)
Definition para_of (i : MmrInstance) : u32 :=
  match i with ParaAMmr => #1 | ParaBMmr => #2 end.

(** The event of a channel's leaf. *)
Definition leaf_event (i : MmrInstance) (chain : ChainState) (k : nat)
    : @Event ChainState FS LV MP (cfg i) :=
  XcmpMessageSent (hash_of (queued_messages chain (para_of i) k))
    (block_number i (parent_block chain).1).

Definition is_accepted {i} (e : @Event ChainState FS LV MP (cfg i)) : bool :=
  match e with XcmpMessagesAccepted _ _ => true | _ => false end.

Lemma leaf_data_Ret i chain (st : Stuffer i) x (st' : Stuffer i) :
  leaf_data chain st = Ret (x, st') →
  ∃ k, queue_ends chain (para_of i) k ∧
    ∀ s : Stuffer i, Events (apply_op s (OpLeafData chain)) = Events s ++ [leaf_event i chain k].
Proof.
  unfold apply_op, leaf_data. step. destruct i; simpl.
  all: destruct (runtime_xcmp_messages _ _ _ _) as [m| |] eqn:Hm; [|done..]; intros _.
  all: destruct (runtime_xcmp_messages_Ret _ _ _ _ _ Hm) as (k & Hk & ->).
  all: exists k; split; [done|]; by intros s.
Qed.

(** The hook and the leaf of an instance in the actions of a block. *)
Lemma leaf_in_block n b r i :
  ∃ l l', block_actions n b = l ++ MakeLeaf i :: l' ∧
    view (foldl (flip rest_after) r l) = leaf_view b i.
Proof.
  exists (take (match i with ParaAMmr => 19 | ParaBMmr => 21 end) (block_actions n b)).
  exists (drop (match i with ParaAMmr => 20 | ParaBMmr => 22 end) (block_actions n b)).
  by destruct i.
Qed.

Lemma run_actions_split l a l' s s' :
  run_actions (l ++ a :: l') s = Ret s' →
  ∃ s1 s2, run_actions l s = Ret s1 ∧ run_action a s1 = Ret s2.
Proof.
  revert s. induction l as [|a' l IH]; intros s; simpl.
  - intros (s2 & Hs2 & _)%run_bind_Ret. by exists s, s2.
  - intros (s2 & Hs2 & (s3 & s4 & H3 & H4)%IH)%run_bind_Ret. exists s3, s4.
    split; [|done]. by rewrite Hs2.
Qed.

Lemma leaf_made n b s s' i :
  run_actions (block_actions n b) s = Ret s' →
  ∃ k, queue_ends (leaf_view b i) (para_of i) k ∧
    ∀ st : Stuffer i, Events (apply_op st (OpLeafData (leaf_view b i))) =
      Events st ++ [leaf_event i (leaf_view b i) k].
Proof.
  intros Hrun. destruct (leaf_in_block n b (rest s) i) as (l & l' & Hl & Hview). rewrite Hl in Hrun.
  apply run_actions_split in Hrun as (s1 & s2 & Hs1 & Hs2).
  apply (run_actions_project _ _ _ i) in Hs1 as [Hrest _].
  rewrite <- Hview, <- Hrest. simpl in Hs2.
  destruct (leaf_data _ _) as [[x s3]| |] eqn:Hleaf; [|done..]. by eapply leaf_data_Ret.
Qed.

(** Calls deposit only acceptances. *)
Lemma body_ops_events i l (s : Stuffer i) :
  ∃ evs, Events (foldl apply_op s (omap (body_op i) l)) = Events s ++ evs ∧ forallb is_accepted evs.
Proof.
  revert s. induction l as [|[r|j o c] l IH]; intros s;
    cbn [omap list_omap body_op]; [by exists []; rewrite app_nil_r|apply IH|].
  destruct (decide (j = i)); [|apply IH]. cbn [foldl].
  destruct (IH (apply_op s (call_op o c))) as (evs & -> & Hevs).
  assert (∃ ev, Events (apply_op s (call_op o c)) = Events s ++ ev ∧ forallb is_accepted ev)
    as (ev & -> & Hev).
  { destruct c; simpl.
    - unfold submit_test_proof. step. destruct (ensure_signed o); simpl; [|by exists []; rewrite app_nil_r].
      destruct (_ !! channel_id); simpl; [|by exists []; rewrite app_nil_r].
      destruct (verify_leaves_proof _ _ _); simpl; [by eexists|by exists []; rewrite app_nil_r].
    - unfold update_root. step. exists []. rewrite app_nil_r. by destruct (ensure_signed o).
    - exists []. rewrite app_nil_r. by rewrite after_read_only by apply submit_xcmp_proof_read_only. }
  exists (ev ++ evs). rewrite app_assoc. split; [done|]. rewrite forallb_app.
  by apply andb_True.
Qed.

(** ** Guarantees *)

(** [C5] Both channels follow one log: after any chain of executed blocks, whatever
    the SDK's pallets do and whatever calls anyone makes, the state is that of some runs
    of the blocks, in order, and can be read off them: each instance's order of seen roots
    is the roots that [ParachainSystem] had in the hooks, one per block, its map has for
    each root the last block that saw it, and its channel roots are the last ones that
    signed calls of that instance set. *)
Theorem runtime_refines_log `{!WeakBoundedVecLaws} blocks s :
  run_chain blocks runtime_genesis = Ret s →
  ∃ l : list (u32 * BlockRun), l.*1 = header_number_of <$> blocks ∧ run_blocks l runtime_genesis = Ret s ∧
    ∀ i, SeenBeefyRootsOrder (stuffer s i) = block_root <$> l.*2 ∧
         SeenBeefyRoots (stuffer s i) = latest (log_of i (blocks_log l)) ∧
         XcmpChannelRoots (stuffer s i) = latest (blocks_updates i l).
Proof.
  intros (l & Hnum & Hl)%run_chain_blocks. exists l. split_and!; [done..|]. intros i.
  destruct (run_blocks_history _ _ _ i Hl) as (ops & Hs & Hrep & Hupd).
  assert (stuffer runtime_genesis i = genesis) as Hgen by (by destruct i).
  rewrite Hs, Hgen. fold (run_ops ops). destruct (run_ops_refines ops) as [-> -> ->].
  rewrite Hrep, Hupd, log_of_roots. split_and!; [|done..].
  unfold blocks_log. by rewrite <- !list_fmap_compose.
Qed.

(** [C6] Every block that is executed gives each channel exactly one leaf, made of the
    storage that the channel's MMR pallet finds in that block: the queue for parachain 1
    (channel A) or 2 (channel B) ended there, so a block in which it does not end cannot be
    executed; the leaf's event carries the hash of the fragments of that queue after the
    prefix and the parent block's number, and comes before the acceptances of the block's
    calls, the only other events. *)
Theorem block_leaves n b s s' i :
  run_actions (block_actions n b) s = Ret s' →
  let chain := leaf_view b i in
  ∃ k evs, queue_ends chain (para_of i) k ∧ forallb is_accepted evs ∧
    Events (stuffer s' i) = Events (stuffer s i) ++
      XcmpMessageSent (hash_of (queued_messages chain (para_of i) k))
        (block_number i (parent_block chain).1) :: evs.
Proof.
  intros Hrun. cbv zeta. destruct (leaf_made _ _ _ _ i Hrun) as (k & Hk & Hev).
  destruct (run_actions_project _ _ _ i Hrun) as [_ Hst]. rewrite project_block in Hst.
  cbn [foldl] in Hst. set (s1 := apply_op (stuffer s i) _) in Hst.
  destruct (body_ops_events i (body b) (apply_op s1 (OpLeafData (leaf_view b i)))) as (evs & Hevs & Hacc).
  exists k, evs. split_and!; [done..|].
  rewrite Hst, Hevs, Hev, <- app_assoc. by destruct i.
Qed.

(** Well-formed states: both instances have seen the same roots in the same blocks and
    the same order, and a root is in the map exactly when it is in the order. *)
Record runtime_wf (s : RuntimeState) : Prop := {
  wf_order : SeenBeefyRootsOrder (msg_stuffer_para_a s) = SeenBeefyRootsOrder (msg_stuffer_para_b s);
  wf_seen : SeenBeefyRoots (msg_stuffer_para_a s) =
    (SeenBeefyRoots (msg_stuffer_para_b s) : gmap H256 u32);
  wf_listed : ∀ r, is_Some (SeenBeefyRoots (msg_stuffer_para_a s) !! r) ↔
    r ∈ SeenBeefyRootsOrder (msg_stuffer_para_a s)
}.

Lemma block_seen `{!WeakBoundedVecLaws} blk s s' :
  execute_block blk s = Ret s' →
  ∃ root, ∀ i,
    SeenBeefyRoots (stuffer s' i) =
      <[root:=block_number i (header_number_of blk)]> (SeenBeefyRoots (stuffer s i)) ∧
    SeenBeefyRootsOrder (stuffer s' i) = SeenBeefyRootsOrder (stuffer s i) ++ [root].
Proof.
  intros [b Hrun]%execute_block_run. exists (block_root b). intros i.
  destruct (run_actions_project _ _ _ i Hrun) as [_ Hst]. rewrite project_block in Hst.
  cbn [foldl] in Hst. rewrite Hst.
  set (s1 := apply_op _ (OpInitialize _ _)). set (s2 := apply_op s1 (OpLeafData _)).
  destruct (ops_unseen (omap (body_op i) (body b)) s2) as [-> ->]; [apply body_op_unreported|].
  destruct (ops_unseen [OpLeafData (leaf_view b i)] s1) as [Hs2 Ho2]; [done|].
  cbn [foldl] in Hs2, Ho2. fold s2 in Hs2, Ho2. rewrite Hs2, Ho2.
  destruct (apply_op_seen (stuffer s i) (OpInitialize (hook_view b)
    (block_number i (header_number_of blk)))) as [Hs1 Ho1].
  fold s1 in Hs1, Ho1. cbn [reported fst snd] in Hs1, Ho1. rewrite cfg_root in Hs1, Ho1.
  rewrite Hs1, Ho1. unfold block_root. split; reflexivity.
Qed.

Lemma block_wf `{!WeakBoundedVecLaws} blk s s' :
  runtime_wf s → execute_block blk s = Ret s' → runtime_wf s'.
Proof.
  intros [Ho Hs Hl] [root Hseen]%block_seen.
  destruct (Hseen ParaAMmr) as [HsA HoA], (Hseen ParaBMmr) as [HsB HoB].
  cbn [stuffer block_number] in *.
  split.
  - by rewrite HoA, HoB, Ho.
  - rewrite HsA, HsB. f_equal. exact Hs.
  - intros r. rewrite HsA, HoA, elem_of_app, list_elem_of_singleton, <- Hl.
    destruct (decide (root = r)) as [->|Hne].
    + rewrite lookup_insert_eq. split; [by right|by eexists].
    + rewrite lookup_insert_ne by done. naive_solver.
Qed.

Lemma genesis_wf : runtime_wf runtime_genesis.
Proof.
  split; [done..|]. intros r. cbn. rewrite lookup_empty. split; [by intros []|by intros []%elem_of_nil].
Qed.

Lemma chain_wf `{!WeakBoundedVecLaws} blocks s s' :
  runtime_wf s → run_chain blocks s = Ret s' → runtime_wf s'.
Proof.
  revert s. induction blocks as [|blk blocks IH]; intros s Hwf; simpl; [by intros [= <-]|].
  intros (s1 & Hs1 & Hrun)%run_bind_Ret. eapply IH; [|done]. by eapply block_wf.
Qed.

(** [C7] Well-formedness is preserved: the genesis state is well formed, and executing
    any block in a well-formed state gives a well-formed state, in which exactly the
    root of this block is new. *)
Theorem runtime_wf_preserved `{!WeakBoundedVecLaws} blk s s' :
  runtime_wf runtime_genesis ∧
  (runtime_wf s → execute_block blk s = Ret s' →
    runtime_wf s' ∧ ∃ root, ∀ i,
      SeenBeefyRootsOrder (stuffer s' i) = SeenBeefyRootsOrder (stuffer s i) ++ [root]).
Proof.
  split; [apply genesis_wf|]. intros Hwf Hblk. split; [by eapply block_wf|].
  apply block_seen in Hblk as [root Hroot]. exists root. intros i. apply Hroot.
Qed.

(** [C4] Soundness for the whole chain: if either instance accepts a proof after any
    chain of blocks, every message leaf it carries was committed to under the root it
    targets, assuming that the roots [ParachainSystem] reported are honest. *)
Theorem runtime_soundness `{!WeakBoundedVecLaws} `{!ScaleLaws} L blocks s i origin p b st' :
  run_chain blocks runtime_genesis = Ret s →
  (∀ r, r ∈ SeenBeefyRootsOrder (msg_stuffer_para_a s) → honest_root L r) →
  dispatch_call origin (Call_submit_xcmp_proof p b) (stuffer s i) = Ret (Ok tt, st') →
  ∀ l, l ∈ (stage_4 p).2 → delivered L b (into_opaque_leaf l).
Proof.
  intros Hrun Hhon (_ & _ & Hseen & Hv)%submit_xcmp_proof_accepted l Hl.
  apply chain_wf in Hrun as [Ho Hs Hlisted]; [|apply genesis_wf].
  eapply valid_delivered; [apply Hhon|done..]. apply Hlisted.
  destruct i; simpl in Hseen; [done|]. by rewrite Hs.
Qed.

(** [C8] A proof is not tied to a channel: after any chain of blocks both instances
    answer a submission alike, with the same acceptance, error or panic, so that messages
    for one channel are accepted by the pallet of the other too. *)
Theorem proof_not_tied_to_channel `{!WeakBoundedVecLaws} blocks s origin p b :
  run_chain blocks runtime_genesis = Ret s →
  outcome (dispatch_call origin (Call_submit_xcmp_proof p b) (msg_stuffer_para_a s)) =
  outcome (dispatch_call origin (Call_submit_xcmp_proof p b) (msg_stuffer_para_b s)).
Proof.
  intros Hrun. apply chain_wf in Hrun as [_ Hs _]; [|apply genesis_wf].
  apply submit_outcome. by rewrite Hs.
Qed.
End runtime.

(** ** Witnesses *)

(** A chain whose SDK storage is just what the instances read, and whose blocks are
    the runs they make. *)
#[local] Instance td_sdk_pallets : SdkPallets := {|
  Rest := ChainState;
  genesis_rest := mkChainState ∅ None ( #0, H256_zero);
  view := id
|}.
#[local] Instance td_params : RuntimeParams := {|
  overflow_checks := true;
  hash_of := λ _, H256_zero;
  RuntimeWeight := Z;
  RocksDbWeight_writes := id;
  EnsureRoot := λ _, false
|}.
#[local] Instance td_executive : Executive := {|
  Block := u32 * BlockRun;
  header_number_of := fst;
  execute_block := λ blk, run_actions (block_actions blk.1 blk.2)
|}.
Lemma td_execute (blk : Block) s :
  execute_block blk s = run_actions (block_actions (header_number_of blk) blk.2) s.
Proof. unfold execute_block, header_number_of, td_executive. reflexivity. Qed.
#[local] Instance td_executive_laws : ExecutiveLaws.
Proof. split. intros blk s s' Hrun. exists blk.2. rewrite <- td_execute. exact Hrun. Qed.

(** The relay chain's root becomes known, one fragment is queued for parachain 1, and a
    proof is submitted to channel A and an update of a root to channel B. *)
Definition td_rest : ChainState :=
  mkChainState {[ ( #1, #0) := [ #8] ]} (Some td_beefy_root) ( #3, H256_zero).
Definition td_block : Block :=
  ( #4, mkBlockRun td_rest (λ _, td_rest)
    [BodyDispatch ParaAMmr (Some #1) (Call_submit_xcmp_proof td_xcmp_proof td_beefy_root);
     BodyDispatch ParaBMmr (Some #2) (Call_update_root td_channel_mmr_root #0)]).
Definition td_after : RuntimeState :=
  match execute_block td_block runtime_genesis with Ret s => s | _ => runtime_genesis end.

(** Runs that return, recognised by a test that evaluates to a boolean. *)
Lemma td_returns {A} (r : run A) (d : A) :
  match r with Ret _ => true | _ => false end = true →
  r = Ret (match r with Ret a => a | _ => d end).
Proof. by destruct r. Qed.

Lemma td_call_accepted {S E} (r : run (result E () * S)) :
  match r with Ret (Ok _, _) => true | _ => false end = true → ∃ s, r = Ret (Ok tt, s).
Proof. destruct r as [[[[]|] s]| |]; [by exists s|done..]. Qed.

Lemma td_block_runs : execute_block td_block runtime_genesis = Ret td_after.
Proof. apply td_returns. vm_cast_no_check (eq_refl true). Qed.

Lemma td_chain_runs : run_chain [td_block] runtime_genesis = Ret td_after.
Proof. unfold run_chain. by rewrite td_block_runs. Qed.

Lemma runtime_refines_log_witness :
  ∃ l : list (u32 * BlockRun), l.*1 = header_number_of <$> [td_block] ∧
    run_blocks l runtime_genesis = Ret td_after ∧
    ∀ i, SeenBeefyRootsOrder (stuffer td_after i) = block_root <$> l.*2 ∧
         SeenBeefyRoots (stuffer td_after i) = latest (log_of i (blocks_log l)) ∧
         XcmpChannelRoots (stuffer td_after i) = latest (blocks_updates i l).
Proof. exact (runtime_refines_log [td_block] td_after td_chain_runs). Defined.

Lemma block_leaves_witness :
  let chain := leaf_view td_block.2 ParaAMmr in
  ∃ k evs, queue_ends chain #1 k ∧ forallb is_accepted evs ∧
    Events (stuffer td_after ParaAMmr) = Events (stuffer runtime_genesis ParaAMmr) ++
      XcmpMessageSent (hash_of (queued_messages chain #1 k))
        (block_number ParaAMmr (parent_block chain).1) :: evs.
Proof.
  refine (block_leaves #4 td_block.2 runtime_genesis td_after ParaAMmr _).
  rewrite <- td_block_runs. symmetry. exact (td_execute td_block runtime_genesis).
Defined.

Lemma runtime_wf_preserved_witness : runtime_wf td_after.
Proof.
  destruct (runtime_wf_preserved td_block runtime_genesis td_after) as [Hgen Hstep].
  apply (Hstep Hgen td_block_runs).
Defined.

Lemma runtime_soundness_witness :
  delivered td_ledger td_beefy_root (into_opaque_leaf td_message_leaf).
Proof.
  destruct (td_call_accepted (dispatch_call td_signed (Call_submit_xcmp_proof td_xcmp_proof td_beefy_root)
    (stuffer td_after ParaBMmr))) as [st Hst]; [vm_cast_no_check (eq_refl true)|].
  eapply (runtime_soundness td_ledger [td_block] td_after ParaBMmr td_signed td_xcmp_proof
    td_beefy_root st td_chain_runs); [|exact Hst|by apply list_elem_of_singleton].
  intros r Hr. assert (forallb (λ r, bool_decide (r = td_beefy_root))
    (SeenBeefyRootsOrder (msg_stuffer_para_a td_after)) = true) as Hall by vm_cast_no_check (eq_refl true).
  rewrite forallb_forall in Hall. apply list_elem_of_In, Hall, bool_decide_eq_true_1 in Hr as ->.
  apply td_honest.
Defined.

Lemma proof_not_tied_to_channel_witness :
  outcome (dispatch_call td_signed (Call_submit_xcmp_proof td_xcmp_proof td_beefy_root)
    (msg_stuffer_para_b td_after)) = Ret (Ok tt).
Proof.
  rewrite <- (proof_not_tied_to_channel [td_block] td_after td_signed td_xcmp_proof td_beefy_root
    td_chain_runs). vm_cast_no_check (eq_refl (Ret (Ok tt) : run (result (DispatchError Error) ()))).
Defined.
