(* ===== verification/XcmConfig.v ===== *)
(** * XCM configuration of the runtime

    [runtime/src/xcm_config.rs]: which accounts and origins a location stands for,
    the barrier in front of the XCM executor, the weight of a message and the other
    settings of the executor and the XCM pallet. The building blocks are the SDK's
    ([xcm-builder]) and are parameters with their documented behaviour; what is
    modelled is how the runtime puts them together. *)
From S2P Require Import Prelude Words RuntimeConfig.

(** ** Locations *)

(** The types of [xcm::v3] that the runtime only passes on. *)
Class XcmTypes := {
  NetworkId : Type;
  BodyPart : Type;
  OtherBody : Type;
  OtherJunction : Type;
  Instruction : Type;
}.

Section locations.
Context {XT : XcmTypes}.

Inductive BodyId : Type := Executive | Defense | Body (b : OtherBody).

Inductive Junction : Type :=
| Parachain (id : u32)
| AccountId32 (network : option NetworkId) (id : H256)
| Plurality (id : BodyId) (part : BodyPart)
| Junction_other (j : OtherJunction).

(** [MultiLocation]; [Here] is the empty interior, [X1(j)] the interior [[j]]. *)
Record MultiLocation : Type := mkMultiLocation { parents : u8; interior : list Junction }.

(** [MultiAsset]. *)
Inductive AssetId : Type := Concrete (l : MultiLocation) | Abstract (data : H256).
Inductive Fungibility : Type := Fungible (amount : u128) | NonFungible (instance : u128).
Record MultiAsset : Type := mkMultiAsset { asset_id : AssetId; asset_fun : Fungibility }.

(** [MultiLocation::parent()]. *)
Definition MultiLocation_parent : MultiLocation := mkMultiLocation #1 [].

(** The locations that the building blocks recognise. *)
Definition is_parent (l : MultiLocation) : bool :=
  match interior l with [] => bool_decide (uval (parents l) = 1)%Z | _ => false end.
Definition sibling (l : MultiLocation) : option u32 :=
  match interior l with
  | [Parachain id] => if bool_decide (uval (parents l) = 1)%Z then Some id else None
  | _ => None
  end.
Definition local_account (l : MultiLocation) : option (option NetworkId * H256) :=
  match interior l with
  | [AccountId32 network id] =>
      if bool_decide (uval (parents l) = 0)%Z then Some (network, id) else None
  | _ => None
  end.

(** [OriginKind], and the origins that a location is converted to. *)
Inductive OriginKind : Set := Native | SovereignAccount | Superuser | Xcm.
Inductive RuntimeOrigin : Type :=
| Root
| Signed (account : H256)
| Relay
| SiblingPara (id : u32)
| XcmOrigin (location : MultiLocation).

Abbreviation ConvertLocation := (MultiLocation → option H256).
Abbreviation ConvertOrigin := (MultiLocation → OriginKind → result MultiLocation RuntimeOrigin).
(** [ShouldExecute]: origin, message, weight and weight credit. *)
Abbreviation ShouldExecute := (MultiLocation → list Instruction → Weight → Weight → bool).

(** ** Building blocks of the SDK *)

Class XcmBuilder := {
  parent_account : H256;
  sibling_account : u32 → H256;
  ParentIsPreset : ConvertLocation;
  SiblingParachainConvertsVia : ConvertLocation;
  AccountId32Aliases : option NetworkId → ConvertLocation;
  (** Tuples of converters. *)
  first_location : list ConvertLocation → ConvertLocation;
  first_origin : list ConvertOrigin → ConvertOrigin;
  SovereignSignedViaLocation : ConvertLocation → ConvertOrigin;
  RelayChainAsNative : RuntimeOrigin → ConvertOrigin;
  SiblingParachainAsNative : ConvertOrigin;
  SignedAccountId32AsNative : option NetworkId → ConvertOrigin;
  XcmPassthrough : ConvertOrigin;
  (** Barriers. *)
  TrailingSetTopicAsId : ShouldExecute → ShouldExecute;
  DenyThenTry : ShouldExecute → ShouldExecute → ShouldExecute;
  DenyReserveTransferToRelayChain : ShouldExecute;
  any_barrier : list ShouldExecute → ShouldExecute;
  TakeWeightCredit : ShouldExecute;
  WithComputedOrigin : ShouldExecute → list Junction → u32 → ShouldExecute;
  AllowTopLevelPaidExecutionFrom : (MultiLocation → bool) → ShouldExecute;
  AllowExplicitUnpaidExecutionFrom : (MultiLocation → bool) → ShouldExecute;
  (** What the barriers look for in a message: execution is bought first, the first
      instruction is [UnpaidExecution], reserve assets go to the relay chain. *)
  buys_execution : list Instruction → bool;
  explicit_unpaid : list Instruction → bool;
  reserve_to_relay : list Instruction → bool;
  (** The message without a final [SetTopic]; the origin and the rest of the message
      after the leading instructions that change the origin. *)
  without_topic : list Instruction → list Instruction;
  computed : list Junction → u32 → MultiLocation → list Instruction →
    option (MultiLocation * list Instruction);
  (** An instruction that is neither a [Transact], which adds a weight of its own, nor
      [SetAppendix] or [SetErrorHandler], which carry instructions. *)
  plain : Instruction → bool;
  (** [FixedWeightBounds]: the weight of a message. *)
  FixedWeightBounds : Weight → u32 → list Instruction → option Weight;
}.

Definition weight_le (w w' : Weight) : Prop :=
  (uval (ref_time w) <= uval (ref_time w') ∧ uval (proof_size w) <= uval (proof_size w'))%Z.

(** The documented behaviour of the converters. *)
Class ConverterLaws `{!XcmBuilder} : Prop := {
  parent_spec : ∀ l, ParentIsPreset l = if is_parent l then Some parent_account else None;
  sibling_spec : ∀ l, SiblingParachainConvertsVia l = sibling_account <$> sibling l;
  aliases_spec : ∀ l, AccountId32Aliases None l =
    match local_account l with Some (None, id) => Some id | _ => None end;
  first_location_nil : ∀ l, first_location [] l = None;
  first_location_cons : ∀ c cs l, first_location (c :: cs) l =
    match c l with Some a => Some a | None => first_location cs l end;
  first_origin_nil : ∀ l k, first_origin [] l k = Err l;
  first_origin_cons : ∀ c cs l k, first_origin (c :: cs) l k =
    match c l k with Ok o => Ok o | Err l' => first_origin cs l' k end;
  sovereign_spec : ∀ c l k, SovereignSignedViaLocation c l k =
    match k, c l with SovereignAccount, Some a => Ok (Signed a) | _, _ => Err l end;
  relay_native_spec : ∀ o l k, RelayChainAsNative o l k =
    match k with Native => if is_parent l then Ok o else Err l | _ => Err l end;
  sibling_native_spec : ∀ l k, SiblingParachainAsNative l k =
    match k, sibling l with Native, Some id => Ok (SiblingPara id) | _, _ => Err l end;
  signed_native_spec : ∀ l k, SignedAccountId32AsNative None l k =
    match k, local_account l with Native, Some (None, id) => Ok (Signed id) | _, _ => Err l end;
  passthrough_spec : ∀ l k, XcmPassthrough l k =
    match k with Xcm => Ok (XcmOrigin l) | _ => Err l end;
}.

(** What it means that a barrier lets a message pass. *)
Class BarrierLaws `{!XcmBuilder} : Prop := {
  topic_pass : ∀ b l m w c, TrailingSetTopicAsId b l m w c = true → b l (without_topic m) w c = true;
  deny_pass : ∀ d b l m w c, DenyThenTry d b l m w c = true → d l m w c = true ∧ b l m w c = true;
  deny_reserve_pass : ∀ l m w c, DenyReserveTransferToRelayChain l m w c = true →
    reserve_to_relay m = false;
  any_pass : ∀ bs l m w c, any_barrier bs l m w c = true → ∃ b, b ∈ bs ∧ b l m w c = true;
  credit_pass : ∀ l m w c, TakeWeightCredit l m w c = true → weight_le w c;
  computed_pass : ∀ b u n l m w c, WithComputedOrigin b u n l m w c = true →
    ∃ l' m', computed u n l m = Some (l', m') ∧ b l' m' w c = true;
  paid_pass : ∀ T l m w c, AllowTopLevelPaidExecutionFrom T l m w c = true →
    T l = true ∧ buys_execution m = true;
  unpaid_pass : ∀ T l m w c, AllowExplicitUnpaidExecutionFrom T l m w c = true →
    T l = true ∧ explicit_unpaid m = true;
}.

(** [FixedWeightBounds] adds the unit weight for every instruction, and what the
    instruction asks for by itself; a message that is too long, or whose weight overflows,
    has no weight. *)
Class WeigherLaws `{!XcmBuilder} : Prop := {
  weigher_bounds : ∀ u max m w, FixedWeightBounds u max m = Some w →
    (Z.of_nat (length m) <= uval max ∧
     uval (ref_time u) * Z.of_nat (length m) <= uval (ref_time w) ∧
     uval (proof_size u) * Z.of_nat (length m) <= uval (proof_size w))%Z;
  weigher_plain : ∀ u max m, forallb plain m = true →
    (Z.of_nat (length m) <= uval max)%Z →
    (uval (ref_time u) * Z.of_nat (length m) < 2 ^ 64)%Z →
    (uval (proof_size u) * Z.of_nat (length m) < 2 ^ 64)%Z →
    FixedWeightBounds u max m =
      Some (mkWeight #(uval (ref_time u) * Z.of_nat (length m))
                     #(uval (proof_size u) * Z.of_nat (length m)));
}.

(** ** The configuration *)

Context {XB : XcmBuilder}.
(** [ParachainInfo::parachain_id()]. *)
Context (parachain_id : u32).

Definition RelayLocation : MultiLocation := MultiLocation_parent.
Definition RelayNetwork : option NetworkId := None.
Definition RelayChainOrigin : RuntimeOrigin := Relay.
Definition UniversalLocation : list Junction := [Parachain parachain_id].

(** [LocationToAccountId]. *)
Definition LocationToAccountId : ConvertLocation := first_location
  [ParentIsPreset; SiblingParachainConvertsVia; AccountId32Aliases RelayNetwork].

(** [XcmOriginToTransactDispatchOrigin]. *)
Definition XcmOriginToTransactDispatchOrigin : ConvertOrigin := first_origin
  [SovereignSignedViaLocation LocationToAccountId;
   RelayChainAsNative RelayChainOrigin;
   SiblingParachainAsNative;
   SignedAccountId32AsNative RelayNetwork;
   XcmPassthrough].

Definition UnitWeightCost : Weight := mkWeight #1000000000 (const_mul #64 #1024).
Definition MaxInstructions : u32 := #100.
Definition MaxAssetsIntoHolding : u32 := #64.

(** [match_types! ParentOrParentsExecutivePlurality]. *)
Definition ParentOrParentsExecutivePlurality (l : MultiLocation) : bool :=
  bool_decide (uval (parents l) = 1)%Z &&
  match interior l with
  | [] => true
  | [Plurality Executive _] => true
  | _ => false
  end.

Definition Everything {A} (_ : A) : bool := true.
Definition Nothing {A} (_ : A) : bool := false.

(** [Barrier]. *)
Definition Barrier : ShouldExecute := TrailingSetTopicAsId
  (DenyThenTry DenyReserveTransferToRelayChain
    (any_barrier
      [TakeWeightCredit;
       WithComputedOrigin
         (any_barrier
           [AllowTopLevelPaidExecutionFrom Everything;
            AllowExplicitUnpaidExecutionFrom ParentOrParentsExecutivePlurality])
         UniversalLocation #8])).

(** The [Weigher] of the executor and of the XCM pallet. *)
Definition Weigher : list Instruction → option Weight :=
  FixedWeightBounds UnitWeightCost MaxInstructions.

(** The filters of the XCM pallet and of the executor. *)
Definition XcmExecuteFilter : MultiLocation * list Instruction → bool := Nothing.
Definition XcmTeleportFilter : MultiLocation * list MultiAsset → bool := Everything.
Definition XcmReserveTransferFilter : MultiLocation * list MultiAsset → bool := Nothing.
Definition UniversalAliases : MultiLocation * Junction → bool := Nothing.
Definition Aliasers : MultiLocation * MultiLocation → bool := Nothing.

(** ** Guarantees *)

Section origins.
Context {CL : ConverterLaws}.

(** The account of a location. *)
Lemma LocationToAccountId_spec l :
  LocationToAccountId l =
    if is_parent l then Some parent_account else
    match sibling l, local_account l with
    | Some id, _ => Some (sibling_account id)
    | None, Some (None, id) => Some id
    | None, _ => None
    end.
Proof.
  unfold LocationToAccountId, RelayNetwork.
  rewrite !first_location_cons, first_location_nil, parent_spec, sibling_spec, aliases_spec.
  destruct (is_parent l), (sibling l), (local_account l) as [[[]]|]; done.
Qed.

(** At most one of the converters recognises a location. *)
Lemma location_kinds l :
  (is_parent l = true → sibling l = None ∧ local_account l = None) ∧
  (is_Some (sibling l) → local_account l = None).
Proof.
  unfold is_parent, sibling, local_account. destruct l as [p [|j [|]]]; simpl; try done;
    destruct j; simpl; repeat case_bool_decide; naive_solver.
Qed.

(** A tuple of converters that agree with each other. *)
Lemma first_location_agrees cs l o :
  (∀ c a, c ∈ cs → c l = Some a → o = Some a) →
  (∀ a, o = Some a → ∃ c, c ∈ cs ∧ c l = Some a) → first_location cs l = o.
Proof.
  intros Hsound Hcomplete. induction cs as [|c cs IH].
  - rewrite first_location_nil. destruct o as [a|]; [|done].
    by destruct (Hcomplete a eq_refl) as (c & []%elem_of_nil & _).
  - rewrite first_location_cons. destruct (c l) as [a|] eqn:E.
    + symmetry. apply (Hsound c); [apply list_elem_of_here|done].
    + apply IH.
      * intros c' a Hc'. apply Hsound. by apply list_elem_of_further.
      * intros a (c' & [->|Hc']%elem_of_cons & Ha)%Hcomplete; [congruence|by exists c'].
Qed.

(** What each of the runtime's converters recognises. *)
Lemma converter_cases c l a :
  c ∈ [ParentIsPreset; SiblingParachainConvertsVia; AccountId32Aliases RelayNetwork] →
  c l = Some a →
  (is_parent l = true ∧ a = parent_account) ∨
  (∃ id, sibling l = Some id ∧ a = sibling_account id) ∨ local_account l = Some (None, a).
Proof.
  rewrite !elem_of_cons. unfold RelayNetwork.
  intros [->|[->|[->|[]%elem_of_nil]]]; rewrite ?parent_spec, ?sibling_spec, ?aliases_spec.
  - destruct (is_parent l); naive_solver.
  - destruct (sibling l); naive_solver.
  - destruct (local_account l) as [[[]]|]; naive_solver.
Qed.

Lemma location_account_cases l a :
  LocationToAccountId l = Some a ↔
    (is_parent l = true ∧ a = parent_account) ∨
    (∃ id, sibling l = Some id ∧ a = sibling_account id) ∨ local_account l = Some (None, a).
Proof.
  destruct (location_kinds l) as [Hp Hs]. rewrite LocationToAccountId_spec.
  destruct (is_parent l); [destruct Hp as [-> ->]; naive_solver|].
  destruct (sibling l); [rewrite Hs by (by eexists); naive_solver|].
  destruct (local_account l) as [[[]]|]; naive_solver.
Qed.

(** The accounts of locations do not depend on the order in which the converters
    are listed: the parent has the preset account, a sibling its sovereign account, a
    local account without a network is itself, and no other location has one. *)
Theorem location_accounts cs l :
  cs ≡ₚ [ParentIsPreset; SiblingParachainConvertsVia; AccountId32Aliases RelayNetwork] →
  first_location cs l = LocationToAccountId l ∧
  ∀ a, LocationToAccountId l = Some a ↔
    (is_parent l = true ∧ a = parent_account) ∨
    (∃ id, sibling l = Some id ∧ a = sibling_account id) ∨ local_account l = Some (None, a).
Proof.
  intros Hperm. split; [|apply location_account_cases]. apply first_location_agrees.
  - intros c a Hc Ha. rewrite Hperm in Hc. apply location_account_cases. by eapply converter_cases.
  - intros a Ha%location_account_cases. setoid_rewrite Hperm. unfold RelayNetwork.
    destruct Ha as [[Hp ->]|[(id & Hs & ->)|Hl]].
    + exists ParentIsPreset. rewrite parent_spec, Hp. set_solver.
    + exists SiblingParachainConvertsVia. rewrite sibling_spec, Hs. set_solver.
    + exists (AccountId32Aliases None). rewrite aliases_spec, Hl. set_solver.
Qed.

Lemma dispatch_origin_spec l k :
  XcmOriginToTransactDispatchOrigin l k =
    match k with
    | SovereignAccount =>
        match LocationToAccountId l with Some a => Ok (Signed a) | None => Err l end
    | Native =>
        if is_parent l then Ok Relay else
        match sibling l, local_account l with
        | Some id, _ => Ok (SiblingPara id)
        | None, Some (None, id) => Ok (Signed id)
        | None, _ => Err l
        end
    | Superuser => Err l
    | Xcm => Ok (XcmOrigin l)
    end.
Proof.
  unfold XcmOriginToTransactDispatchOrigin, RelayNetwork, RelayChainOrigin.
  rewrite !first_origin_cons, sovereign_spec. destruct k.
  all: repeat first [progress simpl
    | rewrite relay_native_spec | rewrite sibling_native_spec | rewrite signed_native_spec
    | rewrite passthrough_spec | rewrite first_origin_nil | rewrite !first_origin_cons
    | case_match ]; simplify_eq; try done.
Qed.

(** What an XCM origin can dispatch as: with each kind exactly the origin of the
    table, and never root; a superuser origin is always refused. *)
Theorem xcm_origin_table l k :
  XcmOriginToTransactDispatchOrigin l k =
    match k with
    | SovereignAccount =>
        match LocationToAccountId l with Some a => Ok (Signed a) | None => Err l end
    | Native =>
        if is_parent l then Ok Relay else
        match sibling l, local_account l with
        | Some id, _ => Ok (SiblingPara id)
        | None, Some (None, id) => Ok (Signed id)
        | None, _ => Err l
        end
    | Superuser => Err l
    | Xcm => Ok (XcmOrigin l)
    end ∧
  XcmOriginToTransactDispatchOrigin l k ≠ Ok Root.
Proof.
  split; [apply dispatch_origin_spec|]. rewrite dispatch_origin_spec.
  destruct k; by repeat case_match.
Qed.
End origins.

(** The weight of a message of at most a hundred plain instructions. *)
Lemma Weigher_plain `{!WeigherLaws} m :
  forallb plain m = true → (length m <= 100)%nat →
  Weigher m = Some (mkWeight #(10 ^ 9 * Z.of_nat (length m)) #(65536 * Z.of_nat (length m))).
Proof.
  intros Hplain Hlen. unfold Weigher.
  assert (uval (ref_time UnitWeightCost) = 10 ^ 9)%Z as Hr by reflexivity.
  assert (uval (proof_size UnitWeightCost) = 65536)%Z as Hp by reflexivity.
  rewrite weigher_plain by (rewrite ?Hr, ?Hp; change (uval MaxInstructions) with 100%Z; (done || lia)).
  by rewrite Hr, Hp.
Qed.

(** [C37] The barrier: a message passes only without a reserve transfer to the relay
    chain, and either within its weight credit, or paying for its execution, or with
    an explicit [UnpaidExecution] under the origin of the relay chain or of its
    executive body. *)
Theorem barrier_safe `{!BarrierLaws} l m w c :
  Barrier l m w c = true →
  reserve_to_relay (without_topic m) = false ∧
  (weight_le w c ∨
   ∃ l' m', computed UniversalLocation #8 l (without_topic m) = Some (l', m') ∧
     (buys_execution m' = true ∨
      explicit_unpaid m' = true ∧ uval (parents l') = 1%Z ∧
        (interior l' = [] ∨ ∃ part, interior l' = [Plurality Executive part]))).
Proof.
  intros [Hdeny%deny_reserve_pass Htry]%topic_pass%deny_pass. split; [done|].
  apply any_pass in Htry as (b & Hb & Hpass).
  apply elem_of_cons in Hb as [->|[->|[]%elem_of_nil]%elem_of_cons].
  { left. by eapply credit_pass. }
  right. apply computed_pass in Hpass as (l' & m' & Hcomp & Hpass). exists l', m'. split; [done|].
  apply any_pass in Hpass as (b & Hb & Hpass).
  apply elem_of_cons in Hb as [->|[->|[]%elem_of_nil]%elem_of_cons].
  { left. by apply paid_pass in Hpass as [_ ?]. }
  right. apply unpaid_pass in Hpass as [Hl Hu]. split; [done|].
  unfold ParentOrParentsExecutivePlurality in Hl.
  apply andb_true_iff in Hl as [Hp%bool_decide_eq_true Hi]. split; [done|].
  destruct (interior l') as [|[| |[]|] [|]]; try done; [by left|]. right. by eexists.
Qed.
End locations.

(** ** Witnesses *)

(** Instructions are their names; the leading instructions change no origin. *)
#[export] Instance td_xcm_types : XcmTypes := {|
  NetworkId := (); BodyPart := (); OtherBody := (); OtherJunction := (); Instruction := string
|}.

Fixpoint td_first_location (cs : list (MultiLocation → option H256)) (l : MultiLocation) :
    option H256 :=
  match cs with
  | [] => None
  | c :: cs => match c l with Some a => Some a | None => td_first_location cs l end
  end.
Fixpoint td_first_origin (cs : list (MultiLocation → OriginKind → result MultiLocation RuntimeOrigin))
    (l : MultiLocation) (k : OriginKind) : result MultiLocation RuntimeOrigin :=
  match cs with
  | [] => Err l
  | c :: cs => match c l k with Ok o => Ok o | Err l' => td_first_origin cs l' k end
  end.
Definition td_account (l : MultiLocation) : option H256 :=
  match local_account l with Some (None, id) => Some id | _ => None end.
Definition td_first (name : string) (m : list string) : bool :=
  match m with i :: _ => bool_decide (i = name) | [] => false end.

(** A [Transact] weighs twice as much as another instruction. *)
Definition td_plain (i : string) : bool := bool_decide (i ≠ "Transact").
Definition td_units (m : list string) : Z :=
  (Z.of_nat (length m) + Z.of_nat (length (filter (λ i, td_plain i = false) m)))%Z.
Definition td_weigh (u : Weight) (max : u32) (m : list string) : option Weight :=
  let r := (uval (ref_time u) * td_units m)%Z in
  let p := (uval (proof_size u) * td_units m)%Z in
  if bool_decide (Z.of_nat (length m) <= uval max ∧ r < 2 ^ 64 ∧ p < 2 ^ 64)%Z
  then Some (mkWeight #r #p) else None.

#[export] Instance td_xcm_builder : XcmBuilder := {|
  parent_account := #1;
  sibling_account := λ id, #(1000 + uval id);
  ParentIsPreset := λ l, if is_parent l then Some #1 else None;
  SiblingParachainConvertsVia := λ l, (λ id : u32, #(1000 + uval id)) <$> sibling l;
  AccountId32Aliases := λ _, td_account;
  first_location := td_first_location;
  first_origin := td_first_origin;
  SovereignSignedViaLocation := λ c l k,
    match k, c l with SovereignAccount, Some a => Ok (Signed a) | _, _ => Err l end;
  RelayChainAsNative := λ o l k,
    match k with Native => if is_parent l then Ok o else Err l | _ => Err l end;
  SiblingParachainAsNative := λ l k,
    match k, sibling l with Native, Some id => Ok (SiblingPara id) | _, _ => Err l end;
  SignedAccountId32AsNative := λ _ l k,
    match k, local_account l with Native, Some (None, id) => Ok (Signed id) | _, _ => Err l end;
  XcmPassthrough := λ l k, match k with Xcm => Ok (XcmOrigin l) | _ => Err l end;
  TrailingSetTopicAsId := id;
  DenyThenTry := λ d b l m w c, d l m w c && b l m w c;
  DenyReserveTransferToRelayChain := λ _ m _ _, negb (td_first "ReserveToRelay" m);
  any_barrier := λ bs l m w c, existsb (λ b, b l m w c) bs;
  TakeWeightCredit := λ _ _ w c, bool_decide (uval (ref_time w) <= uval (ref_time c))%Z &&
    bool_decide (uval (proof_size w) <= uval (proof_size c))%Z;
  WithComputedOrigin := λ b _ _, b;
  AllowTopLevelPaidExecutionFrom := λ T l m _ _, T l && td_first "BuyExecution" m;
  AllowExplicitUnpaidExecutionFrom := λ T l m _ _, T l && td_first "UnpaidExecution" m;
  buys_execution := td_first "BuyExecution";
  explicit_unpaid := td_first "UnpaidExecution";
  reserve_to_relay := td_first "ReserveToRelay";
  without_topic := id;
  computed := λ _ _ l m, Some (l, m);
  plain := td_plain;
  FixedWeightBounds := td_weigh
|}.

#[export] Instance td_converters : ConverterLaws.
Proof. by split. Qed.
#[export] Instance td_barriers : BarrierLaws.
Proof.
  split; simpl; try done.
  - intros d b l m w c ?%andb_true_iff. done.
  - intros l m w c ?%negb_true_iff. done.
  - intros bs l m w c (b & Hb & Hp)%existsb_exists. exists b. split; [by apply list_elem_of_In|done].
  - intros l m w c [?%bool_decide_eq_true ?%bool_decide_eq_true]%andb_true_iff. by split.
  - intros b u n l m w c Hp. by exists l, m.
  - intros T l m w c ?%andb_true_iff. done.
  - intros T l m w c ?%andb_true_iff. done.
Qed.
#[export] Instance td_weigher : WeigherLaws.
Proof.
  split; simpl; unfold td_weigh.
  - intros u max m w. case_bool_decide as Hle; [|done]. destruct Hle as (Hle & Hr & Hp). intros [= <-].
    pose proof (uval_range (ref_time u)). pose proof (uval_range (proof_size u)).
    assert (Z.of_nat (length m) <= td_units m)%Z by (unfold td_units; lia).
    cbn [ref_time proof_size]. rewrite !uint_wrap_small by nia. nia.
  - intros u max m Hm Hle Hr Hp. assert (td_units m = Z.of_nat (length m)) as ->.
    { unfold td_units. assert (filter (λ i, td_plain i = false) m = []) as ->; [|simpl; lia].
      induction m as [|i m IH]; [done|]. simpl in Hm. apply andb_true_iff in Hm as [Hi Hm].
      rewrite filter_cons_False by congruence. apply IH; [done|simpl in *; nia..]. }
    by rewrite bool_decide_true.
Qed.

Lemma location_accounts_witness :
  first_location [AccountId32Aliases None; SiblingParachainConvertsVia; ParentIsPreset]
    (mkMultiLocation #1 [Parachain #2000]) = Some (sibling_account #2000).
Proof.
  destruct (location_accounts
    [AccountId32Aliases None; SiblingParachainConvertsVia; ParentIsPreset]
    (mkMultiLocation #1 [Parachain #2000])) as [-> Hcases].
  - by rewrite Permutation_swap, (Permutation_swap ParentIsPreset), (Permutation_swap ParentIsPreset).
  - apply Hcases. right. left. by exists #2000.
Defined.

Lemma xcm_origin_table_witness :
  XcmOriginToTransactDispatchOrigin (mkMultiLocation #1 []) Superuser ≠ Ok Root.
Proof. apply (xcm_origin_table (mkMultiLocation #1 []) Superuser). Defined.

Definition td_unpaid : list Instruction := ["UnpaidExecution"].

Lemma barrier_safe_witness : reserve_to_relay td_unpaid = false.
Proof.
  exact (proj1 (barrier_safe #1000 (mkMultiLocation #1 []) td_unpaid (mkWeight #5 #5)
    (mkWeight #0 #0) eq_refl)).
Defined.
