(* ===== verification/XcmExecutor.v ===== *)
(** * Assets, routes and rights under XCM

    The rest of [runtime/src/xcm_config.rs]: which assets are transacted and from whom
    they are accepted, what execution costs, where messages are routed, and what local
    accounts may do with the XCM pallet. As in [XcmConfig] the building blocks are the
    SDK's, with their documented behaviour as laws. *)
From S2P Require Import Prelude Words RuntimeConfig XcmConfig.

(** ** Interfaces *)

(** [SendError]: another router may try, or the message cannot be sent. *)
Inductive SendError : Set := NotApplicable | CannotSend.
(** How a message leaves: upwards to the relay chain, or to a sibling. *)
Inductive Route : Set := Ump | Xcmp (id : u32).

Section executor.
Context {XT : XcmTypes}.

Abbreviation Router := (MultiLocation → list Instruction → result SendError Route).

Class XcmAssets := {
  (** The [Balances] pallet. *)
  Balances : Type;
  deposit_creating : H256 → u128 → Balances → Balances;
  withdraw : H256 → u128 → Balances → option Balances;
  (** Matchers, the currency adapter and the trader of [xcm-builder]. *)
  IsConcrete : MultiLocation → MultiAsset → option u128;
  NativeAsset : MultiAsset → MultiLocation → bool;
  CurrencyAdapter_deposit : (MultiAsset → option u128) → (MultiLocation → option H256) →
    MultiAsset → MultiLocation → Balances → option Balances;
  CurrencyAdapter_withdraw : (MultiAsset → option u128) → (MultiLocation → option H256) →
    MultiAsset → MultiLocation → Balances → option Balances;
  UsingComponents_price : (Weight → u128) → MultiLocation → Weight → MultiAsset;
  (** Routers. *)
  first_router : list Router → Router;
  WithUniqueTopic : Router → Router;
  ParentAsUmp : Router;
  XcmpQueue_router : Router;
  (** Origins. *)
  SignedToAccountId32 : option NetworkId → RuntimeOrigin → option MultiLocation;
  EnsureXcmOrigin : (RuntimeOrigin → option MultiLocation) → RuntimeOrigin → option MultiLocation;
  EnsureRoot_origin : RuntimeOrigin → bool;
  (** [RuntimeCall]. *)
  XcmCall : Type;
}.

Class AssetLaws `{!XcmAssets} : Prop := {
  is_concrete_spec : ∀ l a n, IsConcrete l a = Some n ↔ asset_id a = Concrete l ∧ asset_fun a = Fungible n;
  (** "Accepts an asset iff it is a native asset": its location is the origin's. *)
  native_asset_spec : ∀ a l, NativeAsset a l = true ↔ asset_id a = Concrete l;
  adapter_deposit_spec : ∀ m c a who b, CurrencyAdapter_deposit m c a who b =
    (n ← m a; acc ← c who; Some (deposit_creating acc n b));
  adapter_withdraw_spec : ∀ m c a who b, CurrencyAdapter_withdraw m c a who b =
    (n ← m a; acc ← c who; withdraw acc n b);
  trader_spec : ∀ fee l w, UsingComponents_price fee l w = mkMultiAsset (Concrete l) (Fungible (fee w));
}.

Class RouterLaws `{!XcmAssets} : Prop := {
  first_router_nil : ∀ d m, first_router [] d m = Err NotApplicable;
  first_router_cons : ∀ r rs d m, first_router (r :: rs) d m =
    match r d m with Err NotApplicable => first_router rs d m | x => x end;
  topic_router : ∀ r d m, ∃ m', WithUniqueTopic r d m = r d m' ∧ (m' = m ∨ ∃ i, m' = m ++ [i]);
  ump_applicable : ∀ d m, ParentAsUmp d m = Err NotApplicable ↔ is_parent d = false;
  ump_route : ∀ d m r, ParentAsUmp d m = Ok r → r = Ump;
  xcmp_applicable : ∀ d m, XcmpQueue_router d m = Err NotApplicable ↔ sibling d = None;
  xcmp_route : ∀ d m r, XcmpQueue_router d m = Ok r → Xcmp <$> sibling d = Some r;
}.

Class LocalOriginLaws `{!XcmAssets} : Prop := {
  signed_to_spec : ∀ net o, SignedToAccountId32 net o =
    match o with Signed a => Some (mkMultiLocation #0 [AccountId32 net a]) | _ => None end;
  (** "We institute a root fallback so root can always represent the context." *)
  ensure_xcm_origin_spec : ∀ conv o, EnsureXcmOrigin conv o =
    match conv o, o with
    | Some l, _ => Some l
    | None, Root => Some (mkMultiLocation #0 [])
    | None, _ => None
    end;
  ensure_root_spec : ∀ o, EnsureRoot_origin o = true ↔ o = Root;
}.

(** ** The configuration *)

Context {XB : XcmBuilder} {XA : XcmAssets} {WC : WeightConstants} {FL : FeeLib}.
Context (parachain_id : u32).

(** [LocalAssetTransactor]. *)
Definition LocalAssetTransactor_deposit : MultiAsset → MultiLocation → Balances → option Balances :=
  CurrencyAdapter_deposit (IsConcrete RelayLocation) LocationToAccountId.
Definition LocalAssetTransactor_withdraw : MultiAsset → MultiLocation → Balances → option Balances :=
  CurrencyAdapter_withdraw (IsConcrete RelayLocation) LocationToAccountId.

(** [WeightToFee], on a whole weight. *)
Definition WeightToFee (w : Weight) : u128 := weight_to_fee polynomial (ref_time w).

(** [LocalOriginToLocation]. *)
Definition LocalOriginToLocation : RuntimeOrigin → option MultiLocation := SignedToAccountId32 RelayNetwork.

(** [XcmRouter]. *)
Definition XcmRouter : Router := WithUniqueTopic (first_router [ParentAsUmp; XcmpQueue_router]).

(** [xcm_executor::Config]: a setting that is [()] is [None], one that is a pallet its
    name. *)
Record ExecutorConfig : Type := mkExecutorConfig {
  XcmSender : Router;
  AssetTransactor_deposit : MultiAsset → MultiLocation → Balances → option Balances;
  AssetTransactor_withdraw : MultiAsset → MultiLocation → Balances → option Balances;
  OriginConverter : MultiLocation → OriginKind → result MultiLocation RuntimeOrigin;
  IsReserve : MultiAsset → MultiLocation → bool;
  IsTeleporter : MultiAsset → MultiLocation → bool;
  exec_UniversalLocation : list Junction;
  exec_Barrier : MultiLocation → list Instruction → Weight → Weight → bool;
  exec_Weigher : list Instruction → option Weight;
  Trader : option (Weight → MultiAsset);
  ResponseHandler : option string;
  AssetTrap : option string;
  AssetClaims : option string;
  SubscriptionService : option string;
  PalletInstancesInfo : string;
  exec_MaxAssetsIntoHolding : u32;
  AssetLocker : option string;
  AssetExchanger : option string;
  FeeManager : option string;
  MessageExporter : option string;
  exec_UniversalAliases : MultiLocation * Junction → bool;
  CallDispatcher : string;
  SafeCallFilter : XcmCall → bool;
  exec_Aliasers : MultiLocation * MultiLocation → bool
}.

(** [impl xcm_executor::Config for XcmConfig]; teleporting is disabled. *)
Definition XcmConfig_executor : ExecutorConfig := {|
  XcmSender := XcmRouter;
  AssetTransactor_deposit := LocalAssetTransactor_deposit;
  AssetTransactor_withdraw := LocalAssetTransactor_withdraw;
  OriginConverter := XcmOriginToTransactDispatchOrigin;
  IsReserve := NativeAsset;
  IsTeleporter := λ _ _, false;
  exec_UniversalLocation := UniversalLocation parachain_id;
  exec_Barrier := Barrier parachain_id;
  exec_Weigher := Weigher;
  Trader := Some (UsingComponents_price WeightToFee RelayLocation);
  ResponseHandler := Some "PolkadotXcm";
  AssetTrap := Some "PolkadotXcm";
  AssetClaims := Some "PolkadotXcm";
  SubscriptionService := Some "PolkadotXcm";
  PalletInstancesInfo := "AllPalletsWithSystem";
  exec_MaxAssetsIntoHolding := MaxAssetsIntoHolding;
  AssetLocker := None;
  AssetExchanger := None;
  FeeManager := None;
  MessageExporter := None;
  exec_UniversalAliases := UniversalAliases;
  CallDispatcher := "RuntimeCall";
  SafeCallFilter := λ _, true;
  exec_Aliasers := Aliasers
|}.

(** [ReachableDest], for benchmarks. *)
Definition ReachableDest : option MultiLocation := Some MultiLocation_parent.

(** [pallet_xcm::Config]. *)
Record PalletXcmConfig : Type := mkPalletXcmConfig {
  SendXcmOrigin : RuntimeOrigin → option MultiLocation;
  pallet_XcmRouter : Router;
  ExecuteXcmOrigin : RuntimeOrigin → option MultiLocation;
  pallet_XcmExecuteFilter : MultiLocation * list Instruction → bool;
  pallet_XcmTeleportFilter : MultiLocation * list MultiAsset → bool;
  pallet_XcmReserveTransferFilter : MultiLocation * list MultiAsset → bool;
  pallet_Weigher : list Instruction → option Weight;
  pallet_UniversalLocation : list Junction;
  VERSION_DISCOVERY_QUEUE_SIZE : u32;
  AdvertisedXcmVersion : string;
  pallet_Currency : string;
  CurrencyMatcher : option string;
  TrustedLockers : option string;
  SovereignAccountOf : MultiLocation → option H256;
  MaxLockers : u32;
  AdminOrigin : RuntimeOrigin → bool;
  MaxRemoteLockConsumers : u32
}.

(** [impl pallet_xcm::Config for Runtime]. *)
Definition pallet_xcm_config : PalletXcmConfig := {|
  SendXcmOrigin := EnsureXcmOrigin LocalOriginToLocation;
  pallet_XcmRouter := XcmRouter;
  ExecuteXcmOrigin := EnsureXcmOrigin LocalOriginToLocation;
  pallet_XcmExecuteFilter := XcmExecuteFilter;
  pallet_XcmTeleportFilter := XcmTeleportFilter;
  pallet_XcmReserveTransferFilter := XcmReserveTransferFilter;
  pallet_Weigher := Weigher;
  pallet_UniversalLocation := UniversalLocation parachain_id;
  VERSION_DISCOVERY_QUEUE_SIZE := #100;
  AdvertisedXcmVersion := "CurrentXcmVersion";
  pallet_Currency := "Balances";
  CurrencyMatcher := None;
  TrustedLockers := None;
  SovereignAccountOf := LocationToAccountId;
  MaxLockers := #8;
  AdminOrigin := EnsureRoot_origin;
  MaxRemoteLockConsumers := #0
|}.

(** ** Guarantees *)

(** [C34] Only the relay chain mints: an asset that this chain both accepts from an
    origin, as a reserve transfer or a teleport, and can deposit to anyone is a fungible
    amount of the relay chain's token, and the origin is the relay chain; it goes to the
    account of the beneficiary's location. *)
Theorem only_relay_mints `{!AssetLaws} a origin who b b' :
  (IsReserve XcmConfig_executor a origin = true ∨ IsTeleporter XcmConfig_executor a origin = true) →
  AssetTransactor_deposit XcmConfig_executor a who b = Some b' →
  origin = RelayLocation ∧ asset_id a = Concrete RelayLocation ∧
  ∃ n acc, asset_fun a = Fungible n ∧ LocationToAccountId who = Some acc ∧
    b' = deposit_creating acc n b.
Proof.
  intros [Hr%native_asset_spec|[=]]. cbn. unfold LocalAssetTransactor_deposit.
  rewrite adapter_deposit_spec. intros (n & [Hid Hn]%is_concrete_spec & Hb)%bind_Some.
  apply bind_Some in Hb as (acc & Hacc & [= <-]). split_and!; [congruence|done|]. by exists n, acc.
Qed.

(** Routes: a message to the relay chain is the business of the upward queue alone,
    one to a sibling of the XCMP queue alone, which gets the sibling's own id, and any
    other destination is refused. *)
Theorem xcm_routes `{!RouterLaws} d m :
  (∀ r, XcmRouter d m = Ok r →
     (r = Ump ∧ is_parent d = true) ∨ ∃ id, r = Xcmp id ∧ sibling d = Some id) ∧
  (XcmRouter d m = Err NotApplicable ↔ is_parent d = false ∧ sibling d = None).
Proof.
  unfold XcmRouter. destruct (topic_router (first_router [ParentAsUmp; XcmpQueue_router]) d m)
    as (m' & -> & _). rewrite !first_router_cons, first_router_nil.
  pose proof (ump_applicable d m') as Hu. pose proof (xcmp_applicable d m') as Hx.
  destruct (ParentAsUmp d m') as [r|[]] eqn:Eu.
  - assert (is_parent d = true) as Hp by (destruct (is_parent d); naive_solver).
    apply ump_route in Eu as ->. split; [intros ? [= <-]; by left|naive_solver].
  - destruct (XcmpQueue_router d m') as [r|[]] eqn:Ex; (split; [|naive_solver]); [|done..].
    intros ? [= <-]. right. apply xcmp_route in Ex as (id & ? & ->)%fmap_Some. by exists id.
  - split; [done|]. naive_solver.
Qed.

(** What execution costs: every message of up to a hundred plain instructions can be
    paid for, with eight MICROUNIT of the relay chain's token per instruction, which
    never overflows. *)
Theorem xcm_execution_price `{!AssetLaws} `{!WeigherLaws} `{!WeightConstantsLaws} `{!FeeLaws} m :
  forallb plain m = true → (length m <= 100)%nat →
  ∃ price w n, Trader XcmConfig_executor = Some price ∧
    exec_Weigher XcmConfig_executor m = Some w ∧
    price w = mkMultiAsset (Concrete RelayLocation) (Fungible n) ∧
    uval n = (8 * uval MICROUNIT * Z.of_nat (length m))%Z.
Proof.
  intros Hplain Hlen. eexists. exists (mkWeight #(10 ^ 9 * Z.of_nat (length m)) #(65536 * Z.of_nat (length m))).
  assert (100000000000 < 2 ^ Zpos 64)%Z by reflexivity. eexists. split_and!; [done|..].
  - by apply Weigher_plain.
  - apply trader_spec.
  - unfold WeightToFee. cbn [ref_time]. change (uval MICROUNIT) with 1000000%Z.
    assert (uval (#(10 ^ 9 * Z.of_nat (length m)) : u64) = 10 ^ 9 * Z.of_nat (length m))%Z as Hw
      by (apply uint_wrap_small; lia).
    pose proof (polynomial_fee #(10 ^ 9 * Z.of_nat (length m))) as Hfee. rewrite Hw in Hfee.
    specialize (Hfee ltac:(exists (8000000 * Z.of_nat (length m))%Z; lia)). lia.
Qed.

(** [C35] Local accounts and XCM: a signed account stands for its own location and that
    location for the account, both as owner of funds and as origin of a call; every
    signed account, and root, may send messages; nobody may execute one or make a reserve
    transfer through the pallet. *)
Theorem local_account_rights `{!LocalOriginLaws} `{!ConverterLaws} o m dest :
  (∀ a l, LocalOriginToLocation (Signed a) = Some l →
     LocationToAccountId l = Some a ∧ XcmOriginToTransactDispatchOrigin l Native = Ok (Signed a)) ∧
  (is_Some (SendXcmOrigin pallet_xcm_config o) ↔ o = Root ∨ ∃ a, o = Signed a) ∧
  pallet_XcmExecuteFilter pallet_xcm_config m = false ∧
  pallet_XcmReserveTransferFilter pallet_xcm_config dest = false.
Proof.
  unfold LocalOriginToLocation. split_and!; [| |done..].
  - intros a l. rewrite signed_to_spec. intros [= <-]. split.
    + by rewrite LocationToAccountId_spec.
    + by rewrite dispatch_origin_spec.
  - cbn. unfold LocalOriginToLocation. rewrite ensure_xcm_origin_spec, signed_to_spec.
    destruct o; split; try (by intros []); try (by eexists); try naive_solver.
Qed.
End executor.

(** ** Witnesses *)

Fixpoint td_first_router
    (rs : list (MultiLocation → list Instruction → result SendError Route))
    (d : MultiLocation) (m : list Instruction) : result SendError Route :=
  match rs with
  | [] => Err NotApplicable
  | r :: rs => match r d m with Err NotApplicable => td_first_router rs d m | x => x end
  end.

#[local] Instance td_location_eq_dec : EqDecision MultiLocation.
Proof.
  assert (EqDecision BodyId) by solve_decision. assert (EqDecision Junction) by solve_decision.
  solve_decision.
Defined.
#[local] Instance td_asset_id_eq_dec : EqDecision AssetId.
Proof. solve_decision. Defined.

(** Balances are the deposits and withdrawals made so far. *)
#[local] Instance td_assets : XcmAssets := {|
  Balances := list (H256 * Z);
  deposit_creating := λ acc n b, (acc, uval n) :: b;
  withdraw := λ acc n b, Some ((acc, (- uval n)%Z) :: b);
  IsConcrete := λ l a,
    match asset_fun a with
    | Fungible n => if bool_decide (asset_id a = Concrete l) then Some n else None
    | NonFungible _ => None
    end;
  NativeAsset := λ a l, bool_decide (asset_id a = Concrete l);
  CurrencyAdapter_deposit := λ m c a who b, n ← m a; acc ← c who; Some ((acc, uval n) :: b);
  CurrencyAdapter_withdraw := λ m c a who b, n ← m a; acc ← c who; Some ((acc, (- uval n)%Z) :: b);
  UsingComponents_price := λ fee l w, mkMultiAsset (Concrete l) (Fungible (fee w));
  first_router := td_first_router;
  WithUniqueTopic := λ r d m, r d (m ++ ["SetTopic"]);
  ParentAsUmp := λ d _, if is_parent d then Ok Ump else Err NotApplicable;
  XcmpQueue_router := λ d _, match sibling d with Some id => Ok (Xcmp id) | None => Err NotApplicable end;
  SignedToAccountId32 := λ net o,
    match o with Signed a => Some (mkMultiLocation #0 [AccountId32 net a]) | _ => None end;
  EnsureXcmOrigin := λ conv o,
    match conv o, o with
    | Some l, _ => Some l
    | None, Root => Some (mkMultiLocation #0 [])
    | None, _ => None
    end;
  EnsureRoot_origin := λ o, match o with Root => true | _ => false end;
  XcmCall := string
|}.

#[local] Instance td_asset_laws : AssetLaws.
Proof.
  split; try done.
  - intros l [id []] n; simpl; [case_bool_decide|]; naive_solver.
  - intros a l. apply bool_decide_eq_true.
Qed.
#[local] Instance td_router_laws : RouterLaws.
Proof.
  split; simpl; try done.
  - intros r d m. eexists. split; [reflexivity|]. right. by eexists.
  - intros d m. by destruct (is_parent d).
  - intros d m r. destruct (is_parent d); naive_solver.
  - intros d m. by destruct (sibling d).
  - intros d m r. destruct (sibling d); naive_solver.
Qed.
#[local] Instance td_local_laws : LocalOriginLaws.
Proof. split; try done. intros []; simpl; naive_solver. Qed.
#[local] Existing Instances td_weights td_weights_laws td_fees td_fees_laws.

Definition td_relay_token : MultiAsset := mkMultiAsset (Concrete RelayLocation) (Fungible #5).

Definition td_no_balances : Balances := [].
Definition td_deposited : Balances := [( #1007, 5%Z)].

Lemma only_relay_mints_witness :
  ∃ n acc, asset_fun td_relay_token = Fungible n ∧
    LocationToAccountId (mkMultiLocation #1 [Parachain #7]) = Some acc ∧
    td_deposited = deposit_creating acc n td_no_balances.
Proof.
  apply (only_relay_mints #1000 td_relay_token RelayLocation (mkMultiLocation #1 [Parachain #7])
    td_no_balances td_deposited); [by left|reflexivity].
Defined.

Lemma xcm_routes_witness :
  XcmRouter (mkMultiLocation #2 []) [] = Err NotApplicable.
Proof. apply (xcm_routes (mkMultiLocation #2 []) []). done. Defined.

Lemma xcm_execution_price_witness :
  ∃ price w n, Trader (XcmConfig_executor #1000) = Some price ∧
    exec_Weigher (XcmConfig_executor #1000) td_unpaid = Some w ∧
    price w = mkMultiAsset (Concrete RelayLocation) (Fungible n) ∧
    uval n = (8 * uval MICROUNIT * 1)%Z.
Proof. apply (xcm_execution_price #1000 td_unpaid); [reflexivity|]. simpl. lia. Defined.

Lemma local_account_rights_witness :
  is_Some (SendXcmOrigin (pallet_xcm_config #1000) (Signed #5)).
Proof.
  apply (local_account_rights #1000 (Signed #5) (RelayLocation, td_unpaid) (RelayLocation, [])).
  right. by exists #5.
Defined.
