(* ===== verification/BlockBudget.v ===== *)
(** * The weight budget of a block

    The block weights and length of [runtime/src/lib.rs], the weight reserved for
    incoming messages, and how many XCM instructions fit into it. The builder of the
    block weights and the fixed-point fractions are the SDK's. *)
From S2P Require Import Prelude Words RuntimeConfig XcmConfig.

Local Open Scope Z_scope.

(** ** Interfaces of the SDK *)

Inductive DispatchClass : Set := Normal | Operational | Mandatory.
#[export] Instance DispatchClass_eq_dec : EqDecision DispatchClass.
Proof. solve_decision. Defined.

(** [WeightsPerClass], the fields the runtime sets. *)
Record WeightsPerClass : Type := mkWeightsPerClass {
  base_extrinsic : Weight;
  max_total : option Weight;
  reserved : option Weight
}.

Class BlockWeightsLib := {
  (** [Perbill], in parts per billion, its product with a weight and with a length. *)
  from_percent : Z → u32;
  perbill_mul : u32 → u64 → u64;
  (** [Weight - Weight]. *)
  weight_sub : Weight → Weight → Weight;
  Builder : Type;
  BlockWeights : Type;
  BlockLength : Type;
  builder : Builder;
  base_block : Weight → Builder → Builder;
  for_class : list DispatchClass → (WeightsPerClass → WeightsPerClass) → Builder → Builder;
  avg_block_initialization : u32 → Builder → Builder;
  build_or_panic : Builder → run BlockWeights;
  max_with_normal_ratio : u32 → u32 → BlockLength;
  (** The parameters of a class in the builder and in the result. *)
  builder_class : Builder → DispatchClass → WeightsPerClass;
  class_weights : BlockWeights → DispatchClass → WeightsPerClass;
  length_max : BlockLength → DispatchClass → u32;
}.

(** "Set parameters for particular class"; the other setters leave the classes alone,
    and building keeps what was set. A percentage is exact, and so is a fraction of a
    number that it divides. *)
Class BlockWeightsLaws `{!BlockWeightsLib} : Prop := {
  from_percent_spec : ∀ x, 0 <= x <= 100 → uval (from_percent x) = x * 10 ^ 7;
  perbill_mul_exact : ∀ p x, uval p <= 10 ^ 9 → (10 ^ 9 | uval p * uval x) →
    uval (perbill_mul p x) = uval p * uval x / 10 ^ 9;
  weight_sub_spec : ∀ w w', weight_le w' w →
    uval (ref_time (weight_sub w w')) = uval (ref_time w) - uval (ref_time w') ∧
    uval (proof_size (weight_sub w w')) = uval (proof_size w) - uval (proof_size w');
  for_class_spec : ∀ cs f b c, builder_class (for_class cs f b) c =
    if bool_decide (c ∈ cs) then f (builder_class b c) else builder_class b c;
  base_block_class : ∀ w b c, builder_class (base_block w b) c = builder_class b c;
  avg_init_class : ∀ r b c, builder_class (avg_block_initialization r b) c = builder_class b c;
  build_class : ∀ b bw c, build_or_panic b = Ret bw → class_weights bw c = builder_class b c;
  length_normal : ∀ max ratio, uval ratio <= 10 ^ 9 → uval (length_max (max_with_normal_ratio max ratio) Normal) =
    uval (perbill_mul ratio (widen 64 max));
  length_other : ∀ max ratio c, c ≠ Normal → length_max (max_with_normal_ratio max ratio) c = max;
}.

Section budget.
Context {WC : WeightConstants} {BW : BlockWeightsLib}.
(** The relay chain's limit on a proof of validity. *)
Context (MAX_POV_SIZE : u32).

(** ** The runtime's settings *)

Definition AVERAGE_ON_INITIALIZE_RATIO : u32 := from_percent 5.
Definition NORMAL_DISPATCH_RATIO : u32 := from_percent 75.

Abbreviation max_block := (MAXIMUM_BLOCK_WEIGHT MAX_POV_SIZE).

(** [Perbill * Weight]. *)
Definition perbill_weight (p : u32) (w : Weight) : Weight :=
  mkWeight (perbill_mul p (ref_time w)) (perbill_mul p (proof_size w)).

(** [RuntimeBlockLength]. *)
Definition RuntimeBlockLength : BlockLength :=
  max_with_normal_ratio (const_mul (const_mul #5 #1024) #1024) NORMAL_DISPATCH_RATIO.

(** [RuntimeBlockWeights]. *)
Definition RuntimeBlockWeights : run BlockWeights :=
  let b := builder in
  let b := base_block BlockExecutionWeight b in
  let b := for_class [Normal; Operational; Mandatory] (λ weights,
    mkWeightsPerClass ExtrinsicBaseWeight (max_total weights) (reserved weights)) b in
  let b := for_class [Normal] (λ weights,
    mkWeightsPerClass (base_extrinsic weights)
      (Some (perbill_weight NORMAL_DISPATCH_RATIO max_block)) (reserved weights)) b in
  let b := for_class [Operational] (λ weights,
    mkWeightsPerClass (base_extrinsic weights) (Some max_block)
      (Some (weight_sub max_block (perbill_weight NORMAL_DISPATCH_RATIO max_block)))) b in
  let b := avg_block_initialization AVERAGE_ON_INITIALIZE_RATIO b in
  build_or_panic b.

(** [Weight::saturating_div] by a number. *)
Definition weight_div (w : Weight) (n : u64) : Weight :=
  mkWeight (saturating_div (ref_time w) n) (saturating_div (proof_size w) n).

Definition ReservedXcmpWeight : Weight := weight_div max_block #4.
Definition ReservedDmpWeight : Weight := weight_div max_block #4.

(** ** Guarantees *)

Section guarantees.
Context {WCL : WeightConstantsLaws} {BWL : BlockWeightsLaws}.
(** [MAX_POV_SIZE] is 5 MiB. *)
Hypothesis POV : uval MAX_POV_SIZE = 5 * 1024 * 1024.

Lemma max_block_value :
  uval (ref_time max_block) = 500000000000 ∧ uval (proof_size max_block) = 5242880.
Proof.
  unfold MAXIMUM_BLOCK_WEIGHT, saturating_div; cbn [ref_time proof_size].
  rewrite ref_time_second, widen_spec, POV by done. split; reflexivity.
Qed.

Lemma normal_ratio_value : uval NORMAL_DISPATCH_RATIO = 750000000.
Proof. unfold NORMAL_DISPATCH_RATIO. rewrite from_percent_spec; [reflexivity|lia]. Qed.

Lemma normal_mul (x : u64) q : uval x = 4 * q → uval (perbill_mul NORMAL_DISPATCH_RATIO x) = 3 * q.
Proof.
  intros Hx. rewrite perbill_mul_exact; rewrite normal_ratio_value, ?Hx; [|lia|].
  - replace (750000000 * (4 * q)) with (3 * q * 10 ^ 9) by lia. apply Z.div_mul. lia.
  - exists (3 * q). lia.
Qed.

Lemma normal_weight_value :
  uval (ref_time (perbill_weight NORMAL_DISPATCH_RATIO max_block)) = 375000000000 ∧
  uval (proof_size (perbill_weight NORMAL_DISPATCH_RATIO max_block)) = 3932160.
Proof.
  destruct max_block_value as [Hr Hp]. unfold perbill_weight; cbn [ref_time proof_size].
  rewrite (normal_mul _ 125000000000), (normal_mul _ 1310720) by (by rewrite ?Hr, ?Hp). done.
Qed.

Lemma reserved_value :
  uval (ref_time (ReservedXcmpWeight)) = 125000000000 ∧ uval (proof_size ReservedXcmpWeight) = 1310720.
Proof.
  destruct max_block_value as [Hr Hp]. unfold ReservedXcmpWeight, weight_div, saturating_div.
  cbn [ref_time proof_size]. rewrite Hr, Hp. split; reflexivity.
Qed.

(** The sum of two weights is a third, in both dimensions. *)
Definition weight_sum (a b w : Weight) : Prop :=
  uval (ref_time a) + uval (ref_time b) = uval (ref_time w) ∧
  uval (proof_size a) + uval (proof_size b) = uval (proof_size w).

(** The budget of a block adds up: normal extrinsics may use three quarters of the
    block, operational ones all of it, and the quarter reserved for the latter is
    exactly what normal ones leave; the weights reserved for incoming messages are a
    quarter each; every class charges the base weight of an extrinsic; of the 5 MiB
    of a block's length normal extrinsics may use three quarters. *)
Theorem block_budget bw :
  RuntimeBlockWeights = Ret bw →
  ∃ normal reserve,
    max_total (class_weights bw Normal) = Some normal ∧
    reserved (class_weights bw Operational) = Some reserve ∧
    max_total (class_weights bw Operational) = Some max_block ∧
    weight_sum normal reserve max_block ∧
    uval (ref_time normal) = 3 * uval (ref_time reserve) ∧
    uval (proof_size normal) = 3 * uval (proof_size reserve) ∧
    weight_le reserve ReservedXcmpWeight ∧ weight_le ReservedXcmpWeight reserve ∧
    ReservedDmpWeight = ReservedXcmpWeight ∧
    (∀ c, base_extrinsic (class_weights bw c) = ExtrinsicBaseWeight) ∧
    4 * uval (length_max RuntimeBlockLength Normal) = 3 * uval (length_max RuntimeBlockLength Operational).
Proof.
  intros Hbuild. unfold RuntimeBlockWeights in Hbuild; cbv zeta in Hbuild.
  destruct max_block_value as [Hr Hp], normal_weight_value as [Hnr Hnp], reserved_value as [Hxr Hxp].
  set (normal := perbill_weight NORMAL_DISPATCH_RATIO max_block) in *.
  assert (weight_le normal max_block) as Hle by (unfold weight_le; lia).
  destruct (weight_sub_spec _ _ Hle) as [Hsr Hsp].
  exists normal, (weight_sub max_block normal).
  rewrite !(build_class _ _ _ Hbuild).
  rewrite !avg_init_class, !for_class_spec, !base_block_class.
  split_and!; try done; try (unfold weight_sum, weight_le; lia).
  - intros c. rewrite (build_class _ _ _ Hbuild), avg_init_class, !for_class_spec, !base_block_class.
    by destruct c.
  - unfold RuntimeBlockLength. rewrite length_normal, length_other by (done || by rewrite normal_ratio_value).
    rewrite (normal_mul _ 1310720); [reflexivity|]. by rewrite widen_spec.
Qed.

(** [C38] What fits into the weight reserved for messages of other chains: the unit cost
    of an instruction has a proof size that dominates, so that no message of more than
    twenty instructions fits, whatever they are, although the weigher admits a hundred;
    one of plain instructions (no [Transact], no nested ones) fits exactly when it has at
    most twenty, and is weighed exactly when it has at most a hundred; no message of more
    than a hundred is weighed. *)
Theorem xcm_message_fits `{!XcmTypes} `{!XcmBuilder} `{!WeigherLaws} (m : list Instruction) :
  (∀ w, Weigher m = Some w → (length m <= 100)%nat ∧
     (weight_le w ReservedXcmpWeight → (length m <= 20)%nat)) ∧
  (forallb plain m = true →
     (is_Some (Weigher m) ↔ (length m <= 100)%nat) ∧
     ((∃ w, Weigher m = Some w ∧ weight_le w ReservedXcmpWeight) ↔ (length m <= 20)%nat)).
Proof.
  assert (∀ w, Weigher m = Some w → (length m <= 100)%nat ∧
     (weight_le w ReservedXcmpWeight → (length m <= 20)%nat)) as Hany.
  { intros w (Hlen & _ & Hp)%weigher_bounds. change (uval MaxInstructions) with 100 in Hlen.
    change (uval (proof_size UnitWeightCost)) with 65536 in Hp.
    split; [lia|]. intros [_ Hle]. destruct reserved_value as [_ Hxp]. rewrite Hxp in Hle. lia. }
  split; [done|]. intros Hplain. split; split.
  - intros [w Hw]. by apply Hany in Hw as [? _].
  - intros Hlen. rewrite Weigher_plain by done. by eexists.
  - intros (w & [_ Hle]%Hany & Hw). auto.
  - intros Hlen. eexists. split; [apply Weigher_plain; [done|lia]|].
    destruct reserved_value as [Hxr Hxp]. unfold weight_le. rewrite Hxr, Hxp. cbn [ref_time proof_size].
    assert (100000000000 < 2 ^ Zpos 64) by reflexivity. rewrite !uint_wrap_small by lia. lia.
Qed.
End guarantees.
End budget.

(** ** Witnesses *)

#[local] Instance td_weights : WeightConstants := {|
  WEIGHT_REF_TIME_PER_SECOND := #1000000000000;
  WEIGHT_REF_TIME_PER_MILLIS := #1000000000;
  WEIGHT_REF_TIME_PER_MICROS := #1000000;
  WEIGHT_REF_TIME_PER_NANOS := #1000
|}.
#[local] Instance td_weights_laws : WeightConstantsLaws.
Proof. by split. Qed.

(** A builder is the parameters of its classes. *)
#[local] Instance td_block_weights : BlockWeightsLib := {|
  from_percent := λ x, #(x * 10 ^ 7);
  perbill_mul := λ p x, #(uval p * uval x / 10 ^ 9);
  weight_sub := λ w w', mkWeight #(uval (ref_time w) - uval (ref_time w'))
    #(uval (proof_size w) - uval (proof_size w'));
  Builder := DispatchClass → WeightsPerClass;
  BlockWeights := DispatchClass → WeightsPerClass;
  BlockLength := u32 * u32;
  builder := λ _, mkWeightsPerClass (mkWeight #0 #0) None None;
  base_block := λ _ b, b;
  for_class := λ cs f b c, if bool_decide (c ∈ cs) then f (b c) else b c;
  avg_block_initialization := λ _ b, b;
  build_or_panic := Ret;
  max_with_normal_ratio := λ max ratio, ( #(uval ratio * uval max / 10 ^ 9), max);
  builder_class := λ b, b;
  class_weights := λ b, b;
  length_max := λ l c, match c with Normal => l.1 | _ => l.2 end
|}.

Lemma td_fraction (p : u32) z :
  uval p <= 10 ^ 9 → 0 <= z → 0 <= uval p * z / 10 ^ 9 <= z.
Proof.
  intros Hp Hz. pose proof (uval_range p). split; [apply Z.div_pos; nia|].
  apply Z.div_le_upper_bound; nia.
Qed.

#[local] Instance td_block_weights_laws : BlockWeightsLaws.
Proof.
  split; try done; simpl.
  - intros x Hx. apply uint_wrap_small. assert (10 ^ 9 < 2 ^ Zpos 32) by reflexivity. lia.
  - intros p x Hp _. pose proof (uval_range x). apply uint_wrap_small.
    pose proof (td_fraction p (uval x) Hp). lia.
  - intros w w' [Hr Hp]. pose proof (uval_range (ref_time w)). pose proof (uval_range (proof_size w)).
    pose proof (uval_range (ref_time w')). pose proof (uval_range (proof_size w')).
    by rewrite !Z.mod_small by lia.
  - by intros b bw c [= ->].
  - intros max ratio Hr. pose proof (uval_range max). pose proof (td_fraction ratio (uval max) Hr).
    assert (2 ^ Zpos 32 < 2 ^ Zpos 64) by reflexivity.
    rewrite (Z.mod_small (uval max)) by lia. by rewrite !Z.mod_small by lia.
  - by intros max ratio [] Hc.
Qed.

Definition td_built : BlockWeights :=
  match RuntimeBlockWeights #5242880 with Ret bw => bw | _ => builder end.

Lemma block_budget_witness :
  ∃ normal reserve, weight_sum normal reserve (MAXIMUM_BLOCK_WEIGHT #5242880).
Proof.
  destruct (block_budget #5242880 eq_refl td_built eq_refl) as (normal & reserve & _ & _ & _ & Hsum & _).
  by exists normal, reserve.
Defined.

Lemma xcm_message_fits_witness :
  ∃ w, Weigher td_unpaid = Some w ∧ weight_le w (ReservedXcmpWeight #5242880).
Proof.
  destruct (xcm_message_fits #5242880 eq_refl td_unpaid) as [_ Hplain].
  destruct Hplain as [_ Hfits]; [reflexivity|]. apply Hfits. simpl. lia.
Defined.
