(* ===== verification/MockRuntime.v ===== *)
(** * The mock runtime of the pallet's tests

    [pallets/xcmp_message_stuffer/src/mock.rs]: the runtime the pallet is tested in,
    as far as it has code of its own, and how it differs from the real one. *)
From S2P Require Import Prelude Words Sdk MessageStuffer TestDouble StufferSafety StufferTrace.
From S2P Require Import RuntimeXcmp RuntimeConfig XcmConfig.

Module Mock.

(** ** Pallets *)

(** [construct_runtime!]; a pallet without an index gets the next free one. *)
Definition construct_runtime : list (string * option u8) := [
  ("System", None); ("Balances", None); ("ParachainSystem", None); ("XcmpQueue", None);
  ("MmrParaA", Some #52); ("MmrParaB", Some #53);
  ("MsgStufferA", Some #54); ("MsgStufferB", Some #55)
].

Definition BlockHashCount : u64 := #250.
Definition SS58Prefix : u8 := #42.
Definition ExistentialDeposit : u64 := #5.
Definition MaxReserves : u32 := #50.

(** ** The message provider *)

(** [XcmpDataProvider::get_xcmp_messages]. *)
Definition xcmp_messages (overflow_checks : bool) (chain : ChainState) (block_hash : H256)
    (para_id : u32) : run bytes :=
  match collect_fragments overflow_checks counter_fuel (OutboundXcmpMessages chain) para_id #0 [] with
  | Some r => r
  | None => Diverge
  end.

Section channels.
Context {FS : FrameSystem} {LV : LeafVersionLib}.
(** [EnsureRoot]. *)
Context (EnsureRoot : Origin → bool).

Definition LeafVersion : MmrLeafVersion := MmrLeafVersion_new #2 #8.

(** What the mock gives of [Config]: it has no [BeefyRootProvider] and no
    [MaxBeefyRootsKept]. *)
Record ChannelConfig : Type := mkChannelConfig {
  mock_para_identifier : u32;
  mock_leaf_version : MmrLeafVersion;
  mock_data_provider : ChainState → H256 → u32 → run bytes;
  mock_relayer_origin : Origin → bool
}.

Definition ParaAChannel (overflow_checks : bool) : ChannelConfig :=
  mkChannelConfig #1 LeafVersion (xcmp_messages overflow_checks) EnsureRoot.
Definition ParaBChannel (overflow_checks : bool) : ChannelConfig :=
  mkChannelConfig #2 LeafVersion (xcmp_messages overflow_checks) EnsureRoot.
End channels.

(** ** XCM *)

Section xcm.
Context {XT : XcmTypes} {XB : XcmBuilder}.

Definition RelayChain : MultiLocation := MultiLocation_parent.
Definition UniversalLocation : list Junction := [Parachain #1].
Definition UnitWeightCost : Weight := mkWeight #1000000 #1024.
Definition MaxInstructions : u32 := #100.
Definition MaxAssetsIntoHolding : u32 := #64.

(** [LocationToAccountId]. *)
Definition LocationToAccountId : MultiLocation → option H256 := first_location [ParentIsPreset].

(** [ParaId::is_system]. *)
Context (is_system : u32 → bool).

(** [SystemParachainAsSuperuser::convert_origin]. *)
Definition convert_origin (origin : MultiLocation) (kind : OriginKind) :
    result MultiLocation RuntimeOrigin :=
  if match kind with Superuser => true | _ => false end &&
     (bool_decide (uval (parents origin) = 1)%Z &&
      match interior origin with [Parachain id] => is_system id | _ => false end)
  then Ok Root
  else Err origin.

(** The mock lets a system parachain act as root, and nobody else as anything; the
    runtime lets nobody act as root. *)
Lemma superuser_only_in_mock `{!ConverterLaws} l k :
  (∀ o, convert_origin l k = Ok o ↔
     o = Root ∧ k = Superuser ∧ ∃ id, sibling l = Some id ∧ is_system id = true) ∧
  (∀ l', convert_origin l k = Err l' → l' = l) ∧
  XcmOriginToTransactDispatchOrigin l Superuser = Err l.
Proof.
  unfold convert_origin, sibling. split_and!.
  - intros o. split.
    + destruct k; simpl; try done. case_bool_decide; simpl; [|done].
      destruct (interior l) as [|[] [|]]; try done. destruct (is_system id) eqn:Hsys; [|done].
      intros [= <-]. split_and!; [done..|]. by exists id.
    + intros (-> & -> & id & Hl & Hsys). simpl.
      destruct (interior l) as [|[] [|]]; try done. case_bool_decide; [|done].
      injection Hl as ->. by rewrite Hsys.
  - intros l'. by destruct (_ && _); intros [= <-].
  - unfold XcmOriginToTransactDispatchOrigin, RelayNetwork.
    rewrite first_origin_cons, sovereign_spec, first_origin_cons, relay_native_spec,
      first_origin_cons, sibling_native_spec, first_origin_cons, signed_native_spec,
      first_origin_cons, passthrough_spec. apply first_origin_nil.
Qed.
End xcm.

(** ** Guarantees *)

Lemma collect_fragments_prefix overflow_checks fuel outbound para_id counter pre buf :
  collect_fragments overflow_checks fuel outbound para_id counter (pre ++ buf) =
  (λ r, match r with Ret m => Ret (pre ++ m) | Panic => Panic | Diverge => Diverge end) <$>
    collect_fragments overflow_checks fuel outbound para_id counter buf.
Proof.
  revert counter buf. induction fuel as [|fuel IH]; intros counter buf; [done|]. simpl.
  destruct (outbound !! (para_id, counter)) as [b|]; [|done].
  destruct (incr overflow_checks counter) as [c|]; [|done]. by rewrite <- app_assoc, IH.
Qed.

(** The pallet is tested against the messages of the runtime without their
    prefix: on every queue, also where the collection panics or never ends, the
    runtime's provider gives the bytes 1, 2, 3 and then what the mock's gives. *)
Theorem mock_messages_agree overflow_checks chain hash para_id :
  runtime_xcmp_messages overflow_checks chain hash para_id =
  match xcmp_messages overflow_checks chain hash para_id with
  | Ret messages => Ret ([ #1; #2; #3] ++ messages)
  | Panic => Panic
  | Diverge => Diverge
  end.
Proof.
  unfold runtime_xcmp_messages, xcmp_messages.
  rewrite <- (app_nil_r [ #1; #2; #3]) at 1. rewrite collect_fragments_prefix.
  by destruct (collect_fragments _ _ _ _ _ []) as [[]|].
Qed.
End Mock.
