(* ===== verification/ChainSpec.v ===== *)
(** * Chain specifications

    [node/src/chain_spec.rs], and of [node/src/command.rs] the function that chooses
    a specification. Key derivation, the compiled runtime and JSON files are
    parameters. *)
From S2P Require Import Prelude Words RuntimeConfig.

(** ** Interfaces *)

(** [sp_core::Pair]: the public key of the pair derived from a secret URI. *)
Class PublicLib (TPublic : Type) := {
  pair_from_string : string → option TPublic;
}.

(** The key and account types of the runtime. *)
Class AccountLib := {
  AccountId : Type;
  Sr25519Public : Type;
  AuraId : Type;
  sr25519_lib :: PublicLib Sr25519Public;
  aura_lib :: PublicLib AuraId;
  (** [AccountPublic::from(_).into_account()]. *)
  into_account : Sr25519Public → AccountId;
}.

(** Values of the [Properties] map. *)
Inductive JsonValue : Type := JsonString (s : string) | JsonNumber (n : Z).

(** ** Data *)

(** [Extensions]. *)
Record Extensions : Type := mkExtensions { relay_chain : string; ext_para_id : u32 }.

Section spec.
Context {AL : AccountLib}.

Record SessionKeys : Type := mkSessionKeys { aura : AuraId }.

(** [RuntimeGenesisConfig]; the fields that are left at their default are not listed. *)
Record RuntimeGenesisConfig : Type := mkGenesis {
  system_code : bytes;
  balances : list (AccountId * u128);
  parachain_id : u32;
  genesis_invulnerables : list AccountId;
  candidacy_bond : u128;
  session_keys : list (AccountId * AccountId * SessionKeys);
  safe_xcm_version : option u32;
  sudo_key : option AccountId
}.

Inductive ChainType : Set := Development | Local.

(** [GenericChainSpec], built by [ChainSpec::from_genesis]; the genesis is the result
    of the closure. *)
Record ChainSpec : Type := mkChainSpec {
  spec_name : string;
  spec_id : string;
  chain_type : ChainType;
  genesis_config : run RuntimeGenesisConfig;
  boot_nodes : list string;
  telemetry_endpoints : option string;
  protocol_id : option string;
  fork_id : option string;
  properties : option (gmap string JsonValue);
  extensions : Extensions
}.

(** ** Keys *)

(** [get_from_seed]. *)
Definition get_from_seed {TPublic} `{!PublicLib TPublic} (seed : string) : run TPublic :=
  match pair_from_string (String.append "//" seed) with Some p => Ret p | None => Panic end.

(** [get_collator_keys_from_seed]. *)
Definition get_collator_keys_from_seed (seed : string) : run AuraId := get_from_seed seed.

(** [get_account_id_from_seed], at [sr25519::Public]. *)
Definition get_account_id_from_seed (seed : string) : run AccountId :=
  p ← (get_from_seed seed : run Sr25519Public);
  mret (into_account p).

(** [template_session_keys]. *)
Definition template_session_keys (keys : AuraId) : SessionKeys := mkSessionKeys keys.

(** ** Genesis *)

(** The compiled runtime, if it was built, and the XCM version of the SDK. *)
Context (WASM_BINARY : option bytes) (SAFE_XCM_VERSION : u32).

(** [testnet_genesis]. *)
Definition testnet_genesis (invulnerables : list (AccountId * AuraId))
    (endowed_accounts : list AccountId) (root : AccountId) (id : u32) :
    run RuntimeGenesisConfig :=
  code ← (match WASM_BINARY with Some code => Ret code | None => Panic end : run bytes);
  mret {|
    system_code := code;
    balances := (λ k, (k, #(Z.shiftl 1 60))) <$> endowed_accounts;
    parachain_id := id;
    genesis_invulnerables := fst <$> invulnerables;
    candidacy_bond := const_mul EXISTENTIAL_DEPOSIT #16;
    session_keys := (λ e, (e.1, e.1, template_session_keys e.2)) <$> invulnerables;
    safe_xcm_version := Some SAFE_XCM_VERSION;
    sudo_key := Some root
  |}.

Definition collator_seeds : list string := ["Alice"; "Bob"].
Definition endowed_seeds : list string :=
  ["Alice"; "Bob"; "Charlie"; "Dave"; "Eve"; "Ferdie";
   "Alice//stash"; "Bob//stash"; "Charlie//stash"; "Dave//stash"; "Eve//stash"; "Ferdie//stash"].

(** The closure of both configurations. *)
Definition default_genesis : run RuntimeGenesisConfig :=
  collators ← (mapM (λ seed,
      acc ← get_account_id_from_seed seed;
      keys ← get_collator_keys_from_seed seed;
      mret (acc, keys)) collator_seeds : run (list (AccountId * AuraId)));
  endowed ← (mapM get_account_id_from_seed endowed_seeds : run (list AccountId));
  root ← get_account_id_from_seed "Alice";
  testnet_genesis collators endowed root #1000.

(** The local variable [properties] of both configurations. *)
Definition unit_properties : gmap string JsonValue :=
  <["ss58Format" := JsonNumber 42]> (<["tokenDecimals" := JsonNumber 12]>
    (<["tokenSymbol" := JsonString "UNIT"]> ∅)).

(** [development_config]. *)
Definition development_config : ChainSpec := {|
  spec_name := "Development";
  spec_id := "dev";
  chain_type := Development;
  genesis_config := default_genesis;
  boot_nodes := [];
  telemetry_endpoints := None;
  protocol_id := None;
  fork_id := None;
  properties := None;
  extensions := {| relay_chain := "rococo-local"; ext_para_id := #1000 |}
|}.

(** [local_testnet_config]. *)
Definition local_testnet_config : ChainSpec := {|
  spec_name := "Local Testnet";
  spec_id := "local_testnet";
  chain_type := Local;
  genesis_config := default_genesis;
  boot_nodes := [];
  telemetry_endpoints := None;
  protocol_id := Some "template-local";
  fork_id := None;
  properties := Some unit_properties;
  extensions := {| relay_chain := "rococo-local"; ext_para_id := #1000 |}
|}.

(** ** Choosing a specification *)

(** [ChainSpec::from_json_file]. *)
Context (from_json_file : string → result string ChainSpec).

(** The empty string. *)
Definition empty_id : string := EmptyString.

(** [load_spec]. *)
Definition load_spec (id : string) : result string ChainSpec :=
  if decide (id = "dev") then Ok development_config
  else if decide (id = "template-rococo") then Ok local_testnet_config
  else if decide (id = empty_id ∨ id = "local") then Ok local_testnet_config
  else from_json_file id.
End spec.

(** ** Guarantees *)

Section guarantees.
Context {AL : AccountLib}.
Context (WASM_BINARY : option bytes) (SAFE_XCM_VERSION : u32).
Abbreviation dev := (development_config WASM_BINARY SAFE_XCM_VERSION).
Abbreviation local := (local_testnet_config WASM_BINARY SAFE_XCM_VERSION).

(** The ids that name a built-in configuration. *)
Definition builtin_ids : list string := ["dev"; "template-rococo"; empty_id; "local"].

Lemma load_builtin (from_json_file : string → result string ChainSpec) id spec :
  id ∈ builtin_ids → load_spec WASM_BINARY SAFE_XCM_VERSION from_json_file id = Ok spec →
  spec = dev ∨ spec = local.
Proof.
  intros Hid. unfold load_spec. case_decide; [intros [= <-]; by left|].
  case_decide; [intros [= <-]; by right|]. case_decide; [intros [= <-]; by right|].
  unfold builtin_ids in Hid. set_solver.
Qed.

(** The development seeds derive keys, and different seeds different accounts. *)
Record dev_keys (account : string → AccountId) (collator : string → AuraId) : Prop := {
  account_derives : ∀ seed, seed ∈ endowed_seeds → ∃ p,
    pair_from_string (String.append "//" seed) = Some p ∧ into_account p = account seed;
  collator_derives : ∀ seed, seed ∈ collator_seeds →
    pair_from_string (String.append "//" seed) = Some (collator seed);
  accounts_distinct : ∀ s1 s2, s1 ∈ endowed_seeds → s2 ∈ endowed_seeds →
    account s1 = account s2 → s1 = s2
}.

Lemma mapM_Ret {A B} (f : A → run B) (g : A → B) l :
  (∀ x, x ∈ l → f x = Ret (g x)) → mapM f l = Ret (g <$> l).
Proof.
  induction l as [|x l IH]; intros Hf; [done|]. simpl. rewrite Hf by apply list_elem_of_here.
  change (mapM f l ≫= (λ k, mret (g x :: k)) = Ret (g <$> x :: l)).
  rewrite IH; [done|]. intros y Hy. apply Hf. by apply list_elem_of_further.
Qed.

Lemma get_account_Ret account collator seed :
  dev_keys account collator → seed ∈ endowed_seeds →
  get_account_id_from_seed seed = Ret (account seed).
Proof.
  intros Hk (p & Hp & Ha)%(account_derives _ _ Hk).
  unfold get_account_id_from_seed, get_from_seed. rewrite Hp. simpl. by rewrite Ha.
Qed.

Lemma collators_endowed seed : seed ∈ collator_seeds → seed ∈ endowed_seeds.
Proof. unfold collator_seeds, endowed_seeds. set_solver. Qed.

(** The genesis of both configurations. *)
Definition expected_genesis (code : bytes) (account : string → AccountId)
    (collator : string → AuraId) : RuntimeGenesisConfig := {|
  system_code := code;
  balances := (λ seed, (account seed, #(Z.shiftl 1 60))) <$> endowed_seeds;
  parachain_id := #1000;
  genesis_invulnerables := account <$> collator_seeds;
  candidacy_bond := const_mul EXISTENTIAL_DEPOSIT #16;
  session_keys := (λ seed, (account seed, account seed, mkSessionKeys (collator seed)))
    <$> collator_seeds;
  safe_xcm_version := Some SAFE_XCM_VERSION;
  sudo_key := Some (account "Alice")
|}.

Lemma default_genesis_Ret code account collator :
  WASM_BINARY = Some code → dev_keys account collator →
  default_genesis WASM_BINARY SAFE_XCM_VERSION = Ret (expected_genesis code account collator).
Proof.
  intros Hcode Hk. unfold default_genesis.
  rewrite (mapM_Ret _ (λ seed, (account seed, collator seed))).
  2:{ intros seed Hin. rewrite (get_account_Ret _ _ _ Hk (collators_endowed _ Hin)). simpl.
      unfold get_collator_keys_from_seed, get_from_seed.
      by rewrite (collator_derives _ _ Hk _ Hin). }
  rewrite (mapM_Ret _ account) by (intros; by eapply get_account_Ret).
  rewrite (get_account_Ret _ _ _ Hk) by (apply list_elem_of_here).
  unfold mbind, run_bind, testnet_genesis. rewrite Hcode. simpl. reflexivity.
Qed.

Lemma default_genesis_id g :
  default_genesis WASM_BINARY SAFE_XCM_VERSION = Ret g → parachain_id g = #1000.
Proof.
  unfold default_genesis, testnet_genesis.
  intros (collators & _ & (endowed & _ & (root & _ & (code & _ & Hg)%run_bind_Ret)%run_bind_Ret)
    %run_bind_Ret)%run_bind_Ret. by injection Hg as <-.
Qed.

(** [C31] Both built-in configurations start a sound chain when the runtime was built:
    every endowed account is listed once with 2^60 units, which is above the
    existential deposit and the candidacy bond, the total fits the balance type, each
    collator is endowed and has session keys under its own account, and the root
    account is endowed. *)
Theorem genesis_sound from_json_file code account collator id spec :
  WASM_BINARY = Some code → dev_keys account collator → id ∈ builtin_ids →
  load_spec WASM_BINARY SAFE_XCM_VERSION from_json_file id = Ok spec →
  ∃ g, genesis_config spec = Ret g ∧ system_code g = code ∧
    NoDup (balances g).*1 ∧ Forall (λ e, uval e.2 = 2 ^ 60)%Z (balances g) ∧
    (uval EXISTENTIAL_DEPOSIT < uval (candidacy_bond g) < 2 ^ 60)%Z ∧
    (foldr (λ e z, uval e.2 + z) 0 (balances g) < 2 ^ 128)%Z ∧
    Forall (λ k, k.1.1 = k.1.2 ∧ k.1.1 ∈ (balances g).*1) (session_keys g) ∧
    genesis_invulnerables g = (session_keys g).*1.*1 ∧
    (∃ k, sudo_key g = Some k ∧ k ∈ (balances g).*1).
Proof.
  intros Hcode Hk Hid Hspec%load_builtin; [|done]. exists (expected_genesis code account collator).
  assert (genesis_config spec = Ret (expected_genesis code account collator)) as Hg.
  { destruct Hspec as [->| ->]; by apply default_genesis_Ret. }
  split_and!; [done|done| |by repeat constructor|done|done|done| |done|].
  - change (NoDup (account <$> endowed_seeds)). apply NoDup_fmap_2_strong.
    + apply (accounts_distinct _ _ Hk).
    + by apply (bool_decide_unpack _).
  - change (Forall (λ k, k.1.1 = k.1.2 ∧ k.1.1 ∈ account <$> endowed_seeds)
      (session_keys (expected_genesis code account collator))).
    apply list.Forall_fmap, list.Forall_forall. intros seed Hin. split; [done|].
    change (account seed ∈ account <$> endowed_seeds).
    by apply list_elem_of_fmap_2, collators_endowed.
  - exists (account "Alice"). split; [done|].
    change (account "Alice" ∈ account <$> endowed_seeds).
    apply list_elem_of_fmap_2, list_elem_of_here.
Qed.

(** The development configuration builds its token properties and drops them: its
    specification carries none, while the local testnet's carries all three. *)
Theorem dev_properties_dropped :
  properties dev = None ∧
  ∃ m, properties local = Some m ∧ m !! "tokenSymbol" = Some (JsonString "UNIT") ∧
    m !! "tokenDecimals" = Some (JsonNumber 12) ∧ m !! "ss58Format" = Some (JsonNumber 42).
Proof. split; [done|]. by exists unit_properties. Qed.
End guarantees.

(** ** Witnesses *)

(** Keys are their seeds. *)
#[export] Instance td_accounts : AccountLib := {|
  AccountId := string;
  Sr25519Public := string;
  AuraId := string;
  sr25519_lib := {| pair_from_string := Some |};
  aura_lib := {| pair_from_string := Some |};
  into_account := id
|}.

Lemma td_dev_keys : dev_keys (String.append "//") (String.append "//").
Proof.
  split.
  - intros seed _. by eexists.
  - done.
  - intros s1 s2 _ _ [= Heq]. done.
Qed.

Lemma genesis_sound_witness :
  ∃ g, genesis_config (development_config (Some [ #1]) #3) = Ret g ∧ NoDup (balances g).*1.
Proof.
  destruct (genesis_sound (Some [ #1]) #3 Err [ #1] _ _ "dev" (development_config (Some [ #1]) #3)
    eq_refl td_dev_keys ltac:(apply list_elem_of_here) eq_refl) as (g & Hg & _ & Hnd & _).
  by exists g.
Defined.
