(* ===== verification/PalletConfigs.v ===== *)
(** * Configurations of the SDK's pallets

    The [impl pallet_*::Config for Runtime] blocks of [runtime/src/lib.rs] for the
    pallets of the SDK, as records of the constants, origins and functions they are
    given; a pallet that another one is wired to is named as in [construct_runtime!].
    Types that only select an implementation ([RuntimeEvent], [WeightInfo] and the like)
    are left out. *)
From S2P Require Import Prelude Words Sdk MessageStuffer RuntimeXcmp RuntimeConfig XcmConfig XcmExecutor.
From S2P Require Import BlockBudget ChainSpec.

(** ** Interfaces *)

Class SessionLib := {
  (** [PeriodicSessions<Period, Offset>::should_end_session]. *)
  PeriodicSessions : u32 → u32 → u32 → bool;
}.
(** "A session ends every [Period] blocks, from block [Offset] on." *)
Class SessionLaws `{!SessionLib} : Prop := {
  periodic_spec : ∀ period offset now, PeriodicSessions period offset now = true ↔
    (uval offset <= uval now ∧ (uval period | uval now - uval offset))%Z;
}.

Class GovernanceLib {XT : XcmTypes} := {
  (** [BodyPart::Voice]. *)
  Voice : BodyPart;
  EitherOfDiverse : (RuntimeOrigin → bool) → (RuntimeOrigin → bool) → RuntimeOrigin → bool;
  EnsureXcm : (MultiLocation → bool) → RuntimeOrigin → bool;
  IsVoiceOfBody : MultiLocation → BodyId → MultiLocation → bool;
}.
Class GovernanceLaws {XT : XcmTypes} `{!GovernanceLib} : Prop := {
  either_spec : ∀ a b o, EitherOfDiverse a b o = true ↔ a o = true ∨ b o = true;
  ensure_xcm_spec : ∀ f o, EnsureXcm f o = true ↔ ∃ l, o = XcmOrigin l ∧ f l = true;
  voice_spec : ∀ prefix body l, IsVoiceOfBody prefix body l = true ↔
    l = mkMultiLocation (parents prefix) (interior prefix ++ [Plurality body Voice]);
}.

(** ** Configurations *)

(** [frame_system]. *)
Record SystemConfig {XT : XcmTypes} `{!BlockWeightsLib} `{!XcmAssets} : Type := mkSystemConfig {
  sys_BlockHashCount : u32;
  OnNewAccount : option string;
  OnKilledAccount : option string;
  DbWeight : RuntimeDbWeight;
  BaseCallFilter : XcmCall → bool;
  sys_BlockWeights : run BlockWeights;
  sys_BlockLength : BlockLength;
  SS58Prefix : u16;
  OnSetCode : string;
  MaxConsumers : u32
}.

(** [pallet_timestamp], [pallet_authorship], [pallet_aura] and [pallet_session]. *)
Record TimestampConfig : Type := mkTimestampConfig {
  OnTimestampSet : string;
  ts_MinimumPeriod : u64
}.
Record AuthorshipConfig : Type := mkAuthorshipConfig {
  FindAuthor : string;
  EventHandler : list string
}.
Record AuraConfig : Type := mkAuraConfig {
  DisabledValidators : option string;
  MaxAuthorities : u32;
  AllowMultipleBlocksPerSlot : bool
}.
Record SessionConfig : Type := mkSessionConfig {
  ShouldEndSession : u32 → bool;
  NextSessionRotation : u32 → bool;
  SessionManager : string;
  ValidatorIdOf : string;
  SessionHandler : list string
}.

(** [pallet_balances] and [pallet_transaction_payment]. *)
Record BalancesConfig : Type := mkBalancesConfig {
  MaxLocks : u32;
  DustRemoval : option string;
  ExistentialDeposit : u128;
  AccountStore : string;
  MaxReserves : u32;
  MaxHolds : u32;
  MaxFreezes : u32
}.
Record PaymentConfig : Type := mkPaymentConfig {
  OnChargeTransaction : string;
  pay_WeightToFee : Weight → u128;
  (** The multiplier of [ConstantMultiplier<Balance, TransactionByteFee>]. *)
  LengthToFee : u128;
  FeeMultiplierUpdate : string;
  OperationalFeeMultiplier : u8
}.

Section configs.
Context {XT : XcmTypes} {XB : XcmBuilder} {XA : XcmAssets} {GL : GovernanceLib}.
Context {WC : WeightConstants} {FL : FeeLib} {BW : BlockWeightsLib} {SL : SessionLib}.
Context {ML : MmrLib} {BM : MerkleLib} {MMR : MmrPallet ChainState}.
Context (MAX_POV_SIZE : u32) (BlockHashCount : u32) (parachain_id : u32).
(** [RelayNumberStrictlyIncreases], on the current relay chain block and the previous. *)
Context (RelayNumberStrictlyIncreases : u32 → u32 → bool).

(** [cumulus_pallet_parachain_system]. *)
Record ParachainSystemConfig : Type := mkParachainSystemConfig {
  OnSystemEvent : option string;
  SelfParaId : string;
  OutboundXcmpMessageSource : string;
  DmpMessageHandler : string;
  ps_ReservedDmpWeight : Weight;
  XcmpChannelRootCollector : ChainState → H256;
  XcmpMessageHandler : string;
  ps_ReservedXcmpWeight : Weight;
  CheckAssociatedRelayNumber : u32 → u32 → bool
}.

(** [cumulus_pallet_xcmp_queue] and [cumulus_pallet_dmp_queue]. *)
Record XcmpQueueConfig : Type := mkXcmpQueueConfig {
  xq_XcmExecutor : ExecutorConfig;
  ChannelInfo : string;
  VersionWrapper : option string;
  xq_ExecuteOverweightOrigin : RuntimeOrigin → bool;
  ControllerOrigin : RuntimeOrigin → bool;
  ControllerOriginConverter : MultiLocation → OriginKind → result MultiLocation RuntimeOrigin;
  PriceForSiblingDelivery : option string
}.
Record DmpQueueConfig : Type := mkDmpQueueConfig {
  dq_XcmExecutor : ExecutorConfig;
  dq_ExecuteOverweightOrigin : RuntimeOrigin → bool
}.

(** [pallet_collator_selection]. *)
Record CollatorSelectionConfig : Type := mkCollatorSelectionConfig {
  Currency : string;
  UpdateOrigin : RuntimeOrigin → bool;
  PotId : string;
  MaxCandidates : u32;
  MinEligibleCollators : u32;
  MaxInvulnerables : u32;
  KickThreshold : u32;
  cs_ValidatorIdOf : string;
  ValidatorRegistration : string
}.

(** ** The runtime's values *)

Definition system_config : SystemConfig := {|
  sys_BlockHashCount := BlockHashCount;
  OnNewAccount := None;
  OnKilledAccount := None;
  DbWeight := RocksDbWeight;
  BaseCallFilter := λ _, true;
  sys_BlockWeights := RuntimeBlockWeights MAX_POV_SIZE;
  sys_BlockLength := RuntimeBlockLength;
  SS58Prefix := #42;
  OnSetCode := "ParachainSystem";
  MaxConsumers := #16
|}.

Definition timestamp_config : TimestampConfig :=
  {| OnTimestampSet := "Aura"; ts_MinimumPeriod := MinimumPeriod |}.

Definition authorship_config : AuthorshipConfig :=
  {| FindAuthor := "Aura"; EventHandler := ["CollatorSelection"] |}.

Definition balances_config : BalancesConfig := {|
  MaxLocks := #50;
  DustRemoval := None;
  ExistentialDeposit := EXISTENTIAL_DEPOSIT;
  AccountStore := "System";
  MaxReserves := #50;
  MaxHolds := #0;
  MaxFreezes := #0
|}.

Definition payment_config : PaymentConfig := {|
  OnChargeTransaction := "Balances";
  pay_WeightToFee := WeightToFee;
  LengthToFee := TransactionByteFee;
  FeeMultiplierUpdate := "SlowAdjustingFeeUpdate";
  OperationalFeeMultiplier := #5
|}.

Definition parachain_system_config : ParachainSystemConfig := {|
  OnSystemEvent := None;
  SelfParaId := "ParachainInfo";
  OutboundXcmpMessageSource := "XcmpQueue";
  DmpMessageHandler := "DmpQueue";
  ps_ReservedDmpWeight := ReservedDmpWeight MAX_POV_SIZE;
  XcmpChannelRootCollector := collect_roots;
  XcmpMessageHandler := "XcmpQueue";
  ps_ReservedXcmpWeight := ReservedXcmpWeight MAX_POV_SIZE;
  CheckAssociatedRelayNumber := RelayNumberStrictlyIncreases
|}.

Definition xcmp_queue_config : XcmpQueueConfig := {|
  xq_XcmExecutor := XcmConfig_executor parachain_id;
  ChannelInfo := "ParachainSystem";
  VersionWrapper := None;
  xq_ExecuteOverweightOrigin := EnsureRoot_origin;
  ControllerOrigin := EnsureRoot_origin;
  ControllerOriginConverter := XcmOriginToTransactDispatchOrigin;
  PriceForSiblingDelivery := None
|}.

Definition dmp_queue_config : DmpQueueConfig := {|
  dq_XcmExecutor := XcmConfig_executor parachain_id;
  dq_ExecuteOverweightOrigin := EnsureRoot_origin
|}.

Definition session_config : SessionConfig := {|
  ShouldEndSession := PeriodicSessions Period Offset;
  NextSessionRotation := PeriodicSessions Period Offset;
  SessionManager := "CollatorSelection";
  ValidatorIdOf := "IdentityCollator";
  SessionHandler := ["Aura"]
|}.

Definition aura_config : AuraConfig :=
  {| DisabledValidators := None; MaxAuthorities := #100000; AllowMultipleBlocksPerSlot := false |}.

(** [StakingAdminBodyId] and [CollatorSelectionUpdateOrigin]. *)
Definition StakingAdminBodyId : BodyId := Defense.
Definition CollatorSelectionUpdateOrigin : RuntimeOrigin → bool :=
  EitherOfDiverse EnsureRoot_origin (EnsureXcm (IsVoiceOfBody RelayLocation StakingAdminBodyId)).

Definition collator_selection_config : CollatorSelectionConfig := {|
  Currency := "Balances";
  UpdateOrigin := CollatorSelectionUpdateOrigin;
  PotId := "PotStake";
  MaxCandidates := #100;
  MinEligibleCollators := #4;
  MaxInvulnerables := #20;
  KickThreshold := Period;
  cs_ValidatorIdOf := "IdentityCollator";
  ValidatorRegistration := "Session"
|}.

End configs.

(** ** Guarantees *)

Section guarantees.
Context {XT : XcmTypes} {XB : XcmBuilder} {XA : XcmAssets} {GL : GovernanceLib} {SL : SessionLib}.
Context {WC : WeightConstants} {FL : FeeLib}.

(** Where the relay chain's staking administration speaks from. *)
Definition staking_admin : MultiLocation := mkMultiLocation #1 [Plurality Defense Voice].

Lemma update_origin_spec `{!GovernanceLaws} `{!LocalOriginLaws} o :
  UpdateOrigin collator_selection_config o = true ↔ o = Root ∨ o = XcmOrigin staking_admin.
Proof.
  cbn. unfold CollatorSelectionUpdateOrigin. rewrite either_spec, ensure_root_spec, ensure_xcm_spec.
  setoid_rewrite voice_spec. unfold staking_admin. naive_solver.
Qed.

(** [C33] Privileged calls: the collators are administered by root and by the voice of
    the relay chain's staking administration, and by nobody else; of all the origins that
    a message of another chain can dispatch a call with, only that voice, with an origin
    of kind [Xcm], is among them, and none may execute overweight messages, control the
    XCMP queue or administer the XCM pallet. *)
Theorem privileged_origins `{!GovernanceLaws} `{!LocalOriginLaws} `{!ConverterLaws} l k o parachain_id :
  (UpdateOrigin collator_selection_config o = true ↔ o = Root ∨ o = XcmOrigin staking_admin) ∧
  (XcmOriginToTransactDispatchOrigin l k = Ok o →
    (UpdateOrigin collator_selection_config o = true ↔ k = Xcm ∧ l = staking_admin) ∧
    xq_ExecuteOverweightOrigin (xcmp_queue_config parachain_id) o = false ∧
    ControllerOrigin (xcmp_queue_config parachain_id) o = false ∧
    dq_ExecuteOverweightOrigin (dmp_queue_config parachain_id) o = false ∧
    AdminOrigin (pallet_xcm_config parachain_id) o = false).
Proof.
  split; [apply update_origin_spec|]. rewrite dispatch_origin_spec. intros Ho.
  assert (EnsureRoot_origin o = false) as Hroot.
  { apply not_true_iff_false. rewrite ensure_root_spec. intros ->.
    by destruct k; repeat case_match. }
  split_and!; [|done..]. rewrite update_origin_spec.
  destruct k; repeat case_match; naive_solver.
Qed.

Lemma mapM_length {A B} (f : A → run B) xs ys : mapM f xs = Ret ys → length ys = length xs.
Proof.
  revert ys. induction xs as [|x xs IH]; intros ys; simpl; [by intros [= <-]|].
  intros (y & _ & (zs & Hzs & [= <-])%run_bind_Ret)%run_bind_Ret. simpl. by rewrite (IH zs).
Qed.

(** Sessions and collators: a session ends exactly at every 1800th block, that is
    every six hours; a collator is kicked after a whole number of sessions; every collator
    that can be selected fits into the authorities; and the genesis has no more
    invulnerable collators than allowed, though fewer than the minimum of eligible ones. *)
Theorem session_schedule `{!SessionLaws} `{!AccountLib} WASM_BINARY SAFE_XCM_VERSION n g :
  (ShouldEndSession session_config n = true ↔ (1800 | uval n)%Z) ∧
  (1800 * uval MILLISECS_PER_BLOCK = 6 * 60 * 60 * 1000)%Z ∧
  (uval Period | uval (KickThreshold collator_selection_config))%Z ∧
  (uval (MaxInvulnerables collator_selection_config) + uval (MaxCandidates collator_selection_config)
    <= uval (MaxAuthorities aura_config))%Z ∧
  (default_genesis WASM_BINARY SAFE_XCM_VERSION = Ret g →
    Z.of_nat (length (genesis_invulnerables g)) <= uval (MaxInvulnerables collator_selection_config) ∧
    Z.of_nat (length (genesis_invulnerables g)) < uval (MinEligibleCollators collator_selection_config))%Z.
Proof.
  split_and!; [|done|by exists 1%Z|done|].
  - cbn. rewrite periodic_spec. change (uval Offset) with 0%Z. change (uval Period) with 1800%Z.
    pose proof (uval_range n). rewrite Z.sub_0_r. naive_solver lia.
  - unfold default_genesis. intros (cs & Hcs%mapM_length & Hg)%run_bind_Ret.
    apply run_bind_Ret in Hg as (es & _ & Hg). apply run_bind_Ret in Hg as (r & _ & Hg).
    apply run_bind_Ret in Hg as (code & _ & [= <-]). simpl. rewrite length_fmap, Hcs. done.
Qed.
End guarantees.

(** ** Witnesses *)

#[local] Instance td_sessions : SessionLib := {|
  PeriodicSessions := λ period offset now,
    bool_decide (uval offset <= uval now)%Z && bool_decide ((uval now - uval offset) mod uval period = 0)%Z
|}.
#[local] Instance td_session_laws : SessionLaws.
Proof.
  split. intros. simpl. rewrite andb_true_iff, !bool_decide_eq_true.
  destruct (decide (uval period = 0)%Z) as [->|Hp]; [|by rewrite Z.mod_divide].
  rewrite Zmod_0_r. split; intros [? Hz]; (split; [done|]); [by rewrite Hz|].
  by destruct Hz as [z ->]; rewrite Z.mul_0_r.
Qed.

#[local] Existing Instances RuntimeConfig.td_weights RuntimeConfig.td_fees.
#[local] Existing Instances XcmExecutor.td_assets XcmExecutor.td_local_laws XcmExecutor.td_location_eq_dec.
#[local] Instance td_governance : GovernanceLib := {|
  Voice := tt;
  EitherOfDiverse := λ a b o, a o || b o;
  EnsureXcm := λ f o, match o with XcmOrigin l => f l | _ => false end;
  IsVoiceOfBody := λ prefix body l, bool_decide
    (l = mkMultiLocation (parents prefix) (interior prefix ++ [Plurality body tt]))
|}.
#[local] Instance td_governance_laws : GovernanceLaws.
Proof.
  split.
  - intros. apply orb_true_iff.
  - intros f []; simpl; naive_solver.
  - intros. apply bool_decide_eq_true.
Qed.

Lemma privileged_origins_witness :
  UpdateOrigin collator_selection_config (XcmOrigin staking_admin) = true.
Proof.
  destruct (privileged_origins staking_admin Xcm (XcmOrigin staking_admin) #1000) as [_ Htransact].
  apply Htransact; done.
Defined.

Lemma session_schedule_witness :
  ShouldEndSession session_config #3600 = true.
Proof.
  apply (session_schedule (Some [ #1]) #3 #3600
    (mkGenesis [] [] #0 [] #0 [] None None)). by exists 2%Z.
Defined.
