(* ===== verification/MockConfigs.v ===== *)
(** * Configurations of the mock runtimes

    The [impl ... Config for Test] blocks of the pallets' [mock.rs] files, in the records
    of [XcmExecutor] and [PalletConfigs] where those fit, and what the mock of the message
    stuffer does differently from the runtime under XCM. *)
From S2P Require Import Prelude Words RuntimeConfig XcmConfig XcmExecutor BlockBudget PalletConfigs.
From S2P Require Import MockRuntime.

(** ** Records *)

(** [frame_system::Config], with the number types of a mock; [()] is [None]. *)
Record MockSystemConfig {XT : XcmTypes} `{!XcmAssets} : Type := mkMockSystemConfig {
  mock_BaseCallFilter : XcmCall → bool;
  mock_BlockWeights : option string;
  mock_BlockLength : option string;
  mock_DbWeight : option string;
  mock_BlockHashCount : u64;
  mock_Version : option string;
  mock_AccountData : option string;
  mock_OnNewAccount : option string;
  mock_OnKilledAccount : option string;
  mock_SS58Prefix : u8;
  mock_OnSetCode : option string;
  mock_MaxConsumers : u32
}.

(** [pallet_balances::Config] with balances of 64 bits; a limit that is [()] is zero. *)
Record MockBalancesConfig : Type := mkMockBalancesConfig {
  mock_DustRemoval : option string;
  mock_ExistentialDeposit : u64;
  mock_AccountStore : string;
  mock_MaxLocks : u32;
  mock_MaxReserves : u32;
  mock_MaxHolds : u32;
  mock_MaxFreezes : u32
}.

(** [cumulus_pallet_parachain_system::Config] without a collector of channel roots. *)
Record MockParachainSystemConfig : Type := mkMockParachainSystemConfig {
  mock_OnSystemEvent : option string;
  mock_SelfParaId : option string;
  mock_OutboundXcmpMessageSource : string;
  mock_DmpMessageHandler : option string;
  mock_ReservedDmpWeight : option Weight;
  mock_XcmpMessageHandler : string;
  mock_ReservedXcmpWeight : option Weight;
  mock_CheckAssociatedRelayNumber : string
}.

(** [pallet_mmr::Config]. *)
Record MmrConfig : Type := mkMmrConfig {
  mmr_INDEXING_PREFIX : string;
  mmr_OnNewRoot : string;
  mmr_Hashing : string;
  mmr_LeafData : string
}.

(** [new_test_ext]: the storage that the default genesis of the system pallet builds. *)
Definition new_test_ext {GenesisConfig E S} (default_genesis : GenesisConfig)
    (build_storage : GenesisConfig → result E S) : run S :=
  match build_storage default_genesis with Ok s => Ret s | Err _ => Panic end.

(** ** The mock of the message stuffer *)

Section mock.
Context {XT : XcmTypes} {XB : XcmBuilder} {XA : XcmAssets} (is_system : u32 → bool).

Definition mock_system_config : MockSystemConfig := {|
  mock_BaseCallFilter := λ _, true;
  mock_BlockWeights := None;
  mock_BlockLength := None;
  mock_DbWeight := None;
  mock_BlockHashCount := Mock.BlockHashCount;
  mock_Version := None;
  mock_AccountData := Some "Balances";
  mock_OnNewAccount := None;
  mock_OnKilledAccount := None;
  mock_SS58Prefix := Mock.SS58Prefix;
  mock_OnSetCode := Some "ParachainSystem";
  mock_MaxConsumers := #16
|}.

Definition mock_balances_config : MockBalancesConfig := {|
  mock_DustRemoval := None;
  mock_ExistentialDeposit := Mock.ExistentialDeposit;
  mock_AccountStore := "System";
  mock_MaxLocks := #0;
  mock_MaxReserves := Mock.MaxReserves;
  mock_MaxHolds := #0;
  mock_MaxFreezes := #0
|}.

Definition mock_parachain_system_config : MockParachainSystemConfig := {|
  mock_OnSystemEvent := None;
  mock_SelfParaId := None;
  mock_OutboundXcmpMessageSource := "XcmpQueue";
  mock_DmpMessageHandler := None;
  mock_ReservedDmpWeight := None;
  mock_XcmpMessageHandler := "XcmpQueue";
  mock_ReservedXcmpWeight := None;
  mock_CheckAssociatedRelayNumber := "AnyRelayNumber"
|}.

(** [LocalAssetTransactor] and [XcmRouter]. *)
Definition mock_deposit : MultiAsset → MultiLocation → Balances → option Balances :=
  CurrencyAdapter_deposit (IsConcrete Mock.RelayChain) Mock.LocationToAccountId.
Definition mock_withdraw : MultiAsset → MultiLocation → Balances → option Balances :=
  CurrencyAdapter_withdraw (IsConcrete Mock.RelayChain) Mock.LocationToAccountId.
Definition mock_XcmRouter : MultiLocation → list Instruction → result SendError Route :=
  first_router [XcmpQueue_router].

(** [impl xcm_executor::Config for XcmConfig]; the barrier and the converter of origins
    are empty tuples. *)
Definition mock_executor : ExecutorConfig := {|
  XcmSender := mock_XcmRouter;
  AssetTransactor_deposit := mock_deposit;
  AssetTransactor_withdraw := mock_withdraw;
  OriginConverter := first_origin [];
  IsReserve := NativeAsset;
  IsTeleporter := NativeAsset;
  exec_UniversalLocation := Mock.UniversalLocation;
  exec_Barrier := any_barrier [];
  exec_Weigher := FixedWeightBounds Mock.UnitWeightCost Mock.MaxInstructions;
  Trader := None;
  ResponseHandler := None;
  AssetTrap := None;
  AssetClaims := None;
  SubscriptionService := None;
  PalletInstancesInfo := "AllPalletsWithSystem";
  exec_MaxAssetsIntoHolding := Mock.MaxAssetsIntoHolding;
  AssetLocker := None;
  AssetExchanger := None;
  FeeManager := None;
  MessageExporter := None;
  exec_UniversalAliases := λ _, false;
  CallDispatcher := "RuntimeCall";
  SafeCallFilter := λ _, true;
  exec_Aliasers := λ _, false
|}.

Definition mock_xcmp_queue_config : XcmpQueueConfig := {|
  xq_XcmExecutor := mock_executor;
  ChannelInfo := "ParachainSystem";
  VersionWrapper := None;
  xq_ExecuteOverweightOrigin := EnsureRoot_origin;
  ControllerOrigin := EnsureRoot_origin;
  ControllerOriginConverter := Mock.convert_origin is_system;
  PriceForSiblingDelivery := None
|}.

Definition mock_ParaAMmr : MmrConfig := {|
  mmr_INDEXING_PREFIX := "para_a_mmr";
  mmr_OnNewRoot := "OnNewRootSatisfier";
  mmr_Hashing := "Keccak256";
  mmr_LeafData := "MsgStufferA"
|}.
Definition mock_ParaBMmr : MmrConfig := {|
  mmr_INDEXING_PREFIX := "para_b_mmr";
  mmr_OnNewRoot := "OnNewRootSatisfier";
  mmr_Hashing := "Keccak256";
  mmr_LeafData := "MsgStufferB"
|}.

(** ** The mock of the template pallet *)

(** [construct_runtime!]. *)
Definition template_construct_runtime : list string := ["System"; "TemplateModule"].

Definition template_system_config : MockSystemConfig := {|
  mock_BaseCallFilter := λ _, true;
  mock_BlockWeights := None;
  mock_BlockLength := None;
  mock_DbWeight := None;
  mock_BlockHashCount := #250;
  mock_Version := None;
  mock_AccountData := None;
  mock_OnNewAccount := None;
  mock_OnKilledAccount := None;
  mock_SS58Prefix := #42;
  mock_OnSetCode := None;
  mock_MaxConsumers := #16
|}.
End mock.

(** ** What the mock lets through *)

Section guarantees.
Context {XT : XcmTypes} {XB : XcmBuilder} {XA : XcmAssets} {WC : WeightConstants} {FL : FeeLib}.

(** XCM cannot be tested in the mock: its executor lets no message pass and gives no
    origin a right to dispatch; the only account that assets can go to is the relay
    chain's, and only siblings can be written to. *)
Theorem mock_executes_nothing `{!ConverterLaws} `{!BarrierLaws} `{!AssetLaws} `{!RouterLaws} l k m w c r b b' a :
  exec_Barrier mock_executor l m w c = false ∧
  OriginConverter mock_executor l k = Err l ∧
  (AssetTransactor_deposit mock_executor a l b = Some b' → is_parent l = true) ∧
  (XcmSender mock_executor l m = Ok r → ∃ id, r = Xcmp id ∧ sibling l = Some id).
Proof.
  split_and!.
  - apply not_true_iff_false. cbn. intros (? & []%elem_of_nil & _)%any_pass.
  - apply first_origin_nil.
  - cbn. unfold mock_deposit. rewrite adapter_deposit_spec.
    intros (n & _ & (acc & Hacc & _)%bind_Some)%bind_Some. unfold Mock.LocationToAccountId in Hacc.
    rewrite first_location_cons, parent_spec, first_location_nil in Hacc.
    by destruct (is_parent l).
  - cbn. unfold mock_XcmRouter. rewrite first_router_cons, first_router_nil.
    destruct (XcmpQueue_router l m) as [r'|[]] eqn:Hx; [|done..]. intros [= ->].
    apply xcmp_route in Hx as (id & ? & ->)%fmap_Some. by exists id.
Qed.

(** The mock's XCMP queue obeys system parachains, the runtime's nobody but root itself:
    an origin converted for the control of the queue is entitled to it in the mock and
    never in the runtime. *)
Theorem queue_control_differs `{!ConverterLaws} `{!LocalOriginLaws} is_system parachain_id l k o :
  (ControllerOriginConverter (mock_xcmp_queue_config is_system) l k = Ok o →
     ControllerOrigin (mock_xcmp_queue_config is_system) o = true) ∧
  (ControllerOriginConverter (xcmp_queue_config parachain_id) l k = Ok o →
     ControllerOrigin (xcmp_queue_config parachain_id) o = false).
Proof.
  split; cbn.
  - intros Ho. apply (proj1 (Mock.superuser_only_in_mock is_system l k)) in Ho as [-> _].
    by apply ensure_root_spec.
  - rewrite dispatch_origin_spec. intros Ho. apply not_true_iff_false. rewrite ensure_root_spec.
    intros ->. by destruct k; repeat case_match.
Qed.
End guarantees.
