(* ===== verification/NodeCli.v ===== *)
(** * The node's command line interface

    [node/src/cli.rs] and the trait implementations of [node/src/command.rs]: the
    sub-commands and options, what the two command line types say about themselves,
    and the relay chain's configuration, which is derived from the parachain's. The
    option groups of the SDK are abstract types. *)
From S2P Require Import Prelude Words RuntimeConfig ChainSpec.

(** ** Interfaces of the SDK *)

(** A path, by its components. *)
Abbreviation Path := (list string).

(** [sc_service::Role]. *)
Inductive Role : Set := Full | Authority.

Definition is_authority (r : Role) : bool :=
  match r with Authority => true | Full => false end.

(** The option groups of [sc_cli] and the parts of [sc_service::Configuration] that
    are only passed on, and the error types of both. *)
Class CliLib := {
  SdkError : Type;
  TelemetryError : Type;
  RelayChainError : Type;
  OtherCliError : Type;
  SharedParams : Type;
  ImportParams : Type;
  NetworkParams : Type;
  KeystoreParams : Type;
  SocketAddr : Type;
  PrometheusConfig : Type;
  TransactionPoolOptions : Type;
  RpcMethods : Type;
  TelemetryEndpoints : Type;
  NetworkConfiguration : Type;
  DatabaseSource : Type;
  WasmExecutionMethod : Type;
  Registry : Type;
  TokioHandle : Type;
  (** [SharedParams::base_path]: the error is that of the file system. *)
  SharedParams_base_path : SharedParams → result OtherCliError (option Path);
  (** [DatabaseSource::path]. *)
  database_path : DatabaseSource → option Path;
  (** [TelemetryEndpoints::is_empty]. *)
  endpoints_empty : TelemetryEndpoints → bool;
  (** [SubstrateCli::executable_name], for each of the two types. *)
  executable_name : string;
}.

Section cli.
Context {AL : AccountLib} {CL : CliLib}.

(** [sc_service::Error] and [sc_cli::Error], by what they are made from. *)
Inductive ServiceError : Type :=
| Telemetry (e : TelemetryError)
| Application (e : RelayChainError)
| Sdk (e : SdkError).
Inductive CliError : Type :=
| Input (msg : string)
| Service (e : ServiceError)
| OtherCli (e : OtherCliError).

(** [OffchainWorkerConfig]. *)
Record OffchainWorkerConfig : Type := mkOffchain { enabled : bool; indexing_enabled : bool }.

(** [sc_service::Configuration], the fields the node reads. *)
Record Configuration : Type := mkConfiguration {
  chain_spec : ChainSpec;
  config_base_path : Path;
  network : NetworkConfiguration;
  database : DatabaseSource;
  tokio_handle : TokioHandle;
  role_of : Role;
  config_telemetry_endpoints : option TelemetryEndpoints;
  config_heap_pages : option u64;
  wasm_method : WasmExecutionMethod;
  config_max_runtime_instances : u64;
  runtime_cache_size : u8;
  config_transaction_pool : TransactionPoolOptions;
  prometheus_registry : option Registry;
  offchain_worker : OffchainWorkerConfig;
  config_force_authoring : bool
}.

(** ** Configuration traits *)

(** The methods of the trait [CliConfiguration]. *)
Record CliConfiguration : Type := mkCliConfiguration {
  shared_params : SharedParams;
  import_params : option ImportParams;
  network_params : option NetworkParams;
  keystore_params : option KeystoreParams;
  base_path : result CliError (option Path);
  rpc_addr : u16 → result CliError (option SocketAddr);
  prometheus_config : u16 → ChainSpec → result CliError (option PrometheusConfig);
  init : string → string → Configuration → run (result CliError ());
  chain_id : bool → result CliError string;
  role : bool → result CliError Role;
  transaction_pool : bool → result CliError TransactionPoolOptions;
  trie_cache_maximum_size : result CliError (option u64);
  rpc_methods : result CliError RpcMethods;
  rpc_max_connections : result CliError u32;
  rpc_cors : bool → result CliError (option (list string));
  default_heap_pages : result CliError (option u64);
  force_authoring : result CliError bool;
  disable_grandpa : result CliError bool;
  max_runtime_instances : result CliError (option u64);
  announce_block : result CliError bool;
  telemetry_endpoints_of : ChainSpec → result CliError (option TelemetryEndpoints);
  node_name : result CliError string
}.

(** [RelayChainCli]; [base] is the [RunCmd] inside the parsed [polkadot_cli::RunCmd],
    through its own [CliConfiguration]. *)
Record RelayChainCli : Type := mkRelayChainCli {
  base : CliConfiguration;
  cli_chain_id : option string;
  cli_base_path : option Path
}.

(** [impl CliConfiguration for RelayChainCli]: [base_path], [chain_id] and [init] are
    its own, everything else is the [RunCmd]'s. *)
Definition RelayChainCli_configuration (self : RelayChainCli) : CliConfiguration := {|
  shared_params := shared_params (base self);
  import_params := import_params (base self);
  network_params := network_params (base self);
  keystore_params := keystore_params (base self);
  base_path :=
    match SharedParams_base_path (shared_params (base self)) with
    | Err e => Err (OtherCli e)
    | Ok (Some p) => Ok (Some p)
    | Ok None => Ok (cli_base_path self)
    end;
  rpc_addr := λ default_listen_port, rpc_addr (base self) default_listen_port;
  prometheus_config := λ default_listen_port chain_spec,
    prometheus_config (base self) default_listen_port chain_spec;
  init := λ _support_url _impl_version _config, Panic;
  chain_id := λ is_dev,
    match chain_id (base self) is_dev with
    | Err e => Err e
    | Ok chain_id =>
        Ok (if decide (chain_id = empty_id) then default empty_id (cli_chain_id self) else chain_id)
    end;
  role := λ is_dev, role (base self) is_dev;
  transaction_pool := λ is_dev, transaction_pool (base self) is_dev;
  trie_cache_maximum_size := trie_cache_maximum_size (base self);
  rpc_methods := rpc_methods (base self);
  rpc_max_connections := rpc_max_connections (base self);
  rpc_cors := λ is_dev, rpc_cors (base self) is_dev;
  default_heap_pages := default_heap_pages (base self);
  force_authoring := force_authoring (base self);
  disable_grandpa := disable_grandpa (base self);
  max_runtime_instances := max_runtime_instances (base self);
  announce_block := announce_block (base self);
  telemetry_endpoints_of := λ chain_spec, telemetry_endpoints_of (base self) chain_spec;
  node_name := node_name (base self)
|}.

(** [DefaultConfigurationValues] of [RelayChainCli]. *)
Definition p2p_listen_port : u16 := #30334.
Definition rpc_listen_port : u16 := #9945.
Definition prometheus_listen_port : u16 := #9616.

(** [Extensions::try_get]: the extension found in a specification. *)
Context (get_extension : ChainSpec → option Extensions).
Definition Extensions_try_get (spec : ChainSpec) : option Extensions := get_extension spec.

(** [RelayChainCli::new]; the parser of the relay chain's arguments is [clap]'s. *)
Context (parse_from : list string → CliConfiguration).
Definition RelayChainCli_new (para_config : Configuration) (relay_chain_args : list string) :
    RelayChainCli :=
  let extension := Extensions_try_get (chain_spec para_config) in
  let chain_id := relay_chain <$> extension in
  let base_path := config_base_path para_config ++ ["polkadot"] in
  {| cli_base_path := Some base_path;
     cli_chain_id := chain_id;
     base := parse_from relay_chain_args |}.

(** The methods of the trait [SubstrateCli]. *)
Record SubstrateCli : Type := mkSubstrateCli {
  impl_name : string;
  impl_version : string;
  description : string;
  author : string;
  support_url : string;
  copyright_start_year : Z;
  cli_load_spec : string → result string ChainSpec
}.

(** Values of the build: [SUBSTRATE_CLI_IMPL_VERSION] and [CARGO_PKG_AUTHORS]. *)
Context (IMPL_VERSION PKG_AUTHORS : string).
(** The compiled runtime, the XCM version and [ChainSpec::from_json_file]. *)
Context (WASM_BINARY : option bytes) (SAFE_XCM_VERSION : u32).
Context (from_json_file : string → result string ChainSpec).
(** [polkadot_cli::Cli::from_iter] on the given arguments, then [load_spec]. *)
Context (polkadot_load_spec : list string → string → result string ChainSpec).

(** A line break. *)
Definition newline : string := String (Ascii.ascii_of_nat 10) EmptyString.

Definition cli_description : string :=
  String.concat EmptyString
    ["Parachain Collator Template"; newline; newline;
     "The command-line arguments provided first will be ";
     "passed to the parachain node, while the arguments provided after -- will be passed ";
     "to the relay chain node."; newline; newline;
     executable_name; " <parachain-args> -- <relay-chain-args>"].

(** [impl SubstrateCli for Cli]. *)
Definition Cli_SubstrateCli : SubstrateCli := {|
  impl_name := "Parachain Collator Template";
  impl_version := IMPL_VERSION;
  description := cli_description;
  author := PKG_AUTHORS;
  support_url := "https://github.com/paritytech/cumulus/issues/new";
  copyright_start_year := 2020;
  cli_load_spec := load_spec WASM_BINARY SAFE_XCM_VERSION from_json_file
|}.

(** [impl SubstrateCli for RelayChainCli]. *)
Definition RelayChainCli_SubstrateCli : SubstrateCli := {|
  impl_name := "Parachain Collator Template";
  impl_version := IMPL_VERSION;
  description := cli_description;
  author := PKG_AUTHORS;
  support_url := "https://github.com/paritytech/cumulus/issues/new";
  copyright_start_year := 2020;
  cli_load_spec := polkadot_load_spec [executable_name]
|}.

(** The parachain id that [run] starts the node with. *)
Definition node_para_id (config : Configuration) : result CliError u32 :=
  match ext_para_id <$> Extensions_try_get (chain_spec config) with
  | Some id => Ok id
  | None => Err (Input "Could not find parachain ID in chain-spec.")
  end.

(** ** Guarantees *)

(** The node, its genesis and the relay chain side agree on both built-in chains:
    the node runs the parachain id of the genesis, 1000, and without a chain or base
    path of its own the relay chain runs [rococo-local] in the directory [polkadot]
    below the parachain's; options given on the command line win, and their errors
    are passed on. *)
Theorem relay_settings id spec g config args is_dev :
  id ∈ builtin_ids → cli_load_spec Cli_SubstrateCli id = Ok spec →
  genesis_config spec = Ret g → chain_spec config = spec →
  get_extension spec = Some (extensions spec) →
  let cli := RelayChainCli_configuration (RelayChainCli_new config args) in
  node_para_id config = Ok (parachain_id g) ∧
  (∀ c, chain_id (parse_from args) is_dev = Ok c →
    chain_id cli is_dev = Ok (if decide (c = empty_id) then "rococo-local" else c)) ∧
  (∀ p, SharedParams_base_path (shared_params (parse_from args)) = Ok p →
    base_path cli = Ok (Some (default (config_base_path config ++ ["polkadot"]) p))) ∧
  (∀ e, chain_id (parse_from args) is_dev = Err e → chain_id cli is_dev = Err e).
Proof.
  intros Hid Hspec%load_builtin Hg Hconf Hext cli; [|done].
  assert (extensions spec = mkExtensions "rococo-local" #1000 ∧
    genesis_config spec = default_genesis WASM_BINARY SAFE_XCM_VERSION) as [He Hd].
  { by destruct Hspec as [->| ->]. }
  rewrite Hd in Hg. rewrite He in Hext. split_and!.
  - unfold node_para_id, Extensions_try_get. rewrite Hconf, Hext. simpl. f_equal.
    symmetry. by eapply default_genesis_id.
  - intros c Hc. unfold cli; simpl. unfold Extensions_try_get. by rewrite Hc, Hconf, Hext.
  - intros p Hp. unfold cli; simpl. rewrite Hp. by destruct p.
  - intros e Hc. unfold cli; simpl. by rewrite Hc.
Qed.
End cli.

#[global] Arguments Configuration {AL CL}.

(** ** Witnesses *)

(** Every option group is empty. *)
#[export] Instance td_cli : CliLib := {|
  SdkError := ();
  TelemetryError := ();
  RelayChainError := ();
  OtherCliError := ();
  SharedParams := option Path;
  ImportParams := ();
  NetworkParams := ();
  KeystoreParams := ();
  SocketAddr := ();
  PrometheusConfig := ();
  TransactionPoolOptions := ();
  RpcMethods := ();
  TelemetryEndpoints := list string;
  NetworkConfiguration := ();
  DatabaseSource := option Path;
  WasmExecutionMethod := ();
  Registry := ();
  TokioHandle := ();
  SharedParams_base_path := Ok;
  database_path := id;
  endpoints_empty := λ l, bool_decide (l = []);
  executable_name := "parachain-template-node"
|}.

Definition td_run_cmd : CliConfiguration := {|
  shared_params := None;
  import_params := None;
  network_params := None;
  keystore_params := None;
  base_path := Ok None;
  rpc_addr := λ _, Ok None;
  prometheus_config := λ _ _, Ok None;
  init := λ _ _ _, Ret (Ok tt);
  chain_id := λ _, Ok empty_id;
  role := λ _, Ok Full;
  transaction_pool := λ _, Ok tt;
  trie_cache_maximum_size := Ok None;
  rpc_methods := Ok tt;
  rpc_max_connections := Ok #100;
  rpc_cors := λ _, Ok None;
  default_heap_pages := Ok None;
  force_authoring := Ok false;
  disable_grandpa := Ok false;
  max_runtime_instances := Ok None;
  announce_block := Ok true;
  telemetry_endpoints_of := λ _, Ok None;
  node_name := Ok "node"
|}.

(** A node that runs the given chain, with the given role and options. *)
Definition td_configuration (spec : ChainSpec) (r : Role) (endpoints : option (list string))
    (offchain : OffchainWorkerConfig) : Configuration := {|
  chain_spec := spec;
  config_base_path := ["data"];
  network := tt;
  database := Some ["data"; "db"];
  tokio_handle := tt;
  role_of := r;
  config_telemetry_endpoints := endpoints;
  config_heap_pages := None;
  wasm_method := tt;
  config_max_runtime_instances := #8;
  runtime_cache_size := #2;
  config_transaction_pool := tt;
  prometheus_registry := None;
  offchain_worker := offchain;
  config_force_authoring := false
|}.

Lemma relay_settings_witness :
  chain_id (RelayChainCli_configuration (RelayChainCli_new (λ spec, Some (extensions spec))
    (λ _, td_run_cmd) (td_configuration (development_config (Some [ #1]) #3) Full None
      (mkOffchain true false)) [])) false =
  Ok "rococo-local".
Proof.
  destruct (relay_settings (λ spec, Some (extensions spec)) (λ _, td_run_cmd) "1.0" "authors"
    (Some [ #1]) #3 Err "dev" (development_config (Some [ #1]) #3) _
    (td_configuration (development_config (Some [ #1]) #3) Full None
      (mkOffchain true false)) [] false
    ltac:(apply list_elem_of_here) eq_refl
    (default_genesis_Ret _ _ [ #1] _ _ eq_refl td_dev_keys) eq_refl eq_refl) as (_ & Hid & _).
  exact (Hid empty_id eq_refl).
Defined.
