(* ===== verification/NodeSdk.v ===== *)
(** * The node's services

    The objects of the SDK that the node puts together, as abstract types, and the
    calls it makes on them, as requests of [Conc] with typed answers. A closure that
    the node hands to the SDK is represented by what it captures. *)
From S2P Require Import Prelude Words RuntimeConfig ChainSpec NodeCli.

(** ** Objects *)

(** The handles of [sc_service], [sc_network], [sc_telemetry], [cumulus_client_*] and
    so on, and their pure accessors. *)
Class NodeLib `{!AccountLib} `{!CliLib} := {
  Client : Type;
  Backend : Type;
  KeystoreContainer : Type;
  Keystore : Type;
  TaskManager : Type;
  TelemetryWorker : Type;
  TelemetryWorkerHandle : Type;
  TelemetryObject : Type;
  TelemetryHandle : Type;
  HeapAllocStrategy : Type;
  WasmExecutor : Type;
  ParachainExecutor : Type;
  Pool : Type;
  BlockImport : Type;
  ImportQueue : Type;
  ImportQueueService : Type;
  SlotDuration : Type;
  SlotProportion : Type;
  NetConfig : Type;
  CollatorOptions : Type;
  HwBench : Type;
  RelayChainInterface : Type;
  CollatorPair : Type;
  Network : Type;
  SystemRpcTx : Type;
  TxHandlerController : Type;
  NetworkStarter : Type;
  SyncService : Type;
  OffchainStorage : Type;
  OverseerHandle : Type;
  ProposerFactory : Type;
  Consensus : Type;
  Timestamp : Type;
  Slot : Type;
  RelayHash : Type;
  ValidationData : Type;
  ParachainInherent : Type;
  worker_handle : TelemetryWorker → TelemetryWorkerHandle;
  telemetry_handle : TelemetryObject → TelemetryHandle;
  DEFAULT_HEAP_ALLOC_STRATEGY : HeapAllocStrategy;
  HeapAllocStrategy_Static : u32 → HeapAllocStrategy;
  (** [WasmExecutor::builder]: execution method, on-chain and off-chain heap
      strategies, runtime instances and cache size. *)
  WasmExecutor_build : WasmExecutionMethod → HeapAllocStrategy → HeapAllocStrategy → u64 → u8 →
    WasmExecutor;
  new_with_wasm_executor : WasmExecutor → ParachainExecutor;
  keystore : KeystoreContainer → Keystore;
  import_queue_service : ImportQueue → ImportQueueService;
  offchain_storage : Backend → option OffchainStorage;
  FullNetworkConfiguration_new : NetworkConfiguration → NetConfig;
  prepare_node_config : Configuration → Configuration;
  check_hardware : HwBench → bool;
  (** [SlotProportion::new(n as f32 / d as f32)]. *)
  SlotProportion_new : Z → Z → SlotProportion;
  from_timestamp_and_slot_duration : Timestamp → SlotDuration → Slot;
  (** [sp_mmr_primitives::INDEXING_PREFIX]. *)
  INDEXING_PREFIX : bytes;
}.

Section sdk.
Context {AL : AccountLib} {CL : CliLib} {NL : NodeLib}.

(** ** Parameters of the calls *)

Record OffchainWorkerOptions : Type := mkOffchainWorkerOptions {
  runtime_api_provider : Client;
  ow_keystore : option Keystore;
  offchain_db : option OffchainStorage;
  ow_transaction_pool : option Pool;
  network_provider : Network;
  is_validator : bool;
  enable_http_requests : bool
}.

(** Futures handed to a spawn handle. *)
Inductive Job : Type :=
| TelemetryWorker_run (worker : TelemetryWorker)
| OffchainWorkers_run (options : OffchainWorkerOptions) (client : Client) (spawner : TaskManager)
| MmrGadget_start (client : Client) (backend : Backend) (indexing_prefix : bytes)
| initialize_hwbench_telemetry (handle : TelemetryHandle) (hwbench : HwBench).

(** [spawn_handle().spawn] and [spawn_essential_handle().spawn_blocking]. *)
Inductive SpawnKind : Set := Spawned | EssentialBlocking.

(** The inherent data closure of the import queue captures the slot duration. *)
Record ImportQueueParams : Type := mkImportQueueParams {
  iq_block_import : BlockImport;
  iq_client : Client;
  iq_create_inherent_data_providers : SlotDuration;
  iq_registry : option Registry;
  iq_spawner : TaskManager;
  iq_telemetry : option TelemetryHandle
}.

Inductive CollatorSybilResistance : Set := Resistant | Unresistant.

Record BuildNetworkParams : Type := mkBuildNetworkParams {
  bn_parachain_config : Configuration;
  bn_net_config : NetConfig;
  bn_client : Client;
  bn_transaction_pool : Pool;
  bn_para_id : u32;
  bn_spawn_handle : TaskManager;
  bn_relay_chain_interface : RelayChainInterface;
  bn_import_queue : ImportQueue;
  bn_sybil_resistance_level : CollatorSybilResistance
}.

(** The RPC builder captures the client, the pool and the backend. *)
Record RpcBuilder : Type := mkRpcBuilder {
  rb_client : Client;
  rb_pool : Pool;
  rb_backend : Backend
}.

Record SpawnTasksParams : Type := mkSpawnTasksParams {
  st_rpc_builder : RpcBuilder;
  st_client : Client;
  st_transaction_pool : Pool;
  st_task_manager : TaskManager;
  st_config : Configuration;
  st_keystore : Keystore;
  st_backend : Backend;
  st_network : Network;
  st_sync_service : SyncService;
  st_system_rpc_tx : SystemRpcTx;
  st_tx_handler_controller : TxHandlerController;
  st_telemetry : option TelemetryObject
}.

(** The inherent data closure of the consensus captures the relay chain interface,
    the parachain id and the slot duration. *)
Record BuildAuraConsensusParams : Type := mkBuildAuraConsensusParams {
  ba_proposer_factory : ProposerFactory;
  ba_create_inherent_data_providers : RelayChainInterface * u32 * SlotDuration;
  ba_block_import : BlockImport;
  ba_para_client : Client;
  ba_sync_oracle : SyncService;
  ba_keystore : Keystore;
  ba_force_authoring : bool;
  ba_slot_duration : SlotDuration;
  ba_block_proposal_slot_portion : SlotProportion;
  ba_max_block_proposal_slot_portion : option SlotProportion;
  ba_telemetry : option TelemetryHandle
}.

(** [announce_block] captures the sync service; durations are in seconds. *)
Record StartCollatorParams : Type := mkStartCollatorParams {
  sc_para_id : u32;
  sc_block_status : Client;
  sc_announce_block : SyncService;
  sc_client : Client;
  sc_task_manager : TaskManager;
  sc_relay_chain_interface : RelayChainInterface;
  sc_spawner : TaskManager;
  sc_parachain_consensus : Consensus;
  sc_import_queue : ImportQueueService;
  sc_collator_key : CollatorPair;
  sc_relay_chain_slot_duration : u64;
  sc_recovery_handle : OverseerHandle;
  sc_sync_service : SyncService
}.

Record StartFullNodeParams : Type := mkStartFullNodeParams {
  sf_client : Client;
  sf_announce_block : SyncService;
  sf_task_manager : TaskManager;
  sf_para_id : u32;
  sf_relay_chain_interface : RelayChainInterface;
  sf_relay_chain_slot_duration : u64;
  sf_import_queue : ImportQueueService;
  sf_recovery_handle : OverseerHandle;
  sf_sync_service : SyncService
}.

(** ** Calls *)

Inductive NodeReq : Type → Type :=
| TelemetryWorker_new (buffer_size : u64) : NodeReq (result TelemetryError TelemetryWorker)
| new_telemetry (worker : TelemetryWorkerHandle) (endpoints : TelemetryEndpoints) :
    NodeReq TelemetryObject
| new_full_parts (config : Configuration) (telemetry : option TelemetryHandle)
    (executor : ParachainExecutor) :
    NodeReq (result SdkError (Client * Backend * KeystoreContainer * TaskManager))
| spawn_job (task_manager : TaskManager) (kind : SpawnKind) (name : string)
    (group : option string) (job : Job) : NodeReq ()
| BasicPool_new_full (options : TransactionPoolOptions) (is_validator : bool)
    (registry : option Registry) (spawner : TaskManager) (client : Client) : NodeReq Pool
| ParachainBlockImport_new (client : Client) (backend : Backend) : NodeReq BlockImport
| aura_slot_duration (client : Client) : NodeReq (result SdkError SlotDuration)
| aura_import_queue (params : ImportQueueParams) : NodeReq (result SdkError ImportQueue)
| build_relay_chain_interface (polkadot_config parachain_config : Configuration)
    (telemetry : option TelemetryWorkerHandle) (task_manager : TaskManager)
    (collator_options : CollatorOptions) (hwbench : option HwBench) :
    NodeReq (result RelayChainError (RelayChainInterface * option CollatorPair))
| build_network (params : BuildNetworkParams) :
    NodeReq (result SdkError
      (Network * SystemRpcTx * TxHandlerController * NetworkStarter * SyncService))
| spawn_tasks (params : SpawnTasksParams) : NodeReq (result SdkError ())
| print_hwbench (hwbench : HwBench) : NodeReq ()
| warn_hardware : NodeReq ()
| overseer_handle (relay : RelayChainInterface) : NodeReq (result RelayChainError OverseerHandle)
| ProposerFactory_with_proof_recording (spawner : TaskManager) (client : Client) (pool : Pool)
    (registry : option Registry) (telemetry : option TelemetryHandle) : NodeReq ProposerFactory
| AuraConsensus_build (params : BuildAuraConsensusParams) : NodeReq Consensus
| start_collator (params : StartCollatorParams) : NodeReq (result SdkError ())
| start_full_node (params : StartFullNodeParams) : NodeReq (result SdkError ())
| start_network (starter : NetworkStarter) : NodeReq ()
| from_system_time : NodeReq Timestamp
| ParachainInherentData_create_at (relay_parent : RelayHash) (relay : RelayChainInterface)
    (validation_data : ValidationData) (para_id : u32) : NodeReq (option ParachainInherent).
End sdk.
