(* ===== verification/NodeDouble.v ===== *)
(** * Concrete services

    An instance of the node's interfaces in which every object is trivial, and an
    oracle that lets every call succeed. *)
From S2P Require Import Prelude Words RuntimeConfig ChainSpec NodeCli NodeSdk Conc.

#[export] Instance td_node : NodeLib := {|
  Client := ();
  Backend := ();
  KeystoreContainer := ();
  Keystore := ();
  TaskManager := ();
  TelemetryWorker := ();
  TelemetryWorkerHandle := ();
  TelemetryObject := ();
  TelemetryHandle := ();
  HeapAllocStrategy := option u32;
  WasmExecutor := option u32;
  ParachainExecutor := option u32;
  Pool := ();
  BlockImport := ();
  ImportQueue := ();
  ImportQueueService := ();
  SlotDuration := u64;
  SlotProportion := Z * Z;
  NetConfig := ();
  CollatorOptions := ();
  HwBench := bool;
  RelayChainInterface := ();
  CollatorPair := ();
  Network := ();
  SystemRpcTx := ();
  TxHandlerController := ();
  NetworkStarter := ();
  SyncService := ();
  OffchainStorage := ();
  OverseerHandle := ();
  ProposerFactory := ();
  Consensus := ();
  Timestamp := u64;
  Slot := u64;
  RelayHash := ();
  ValidationData := ();
  ParachainInherent := ();
  worker_handle := id;
  telemetry_handle := id;
  DEFAULT_HEAP_ALLOC_STRATEGY := None;
  HeapAllocStrategy_Static := Some;
  WasmExecutor_build := λ _ on_chain _ _ _, on_chain;
  new_with_wasm_executor := id;
  keystore := id;
  import_queue_service := id;
  offchain_storage := Some;
  FullNetworkConfiguration_new := id;
  prepare_node_config := id;
  check_hardware := id;
  SlotProportion_new := pair;
  from_timestamp_and_slot_duration := λ t d, #(uval t / uval d);
  INDEXING_PREFIX := [ #109; #109; #114]
|}.

(** Every call succeeds; the collator key is there or not. *)
Definition td_node_orc (key : option ()) (_ : list (event NodeReq)) (B : Type) (q : NodeReq B) : B :=
  match q in NodeReq B return B with
  | TelemetryWorker_new _ => Ok tt
  | new_telemetry _ _ => tt
  | new_full_parts _ _ _ => Ok (tt, tt, tt, tt)
  | spawn_job _ _ _ _ _ => tt
  | BasicPool_new_full _ _ _ _ _ => tt
  | ParachainBlockImport_new _ _ => tt
  | aura_slot_duration _ => Ok #12000
  | aura_import_queue _ => Ok tt
  | build_relay_chain_interface _ _ _ _ _ _ => Ok (tt, key)
  | build_network _ => Ok (tt, tt, tt, tt, tt)
  | spawn_tasks _ => Ok tt
  | print_hwbench _ => tt
  | warn_hardware => tt
  | overseer_handle _ => Ok tt
  | ProposerFactory_with_proof_recording _ _ _ _ _ => tt
  | AuraConsensus_build _ => tt
  | start_collator _ => Ok tt
  | start_full_node _ => Ok tt
  | start_network _ => tt
  | from_system_time => #0
  | ParachainInherentData_create_at _ _ _ _ => Some tt
  end.

(** A specification whose runtime was not built. *)
Definition td_spec : ChainSpec :=
  mkChainSpec "Test" "test" Local Panic [] None None None None (mkExtensions "rococo-local" #1000).

(** A collator with telemetry, off-chain workers and indexing. *)
Definition td_collator : Configuration :=
  td_configuration td_spec Authority (Some ["wss://telemetry"]) (mkOffchain true true).
