(* ===== verification/Rpc.v ===== *)
(** * The node's RPC

    [node/src/rpc.rs]: the RPC extensions of the node, merged from three modules of
    the SDK. *)
From S2P Require Import Prelude Words RuntimeConfig ChainSpec NodeCli NodeSdk NodeDouble.

(** ** Interface of the SDK *)

(** [jsonrpsee::RpcModule] and the modules of the SDK. *)
Class RpcLib `{!AccountLib} `{!CliLib} `{!NodeLib} := {
  DenyUnsafe : Type;
  RpcModule : Type;
  RegisterMethodError : Type;
  RpcModule_new : RpcModule;
  method_names : RpcModule → list string;
  merge : RpcModule → RpcModule → result RegisterMethodError RpcModule;
  System_into_rpc : Client → Pool → DenyUnsafe → RpcModule;
  TransactionPayment_into_rpc : Client → RpcModule;
  Mmr_into_rpc : Client → OffchainStorage → RpcModule;
}.

(** "Combines two RpcModules; fails if a method is already registered". *)
Class RpcLaws `{RpcLib} : Prop := {
  new_names : method_names RpcModule_new = [];
  merge_disjoint : ∀ m m', (∀ n, n ∈ method_names m → n ∉ method_names m') →
    ∃ m'', merge m m' = Ok m'' ∧ method_names m'' ≡ₚ method_names m ++ method_names m';
  merge_clash : ∀ m m' n, n ∈ method_names m → n ∈ method_names m' → ∃ e, merge m m' = Err e;
}.

Section rpc.
Context {AL : AccountLib} {CL : CliLib} {NL : NodeLib} {RL : RpcLib}.

(** [Box<dyn Error>], by what it was made from. *)
Inductive BoxError : Type :=
| Register (e : RegisterMethodError)
| Text (msg : string).

(** [FullDeps]. *)
Record FullDeps : Type := mkFullDeps {
  fd_client : Client;
  fd_pool : Pool;
  fd_deny_unsafe : DenyUnsafe;
  fd_backend : Backend
}.

(** [r?] with an error that is boxed. *)
Definition rpc_bind {E' A B} (f : E' → BoxError) (r : result E' A) (k : A → result BoxError B) :
    result BoxError B :=
  match r with Ok a => k a | Err e => Err (f e) end.

(** [create_full]. *)
Definition create_full (deps : FullDeps) : result BoxError RpcModule :=
  let module := RpcModule_new in
  let '(mkFullDeps client pool deny_unsafe backend) := deps in
  rpc_bind Register (merge module (System_into_rpc client pool deny_unsafe)) (λ module,
  rpc_bind Register (merge module (TransactionPayment_into_rpc client)) (λ module,
  rpc_bind Text (match offchain_storage backend with
                 | Some storage => Ok storage
                 | None => Err "Backend doesn't provide the required offchain storage"
                 end) (λ storage,
  rpc_bind Register (merge module (Mmr_into_rpc client storage)) (λ module,
  Ok module)))).

(** The closure [rpc_builder] of [start_node_impl], by what it captures. *)
Definition rpc_builder_call (captured : RpcBuilder) (deny_unsafe : DenyUnsafe) :
    result BoxError RpcModule :=
  let deps := {|
    fd_client := rb_client captured;
    fd_pool := rb_pool captured;
    fd_deny_unsafe := deny_unsafe;
    fd_backend := rb_backend captured |} in
  create_full deps.

(** ** Guarantees *)

(** The methods of the first two modules, and of all three. *)
Definition chain_methods (deps : FullDeps) : list string :=
  method_names (System_into_rpc (fd_client deps) (fd_pool deps) (fd_deny_unsafe deps)) ++
  method_names (TransactionPayment_into_rpc (fd_client deps)).

Lemma merge_names `{!RpcLaws} m m' m'' :
  merge m m' = Ok m'' → method_names m'' ≡ₚ method_names m ++ method_names m' ∧
    ∀ n, n ∈ method_names m → n ∉ method_names m'.
Proof.
  intros Hm. assert (∀ n, n ∈ method_names m → n ∉ method_names m') as Hdisj.
  { intros n H1 H2. destruct (merge_clash _ _ _ H1 H2). congruence. }
  split; [|done]. destruct (merge_disjoint _ _ Hdisj) as (m3 & Hm3 & Hperm). congruence.
Qed.

(** The RPC of a node offers exactly the methods of the system, transaction
    payment and MMR modules, each once if each module has each of its own once; it
    cannot be built without off-chain storage, or when two modules share a method. *)
Theorem create_full_spec `{!RpcLaws} deps :
  (∀ m, create_full deps = Ok m → ∃ storage, offchain_storage (fd_backend deps) = Some storage ∧
     method_names m ≡ₚ chain_methods deps ++ method_names (Mmr_into_rpc (fd_client deps) storage)) ∧
  (offchain_storage (fd_backend deps) = None → ∃ e, create_full deps = Err e) ∧
  (∀ storage, offchain_storage (fd_backend deps) = Some storage →
     NoDup (chain_methods deps ++ method_names (Mmr_into_rpc (fd_client deps) storage)) →
     ∃ m, create_full deps = Ok m ∧ NoDup (method_names m)).
Proof.
  destruct deps as [client pool deny backend]. unfold create_full, chain_methods; simpl.
  set (sys := System_into_rpc client pool deny). set (pay := TransactionPayment_into_rpc client).
  split_and!.
  - intros m. destruct (merge RpcModule_new sys) as [m1|] eqn:H1; simpl; [|done].
    destruct (merge m1 pay) as [m2|] eqn:H2; simpl; [|done].
    destruct (offchain_storage backend) as [st|]; simpl; [|done].
    destruct (merge m2 (Mmr_into_rpc client st)) as [m3|] eqn:H3; simpl; [|done].
    intros [= <-]. exists st. split; [done|].
    apply merge_names in H1 as [P1 _]; apply merge_names in H2 as [P2 _];
      apply merge_names in H3 as [P3 _].
    rewrite new_names in P1. simpl in P1. by rewrite P3, P2, P1.
  - intros ->. destruct (merge RpcModule_new sys) as [m1|]; simpl; [|by eexists].
    destruct (merge m1 pay) as [m2|]; simpl; by eexists.
  - intros st -> Hnd. rewrite <- app_assoc in Hnd.
    pose proof Hnd as (Hns & Hs & (Hnp & Hp & Hnm)%list.NoDup_app)%list.NoDup_app.
    destruct (merge_disjoint RpcModule_new sys) as (m1 & -> & P1).
    { rewrite new_names. intros n Hn. by apply elem_of_nil in Hn. }
    rewrite new_names in P1. simpl in P1 |- *.
    destruct (merge_disjoint m1 pay) as (m2 & -> & P2).
    { intros n Hn Hn'. rewrite P1 in Hn. apply (Hs n Hn). apply elem_of_app. by left. }
    simpl. destruct (merge_disjoint m2 (Mmr_into_rpc client st)) as (m3 & -> & P3).
    { intros n Hn Hn'. rewrite P2, P1 in Hn. apply elem_of_app in Hn as [Hn|Hn].
      - apply (Hs n Hn). apply elem_of_app. by right.
      - by apply (Hp n Hn). }
    exists m3. split; [done|]. rewrite P3, P2, P1, <- app_assoc. done.
Qed.
End rpc.

(** ** Witnesses *)

(** A module is its list of methods. *)
#[export] Instance td_rpc : RpcLib := {|
  DenyUnsafe := ();
  RpcModule := list string;
  RegisterMethodError := ();
  RpcModule_new := [];
  method_names := id;
  merge := λ m m', if forallb (λ n, bool_decide (n ∉ m')) m then Ok (m ++ m') else Err tt;
  System_into_rpc := λ _ _ _, ["system_accountNextIndex"; "system_dryRun"];
  TransactionPayment_into_rpc := λ _, ["payment_queryInfo"; "payment_queryFeeDetails"];
  Mmr_into_rpc := λ _ _, ["mmr_root"; "mmr_generateProof"; "mmr_verifyProof";
    "mmr_verifyProofStateless"]
|}.

#[export] Instance td_rpc_laws : RpcLaws.
Proof.
  split; [done|..]; simpl.
  - intros m m' Hdisj. exists (m ++ m').
    rewrite (proj2 (forallb_forall _ m)); [done|].
    intros n Hn. apply bool_decide_eq_true, Hdisj. by apply list_elem_of_In.
  - intros m m' n Hn Hn'. destruct (forallb _ m) eqn:Hall; [|by eexists].
    apply (proj1 (forallb_forall _ m)) with (x := n) in Hall; [|by apply list_elem_of_In].
    by apply bool_decide_eq_true in Hall.
Qed.

Definition td_deps : FullDeps :=
  mkFullDeps (AL:=td_accounts) (CL:=td_cli) (NL:=td_node) (RL:=td_rpc) tt tt tt tt.

Lemma create_full_spec_witness :
  ∃ m, create_full td_deps = Ok m ∧ NoDup (method_names m).
Proof.
  apply (create_full_spec td_deps) with (storage := tt); [done|].
  by apply (bool_decide_unpack _).
Defined.
