(* ===== verification/Service.v ===== *)
(** * The node service

    [node/src/service.rs]: the partial components, the import queue, the consensus
    and the start of a node, each a sequential program of calls to the SDK whose
    answers are not restricted here. *)
From S2P Require Import Prelude Words RuntimeConfig ChainSpec NodeCli NodeSdk Conc.

Section service.
Context {AL : AccountLib} {CL : CliLib} {NL : NodeLib}.

(** A function of the service: no shared store and no task of its own. *)
Abbreviation node A := (prog () NodeReq Empty_set ServiceError A).

(** [PartialComponents], with [other] split into its parts. *)
Record PartialComponents : Type := mkPartialComponents {
  pc_backend : Backend;
  pc_client : Client;
  pc_import_queue : ImportQueue;
  pc_keystore_container : KeystoreContainer;
  pc_task_manager : TaskManager;
  pc_transaction_pool : Pool;
  pc_block_import : BlockImport;
  pc_telemetry : option TelemetryObject;
  pc_telemetry_worker_handle : option TelemetryWorkerHandle
}.

(** ** The import queue *)

(** The inherent data closure of the import queue. *)
Definition import_inherent_data (slot_duration : SlotDuration) : node (Slot * Timestamp) :=
  timestamp ← request from_system_time;
  let slot := from_timestamp_and_slot_duration timestamp slot_duration in
  mret (slot, timestamp).

(** [build_import_queue]. *)
Definition build_import_queue (client : Client) (block_import : BlockImport)
    (config : Configuration) (telemetry : option TelemetryHandle) (task_manager : TaskManager) :
    node ImportQueue :=
  answer ← request (aura_slot_duration client);
  slot_duration ← pmap_err answer Sdk;
  queue ← request (aura_import_queue {|
    iq_block_import := block_import;
    iq_client := client;
    iq_create_inherent_data_providers := slot_duration;
    iq_registry := prometheus_registry config;
    iq_spawner := task_manager;
    iq_telemetry := telemetry |});
  pmap_err queue Sdk.

(** ** Partial components *)

(** The telemetry worker of [new_partial], when there are endpoints. *)
Definition start_telemetry (endpoints : option TelemetryEndpoints) :
    node (option (TelemetryWorker * TelemetryObject)) :=
  match endpoints with
  | Some endpoints =>
      if negb (endpoints_empty endpoints) then
        answer ← request (TelemetryWorker_new #16);
        worker ← pmap_err answer Telemetry;
        telemetry ← request (new_telemetry (worker_handle worker) endpoints);
        mret (Some (worker, telemetry))
      else mret None
  | None => mret None
  end.

(** The heap strategy of [new_partial]: [h as _] truncates to 32 bits. *)
Definition heap_strategy (default_heap_pages : option u64) : HeapAllocStrategy :=
  match default_heap_pages with
  | None => DEFAULT_HEAP_ALLOC_STRATEGY
  | Some h => HeapAllocStrategy_Static #(uval h)
  end.

(** [new_partial]. *)
Definition new_partial (config : Configuration) : node PartialComponents :=
  telemetry ← start_telemetry (config_telemetry_endpoints config);
  let heap_pages := heap_strategy (config_heap_pages config) in
  let wasm := WasmExecutor_build (wasm_method config) heap_pages heap_pages
    (config_max_runtime_instances config) (runtime_cache_size config) in
  let executor := new_with_wasm_executor wasm in
  parts ← request (new_full_parts config ((λ t, telemetry_handle t.2) <$> telemetry) executor);
  '(client, backend, keystore_container, task_manager) ← pmap_err parts Sdk;
  let telemetry_worker_handle := (λ t, worker_handle t.1) <$> telemetry in
  telemetry ← (match telemetry with
    | Some (worker, telemetry) =>
        _ ← request (spawn_job task_manager Spawned "telemetry" None (TelemetryWorker_run worker));
        mret (Some telemetry)
    | None => mret None
    end : node (option TelemetryObject));
  transaction_pool ← request (BasicPool_new_full (config_transaction_pool config)
    (is_authority (role_of config)) (prometheus_registry config) task_manager client);
  block_import ← request (ParachainBlockImport_new client backend);
  import_queue ← build_import_queue client block_import config
    (telemetry_handle <$> telemetry) task_manager;
  mret {|
    pc_backend := backend;
    pc_client := client;
    pc_import_queue := import_queue;
    pc_keystore_container := keystore_container;
    pc_task_manager := task_manager;
    pc_transaction_pool := transaction_pool;
    pc_block_import := block_import;
    pc_telemetry := telemetry;
    pc_telemetry_worker_handle := telemetry_worker_handle |}.

(** ** Consensus *)

(** The inherent data closure of the consensus; its error is a message. *)
Definition consensus_inherent_data (captured : RelayChainInterface * u32 * SlotDuration)
    (relay_parent : RelayHash) (validation_data : ValidationData) :
    prog () NodeReq Empty_set string (Slot * Timestamp * ParachainInherent) :=
  let '(relay_chain_interface, para_id, slot_duration) := captured in
  parachain_inherent ← request (ParachainInherentData_create_at relay_parent
    relay_chain_interface validation_data para_id);
  timestamp ← request from_system_time;
  let slot := from_timestamp_and_slot_duration timestamp slot_duration in
  parachain_inherent ← pok_or parachain_inherent "Failed to create parachain inherent";
  mret (slot, timestamp, parachain_inherent).

(** The shares of a slot for proposing a block: the usual one and, when slots were
    skipped, the largest. *)
Definition block_proposal_slot_portion : Z * Z := (1, 24)%Z.
Definition max_block_proposal_slot_portion : Z * Z := (1, 16)%Z.

(** [build_consensus]. *)
Definition build_consensus (client : Client) (block_import : BlockImport)
    (prometheus_registry : option Registry) (telemetry : option TelemetryHandle)
    (task_manager : TaskManager) (relay_chain_interface : RelayChainInterface)
    (transaction_pool : Pool) (sync_oracle : SyncService) (keystore : Keystore)
    (force_authoring : bool) (para_id : u32) : node Consensus :=
  answer ← request (aura_slot_duration client);
  slot_duration ← pmap_err answer Sdk;
  proposer_factory ← request (ProposerFactory_with_proof_recording task_manager client
    transaction_pool prometheus_registry telemetry);
  let params := {|
    ba_proposer_factory := proposer_factory;
    ba_create_inherent_data_providers := (relay_chain_interface, para_id, slot_duration);
    ba_block_import := block_import;
    ba_para_client := client;
    ba_sync_oracle := sync_oracle;
    ba_keystore := keystore;
    ba_force_authoring := force_authoring;
    ba_slot_duration := slot_duration;
    ba_block_proposal_slot_portion :=
      SlotProportion_new block_proposal_slot_portion.1 block_proposal_slot_portion.2;
    ba_max_block_proposal_slot_portion := Some
      (SlotProportion_new max_block_proposal_slot_portion.1 max_block_proposal_slot_portion.2);
    ba_telemetry := telemetry |} in
  request (AuraConsensus_build params).

(** ** Starting a node *)

(** The report on the hardware benchmark. *)
Definition report_hwbench (hwbench : option HwBench) (validator : bool)
    (telemetry : option TelemetryObject) (task_manager : TaskManager) : node () :=
  match hwbench with
  | None => mret tt
  | Some hwbench =>
      _ ← request (print_hwbench hwbench);
      _ ← (if negb (check_hardware hwbench) && validator then request warn_hardware
           else mret tt : node ());
      match telemetry with
      | Some telemetry =>
          request (spawn_job task_manager Spawned "telemetry_hwbench" None
            (initialize_hwbench_telemetry (telemetry_handle telemetry) hwbench))
      | None => mret tt
      end
  end.

(** The relay chain's slots, in seconds. *)
Definition relay_chain_slot_duration : u64 := #6.

(** [start_node_impl]. *)
Definition start_node_impl (parachain_config polkadot_config : Configuration)
    (collator_options : CollatorOptions) (para_id : u32) (hwbench : option HwBench) :
    node (TaskManager * Client) :=
  let parachain_config := prepare_node_config parachain_config in
  params ← new_partial parachain_config;
  let net_config := FullNetworkConfiguration_new (network parachain_config) in
  let is_offchain_indexing_enabled := indexing_enabled (offchain_worker parachain_config) in
  let telemetry := pc_telemetry params in
  let client := pc_client params in
  let backend := pc_backend params in
  let task_manager := pc_task_manager params in
  relay ← request (build_relay_chain_interface polkadot_config parachain_config
    (pc_telemetry_worker_handle params) task_manager collator_options hwbench);
  '(relay_chain_interface, collator_key) ← pmap_err relay Application;
  let force_authoring := config_force_authoring parachain_config in
  let validator := is_authority (role_of parachain_config) in
  let prometheus_registry := prometheus_registry parachain_config in
  let transaction_pool := pc_transaction_pool params in
  let import_queue_service := import_queue_service (pc_import_queue params) in
  net ← request (build_network {|
    bn_parachain_config := parachain_config;
    bn_net_config := net_config;
    bn_client := client;
    bn_transaction_pool := transaction_pool;
    bn_para_id := para_id;
    bn_spawn_handle := task_manager;
    bn_relay_chain_interface := relay_chain_interface;
    bn_import_queue := pc_import_queue params;
    bn_sybil_resistance_level := Resistant |});
  '(network, system_rpc_tx, tx_handler_controller, network_starter, sync_service) ←
    pmap_err net Sdk;
  _ ← (if enabled (offchain_worker parachain_config) then
         request (spawn_job task_manager Spawned "offchain-workers-runner" (Some "offchain-work")
           (OffchainWorkers_run {|
             runtime_api_provider := client;
             ow_keystore := Some (keystore (pc_keystore_container params));
             offchain_db := offchain_storage backend;
             ow_transaction_pool := Some transaction_pool;
             network_provider := network;
             is_validator := is_authority (role_of parachain_config);
             enable_http_requests := false |} client task_manager))
       else mret tt : node ());
  let rpc_builder := mkRpcBuilder client transaction_pool backend in
  spawned ← request (spawn_tasks {|
    st_rpc_builder := rpc_builder;
    st_client := client;
    st_transaction_pool := transaction_pool;
    st_task_manager := task_manager;
    st_config := parachain_config;
    st_keystore := keystore (pc_keystore_container params);
    st_backend := backend;
    st_network := network;
    st_sync_service := sync_service;
    st_system_rpc_tx := system_rpc_tx;
    st_tx_handler_controller := tx_handler_controller;
    st_telemetry := telemetry |});
  _ ← pmap_err spawned Sdk;
  _ ← (if is_offchain_indexing_enabled then
         request (spawn_job task_manager EssentialBlocking "mmr_gadget" None
           (MmrGadget_start client backend INDEXING_PREFIX))
       else mret tt : node ());
  _ ← report_hwbench hwbench validator telemetry task_manager;
  let announce_block := sync_service in
  overseer ← request (overseer_handle relay_chain_interface);
  overseer_handle ← pmap_err overseer Application;
  _ ← (if validator then
         parachain_consensus ← build_consensus client (pc_block_import params) prometheus_registry
           (telemetry_handle <$> telemetry) task_manager relay_chain_interface transaction_pool
           sync_service (keystore (pc_keystore_container params)) force_authoring para_id;
         collator_key ← pindex collator_key;
         started ← request (start_collator {|
           sc_para_id := para_id;
           sc_block_status := client;
           sc_announce_block := announce_block;
           sc_client := client;
           sc_task_manager := task_manager;
           sc_relay_chain_interface := relay_chain_interface;
           sc_spawner := task_manager;
           sc_parachain_consensus := parachain_consensus;
           sc_import_queue := import_queue_service;
           sc_collator_key := collator_key;
           sc_relay_chain_slot_duration := relay_chain_slot_duration;
           sc_recovery_handle := overseer_handle;
           sc_sync_service := sync_service |});
         pmap_err started Sdk
       else
         started ← request (start_full_node {|
           sf_client := client;
           sf_announce_block := announce_block;
           sf_task_manager := task_manager;
           sf_para_id := para_id;
           sf_relay_chain_interface := relay_chain_interface;
           sf_relay_chain_slot_duration := relay_chain_slot_duration;
           sf_import_queue := import_queue_service;
           sf_recovery_handle := overseer_handle;
           sf_sync_service := sync_service |});
         pmap_err started Sdk : node ());
  _ ← request (start_network network_starter);
  mret (task_manager, client).

(** [start_parachain_node]. *)
Definition start_parachain_node (parachain_config polkadot_config : Configuration)
    (collator_options : CollatorOptions) (para_id : u32) (hwbench : option HwBench) :
    node (TaskManager * Client) :=
  start_node_impl parachain_config polkadot_config collator_options para_id hwbench.
End service.
