(* ===== verification/ServiceRules.v ===== *)
(** * Reasoning about the node service

    Rules for the sequential programs of [Service], stated on the weakest
    precondition of [Conc]: what is asked, in which order, and how a run ends. *)
From S2P Require Import Prelude Words RuntimeConfig ChainSpec NodeCli NodeSdk Conc Service.

Section rules.
Context {AL : AccountLib} {CL : CliLib} {NL : NodeLib} {E : Type}.
Context (answers : list (event NodeReq) → ∀ B, NodeReq B → B → Prop).
Context (allowed : list (event NodeReq) → ∀ B, NodeReq B → Prop).
Abbreviation node A := (prog () NodeReq Empty_set E A).
Abbreviation history := (list (event NodeReq)).

(** The weakest precondition without a store. *)
Definition nwp {A} (h : history) (p : node A) (Q : history → run (result E A) → Prop) : Prop :=
  wp answers (λ _, True) allowed (λ _, True) h p Q.

Lemma nwp_ret {A} h (a : A) (Q : history → run (result E A) → Prop) :
  Q h (Ret (Ok a)) → nwp h (mret a) Q.
Proof. done. Qed.

Lemma nwp_call {A B} h (p : node A) (k : A → node B) Q :
  nwp h p (bind_post answers (λ _, True) allowed (λ _, True) k Q) → nwp h (x ← p; k x) Q.
Proof. apply wp_bind. Qed.

Lemma nwp_mono {A} h (p : node A) (Q Q' : history → run (result E A) → Prop) :
  nwp h p Q → (∀ h r, Q h r → Q' h r) → nwp h p Q'.
Proof. intros Hp HQ. by eapply wp_mono. Qed.

(** A request whose answer the program only uses. *)
Lemma nwp_request {A B} h (q : NodeReq B) (k : B → node A) Q :
  allowed h B q → (∀ b, answers h B q b → nwp (Ev q b :: h) (k b) Q) →
  nwp h (x ← request q; k x) Q.
Proof. by split. Qed.

Lemma nwp_request_last {B} h (q : NodeReq B) (Q : history → run (result E B) → Prop) :
  allowed h B q → (∀ b, answers h B q b → Q (Ev q b :: h) (Ret (Ok b))) → nwp h (request q) Q.
Proof. by split. Qed.

(** A request followed by [?]. *)
Lemma nwp_try {A B E'} h (q : NodeReq (result E' B)) (f : E' → E) (k : B → node A) Q :
  allowed h _ q →
  (∀ b, answers h _ q (Ok b) → nwp (Ev q (Ok b) :: h) (k b) Q) →
  (∀ e, answers h _ q (Err e) → Q (Ev q (Err e) :: h) (Ret (Err (f e)))) →
  nwp h (x ← request q; y ← pmap_err x f; k y) Q.
Proof. intros Hq Hok Herr. split; [done|]. intros [b|e] Hb; [by apply Hok|by apply Herr]. Qed.

Lemma nwp_try_last {B E'} h (q : NodeReq (result E' B)) (f : E' → E)
    (Q : history → run (result E B) → Prop) :
  allowed h _ q →
  (∀ b, answers h _ q (Ok b) → Q (Ev q (Ok b) :: h) (Ret (Ok b))) →
  (∀ e, answers h _ q (Err e) → Q (Ev q (Err e) :: h) (Ret (Err (f e)))) →
  nwp h (x ← request q; pmap_err x f) Q.
Proof. intros Hq Hok Herr. split; [done|]. intros [b|e] Hb; [by apply Hok|by apply Herr]. Qed.

(** [expect]. *)
Lemma nwp_index {A B} h (o : option B) (k : B → node A) Q :
  (∀ b, o = Some b → nwp h (k b) Q) → (o = None → Q h Panic) → nwp h (x ← pindex o; k x) Q.
Proof. destruct o as [b|]; intros Hk Hn; [by apply Hk|by apply Hn]. Qed.

(** Either branch, then the rest. *)
Lemma nwp_if {A B} (c : bool) h (p q : node A) (k : A → node B) Q :
  (c = true → nwp h (x ← p; k x) Q) → (c = false → nwp h (x ← q; k x) Q) →
  nwp h (x ← (if c then p else q); k x) Q.
Proof. destruct c; auto. Qed.

(** How a run ends, when it fails only as [F] says. *)
Definition ends {A} (Φ : history → A → Prop) (F : history → E → Prop) (Pn : history → Prop)
    (h : history) (r : run (result E A)) : Prop :=
  match r with
  | Ret (Ok a) => Φ h a
  | Ret (Err e) => F h e
  | Panic => Pn h
  | Diverge => False
  end.

Lemma nwp_call_ends {A B} h (p : node A) (k : A → node B) (Φ : history → A → Prop)
    (Ψ : history → B → Prop) F Pn :
  nwp h p (ends Φ F Pn) → (∀ h' a, Φ h' a → nwp h' (k a) (ends Ψ F Pn)) →
  nwp h (x ← p; k x) (ends Ψ F Pn).
Proof.
  intros Hp Hk. apply nwp_call. eapply nwp_mono; [exact Hp|].
  intros h' [[a|e]| |]; simpl; auto. by apply Hk.
Qed.

(** The run of a function with any admitted answers. *)
Lemma nwp_run {A} orc (p : node A) Q :
  (∀ h B q, answers h B q (orc h B q)) → nwp [] p Q →
  ∃ r h, peval orc p tt [] = (r, tt, h) ∧ guarded allowed h ∧ Q h r.
Proof.
  intros Horc Hp. destruct (peval orc p tt []) as [[r []] h] eqn:Hrun. exists r, h.
  split; [done|]. by eapply (wp_peval answers (λ _, True) allowed (λ _, True)) in Hrun as (_ & ? & ?).
Qed.
End rules.
