(* ===== verification/ServiceSafety.v ===== *)
(** * Safety of the node's start

    Whatever the SDK answers: the first failed call ends the start and its error is
    returned; the network starts last, at most once, and only after the collator (for
    an authority) or the full node (otherwise) has started; the optional tasks run
    only when they are configured. *)
From S2P Require Import Prelude Words RuntimeConfig ChainSpec NodeCli NodeSdk Conc.
From S2P Require Import Service ServiceRules.

Section safety.
Context {AL : AccountLib} {CL : CliLib} {NL : NodeLib}.
Abbreviation history := (list (event NodeReq)).

(** ** Events *)

Definition err_of {E' A} (f : E' → ServiceError) (r : result E' A) : option ServiceError :=
  match r with Ok _ => None | Err e => Some (f e) end.

(** The error that a call reports, as the service converts it. *)
Definition failure (e : event NodeReq) : option ServiceError :=
  match e with
  | @Ev _ B q b =>
      match q in NodeReq B return B → option ServiceError with
      | TelemetryWorker_new _ => err_of Telemetry
      | new_full_parts _ _ _ => err_of Sdk
      | aura_slot_duration _ => err_of Sdk
      | aura_import_queue _ => err_of Sdk
      | build_relay_chain_interface _ _ _ _ _ _ => err_of Application
      | build_network _ => err_of Sdk
      | spawn_tasks _ => err_of Sdk
      | overseer_handle _ => err_of Application
      | start_collator _ => err_of Sdk
      | start_full_node _ => err_of Sdk
      | _ => λ _, None
      end b
  end.

Definition is_start (e : event NodeReq) : bool :=
  match e with
  | @Ev _ B q _ => match q with start_network _ => true | _ => false end
  end.

(** The network was started. *)
Definition started (h : history) : bool := existsb is_start h.

(** No call has failed, and the network is not started. *)
Definition calm (h : history) : Prop :=
  Forall (λ e, failure e = None) h ∧ started h = false.

(** The last call failed with [e], and none before it. *)
Definition fails (h : history) (e : ServiceError) : Prop :=
  ∃ ev h0, h = ev :: h0 ∧ failure ev = Some e ∧ is_start ev = false ∧ calm h0.

(** The last call started the collator of an authority, or the full node. *)
Definition consensus_up (authority : bool) (h : history) : Prop :=
  match h with
  | @Ev _ B q b :: _ =>
      match q in NodeReq B return B → Prop with
      | start_collator _ => λ b, authority = true ∧ b = Ok tt
      | start_full_node _ => λ b, authority = false ∧ b = Ok tt
      | _ => λ _, False
      end b
  | [] => False
  end.

(** The network starter was made by [build_network]. *)
Definition starter_built (h : history) (starter : NetworkStarter) : Prop :=
  ∃ params net tx controller sync,
    Ev (build_network params) (Ok (net, tx, controller, starter, sync)) ∈ h.

(** The relay chain side gave no collator key. *)
Definition no_collator_key (h : history) : Prop :=
  ∃ polkadot para handle tm options hwbench relay,
    Ev (build_relay_chain_interface polkadot para handle tm options hwbench) (Ok (relay, None)) ∈ h.

Definition has_endpoints (config : Configuration) : bool :=
  match config_telemetry_endpoints config with
  | Some endpoints => negb (endpoints_empty endpoints)
  | None => false
  end.

Section protocol.
Context (config : Configuration).
Let authority : bool := is_authority (role_of config).

(** When a task may be spawned. *)
Definition job_rule (job : Job) : Prop :=
  match job with
  | TelemetryWorker_run _ => has_endpoints config = true
  | OffchainWorkers_run options _ _ =>
      enabled (offchain_worker config) = true ∧ is_validator options = authority
  | MmrGadget_start _ _ prefix =>
      indexing_enabled (offchain_worker config) = true ∧ prefix = INDEXING_PREFIX
  | initialize_hwbench_telemetry _ _ => has_endpoints config = true
  end.

(** When a call may be made, after the calls [h]. *)
Definition node_rule (h : history) (B : Type) (q : NodeReq B) : Prop :=
  calm h ∧
  match q with
  | spawn_job _ _ _ _ job => job_rule job
  | start_collator params => authority = true
  | start_full_node params => authority = false
  | start_network starter => consensus_up authority h ∧ starter_built h starter
  | _ => True
  end.

Abbreviation any := (λ (_ : history) (B : Type) (_ : NodeReq B) (_ : B), True).
Abbreviation safe h p Φ Pn := (nwp (E:=ServiceError) any node_rule h p (ends Φ fails Pn)).

Lemma calm_cons {B} (q : NodeReq B) b h :
  calm h → failure (Ev q b) = None → is_start (Ev q b) = false → calm (Ev q b :: h).
Proof.
  intros [Hok Hs] Hf Hst. split; [by constructor|]. unfold started. cbn [existsb].
  by rewrite Hst.
Qed.

Lemma fails_cons {B} (q : NodeReq B) b h e :
  calm h → failure (Ev q b) = Some e → is_start (Ev q b) = false → fails (Ev q b :: h) e.
Proof. intros. by exists (Ev q b), h. Qed.
(** Take the next call of a service function: the history stays calm, or ends with
    the failed call. *)
Ltac stay_calm :=
  lazymatch goal with
  | Hc : calm ?h |- context [Ev ?q ?b :: ?h] =>
      let H := fresh "Hcalm" in assert (calm (Ev q b :: h)) as H by (by apply calm_cons)
  end.
Ltac node_next :=
  cbv beta zeta;
  first
  [ apply nwp_try; [|intros ? _; stay_calm|intros ? _; by apply fails_cons]
  | apply nwp_try_last; [|intros ? _; stay_calm|intros ? _; by apply fails_cons]
  | apply nwp_request_last; [|intros ? _; stay_calm]
  | apply nwp_request; [|intros ? _; stay_calm] ]; [try (by split)|..].

Lemma build_import_queue_safe client block_import telemetry tm h Pn :
  calm h → safe h (build_import_queue client block_import config telemetry tm) (λ h' _, calm h') Pn.
Proof. intros Hc. unfold build_import_queue. node_next. node_next. done. Qed.

Lemma start_telemetry_safe h Pn :
  calm h → safe h (start_telemetry (config_telemetry_endpoints config))
    (λ h' t, calm h' ∧ (is_Some t → has_endpoints config = true)) Pn.
Proof.
  intros Hc. unfold start_telemetry, has_endpoints.
  destruct (config_telemetry_endpoints config) as [endpoints|].
  2: { apply nwp_ret. split; [done|]. by intros []. }
  destruct (endpoints_empty endpoints); simpl negb; cbv iota.
  { apply nwp_ret. split; [done|]. by intros []. }
  node_next. node_next. by apply nwp_ret.
Qed.

Lemma new_partial_safe h Pn :
  calm h → safe h (new_partial config)
    (λ h' pc, calm h' ∧ (is_Some (pc_telemetry pc) → has_endpoints config = true)) Pn.
Proof.
  intros Hc. unfold new_partial.
  eapply nwp_call_ends; [by apply start_telemetry_safe|]. intros h1 t [Hc1 Ht]. cbv beta zeta.
  node_next. destruct b as [[[client backend] container] tm].
  eapply nwp_call_ends with (Φ := λ h' t', calm h' ∧ (is_Some t' → has_endpoints config = true)).
  { destruct t as [[worker telemetry]|]; [|apply nwp_ret; split; [done|by intros []]].
    node_next. { split; [done|]. by apply Ht. } apply nwp_ret. split; [done|]. intros _. by apply Ht. }
  intros h2 t' [Hc2 Ht']. node_next. node_next.
  eapply nwp_call_ends; [by apply build_import_queue_safe|]. intros h3 queue Hc3.
  by apply nwp_ret.
Qed.

Lemma build_consensus_safe client block_import registry telemetry tm relay pool sync ks force id h Pn :
  calm h → safe h (build_consensus client block_import registry telemetry tm relay pool sync ks
    force id) (λ h' _, calm h' ∧ ∀ e, e ∈ h → e ∈ h') Pn.
Proof.
  intros Hc. unfold build_consensus. node_next. node_next. node_next. split; [done|]. set_solver.
Qed.

Lemma report_hwbench_safe hwbench telemetry tm h Pn :
  calm h → (is_Some telemetry → has_endpoints config = true) →
  safe h (report_hwbench hwbench authority telemetry tm) (λ h' _, calm h' ∧ ∀ e, e ∈ h → e ∈ h') Pn.
Proof.
  intros Hc Ht. unfold report_hwbench. destruct hwbench as [hw|]; [|by apply nwp_ret].
  node_next.
  eapply nwp_call_ends with (Φ := λ h' _, calm h' ∧ ∀ e, e ∈ h → e ∈ h').
  { destruct (negb (check_hardware hw) && authority); [node_next|apply nwp_ret];
      (split; [done|set_solver]). }
  intros h1 _ [Hc1 Hin1]. destruct telemetry as [t|]; [|by apply nwp_ret].
  node_next; [split; [done|by apply Ht]|]. split; [done|set_solver].
Qed.

(** The optional tasks of [start_node_impl]. *)
Lemma optional_job_safe (c : bool) tm kind name group job h Pn :
  calm h → (c = true → job_rule job) →
  safe h (if c then request (spawn_job tm kind name group job) else mret tt)
    (λ h' _, calm h' ∧ ∀ e, e ∈ h → e ∈ h') Pn.
Proof.
  intros Hc Hjob. destruct c; [|by apply nwp_ret].
  node_next; [split; [done|by apply Hjob]|]. split; [done|set_solver].
Qed.

Lemma starter_built_mono h h' starter :
  (∀ e, e ∈ h → e ∈ h') → starter_built h starter → starter_built h' starter.
Proof. intros Hin (p & n & t & c & sy & He). exists p, n, t, c, sy. by apply Hin. Qed.
Lemma no_collator_key_mono h h' :
  (∀ e, e ∈ h → e ∈ h') → no_collator_key h → no_collator_key h'.
Proof. intros Hin (a & b & c & d & e & f & g & He). exists a, b, c, d, e, f, g. by apply Hin. Qed.

(** How the start of the node ends. *)
Definition node_up (h : history) (_ : TaskManager * Client) : Prop :=
  started h = true ∧ Forall (λ e, failure e = None) h.
Definition node_panics (h : history) : Prop :=
  authority = true ∧ no_collator_key h ∧ calm h.

Lemma start_node_impl_safe para_config polkadot options id hwbench :
  prepare_node_config para_config = config →
  safe [] (start_node_impl para_config polkadot options id hwbench) node_up node_panics.
Proof.
  intros Hconfig. unfold start_node_impl. rewrite Hconfig.
  eapply nwp_call_ends; [by apply new_partial_safe|]. intros h pc [Hc Ht].
  node_next. destruct b as [relay key].
  node_next. destruct b as [[[[net tx] controller] starter] sync].
  set (h1 := Ev (build_network _) _ :: _) in *.
  assert (starter_built h1 starter) as Hstarter by (do 5 eexists; apply list_elem_of_here).
  assert (key = None → no_collator_key h1) as Hkey.
  { intros ->. do 7 eexists. apply list_elem_of_further, list_elem_of_here. }
  clearbody h1.
  eapply nwp_call_ends; [by apply optional_job_safe|]. intros h2 _ [Hc2 Hin2].
  node_next.
  eapply nwp_call_ends; [by apply optional_job_safe|]. intros h3 _ [Hc3 Hin3].
  eapply nwp_call_ends; [by apply report_hwbench_safe|]. intros h4 _ [Hc4 Hin4].
  node_next. set (h5 := Ev (overseer_handle _) _ :: h4) in *.
  assert (∀ e, e ∈ h1 → e ∈ h5) as Hin5.
  { intros e He. apply list_elem_of_further, Hin4, Hin3, list_elem_of_further, Hin2, He. }
  clearbody h5. clear Hc Hc2 Hc3 Hc4 Hcalm Hcalm0 Hcalm1 Hin2 Hin3 Hin4.
  eapply nwp_call_ends with (Φ := λ h' _, calm h' ∧ consensus_up authority h' ∧
    starter_built h' starter).
  { apply (starter_built_mono _ h5) in Hstarter; [|done].
    change (is_authority (role_of config)) with authority. destruct authority eqn:Ha.
    - eapply nwp_call_ends; [by apply build_consensus_safe|]. intros h6 consensus [Hc6 Hin6].
      apply nwp_index.
      + intros k _. node_next. repeat match goal with u : () |- _ => destruct u end.
        split_and!; [done|by split|]. eapply starter_built_mono; [|done].
        intros e He. by apply list_elem_of_further, Hin6.
      + intros Hnone. split_and!; [done| |done].
        apply (no_collator_key_mono h1); [|by apply Hkey]. intros e He. by apply Hin6, Hin5.
    - node_next. repeat match goal with u : () |- _ => destruct u end.
      split_and!; [done|by split|]. eapply starter_built_mono; [|done].
      intros e He. by apply list_elem_of_further. }
  intros h7 _ (Hc7 & Hup & Hbuilt). apply nwp_request; [by split_and!|]. intros [] _.
  apply nwp_ret. destruct Hc7 as [Hok Hs]. split; [|by constructor]. done.
Qed.
End protocol.
End safety.
