(* ===== verification/ServiceHandles.v ===== *)
(** * Handles of the node's start

    Where the objects come from that a starting node passes from one call of the SDK to
    the next: whatever the SDK answers, every object is made at most once ([rank_rule]),
    and every argument of every call is one of these objects or a setting of the node
    ([handles_rule]). *)
From S2P Require Import Prelude Words RuntimeConfig ChainSpec NodeCli NodeSdk Conc.
From S2P Require Import Service ServiceRules ServiceSafety.

Section handles.
Context {AL : AccountLib} {CL : CliLib} {NL : NodeLib}.
Abbreviation history := (list (event NodeReq)).

(** ** Where a handle comes from *)

Definition answered {B} (h : history) (q : NodeReq B) (b : B) : Prop := Ev q b ∈ h.

(** The client, backend, keystore and task manager of the node. *)
Definition parts_of (h : history) c b k tm : Prop :=
  ∃ config tel ex, answered h (new_full_parts config tel ex) (Ok (c, b, k, tm)).
Definition worker_of (h : history) worker : Prop := ∃ n, answered h (TelemetryWorker_new n) (Ok worker).
Definition telemetry_of (h : history) t : Prop :=
  ∃ worker endpoints, worker_of h worker ∧ answered h (new_telemetry (worker_handle worker) endpoints) t.
Definition pool_of (h : history) tm c pool : Prop :=
  ∃ options v registry, answered h (BasicPool_new_full options v registry tm c) pool.
Definition import_of (h : history) c b import : Prop := answered h (ParachainBlockImport_new c b) import.
Definition slot_of (h : history) c d : Prop := answered h (aura_slot_duration c) (Ok d).
Definition queue_of (h : history) c queue : Prop :=
  ∃ params, iq_client params = c ∧ answered h (aura_import_queue params) (Ok queue).
Definition relay_of (h : history) tm relay key : Prop :=
  ∃ polkadot config handle options hwbench,
    answered h (build_relay_chain_interface polkadot config handle tm options hwbench) (Ok (relay, key)).
Definition network_of (h : history) c net tx controller starter sync : Prop :=
  ∃ params, bn_client params = c ∧
    answered h (build_network params) (Ok (net, tx, controller, starter, sync)).
Definition overseer_of (h : history) relay o : Prop := answered h (overseer_handle relay) (Ok o).
Definition proposer_of (h : history) tm c pool f : Prop :=
  ∃ registry telemetry, answered h (ProposerFactory_with_proof_recording tm c pool registry telemetry) f.
Definition consensus_of (h : history) c cons : Prop :=
  ∃ params, ba_para_client params = c ∧ answered h (AuraConsensus_build params) cons.

(** ** What a call may be given *)

Section rule.
Context (config polkadot : Configuration) (options : CollatorOptions) (id : u32) (hwbench : option HwBench).
Let authority : bool := is_authority (role_of config).

(** The executor that the configuration asks for. *)
Definition configured_executor : ParachainExecutor :=
  new_with_wasm_executor (WasmExecutor_build (wasm_method config)
    (heap_strategy (config_heap_pages config)) (heap_strategy (config_heap_pages config))
    (config_max_runtime_instances config) (runtime_cache_size config)).

(** The telemetry that was started, when there are endpoints, and nothing otherwise. *)
Definition telemetry_given (h : history) (t : option TelemetryObject) : Prop :=
  if has_endpoints config then ∃ x, t = Some x ∧ telemetry_of h x else t = None.
Definition handle_given (h : history) (t : option TelemetryHandle) : Prop :=
  ∃ x, telemetry_given h x ∧ t = telemetry_handle <$> x.
Definition worker_given (h : history) (w : option TelemetryWorkerHandle) : Prop :=
  if has_endpoints config then ∃ x, w = Some (worker_handle x) ∧ worker_of h x else w = None.

(** How a task is spawned, and what it is given. *)
Definition job_handles (h : history) tm kind name group (job : Job) : Prop :=
  match job with
  | TelemetryWorker_run worker => worker_of h worker ∧
      kind = Spawned ∧ name = "telemetry" ∧ group = None
  | OffchainWorkers_run o client spawner => ∃ b k pool tx ctl st sync,
      parts_of h client b k tm ∧ pool_of h tm client pool ∧ spawner = tm ∧
      network_of h client (network_provider o) tx ctl st sync ∧
      runtime_api_provider o = client ∧ ow_keystore o = Some (keystore k) ∧
      offchain_db o = offchain_storage b ∧ ow_transaction_pool o = Some pool ∧
      is_validator o = authority ∧ enable_http_requests o = false ∧
      kind = Spawned ∧ name = "offchain-workers-runner" ∧ group = Some "offchain-work"
  | MmrGadget_start client backend prefix => (∃ k, parts_of h client backend k tm) ∧
      prefix = INDEXING_PREFIX ∧ kind = EssentialBlocking ∧ name = "mmr_gadget" ∧ group = None
  | initialize_hwbench_telemetry t hw =>
      (∃ telemetry, telemetry_of h telemetry ∧ t = telemetry_handle telemetry) ∧
      hwbench = Some hw ∧ kind = Spawned ∧ name = "telemetry_hwbench" ∧ group = None
  end.

Definition handles_rule (h : history) (B : Type) (q : NodeReq B) : Prop :=
  match q with
  | TelemetryWorker_new n => n = #16 ∧ has_endpoints config = true
  | new_telemetry w e => config_telemetry_endpoints config = Some e ∧
      ∃ worker, worker_of h worker ∧ w = worker_handle worker
  | new_full_parts c t ex => c = config ∧ handle_given h t ∧ ex = configured_executor
  | spawn_job tm kind name group job => (∃ c b k, parts_of h c b k tm) ∧ job_handles h tm kind name group job
  | BasicPool_new_full o v registry tm c => o = config_transaction_pool config ∧ v = authority ∧
      registry = prometheus_registry config ∧ ∃ b k, parts_of h c b k tm
  | ParachainBlockImport_new c b => ∃ k tm, parts_of h c b k tm
  | aura_slot_duration c => ∃ b k tm, parts_of h c b k tm
  | aura_import_queue p => iq_registry p = prometheus_registry config ∧ handle_given h (iq_telemetry p) ∧
      ∃ b k, parts_of h (iq_client p) b k (iq_spawner p) ∧
      import_of h (iq_client p) b (iq_block_import p) ∧
      slot_of h (iq_client p) (iq_create_inherent_data_providers p)
  | build_relay_chain_interface pk pc w tm o hw => pk = polkadot ∧ pc = config ∧ worker_given h w ∧
      o = options ∧ hw = hwbench ∧ ∃ c b k, parts_of h c b k tm
  | build_network p => bn_parachain_config p = config ∧ bn_para_id p = id ∧
      bn_net_config p = FullNetworkConfiguration_new (network config) ∧
      bn_sybil_resistance_level p = Resistant ∧
      ∃ b k key, parts_of h (bn_client p) b k (bn_spawn_handle p) ∧
      pool_of h (bn_spawn_handle p) (bn_client p) (bn_transaction_pool p) ∧
      queue_of h (bn_client p) (bn_import_queue p) ∧
      relay_of h (bn_spawn_handle p) (bn_relay_chain_interface p) key
  | spawn_tasks p => st_config p = config ∧
      st_rpc_builder p = mkRpcBuilder (st_client p) (st_transaction_pool p) (st_backend p) ∧
      telemetry_given h (st_telemetry p) ∧
      ∃ k st, parts_of h (st_client p) (st_backend p) k (st_task_manager p) ∧
      st_keystore p = keystore k ∧ pool_of h (st_task_manager p) (st_client p) (st_transaction_pool p) ∧
      network_of h (st_client p) (st_network p) (st_system_rpc_tx p) (st_tx_handler_controller p)
        st (st_sync_service p)
  | print_hwbench hw => hwbench = Some hw
  | warn_hardware => authority = true ∧ ∃ hw, hwbench = Some hw ∧ check_hardware hw = false
  | overseer_handle relay => ∃ tm key, relay_of h tm relay key
  | ProposerFactory_with_proof_recording tm c pool registry t =>
      registry = prometheus_registry config ∧ handle_given h t ∧
      (∃ b k, parts_of h c b k tm) ∧ pool_of h tm c pool
  | AuraConsensus_build p => ba_force_authoring p = config_force_authoring config ∧
      ba_block_proposal_slot_portion p = SlotProportion_new 1 24 ∧
      ba_max_block_proposal_slot_portion p = Some (SlotProportion_new 1 16) ∧
      handle_given h (ba_telemetry p) ∧
      ∃ b k tm pool relay key net tx ctl st,
      parts_of h (ba_para_client p) b k tm ∧ ba_keystore p = keystore k ∧
      import_of h (ba_para_client p) b (ba_block_import p) ∧
      proposer_of h tm (ba_para_client p) pool (ba_proposer_factory p) ∧
      slot_of h (ba_para_client p) (ba_slot_duration p) ∧ relay_of h tm relay key ∧
      ba_create_inherent_data_providers p = (relay, id, ba_slot_duration p) ∧
      network_of h (ba_para_client p) net tx ctl st (ba_sync_oracle p)
  | start_collator p => sc_para_id p = id ∧ sc_relay_chain_slot_duration p = #6 ∧
      ∃ b k queue net tx ctl st,
      parts_of h (sc_client p) b k (sc_task_manager p) ∧ sc_spawner p = sc_task_manager p ∧
      sc_block_status p = sc_client p ∧
      relay_of h (sc_task_manager p) (sc_relay_chain_interface p) (Some (sc_collator_key p)) ∧
      consensus_of h (sc_client p) (sc_parachain_consensus p) ∧
      queue_of h (sc_client p) queue ∧ sc_import_queue p = import_queue_service queue ∧
      overseer_of h (sc_relay_chain_interface p) (sc_recovery_handle p) ∧
      network_of h (sc_client p) net tx ctl st (sc_sync_service p) ∧
      sc_announce_block p = sc_sync_service p
  | start_full_node p => sf_para_id p = id ∧ sf_relay_chain_slot_duration p = #6 ∧
      ∃ b k key queue net tx ctl st,
      parts_of h (sf_client p) b k (sf_task_manager p) ∧
      relay_of h (sf_task_manager p) (sf_relay_chain_interface p) key ∧
      queue_of h (sf_client p) queue ∧ sf_import_queue p = import_queue_service queue ∧
      overseer_of h (sf_relay_chain_interface p) (sf_recovery_handle p) ∧
      network_of h (sf_client p) net tx ctl st (sf_sync_service p) ∧
      sf_announce_block p = sf_sync_service p
  | start_network starter => ∃ c net tx ctl sync, network_of h c net tx ctl starter sync
  | from_system_time => False
  | ParachainInherentData_create_at _ _ _ _ => False
  end.

(** ** Carrying handles along *)

Lemma answered_here {B} (q : NodeReq B) b h : answered (Ev q b :: h) q b.
Proof. apply list_elem_of_here. Qed.
Lemma answered_further {B B'} (q' : NodeReq B') b' h (q : NodeReq B) b :
  answered h q b → answered (Ev q' b' :: h) q b.
Proof. apply list_elem_of_further. Qed.
Lemma answered_sub {B} h h' (q : NodeReq B) b : h ⊆ h' → answered h q b → answered h' q b.
Proof. intros Hsub Hq. by apply Hsub. Qed.

End rule.
End handles.

(** Move what is known to the history after a call; remember the call. *)
Ltac carry :=
  lazymatch goal with
  | |- context [@Ev NodeReq ?B ?q ?b :: ?h] =>
      repeat match goal with H : answered h _ _ |- _ => apply (answered_further q b) in H end;
      pose proof (answered_here q b h)
  end.
Ltac carry_sub Hsub :=
  cbv beta in Hsub;
  repeat match goal with
  | H : answered ?h _ _ |- _ =>
      match type of Hsub with h ⊆ _ => apply (answered_sub _ _ _ _ Hsub) in H end
  end.
Ltac unfold_handles :=
  unfold job_handles, parts_of, pool_of, import_of, slot_of, queue_of, relay_of,
    network_of, overseer_of, proposer_of, consensus_of in *.
Ltac known := unfold_handles; unfold telemetry_of, worker_of in *; simpl; repeat (split || eexists); try eassumption; simpl; try reflexivity; try done.
(** The next call: what it is given is known, and the answer becomes known. *)
Ltac handle_next :=
  cbv beta zeta;
  first
  [ apply nwp_try; [|intros ? _; carry|by intros]
  | apply nwp_try_last; [|intros ? _; carry|by intros]
  | apply nwp_request_last; [|intros ? _; carry]
  | apply nwp_request; [|intros ? _; carry] ].

Section proofs.
Context {AL : AccountLib} {CL : CliLib} {NL : NodeLib}.
Context (config polkadot : Configuration) (options : CollatorOptions) (id : u32) (hwbench : option HwBench).
Abbreviation history := (list (event NodeReq)).
Abbreviation any := (λ (_ : history) (B : Type) (_ : NodeReq B) (_ : B), True).
Abbreviation okay h p Φ :=
  (nwp (E:=ServiceError) any (handles_rule config polkadot options id hwbench) h p
    (ends Φ (λ _ _, True) (λ _, True))).

Lemma worker_of_sub h h' w : h ⊆ h' → worker_of h w → worker_of h' w.
Proof. intros Hsub [n Hw]. exists n. by apply Hsub. Qed.
Lemma telemetry_of_sub h h' t : h ⊆ h' → telemetry_of h t → telemetry_of h' t.
Proof.
  intros Hsub (w & e & Hw & Ht). exists w, e. split; [by eapply worker_of_sub|by apply Hsub].
Qed.
Lemma telemetry_given_sub h h' t : h ⊆ h' → telemetry_given config h t → telemetry_given config h' t.
Proof.
  intros Hsub. unfold telemetry_given. destruct (has_endpoints config); [|done].
  intros (x & -> & Hx). exists x. split; [done|]. by eapply telemetry_of_sub.
Qed.
Lemma worker_given_sub h h' w : h ⊆ h' → worker_given config h w → worker_given config h' w.
Proof.
  intros Hsub. unfold worker_given. destruct (has_endpoints config); [|done].
  intros (x & -> & Hx). exists x. split; [done|]. by eapply worker_of_sub.
Qed.
Lemma handle_given_of h h' t : h ⊆ h' → telemetry_given config h t → handle_given config h' (telemetry_handle <$> t).
Proof. intros Hsub Ht. exists t. split; [by eapply telemetry_given_sub|done]. Qed.
Lemma sub_cons (e : event NodeReq) h h' : h ⊆ h' → h ⊆ e :: h'.
Proof. set_solver. Qed.

Lemma build_import_queue_handles c b k tm import telemetry h :
  parts_of h c b k tm → import_of h c b import → telemetry_given config h telemetry →
  okay h (build_import_queue c import config (telemetry_handle <$> telemetry) tm)
    (λ h' queue, h ⊆ h' ∧ queue_of h' c queue).
Proof.
  intros Hp Hi Ht. unfold build_import_queue. unfold_handles. destruct Hp as (cf & tel & ex & Hp).
  handle_next; [known|].
  handle_next; [split_and!; [done|eapply handle_given_of; [by apply sub_cons|done]|known]|].
  split; [set_solver|]. known.
Qed.

(** The worker and the telemetry that [start_telemetry] starts. *)
Definition telemetry_started (h : history) (t : option (TelemetryWorker * TelemetryObject)) : Prop :=
  if has_endpoints config then ∃ w x, t = Some (w, x) ∧ worker_of h w ∧ telemetry_of h x else t = None.

Lemma telemetry_started_given h t :
  telemetry_started h t → telemetry_given config h (snd <$> t) ∧ worker_given config h ((λ t, worker_handle t.1) <$> t).
Proof.
  unfold telemetry_started, telemetry_given, worker_given. destruct (has_endpoints config); [|by intros ->].
  intros (w & x & -> & Hw & Hx). split; [by exists x|by exists w].
Qed.

Lemma start_telemetry_handles h :
  okay h (start_telemetry (config_telemetry_endpoints config)) telemetry_started.
Proof.
  unfold start_telemetry, telemetry_started.
  destruct (config_telemetry_endpoints config) as [endpoints|] eqn:He.
  2: { apply nwp_ret. unfold has_endpoints. by rewrite He. }
  assert (has_endpoints config = negb (endpoints_empty endpoints)) as Hends
    by (unfold has_endpoints; by rewrite He).
  rewrite <- Hends. destruct (has_endpoints config) eqn:Hyes; [|apply nwp_ret; done].
  handle_next; [done|]. handle_next; [split; [done|known]|]. apply nwp_ret. simpl. eexists _, _.
  split; [done|]. split; known.
Qed.

(** What [new_partial] hands over. *)
Record partial_handles (h : history) (pc : PartialComponents) : Prop := {
  ph_parts : parts_of h (pc_client pc) (pc_backend pc) (pc_keystore_container pc) (pc_task_manager pc);
  ph_pool : pool_of h (pc_task_manager pc) (pc_client pc) (pc_transaction_pool pc);
  ph_import : import_of h (pc_client pc) (pc_backend pc) (pc_block_import pc);
  ph_queue : queue_of h (pc_client pc) (pc_import_queue pc);
  ph_telemetry : telemetry_given config h (pc_telemetry pc);
  ph_worker : worker_given config h (pc_telemetry_worker_handle pc)
}.

Lemma telemetry_job_handles c b k tm h t :
  parts_of h c b k tm → telemetry_started h t →
  okay h (match t with
    | Some (worker, telemetry) =>
        _ ← request (spawn_job tm Spawned "telemetry" None (TelemetryWorker_run worker));
        mret (Some telemetry)
    | None => mret None
    end) (λ h' t', h ⊆ h' ∧ t' = snd <$> t).
Proof.
  intros Hp Ht. destruct t as [[worker telemetry]|]; [|by apply nwp_ret].
  apply nwp_request.
  - split; [by exists c, b, k|]. unfold telemetry_started in Ht.
    destruct (has_endpoints config); [|done]. destruct Ht as (w & x & [= <- <-] & Hw & _). done.
  - intros ? _. apply nwp_ret. split; [set_solver|done].
Qed.

Lemma new_partial_handles h : okay h (new_partial config) partial_handles.
Proof.
  unfold new_partial. eapply nwp_call_ends; [apply start_telemetry_handles|].
  intros h1 t Hstarted. destruct (telemetry_started_given h1 t Hstarted) as [Ht Hw].
  handle_next; [split_and!; [done| |done]; exists (snd <$> t); split; [done|by destruct t]|].
  destruct b as [[[client backend] container] tm].
  eapply nwp_call_ends; [eapply (telemetry_job_handles client backend container tm); [known|]|].
  { unfold telemetry_started in *. destruct (has_endpoints config); [|done].
    destruct Hstarted as (w & x & -> & Hw' & Hx). exists w, x. split_and!; [done| |].
    - eapply worker_of_sub; [by apply sub_cons|done].
    - eapply telemetry_of_sub; [by apply sub_cons|done]. }
  intros h2 t' [Hsub ->]. carry_sub Hsub.
  apply (telemetry_given_sub _ h2) in Ht; [|etrans; [|exact Hsub]; by apply sub_cons].
  apply (worker_given_sub _ h2) in Hw; [|etrans; [|exact Hsub]; by apply sub_cons].
  clear Hsub Hstarted. handle_next; [known|]. handle_next; [known|].
  eapply nwp_call_ends; [eapply build_import_queue_handles; [known|known|]|].
  { eapply telemetry_given_sub; [|exact Ht]. by do 2 apply sub_cons. }
  intros h3 queue [Hsub (params & <- & Hq)]. carry_sub Hsub. apply nwp_ret. split; simpl; [known..| |].
  - eapply telemetry_given_sub; [|exact Ht]. etrans; [|exact Hsub]. by do 2 apply sub_cons.
  - eapply worker_given_sub; [|exact Hw]. etrans; [|exact Hsub]. by do 2 apply sub_cons.
Qed.

Lemma build_consensus_handles c b k tm import telemetry relay key pool net tx ctl st sync h :
  parts_of h c b k tm → import_of h c b import → pool_of h tm c pool → relay_of h tm relay key →
  network_of h c net tx ctl st sync → telemetry_given config h telemetry →
  okay h (build_consensus c import (prometheus_registry config) (telemetry_handle <$> telemetry) tm relay
      pool sync (keystore k) (config_force_authoring config) id)
    (λ h' cons, h ⊆ h' ∧ consensus_of h' c cons).
Proof.
  intros (cf & tel & ex & Hp) Hi (o & v & r & Hpool) (pk & pc & hd & op & hw & Hrelay) (ps & Hc & Hnet) Ht.
  unfold build_consensus. unfold_handles. handle_next; [known|].
  handle_next; [split_and!; [done|eapply handle_given_of; [by apply sub_cons|done]|known..]|].
  handle_next; [split_and!; [done..|eapply handle_given_of; [by do 2 apply sub_cons|done]|known]|].
  split; [set_solver|]. known.
Qed.

(** Optional steps that end without a value. *)
Lemma optional_handles (c : bool) h (p : prog () NodeReq Empty_set ServiceError ()) :
  (c = true → okay h p (λ h' _, h ⊆ h')) → okay h (if c then p else mret tt) (λ h' _, h ⊆ h').
Proof. intros Hp. destruct c; [by apply Hp|apply nwp_ret; simpl; set_solver]. Qed.

Lemma job_request_handles c b k tm kind name group job h :
  parts_of h c b k tm → job_handles config hwbench h tm kind name group job →
  okay h (request (spawn_job tm kind name group job)) (λ h' _, h ⊆ h').
Proof.
  intros Hp Hj. apply nwp_request_last; [split; [by exists c, b, k|done]|]. intros ? _. set_solver.
Qed.

Lemma report_hwbench_handles c b k tm telemetry hb h :
  hb = hwbench → parts_of h c b k tm → telemetry_given config h telemetry →
  okay h (report_hwbench hb (is_authority (role_of config)) telemetry tm) (λ h' _, h ⊆ h').
Proof.
  intros Hhw (cf & tel & ex & Hp) Ht. unfold report_hwbench.
  destruct hb as [hw|]; [|apply nwp_ret; simpl; set_solver].
  handle_next; [done|].
  eapply nwp_call_ends; [apply optional_handles|].
  { intros [Hc%negb_true_iff Ha]%andb_true_iff. handle_next; [split; [done|by exists hw]|]. set_solver. }
  intros h1 u Hsub. destruct telemetry as [t|]; [|apply nwp_ret; set_solver].
  apply nwp_request_last; [|intros ? _; set_solver]. carry_sub Hsub. split; [known|]. split; [|done].
  unfold telemetry_given in Ht. destruct (has_endpoints config); [|done]. destruct Ht as (x & [= <-] & Hx).
  exists t. split; [|done]. eapply telemetry_of_sub; [|exact Hx]. set_solver.
Qed.

Lemma partial_handles_sub h h' pc : h ⊆ h' → partial_handles h pc → partial_handles h' pc.
Proof.
  intros Hsub [(cf & tel & ex & Hp) (o & v & r & Hpool) Hi (ps & Hc & Hq) Ht Hw].
  carry_sub Hsub. split; [known|known|by apply Hsub|by exists ps|..].
  - by eapply telemetry_given_sub.
  - by eapply worker_given_sub.
Qed.

(** What is known once the network is built. *)
Record node_handles h pc relay key net tx ctl st sync : Prop := {
  nh_partial : partial_handles h pc;
  nh_relay : relay_of h (pc_task_manager pc) relay key;
  nh_network : network_of h (pc_client pc) net tx ctl st sync
}.

Lemma node_handles_sub h h' pc relay key net tx ctl st sync :
  h ⊆ h' → node_handles h pc relay key net tx ctl st sync → node_handles h' pc relay key net tx ctl st sync.
Proof.
  intros Hsub [Hpc (pk & pc' & hd & op & hw & Hr) (ps & Hc & Hn)]. carry_sub Hsub.
  split; [by eapply partial_handles_sub|known|by exists ps].
Qed.

(** The last part of [start_node_impl]: the collator or the full node. *)
Definition start_consensus pc relay (key : option CollatorPair) sync o (validator : bool)
    : prog () NodeReq Empty_set ServiceError () :=
    (if validator then
       parachain_consensus ← build_consensus (pc_client pc) (pc_block_import pc) (prometheus_registry config)
         (telemetry_handle <$> pc_telemetry pc) (pc_task_manager pc) relay (pc_transaction_pool pc)
         sync (keystore (pc_keystore_container pc)) (config_force_authoring config) id;
       collator_key ← pindex key;
       started ← request (start_collator {|
         sc_para_id := id;
         sc_block_status := pc_client pc;
         sc_announce_block := sync;
         sc_client := pc_client pc;
         sc_task_manager := pc_task_manager pc;
         sc_relay_chain_interface := relay;
         sc_spawner := pc_task_manager pc;
         sc_parachain_consensus := parachain_consensus;
         sc_import_queue := import_queue_service (pc_import_queue pc);
         sc_collator_key := collator_key;
         sc_relay_chain_slot_duration := relay_chain_slot_duration;
         sc_recovery_handle := o;
         sc_sync_service := sync |});
       pmap_err started Sdk
     else
       started ← request (start_full_node {|
         sf_client := pc_client pc;
         sf_announce_block := sync;
         sf_task_manager := pc_task_manager pc;
         sf_para_id := id;
         sf_relay_chain_interface := relay;
         sf_relay_chain_slot_duration := relay_chain_slot_duration;
         sf_import_queue := import_queue_service (pc_import_queue pc);
         sf_recovery_handle := o;
         sf_sync_service := sync |});
       pmap_err started Sdk).

Lemma start_consensus_handles h pc relay key net tx ctl st sync o validator :
  node_handles h pc relay key net tx ctl st sync → overseer_of h relay o →
  okay h (start_consensus pc relay key sync o validator) (λ h' _, h ⊆ h').
Proof.
  intros Hnh Ho. unfold start_consensus. destruct validator.
  - eapply nwp_call_ends.
    { destruct Hnh as [[Hp Hpool Hi _ Ht _] Hr Hn]. by eapply build_consensus_handles. }
    intros h1 cons [Hsub Hcons]. apply (node_handles_sub _ _ _ _ _ _ _ _ _ _ Hsub) in Hnh.
    apply nwp_index; [|done]. intros k ->. destruct Hnh as [[Hp Hpool Hi Hq _ _] Hr Hn].
    apply nwp_try_last; [|intros ? _; simpl; set_solver|done].
    split_and!; [done..|]. do 7 eexists. split_and!; simpl; try done. by apply Hsub.
  - destruct Hnh as [[Hp Hpool Hi Hq _ _] Hr Hn].
    apply nwp_try_last; [|intros ? _; simpl; set_solver|done].
    split_and!; [done..|]. do 8 eexists. by split_and!.
Qed.

Lemma start_node_impl_handles para_config :
  prepare_node_config para_config = config →
  okay [] (start_node_impl para_config polkadot options id hwbench) (λ _ _, True).
Proof.
  intros Hconfig. unfold start_node_impl. rewrite Hconfig.
  eapply nwp_call_ends; [by apply new_partial_handles|]. intros h0 pc Hpc.
  handle_next; [destruct Hpc; split_and!; [done..|by do 3 eexists]|].
  destruct b as [relay key].
  eapply (partial_handles_sub _ (Ev _ _ :: h0)) in Hpc; [|by apply sub_cons].
  handle_next.
  { split_and!; [done..|]. destruct Hpc as [Hp Hpool _ Hq _ _]. simpl. do 3 eexists.
    split_and!; [exact Hp|done..|]. known. }
  destruct b as [[[[net tx] ctl] starter] sync]. set (h2 := Ev (build_network _) _ :: _) in *.
  assert (node_handles h2 pc relay key net tx ctl starter sync) as Hnh.
  { split; [by eapply partial_handles_sub, Hpc; apply sub_cons|known|known]. }
  clearbody h2. clear Hpc. repeat match goal with H : answered _ _ _ |- _ => clear H end.
  eapply nwp_call_ends; [apply optional_handles; intros _; destruct Hnh as [[Hp Hpool _ _ _ _] _ Hn];
    by eapply job_request_handles; [exact Hp|do 7 eexists; split_and!]|].
  intros h3 u3 Hsub. apply (node_handles_sub _ _ _ _ _ _ _ _ _ _ Hsub) in Hnh.
  handle_next; [destruct Hnh as [[Hp Hpool _ _ Ht _] _ Hn]; split_and!; [done..|]; by do 2 eexists|].
  eapply (node_handles_sub _ (Ev _ _ :: h3)) in Hnh; [|by apply sub_cons].
  eapply nwp_call_ends; [apply optional_handles; intros _; destruct Hnh as [[Hp _ _ _ _ _] _ _];
    by eapply job_request_handles; [exact Hp|split; [eexists|]]|].
  intros h4 u4 Hsub4. apply (node_handles_sub _ _ _ _ _ _ _ _ _ _ Hsub4) in Hnh.
  eapply nwp_call_ends; [destruct Hnh as [[Hp _ _ _ Ht _] _ _]; by eapply report_hwbench_handles|].
  intros h5 u5 Hsub5. apply (node_handles_sub _ _ _ _ _ _ _ _ _ _ Hsub5) in Hnh.
  clear Hsub Hsub4 Hsub5. repeat match goal with H : answered _ _ _ |- _ => clear H end.
  handle_next; [destruct Hnh as [_ Hr _]; by do 2 eexists|].
  eapply (node_handles_sub _ (Ev _ _ :: h5)) in Hnh; [|by apply sub_cons].
  eapply nwp_call_ends; [by apply (start_consensus_handles _ _ _ _ _ _ _ _ _ _ _ Hnh)|].
  intros h6 u6 Hsub6. apply (node_handles_sub _ _ _ _ _ _ _ _ _ _ Hsub6) in Hnh.
  apply nwp_request; [destruct Hnh as [_ _ Hn]; by do 5 eexists|]. intros ? _. by apply nwp_ret.
Qed.
End proofs.

(** ** Every object is made once *)

Section once.
Context {AL : AccountLib} {CL : CliLib} {NL : NodeLib}.
Abbreviation history := (list (event NodeReq)).

(** The place of a call in the start of a node; the slot duration is read, and tasks are
    spawned, more than once. *)
Definition call_rank {B} (q : NodeReq B) : nat :=
  match q with
  | TelemetryWorker_new _ => 1
  | new_telemetry _ _ => 2
  | new_full_parts _ _ _ => 3
  | BasicPool_new_full _ _ _ _ _ => 4
  | ParachainBlockImport_new _ _ => 5
  | aura_import_queue _ => 6
  | build_relay_chain_interface _ _ _ _ _ _ => 7
  | build_network _ => 8
  | spawn_tasks _ => 9
  | print_hwbench _ => 10
  | warn_hardware => 11
  | overseer_handle _ => 12
  | ProposerFactory_with_proof_recording _ _ _ _ _ => 13
  | AuraConsensus_build _ => 14
  | start_collator _ => 15
  | start_full_node _ => 16
  | start_network _ => 17
  | spawn_job _ _ _ _ _ | aura_slot_duration _ | from_system_time
  | ParachainInherentData_create_at _ _ _ _ => 0
  end.
Definition event_rank (e : event NodeReq) : nat := match e with @Ev _ B q _ => call_rank q end.

Definition below (n : nat) (h : history) : Prop := Forall (λ e, event_rank e < n) h.
Definition rank_rule (h : history) (B : Type) (q : NodeReq B) : Prop :=
  call_rank q = 0 ∨ below (call_rank q) h.

Lemma below_mono n n' h : n <= n' → below n h → below n' h.
Proof. intros Hle Hh. eapply list.Forall_impl; [exact Hh|]. intros e. simpl. lia. Qed.
Lemma below_cons n n' h {B} (q : NodeReq B) b :
  below n h → n <= n' → call_rank q < n' → below n' (Ev q b :: h).
Proof. intros Hh Hle Hq. constructor; [done|]. by apply (below_mono n). Qed.

Lemma guarded_once h :
  guarded rank_rule h → NoDup (filter (λ r, r ≠ 0) (event_rank <$> h)).
Proof.
  induction h as [|[B q b] h IH]; [constructor|]. intros [Hq Hg]. rewrite fmap_cons, filter_cons.
  case_decide as Hr; [|by apply IH]. constructor; [|by apply IH].
  intros (_ & (e & He & Hin)%list_elem_of_fmap)%list_elem_of_filter.
  destruct Hq as [Hq|Hq]; [done|]. pose proof (proj1 (list.Forall_forall _ _) Hq e Hin) as Hlt.
  simpl in *. lia.
Qed.

Abbreviation any := (λ (_ : history) (B : Type) (_ : NodeReq B) (_ : B), True).
Abbreviation ranked h p n :=
  (nwp (E:=ServiceError) any rank_rule h p (ends (λ h' _, below n h') (λ _ _, True) (λ _, True))).

(** The next call has a rank above those before it, or none; afterwards the history is
    below [n]. *)
Ltac rank_to n :=
  cbv beta zeta; repeat match goal with Hb : _ |- _ => progress cbv beta in Hb end;
  first
  [ apply nwp_try; [|intros ? _|by intros]
  | apply nwp_try_last; [|intros ? _|by intros]
  | apply nwp_request_last; [|intros ? _]
  | apply nwp_request; [|intros ? _] ];
  [first [by left|right; eapply below_mono; [|eassumption]; simpl; lia]
  |lazymatch goal with
   | Hb : below _ ?h |- context [Ev ?q ?b :: ?h] =>
       eapply (below_cons _ n _ q b) in Hb; [|lia|simpl; lia]
   end].

Lemma new_partial_ranked config h : below 1 h → ranked h (new_partial config) 7.
Proof.
  intros Hb. unfold new_partial.
  eapply nwp_call_ends with (Φ := λ h' _, below 3 h').
  { unfold start_telemetry. destruct (config_telemetry_endpoints config) as [e|];
      [destruct (negb (endpoints_empty e))|]; [|apply nwp_ret; eapply below_mono; [|exact Hb]; lia..].
    rank_to 2. rank_to 3. by apply nwp_ret. }
  clear Hb. intros h1 t Hb. rank_to 4. destruct b as [[[client backend] container] tm].
  eapply nwp_call_ends with (Φ := λ h' _, below 4 h').
  { destruct t as [[worker telemetry]|]; [|by apply nwp_ret]. rank_to 4. by apply nwp_ret. }
  clear Hb. intros h2 t' Hb. rank_to 5. rank_to 6. unfold build_import_queue.
  eapply nwp_call_ends with (Φ := λ h' _, below 7 h'); [rank_to 6; rank_to 7; done|].
  clear Hb. intros h3 queue Hb. by apply nwp_ret.
Qed.

Lemma report_hwbench_ranked hwbench validator telemetry tm h :
  below 10 h → ranked h (report_hwbench hwbench validator telemetry tm) 12.
Proof.
  intros Hb. unfold report_hwbench. destruct hwbench as [hw|];
    [|apply nwp_ret; eapply below_mono; [|exact Hb]; lia]. rank_to 11.
  eapply nwp_call_ends with (Φ := λ h' _, below 12 h').
  { destruct (_ && _); [rank_to 12; done|]. apply nwp_ret. eapply below_mono; [|exact Hb]; lia. }
  clear Hb. intros h1 u1 Hb. destruct telemetry as [t|]; [rank_to 12; done|by apply nwp_ret].
Qed.

Lemma optional_job_ranked (c : bool) tm kind name group job n h :
  0 < n → below n h → ranked h (if c then request (spawn_job tm kind name group job) else mret tt) n.
Proof. intros Hn Hb. destruct c; [rank_to n; done|by apply nwp_ret]. Qed.

Lemma start_node_impl_ranked para_config polkadot options id hwbench :
  ranked [] (start_node_impl para_config polkadot options id hwbench) 18.
Proof.
  unfold start_node_impl. eapply nwp_call_ends; [by apply new_partial_ranked; constructor|].
  intros h0 pc Hb. rank_to 8. destruct b as [relay key]. rank_to 9.
  destruct b as [[[[net tx] ctl] starter] sync].
  eapply nwp_call_ends; [apply (optional_job_ranked _ _ _ _ _ _ 9); [lia|done]|].
  clear Hb. intros h1 u1 Hb. rank_to 10.
  eapply nwp_call_ends; [apply (optional_job_ranked _ _ _ _ _ _ 10); [lia|done]|].
  clear Hb. intros h2 u2 Hb.
  eapply nwp_call_ends; [by apply report_hwbench_ranked|]. clear Hb. intros h3 u3 Hb. rank_to 13.
  eapply nwp_call_ends with (Φ := λ h' _, below 17 h').
  { destruct (is_authority _); [|rank_to 17; done]. unfold build_consensus.
    eapply nwp_call_ends with (Φ := λ h' _, below 15 h'); [rank_to 13; rank_to 14; rank_to 15; done|].
    clear Hb. intros h4 cons Hb. apply nwp_index; [|done]. intros k _. rank_to 17. done. }
  clear Hb. intros h5 u5 Hb. rank_to 18. by apply nwp_ret.
Qed.
End once.

Section claims.
Context {AL : AccountLib} {CL : CliLib} {NL : NodeLib}.

(** [C25] The handles of a node belong together: whatever the SDK answers, a start makes
    every object at most once: telemetry worker and telemetry, the parts (client, backend,
    keystore, task manager), transaction pool, block import, import queue, relay chain
    interface, network, overseer handle, proposer and consensus; and every argument of
    every call is one of these objects, made before, or a setting of the node. So client,
    backend, keystore and task manager are those made from the prepared parachain
    configuration, pool, import, queue, slot duration, proposer and consensus those made
    for this client, relay chain interface, collator key and overseer those of the one relay
    chain side, and the network the one built for this client; telemetry and worker handles
    are those that were started when endpoints are configured, and are absent otherwise;
    executor, pool options, registry, network configuration, roles, slot portions, collator
    options, benchmark and parachain id are those of the configuration and the command
    line. *)
Theorem start_node_handles orc para_config polkadot_config options id hwbench :
  ∃ r h, peval orc (start_parachain_node para_config polkadot_config options id hwbench) tt [] = (r, tt, h) ∧
    guarded (handles_rule (prepare_node_config para_config) polkadot_config options id hwbench) h ∧
    NoDup (filter (λ rank, rank ≠ 0) (event_rank <$> h)).
Proof.
  unfold start_parachain_node.
  destruct (nwp_run (λ _ _ _ _, True)
    (handles_rule (prepare_node_config para_config) polkadot_config options id hwbench)
    orc (start_node_impl para_config polkadot_config options id hwbench) _ (λ _ _ _, I)
    (start_node_impl_handles _ polkadot_config options id hwbench para_config eq_refl))
    as (r & h & Hrun & Hg & _).
  destruct (nwp_run (λ _ _ _ _, True) rank_rule orc
    (start_node_impl para_config polkadot_config options id hwbench) _ (λ _ _ _, I)
    (start_node_impl_ranked para_config polkadot_config options id hwbench)) as (r' & h' & Hrun' & Hg' & _).
  rewrite Hrun in Hrun'. injection Hrun' as <- <-.
  exists r, h. split_and!; [done..|]. by apply guarded_once.
Qed.
End claims.
