(* ===== verification/ServiceClaims.v ===== *)
(** * Guarantees of the node service

    The order in which a node comes up, how its start ends when a call fails, and
    which MMR the gadget serves. *)
From S2P Require Import Prelude Words RuntimeConfig ChainSpec NodeCli NodeSdk Conc.
From S2P Require Import Service ServiceRules ServiceSafety NodeDouble.

Section claims.
Context {AL : AccountLib} {CL : CliLib} {NL : NodeLib}.
Abbreviation history := (list (event NodeReq)).

(** ** The sequence of calls *)

(** A call by the name of the function, a spawned task by its own name. *)
Definition call_name (e : event NodeReq) : string :=
  match e with
  | @Ev _ B q _ =>
      match q with
      | TelemetryWorker_new _ => "TelemetryWorker::new"
      | new_telemetry _ _ => "new_telemetry"
      | new_full_parts _ _ _ => "new_full_parts"
      | spawn_job _ _ name _ _ => name
      | BasicPool_new_full _ _ _ _ _ => "BasicPool::new_full"
      | ParachainBlockImport_new _ _ => "ParachainBlockImport::new"
      | aura_slot_duration _ => "slot_duration"
      | aura_import_queue _ => "import_queue"
      | build_relay_chain_interface _ _ _ _ _ _ => "build_relay_chain_interface"
      | build_network _ => "build_network"
      | spawn_tasks _ => "spawn_tasks"
      | print_hwbench _ => "print_hwbench"
      | warn_hardware => "warn"
      | overseer_handle _ => "overseer_handle"
      | ProposerFactory_with_proof_recording _ _ _ _ _ => "ProposerFactory::with_proof_recording"
      | AuraConsensus_build _ => "AuraConsensus::build"
      | start_collator _ => "start_collator"
      | start_full_node _ => "start_full_node"
      | start_network _ => "start_network"
      | from_system_time => "from_system_time"
      | ParachainInherentData_create_at _ _ _ _ => "create_at"
      end
  end.

(** The calls made so far, oldest first. *)
Definition calls (h : history) : list string := reverse (call_name <$> h).

Lemma calls_cons {B} (q : NodeReq B) b h : calls (Ev q b :: h) = calls h ++ [call_name (Ev q b)].
Proof. unfold calls. cbn [fmap list_fmap]. apply reverse_cons. Qed.

Definition when (c : bool) (l : list string) : list string := if c then l else [].

(** The calls of each part, when all of them succeed. *)
Definition partial_sequence (config : Configuration) : list string :=
  when (has_endpoints config) ["TelemetryWorker::new"; "new_telemetry"] ++
  ["new_full_parts"] ++ when (has_endpoints config) ["telemetry"] ++
  ["BasicPool::new_full"; "ParachainBlockImport::new"; "slot_duration"; "import_queue"].

Definition hwbench_sequence (config : Configuration) (hwbench : option HwBench) : list string :=
  match hwbench with
  | None => []
  | Some hw =>
      ["print_hwbench"] ++
      when (negb (check_hardware hw) && is_authority (role_of config)) ["warn"] ++
      when (has_endpoints config) ["telemetry_hwbench"]
  end.

Definition node_sequence (config : Configuration) (hwbench : option HwBench) : list string :=
  partial_sequence config ++ ["build_relay_chain_interface"; "build_network"] ++
  when (enabled (offchain_worker config)) ["offchain-workers-runner"] ++
  ["spawn_tasks"] ++ when (indexing_enabled (offchain_worker config)) ["mmr_gadget"] ++
  hwbench_sequence config hwbench ++ ["overseer_handle"] ++
  (if is_authority (role_of config)
   then ["slot_duration"; "ProposerFactory::with_proof_recording"; "AuraConsensus::build";
         "start_collator"]
   else ["start_full_node"]) ++
  ["start_network"].

(** ** Nodes that answer *)

(** The relay chain side has a collator key, as an authority's command line requires. *)
Definition gives_key (e : event NodeReq) : bool :=
  match e with
  | @Ev _ B q b =>
      match q in NodeReq B return B → bool with
      | build_relay_chain_interface _ _ _ _ _ _ => λ b,
          match b with Ok (_, None) => false | _ => true end
      | _ => λ _, true
      end b
  end.

Definition up (h : history) (B : Type) (q : NodeReq B) (b : B) : Prop :=
  failure (Ev q b) = None ∧ gives_key (Ev q b) = true.

Abbreviation free := (λ (_ : history) (B : Type) (_ : NodeReq B), True).
(** The program succeeds and makes the calls [l]. *)
Abbreviation says h p l Φ :=
  (nwp (E:=ServiceError) up free h p
    (ends (λ h' a, calls h' = calls h ++ l ∧ Φ a) (λ _ _, False) (λ _, False))).

Ltac done_says :=
  cbn [ends]; rewrite ?calls_cons; rewrite <- ?app_assoc; cbn [when app]; try done.
Ltac up_next :=
  cbv beta zeta;
  first
  [ apply nwp_try; [done|intros ? [_ ?]|by intros ? [? _]]
  | apply nwp_try_last; [done|intros ? [_ ?]|by intros ? [? _]]
  | apply nwp_request_last; [done|intros ? _]
  | apply nwp_request; [done|intros ? _] ].

Lemma start_telemetry_says config h :
  says h (start_telemetry (config_telemetry_endpoints config))
    (when (has_endpoints config) ["TelemetryWorker::new"; "new_telemetry"])
    (λ t, is_Some t ↔ has_endpoints config = true).
Proof.
  unfold start_telemetry, has_endpoints.
  destruct (config_telemetry_endpoints config) as [endpoints|].
  2: { apply nwp_ret. unfold when. rewrite app_nil_r. split; [done|]. split; [by intros [? ?]|done]. }
  destruct (endpoints_empty endpoints); cbn [negb when].
  { apply nwp_ret. rewrite app_nil_r. split; [done|]. split; [by intros [? ?]|done]. }
  up_next. up_next. apply nwp_ret. split; [by done_says|]. by split.
Qed.

Lemma build_import_queue_says client block_import config telemetry tm h :
  says h (build_import_queue client block_import config telemetry tm)
    ["slot_duration"; "import_queue"] (λ _, True).
Proof. unfold build_import_queue. up_next. up_next. split; [by done_says|done]. Qed.

Lemma new_partial_says config h :
  says h (new_partial config) (partial_sequence config)
    (λ pc, is_Some (pc_telemetry pc) ↔ has_endpoints config = true).
Proof.
  unfold new_partial, partial_sequence.
  eapply nwp_call_ends; [apply start_telemetry_says|]. intros h1 t [H1 Ht].
  up_next. destruct b as [[[client backend] container] tm].
  eapply nwp_call_ends with (Φ := λ h' t',
    calls h' = calls h1 ++ ["new_full_parts"] ++ when (has_endpoints config) ["telemetry"] ∧
    (is_Some t' ↔ has_endpoints config = true)).
  { destruct t as [[worker telemetry]|].
    - up_next. apply nwp_ret. rewrite (proj1 Ht (ltac:(by eexists))). split; [by done_says|].
      split; [done|by eexists].
    - apply nwp_ret. destruct (has_endpoints config); [by destruct (proj2 Ht eq_refl) as [??]|].
      split; [by done_says|]. split; [by intros [? ?]|done]. }
  intros h2 t' [H2 Ht']. up_next. up_next.
  eapply nwp_call_ends; [apply build_import_queue_says|]. intros h3 queue [H3 _].
  apply nwp_ret. split; [|done]. rewrite H3, !calls_cons, H2, H1, <- !app_assoc. done.
Qed.

Lemma build_consensus_says client block_import registry telemetry tm relay pool sync ks force id h :
  says h (build_consensus client block_import registry telemetry tm relay pool sync ks force id)
    ["slot_duration"; "ProposerFactory::with_proof_recording"; "AuraConsensus::build"] (λ _, True).
Proof. unfold build_consensus. up_next. up_next. up_next. split; [by done_says|done]. Qed.

Lemma optional_job_says (c : bool) tm kind name group job h :
  says h (if c then request (spawn_job tm kind name group job) else mret tt)
    (when c [name]) (λ _, True).
Proof.
  destruct c; [up_next; split; [by done_says|done]|].
  apply nwp_ret. split; [|done]. unfold when. by rewrite app_nil_r.
Qed.

Lemma report_hwbench_says config hwbench telemetry tm h :
  (is_Some telemetry ↔ has_endpoints config = true) →
  says h (report_hwbench hwbench (is_authority (role_of config)) telemetry tm)
    (hwbench_sequence config hwbench) (λ _, True).
Proof.
  intros Ht. unfold report_hwbench, hwbench_sequence. destruct hwbench as [hw|].
  2: { apply nwp_ret. split; [|done]. by rewrite app_nil_r. }
  up_next.
  eapply nwp_call_ends with (Φ := λ h' _, calls h' = calls h ++ ["print_hwbench"] ++
    when (negb (check_hardware hw) && is_authority (role_of config)) ["warn"]).
  { destruct (negb (check_hardware hw) && is_authority (role_of config));
      [up_next|apply nwp_ret]; by done_says. }
  intros h1 _ H1. destruct telemetry as [t|].
  - up_next. rewrite (proj1 Ht (ltac:(by eexists))). split; [|done].
    rewrite calls_cons, H1, <- !app_assoc. done.
  - apply nwp_ret. split; [|done]. destruct (has_endpoints config);
      [by destruct (proj2 Ht eq_refl) as [??]|]. by rewrite H1, app_nil_r.
Qed.

Lemma start_node_impl_says config polkadot options id hwbench :
  says [] (start_node_impl config polkadot options id hwbench)
    (node_sequence (prepare_node_config config) hwbench) (λ _, True).
Proof.
  unfold start_node_impl. set (c := prepare_node_config config).
  eapply nwp_call_ends; [apply new_partial_says|]. intros h pc [S1 Ht].
  up_next. destruct b as [relay [key|]]; [|done].
  up_next. destruct b as [[[[net tx] controller] starter] sync].
  eapply nwp_call_ends; [apply optional_job_says|]. intros h2 _ [S2 _]. up_next.
  eapply nwp_call_ends; [apply optional_job_says|]. intros h3 _ [S3 _].
  eapply nwp_call_ends; [by apply report_hwbench_says|]. intros h4 _ [S4 _]. up_next.
  rewrite !calls_cons in S2. rewrite !calls_cons in S3.
  eapply nwp_call_ends with (Φ := λ h' _, calls h' = calls h4 ++ ["overseer_handle"] ++
    if is_authority (role_of c) then ["slot_duration"; "ProposerFactory::with_proof_recording";
      "AuraConsensus::build"; "start_collator"] else ["start_full_node"]).
  { destruct (is_authority (role_of c)).
    - eapply nwp_call_ends; [apply build_consensus_says|]. intros h5 consensus [S5 _].
      rewrite calls_cons in S5. apply nwp_index; [|done]. intros k _. up_next.
      simpl. rewrite calls_cons, S5, <- !app_assoc. done.
    - up_next. by done_says. }
  intros h6 _ S6. up_next. apply nwp_ret. split; [|done].
  rewrite calls_cons, S6, S4, S3, S2, S1. unfold node_sequence. rewrite <- !app_assoc. done.
Qed.

(** ** The MMR instances of the runtime *)

(** [INDEXING_PREFIX] of the two [pallet_mmr] configurations. *)
Definition ParaAMmr_INDEXING_PREFIX : bytes := INDEXING_PREFIX.
Definition ParaBMmr_INDEXING_PREFIX : bytes :=
  (λ c, #(Z.of_N (Ascii.N_of_ascii c))) <$> String.list_ascii_of_string "para_b_mmr".

(** ** Guarantees *)

(** [C24] The protocol of a node's start, whatever the SDK answers: no call follows a
    failed one or the start of the network; the telemetry, off-chain worker and MMR
    gadget tasks are spawned only when they are configured; the collator starts only
    for an authority, the full node only otherwise; the network starts with the
    starter that [build_network] made, right after one of them has started; and the
    function returns the task manager exactly when the network was started. *)
Theorem start_node_protocol orc config polkadot options id hwbench :
  ∃ r h, peval orc (start_parachain_node config polkadot options id hwbench) tt [] = (r, tt, h) ∧
    guarded (node_rule (prepare_node_config config)) h ∧
    (started h = true ↔ ∃ tm client, r = Ret (Ok (tm, client))).
Proof.
  destruct (nwp_run _ _ orc _ _ (λ _ _ _, I) (start_node_impl_safe _ config polkadot options id
    hwbench eq_refl)) as (r & h & Hrun & Hg & Hends).
  exists r, h. split_and!; [done..|].
  destruct r as [[[tm client]|e]| |]; simpl in Hends.
  - destruct Hends as [Hs _]. split; [|done]. intros _. by exists tm, client.
  - destruct Hends as (ev & h0 & -> & _ & Hst & [_ Hs]). unfold started in *. cbn [existsb].
    rewrite Hst, Hs. split; [done|]. by intros (? & ? & [=]).
  - destruct Hends as (_ & _ & _ & ->). split; [done|]. by intros (? & ? & [=]).
  - done.
Qed.

(** [C26] The start of a node fails fast: it returns an error exactly when a call
    failed, that call is the last one made, and the error is the call's, converted;
    it panics only for an authority to which the relay chain side gave no collator
    key; it always ends. *)
Theorem start_node_fails_fast orc config polkadot options id hwbench :
  ∃ r h, peval orc (start_parachain_node config polkadot options id hwbench) tt [] = (r, tt, h) ∧
    (∀ e, r = Ret (Err e) ↔ failure <$> head h = Some (Some e)) ∧
    (∀ ev, ev ∈ tail h → failure ev = None) ∧
    (r = Panic → is_authority (role_of (prepare_node_config config)) = true ∧ no_collator_key h) ∧
    r ≠ Diverge.
Proof.
  destruct (nwp_run _ _ orc _ _ (λ _ _ _, I) (start_node_impl_safe _ config polkadot options id
    hwbench eq_refl)) as (r & h & Hrun & _ & Hends).
  exists r, h. split; [done|]. clear Hrun.
  assert (∀ l, Forall (λ e, failure e = None) l → (∀ e, failure <$> head l ≠ Some (Some e)) ∧
    ∀ ev, ev ∈ tail l → failure ev = None) as Hok.
  { intros l Hl. destruct Hl as [|ev l Hev Hl]; simpl; [split; [done|]; intros ev Hin;
      by apply elem_of_nil in Hin|]. split; [congruence|]. by apply list.Forall_forall. }
  destruct r as [[a|e]| |]; simpl in Hends.
  - destruct Hends as [_ [H1 H2]%Hok]. split_and!; [|done..]. intros e. by split; [|intros ?%H1].
  - destruct Hends as (ev & h0 & -> & Hf & _ & [Hc _]). split_and!; [|by apply list.Forall_forall|done..].
    intros e'. simpl. rewrite Hf. naive_solver.
  - destruct Hends as (Ha & Hn & [[H1 H2]%Hok _]). split_and!; [|done..].
    intros e. by split; [|intros ?%H1].
  - done.
Qed.

(** [C27] A node comes up in a fixed sequence: when no call fails and there is a
    collator key, the calls are those of [node_sequence], in that order and nothing
    else, and the node runs. *)
Theorem start_node_sequence orc config polkadot options id hwbench :
  (∀ h B q, up h B q (orc h B q)) →
  ∃ tm client h, peval orc (start_parachain_node config polkadot options id hwbench) tt [] =
    (Ret (Ok (tm, client)), tt, h) ∧
    calls h = node_sequence (prepare_node_config config) hwbench.
Proof.
  intros Horc. destruct (nwp_run _ _ orc _ _ Horc (start_node_impl_says config polkadot options id
    hwbench)) as (r & h & Hrun & _ & Hends).
  destruct r as [[[tm client]|e]| |]; simpl in Hends; [|done..]. destruct Hends as [Hc _]. by exists tm, client, h.
Qed.

Lemma guarded_spawn config h tm kind name group job :
  guarded (node_rule config) h → Ev (spawn_job tm kind name group job) tt ∈ h → job_rule config job.
Proof. intros Hg Hin. by apply (guarded_elem _ _ _ Hg) in Hin as (h' & _ & Hjob). Qed.

(** The node serves the off-chain data of one of the two MMRs: every MMR gadget
    it starts works on the indexing prefix of the MMR of parachain A, none on that of
    parachain B, whose off-chain nodes are therefore never made canonical. *)
Theorem mmr_gadget_single_instance orc config polkadot options id hwbench r h tm kind name group
    client backend prefix :
  INDEXING_PREFIX ≠ ParaBMmr_INDEXING_PREFIX →
  peval orc (start_parachain_node config polkadot options id hwbench) tt [] = (r, tt, h) →
  Ev (spawn_job tm kind name group (MmrGadget_start client backend prefix)) tt ∈ h →
  prefix = ParaAMmr_INDEXING_PREFIX ∧ prefix ≠ ParaBMmr_INDEXING_PREFIX.
Proof.
  intros Hne Hrun Hin.
  destruct (nwp_run _ _ orc _ _ (λ _ _ _, I) (start_node_impl_safe _ config polkadot options id
    hwbench eq_refl)) as (r' & h' & Hrun' & Hg & _).
  unfold start_parachain_node in Hrun. rewrite Hrun in Hrun'. injection Hrun' as <- <-.
  by destruct (guarded_spawn _ _ _ _ _ _ _ Hg Hin) as [_ ->].
Qed.
End claims.

(** ** Witnesses *)

Lemma td_node_up : ∀ h B q, up h B q (td_node_orc (Some tt) h B q).
Proof. intros h B []; by split. Qed.

Lemma start_node_sequence_witness :
  ∃ tm client h, peval (td_node_orc (Some tt))
      (start_parachain_node td_collator td_collator tt #1000 (Some false)) tt [] =
    (Ret (Ok (tm, client)), tt, h) ∧
    calls h = ["TelemetryWorker::new"; "new_telemetry"; "new_full_parts"; "telemetry";
      "BasicPool::new_full"; "ParachainBlockImport::new"; "slot_duration"; "import_queue";
      "build_relay_chain_interface"; "build_network"; "offchain-workers-runner"; "spawn_tasks";
      "mmr_gadget"; "print_hwbench"; "warn"; "telemetry_hwbench"; "overseer_handle";
      "slot_duration"; "ProposerFactory::with_proof_recording"; "AuraConsensus::build";
      "start_collator"; "start_network"].
Proof.
  exact (start_node_sequence (td_node_orc (Some tt)) td_collator td_collator tt #1000 (Some false)
    td_node_up).
Defined.

(** The calls of a collator's start, with no hardware benchmark. *)
Definition td_node_history : list (event NodeReq) :=
  (peval (td_node_orc (Some tt)) (start_parachain_node td_collator td_collator tt #1000 None)
    tt []).2.

Lemma mmr_gadget_single_instance_witness :
  INDEXING_PREFIX = ParaAMmr_INDEXING_PREFIX ∧ INDEXING_PREFIX ≠ ParaBMmr_INDEXING_PREFIX.
Proof.
  apply (mmr_gadget_single_instance (td_node_orc (Some tt)) td_collator td_collator tt #1000 None
    (Ret (Ok (tt, tt))) td_node_history tt EssentialBlocking "mmr_gadget" None tt tt).
  - intros Heq. apply (f_equal length) in Heq. discriminate Heq.
  - vm_cast_no_check (eq_refl (Ret (Ok (E:=ServiceError) (tt, tt)), tt, td_node_history)).
  - apply (list_elem_of_lookup_2 _ 6).
    vm_cast_no_check (eq_refl (td_node_history !! 6)).
Defined.
