(* ===== verification/Command.v ===== *)
(** * The node's commands

    [node/src/command.rs], function [run], and [node/src/main.rs]: the dispatch of
    the sub-commands and the start of a node from the command line. The commands
    themselves, the runner and the parser are the SDK's. *)
From S2P Require Import Prelude Words RuntimeConfig ChainSpec NodeCli NodeSdk Conc Service.

(** ** Interfaces of the SDK *)

(** The sub-commands of [sc_cli], [cumulus_client_cli] and so on, as parsed. *)
Class CmdLib `{!AccountLib} `{!CliLib} `{!NodeLib} := {
  BuildSpecCmd : Type;
  CheckBlockCmd : Type;
  ExportBlocksCmd : Type;
  ExportStateCmd : Type;
  ImportBlocksCmd : Type;
  RevertCmd : Type;
  PurgeChainCmd : Type;
  ExportGenesisStateCommand : Type;
  ExportGenesisWasmCommand : Type;
  PalletCmd : Type;
  BlockCmd : Type;
  StorageCmd : Type;
  MachineCmd : Type;
  OtherBenchmarkCmd : Type;
  TryRuntimeCmd : Type;
  RunCmd : Type;
  NormalizedRunCmd : Type;
  Db : Type;
  BackendStorage : Type;
  PrometheusError : Type;
  normalize : RunCmd → NormalizedRunCmd;
  collator_options : RunCmd → CollatorOptions;
  (** [cmd.shared_params.chain]. *)
  wasm_chain : ExportGenesisWasmCommand → option string;
  expose_db : Backend → Db;
  expose_storage : Backend → BackendStorage;
  (** [{}] of an [sc_cli::Error] and [{:?}] of a [PrometheusError]. *)
  display_error : CliError → string;
  debug_error : PrometheusError → string;
}.

Section commands.
Context {AL : AccountLib} {CL : CliLib} {NL : NodeLib} {ML : CmdLib}.
(** The features of the build. *)
Context (runtime_benchmarks try_runtime : bool).

(** [frame_benchmarking_cli::BenchmarkCmd]; the variants that [run] does not name are
    one constructor. *)
Inductive BenchmarkCmd : Type :=
| Benchmark_Pallet (cmd : PalletCmd)
| Benchmark_Block (cmd : BlockCmd)
| Benchmark_Storage (cmd : StorageCmd)
| Benchmark_Machine (cmd : MachineCmd)
| Benchmark_other (cmd : OtherBenchmarkCmd).

(** [Subcommand]; [TryRuntime] has an argument only with its feature. *)
Inductive Subcommand : Type :=
| BuildSpec (cmd : BuildSpecCmd)
| CheckBlock (cmd : CheckBlockCmd)
| ExportBlocks (cmd : ExportBlocksCmd)
| ExportState (cmd : ExportStateCmd)
| ImportBlocks (cmd : ImportBlocksCmd)
| Revert (cmd : RevertCmd)
| PurgeChain (cmd : PurgeChainCmd)
| ExportGenesisState (cmd : ExportGenesisStateCommand)
| ExportGenesisWasm (cmd : ExportGenesisWasmCommand)
| Benchmark (cmd : BenchmarkCmd)
| TryRuntime (cmd : if try_runtime then TryRuntimeCmd else ()).

(** [Cli]. *)
Record Cli : Type := mkCli {
  subcommand : option Subcommand;
  cli_run : RunCmd;
  no_hardware_benchmarks : bool;
  relay_chain_args : list string
}.

(** ** Calls *)

(** The [run] methods of the SDK's commands, with their arguments. *)
Inductive CmdRun : Type :=
| BuildSpec_run (cmd : BuildSpecCmd) (spec : ChainSpec) (network : NetworkConfiguration)
| CheckBlock_run (cmd : CheckBlockCmd) (client : Client) (queue : ImportQueue)
| ExportBlocks_run (cmd : ExportBlocksCmd) (client : Client) (database : DatabaseSource)
| ExportState_run (cmd : ExportStateCmd) (client : Client) (spec : ChainSpec)
| ImportBlocks_run (cmd : ImportBlocksCmd) (client : Client) (queue : ImportQueue)
| Revert_run (cmd : RevertCmd) (client : Client) (backend : Backend)
| PurgeChain_run (cmd : PurgeChainCmd) (config polkadot_config : Configuration)
| ExportGenesisState_run (cmd : ExportGenesisStateCommand) (spec : ChainSpec) (client : Client)
| ExportGenesisWasm_run (cmd : ExportGenesisWasmCommand) (spec : ChainSpec)
| BenchmarkPallet_run (cmd : PalletCmd) (config : Configuration)
| BenchmarkBlock_run (cmd : BlockCmd) (client : Client)
| BenchmarkStorage_run (cmd : StorageCmd) (config : Configuration) (client : Client) (db : Db)
    (storage : BackendStorage)
| BenchmarkMachine_run (cmd : MachineCmd) (config : Configuration)
| TryRuntime_run (cmd : TryRuntimeCmd) (info_provider : u64).

(** What a runner is created for. *)
Inductive RunnerArg : Type :=
| ForSubcommand (s : Subcommand)
| ForRun (cmd : NormalizedRunCmd).

(** The calls of [run]; those of the service are among them. A runner is the
    configuration it was created with. *)
Inductive CmdReq : Type → Type :=
| Node {B} (q : NodeReq B) : CmdReq B
| create_runner (for_ : RunnerArg) : CmdReq (result CliError Configuration)
| run_cmd (cmd : CmdRun) : CmdReq (result CliError ())
| run_future (cmd : CmdRun) (task_manager : TaskManager) : CmdReq (result CliError ())
| create_configuration (cli : RelayChainCli) (tokio : TokioHandle) :
    CmdReq (result CliError Configuration)
| create_dir_all (path : Path) : CmdReq ()
| gather_hwbench (path : Path) : CmdReq HwBench
| TaskManager_new (tokio : TokioHandle) (registry : option Registry) :
    CmdReq (result PrometheusError TaskManager)
| until_exit (task_manager : TaskManager) : CmdReq (result CliError ()).

Abbreviation command A := (prog () CmdReq Empty_set CliError A).

(** A function of the service, called from [run]. *)
Definition service {A} (p : prog () NodeReq Empty_set ServiceError A) : command A :=
  ptranslate (@Node) Service p.

(** [r?] for a result of the command line. *)
Definition ptry {A} (r : result CliError A) : command A := pmap_err r id.

(** [sc_cli::Runner]. *)
Class RunnerLib := {
  sync_run : Configuration → (Configuration → command ()) → command ();
  async_run : Configuration → (Configuration → command (CmdRun * TaskManager)) → command ();
  run_node_until_exit : Configuration → (Configuration → command TaskManager) → command ();
}.

(** "A helper function that runs a command with the configuration of this node"; "that
    runs a future with tokio and stops if the process receives a signal"; "that runs a
    node with tokio and stops if the process receives the signal". *)
Class RunnerLaws `{!RunnerLib} : Prop := {
  sync_run_spec : ∀ config f, sync_run config f = f config;
  async_run_spec : ∀ config f, async_run config f =
    (future ← f config; done ← request (run_future future.1 future.2); ptry done);
  run_node_spec : ∀ config f, run_node_until_exit config f =
    (task_manager ← f config; done ← request (until_exit task_manager); ptry done);
}.

Context {RL : RunnerLib}.
Context (get_extension : ChainSpec → option Extensions).
Context (parse_from : list string → CliConfiguration).
Context (WASM_BINARY : option bytes) (SAFE_XCM_VERSION : u32).
Context (from_json_file : string → result string ChainSpec).

(** ** The dispatch *)

(** [construct_async_run!]: the code is what it does with the components. *)
Definition construct_async_run (arg : Subcommand)
    (code : PartialComponents → Configuration → CmdRun) : command () :=
  answer ← request (create_runner (ForSubcommand arg));
  runner ← ptry answer;
  async_run runner (λ config,
    components ← service (new_partial config);
    let task_manager := pc_task_manager components in
    mret (code components config, task_manager)).

(** The relay chain's configuration, from the arguments after [--]. *)
Definition relay_configuration (cli : Cli) (config : Configuration) : command Configuration :=
  let polkadot_cli := RelayChainCli_new get_extension parse_from config
    (executable_name :: relay_chain_args cli) in
  answer ← request (create_configuration polkadot_cli (tokio_handle config));
  pmap_err answer (λ err, Input (String.append "Relay chain argument error: " (display_error err))).

Definition benchmarking_disabled : string :=
  "Benchmarking wasn't enabled when building the node. You can enable it with `--features runtime-benchmarks`.".
Definition storage_disabled : string :=
  "Compile with --features=runtime-benchmarks to enable storage benchmarks.".
Definition try_runtime_disabled : string :=
  "Try-runtime was not enabled when building the node. You can enable it with `--features try-runtime`.".

(** The arm [Subcommand::Benchmark]. *)
Definition run_benchmark (cmd : BenchmarkCmd) : command () :=
  answer ← request (create_runner (ForSubcommand (Benchmark cmd)));
  runner ← ptry answer;
  match cmd with
  | Benchmark_Pallet cmd =>
      if runtime_benchmarks then
        sync_run runner (λ config, done ← request (run_cmd (BenchmarkPallet_run cmd config)); ptry done)
      else pthrow (Input benchmarking_disabled)
  | Benchmark_Block cmd => sync_run runner (λ config,
      partials ← service (new_partial config);
      done ← request (run_cmd (BenchmarkBlock_run cmd (pc_client partials)));
      ptry done)
  | Benchmark_Storage cmd =>
      if negb runtime_benchmarks then pthrow (Input storage_disabled)
      else sync_run runner (λ config,
        partials ← service (new_partial config);
        let db := expose_db (pc_backend partials) in
        let storage := expose_storage (pc_backend partials) in
        done ← request (run_cmd (BenchmarkStorage_run cmd config (pc_client partials) db storage));
        ptry done)
  | Benchmark_Machine cmd => sync_run runner (λ config,
      done ← request (run_cmd (BenchmarkMachine_run cmd config)); ptry done)
  | Benchmark_other _ => pthrow (Input "Benchmarking sub-command unsupported")
  end.

(** The arm [Subcommand::TryRuntime], with its feature and without. *)
Definition run_try_runtime_arm (enabled : bool) :
    ((if enabled then TryRuntimeCmd else ()) → RunnerArg) →
    (if enabled then TryRuntimeCmd else ()) → command () :=
  match enabled with
  | true => λ arg cmd,
      answer ← request (create_runner (arg cmd));
      runner ← ptry answer;
      let registry := prometheus_registry runner in
      tm ← request (TaskManager_new (tokio_handle runner) registry);
      task_manager ← pmap_err tm (λ e, Input (String.append "Error: " (debug_error e)));
      let info_provider := MILLISECS_PER_BLOCK in
      async_run runner (λ _, mret (TryRuntime_run cmd info_provider, task_manager))
  | false => λ _ _, pthrow (Input try_runtime_disabled)
  end.

Definition run_try_runtime (cmd : if try_runtime then TryRuntimeCmd else ()) : command () :=
  run_try_runtime_arm try_runtime (λ cmd, ForSubcommand (TryRuntime cmd)) cmd.

(** The hardware benchmark: the argument of [then_some] is evaluated in any case. *)
Definition hardware_benchmark (cli : Cli) (config : Configuration) : command (option HwBench) :=
  measured ← (match database_path (database config) with
    | Some path =>
        _ ← request (create_dir_all path);
        hwbench ← request (gather_hwbench path);
        mret (Some hwbench)
    | None => mret None
    end : command (option HwBench));
  mret (mjoin (if negb (no_hardware_benchmarks cli) then Some measured else None)).

(** The arm [None]: run a node. *)
Definition run_node (cli : Cli) : command () :=
  answer ← request (create_runner (ForRun (normalize (cli_run cli))));
  runner ← ptry answer;
  let collator_options := collator_options (cli_run cli) in
  run_node_until_exit runner (λ config,
    hwbench ← hardware_benchmark cli config;
    para_id ← ptry (node_para_id get_extension config);
    polkadot_config ← relay_configuration cli config;
    r ← service (start_parachain_node config polkadot_config collator_options para_id hwbench);
    mret r.1).

(** [run], on the parsed command line. *)
Definition run_cli (cli : Cli) : command () :=
  match subcommand cli with
  | Some (BuildSpec cmd) =>
      answer ← request (create_runner (ForSubcommand (BuildSpec cmd)));
      runner ← ptry answer;
      sync_run runner (λ config,
        done ← request (run_cmd (BuildSpec_run cmd (chain_spec config) (network config)));
        ptry done)
  | Some (CheckBlock cmd) => construct_async_run (CheckBlock cmd) (λ components config,
      CheckBlock_run cmd (pc_client components) (pc_import_queue components))
  | Some (ExportBlocks cmd) => construct_async_run (ExportBlocks cmd) (λ components config,
      ExportBlocks_run cmd (pc_client components) (database config))
  | Some (ExportState cmd) => construct_async_run (ExportState cmd) (λ components config,
      ExportState_run cmd (pc_client components) (chain_spec config))
  | Some (ImportBlocks cmd) => construct_async_run (ImportBlocks cmd) (λ components config,
      ImportBlocks_run cmd (pc_client components) (pc_import_queue components))
  | Some (Revert cmd) => construct_async_run (Revert cmd) (λ components config,
      Revert_run cmd (pc_client components) (pc_backend components))
  | Some (PurgeChain cmd) =>
      answer ← request (create_runner (ForSubcommand (PurgeChain cmd)));
      runner ← ptry answer;
      sync_run runner (λ config,
        polkadot_config ← relay_configuration cli config;
        done ← request (run_cmd (PurgeChain_run cmd config polkadot_config));
        ptry done)
  | Some (ExportGenesisState cmd) =>
      answer ← request (create_runner (ForSubcommand (ExportGenesisState cmd)));
      runner ← ptry answer;
      sync_run runner (λ config,
        partials ← service (new_partial config);
        done ← request (run_cmd (ExportGenesisState_run cmd (chain_spec config) (pc_client partials)));
        ptry done)
  | Some (ExportGenesisWasm cmd) =>
      answer ← request (create_runner (ForSubcommand (ExportGenesisWasm cmd)));
      runner ← ptry answer;
      sync_run runner (λ _config,
        spec ← pmap_err (load_spec WASM_BINARY SAFE_XCM_VERSION from_json_file
                 (default empty_id (wasm_chain cmd))) Input;
        done ← request (run_cmd (ExportGenesisWasm_run cmd spec));
        ptry done)
  | Some (Benchmark cmd) => run_benchmark cmd
  | Some (TryRuntime cmd) => run_try_runtime cmd
  | None => run_node cli
  end.

(** [main]: parse the arguments and run. *)
Context (from_args : Cli).
Definition node_main : command () := run_cli from_args.
End commands.
