(* ===== verification/CommandClaims.v ===== *)
(** * Guarantees of the node's commands

    Which calls a sub-command may make, how a node is started from the command line,
    and what the disabled features and the hardware benchmark option do. *)
From S2P Require Import Prelude Words RuntimeConfig ChainSpec NodeCli NodeSdk NodeDouble Conc.
From S2P Require Import Service ServiceRules ServiceSafety Command.

Section claims.
Context {AL : AccountLib} {CL : CliLib} {NL : NodeLib} {ML : CmdLib}.
Context (runtime_benchmarks try_runtime : bool).
Context {RL : RunnerLib try_runtime} {RLL : RunnerLaws try_runtime}.
Context (get_extension : ChainSpec → option Extensions).
Context (parse_from : list string → CliConfiguration).
Context (WASM_BINARY : option bytes) (SAFE_XCM_VERSION : u32).
Context (from_json_file : string → result string ChainSpec).
Abbreviation history := (list (event (CmdReq try_runtime))).
Abbreviation run cli := (run_cli runtime_benchmarks try_runtime get_extension parse_from
  WASM_BINARY SAFE_XCM_VERSION from_json_file cli).

(** ** Off-line calls *)

(** Calls of the service that need neither network nor consensus. *)
Definition node_offline {B} (q : NodeReq B) : bool :=
  match q with
  | build_relay_chain_interface _ _ _ _ _ _ | build_network _ | spawn_tasks _
  | overseer_handle _ | ProposerFactory_with_proof_recording _ _ _ _ _ | AuraConsensus_build _
  | start_collator _ | start_full_node _ | start_network _ => false
  | _ => true
  end.

Definition offline {B} (q : CmdReq try_runtime B) : bool :=
  match q with
  | Node _ q => node_offline q
  | until_exit _ _ => false
  | _ => true
  end.

(** *** The parts of a command *)

Lemma build_import_queue_offline client block_import config telemetry tm :
  asks (@node_offline) (build_import_queue client block_import config telemetry tm).
Proof. unfold build_import_queue. auto with asks. Qed.
Hint Resolve build_import_queue_offline : asks.

Lemma start_telemetry_offline endpoints : asks (@node_offline) (start_telemetry endpoints).
Proof. unfold start_telemetry. auto 10 with asks. Qed.
Hint Resolve start_telemetry_offline : asks.

Lemma new_partial_offline config : asks (@node_offline) (new_partial config).
Proof. unfold new_partial. auto 20 with asks. Qed.

Lemma service_offline {A} (p : prog () NodeReq Empty_set ServiceError A) :
  asks (@node_offline) p → asks (@offline) (service try_runtime p).
Proof. intros Hp. by apply asks_translate. Qed.
Hint Resolve new_partial_offline service_offline : asks.

Lemma ptry_offline {A} (r : result CliError A) : asks (@offline) (ptry try_runtime r).
Proof. apply asks_pmap_err. Qed.
Hint Resolve ptry_offline : asks.

Lemma sync_run_offline config f :
  (∀ c, asks (@offline) (f c)) → asks (@offline) (sync_run try_runtime config f).
Proof. intros Hf. rewrite (sync_run_spec try_runtime (RunnerLaws:=RLL)). apply Hf. Qed.
Lemma async_run_offline config f :
  (∀ c, asks (@offline) (f c)) → asks (@offline) (async_run try_runtime config f).
Proof. intros Hf. rewrite (async_run_spec try_runtime (RunnerLaws:=RLL)). auto with asks. Qed.
Hint Resolve sync_run_offline async_run_offline : asks.

Lemma construct_async_run_offline arg code :
  asks (@offline) (construct_async_run try_runtime arg code).
Proof. unfold construct_async_run. auto 10 with asks. Qed.
Lemma relay_configuration_offline cli config :
  asks (@offline) (relay_configuration try_runtime get_extension parse_from cli config).
Proof. unfold relay_configuration. auto with asks. Qed.
Lemma run_benchmark_offline cmd : asks (@offline) (run_benchmark runtime_benchmarks try_runtime cmd).
Proof. unfold run_benchmark. apply asks_bind; [auto with asks|]. intros answer. destruct cmd; auto 10 with asks. Qed.
Lemma run_try_runtime_offline enabled arg cmd :
  asks (@offline) (run_try_runtime_arm try_runtime enabled arg cmd).
Proof. unfold run_try_runtime_arm. destruct enabled; auto 10 with asks. Qed.
Hint Resolve construct_async_run_offline relay_configuration_offline run_benchmark_offline
  run_try_runtime_offline : asks.

Lemma subcommand_offline cli sub : subcommand try_runtime cli = Some sub → asks (@offline) (run cli).
Proof. intros Hsub. unfold run_cli. rewrite Hsub. unfold run_try_runtime. destruct sub; auto 10 with asks. Qed.

(** ** Running a node *)

Section node.
Context (orc : history → ∀ B, CmdReq try_runtime B → B).
Context (cli : Cli try_runtime) (config : Configuration).
Abbreviation all_offline h := (Forall (λ e, event_asks (@offline) e = true) h).

Lemma peval_ptry {A B} (r : result CliError A)
    (k : A → prog () (CmdReq try_runtime) Empty_set CliError B) s h a :
  r = Ok a → peval orc (x ← ptry try_runtime r; k x) s h = peval orc (k a) s h.
Proof. by intros ->. Qed.

(** What the start of a node makes of the hardware benchmark. *)
Lemma hardware_benchmark_run h :
  ∃ hwbench h0, peval orc (hardware_benchmark try_runtime cli config) tt h =
      (Ret (Ok hwbench), tt, h0 ++ h) ∧ all_offline h0 ∧
    (no_hardware_benchmarks try_runtime cli = true → hwbench = None) ∧
    (∀ path, database_path (database config) = Some path →
       ∃ measured, Ev (gather_hwbench try_runtime path) measured ∈ h0 ∧
         (no_hardware_benchmarks try_runtime cli = false → hwbench = Some measured)).
Proof.
  unfold hardware_benchmark. destruct (database_path (database config)) as [path|]; simpl.
  - eexists _, [_; _]. split; [done|]. split; [by repeat constructor|].
    split; [by intros ->|]. intros p [= <-]. eexists. split; [apply list_elem_of_here|].
    by intros ->.
  - eexists _, []. split; [done|]. split; [done|]. split; [by intros ->|]. done.
Qed.

Abbreviation runner_for := (create_runner try_runtime (ForRun try_runtime (normalize (cli_run _ cli)))).
Abbreviation relay_cli := (RelayChainCli_new get_extension parse_from config
  (executable_name :: relay_chain_args try_runtime cli)).

Lemma relay_configuration_run h answer :
  orc h _ (create_configuration _ relay_cli (tokio_handle config)) = answer →
  peval orc (relay_configuration try_runtime get_extension parse_from cli config) tt h =
    (match answer with
     | Ok polkadot => Ret (Ok polkadot)
     | Err e => Ret (Err (Input (String.append "Relay chain argument error: " (display_error e))))
     end, tt, Ev (create_configuration _ relay_cli (tokio_handle config)) answer :: h).
Proof.
  intros Ha. unfold relay_configuration. erewrite peval_request by exact Ha. by destruct answer.
Qed.

(** A node's start up to the relay chain's configuration. *)
Lemma run_node_begins :
  subcommand try_runtime cli = None → orc [] _ runner_for = Ok config →
  ∃ hwbench h, all_offline h ∧ (no_hardware_benchmarks try_runtime cli = true → hwbench = None) ∧
    (∀ path, database_path (database config) = Some path →
       ∃ measured, Ev (gather_hwbench try_runtime path) measured ∈ h) ∧
    peval orc (run cli) tt [] = peval orc
      (task_manager ← (
         para_id ← ptry try_runtime (node_para_id get_extension config);
         polkadot_config ← relay_configuration try_runtime get_extension parse_from cli config;
         r ← service try_runtime (start_parachain_node config polkadot_config
               (collator_options (cli_run _ cli)) para_id hwbench);
         mret r.1);
       done ← request (until_exit try_runtime task_manager); ptry try_runtime done) tt h.
Proof.
  intros Hnone Hrunner.
  destruct (hardware_benchmark_run [Ev runner_for (Ok config)]) as (hw & h0 & Hrun & Hoff & Hno & Hgather).
  exists hw, (h0 ++ [Ev runner_for (Ok config)]). split_and!.
  - apply list.Forall_app. split; [done|]. by constructor.
  - done.
  - intros path Hp. destruct (Hgather path Hp) as (m & Hin & _). exists m. apply elem_of_app. by left.
  - unfold run_cli. rewrite Hnone. unfold run_node. erewrite peval_request by exact Hrunner.
    erewrite peval_ptry by done. rewrite (run_node_spec try_runtime (RunnerLaws:=RLL)).
    etransitivity; [apply peval_bind|]. etransitivity; [|symmetry; apply peval_bind].
    erewrite peval_call by exact Hrun. done.
Qed.

(** ** Guarantees *)

(** [C28] How a node is started from the command line: the error of the runner is
    returned; without a parachain id in the specification, or with bad relay chain
    arguments, the node does not start and the message says why; otherwise the
    service is started, after off-line calls only, with the runner's configuration,
    the relay chain's, the collator options of the command line and the parachain id
    of the specification, and the process waits for the node's task manager. *)
Theorem node_from_command_line ext :
  subcommand try_runtime cli = None →
  (∀ e, orc [] _ runner_for = Err e →
     peval orc (run cli) tt [] = (Ret (Err e), tt, [Ev runner_for (Err e)])) ∧
  (orc [] _ runner_for = Ok config →
   (get_extension (chain_spec config) = None → ∃ h, all_offline h ∧ peval orc (run cli) tt [] =
      (Ret (Err (Input "Could not find parachain ID in chain-spec.")), tt, h)) ∧
   (get_extension (chain_spec config) = Some ext →
    (∀ e, (∀ h, orc h _ (create_configuration _ relay_cli (tokio_handle config)) = Err e) →
      ∃ h, all_offline h ∧ peval orc (run cli) tt [] =
        (Ret (Err (Input (String.append "Relay chain argument error: " (display_error e)))), tt, h)) ∧
    (∀ polkadot, (∀ h, orc h _ (create_configuration _ relay_cli (tokio_handle config)) = Ok polkadot) →
      ∃ hwbench h, all_offline h ∧
        (no_hardware_benchmarks try_runtime cli = true → hwbench = None) ∧
        peval orc (run cli) tt [] = peval orc
          (task_manager ← (
             r ← service try_runtime (start_parachain_node config polkadot
                   (collator_options (cli_run _ cli)) (ext_para_id ext) hwbench);
             mret r.1);
           done ← request (until_exit try_runtime task_manager); ptry try_runtime done) tt h))).
Proof.
  intros Hnone. split.
  { intros e He. unfold run_cli. rewrite Hnone. unfold run_node.
    by erewrite peval_request by exact He. }
  intros Hrunner. destruct (run_node_begins Hnone Hrunner) as (hw & h & Hoff & Hno & _ & ->).
  split.
  { intros Hext. exists h. split; [done|]. apply peval_call_Err, peval_call_Err.
    unfold node_para_id, Extensions_try_get. by rewrite Hext. }
  intros Hext.
  assert (node_para_id get_extension config = Ok (ext_para_id ext)) as Hid
    by (unfold node_para_id, Extensions_try_get; by rewrite Hext).
  rewrite Hid. split.
  - intros e He. exists (Ev (create_configuration _ relay_cli (tokio_handle config)) (Err e) :: h).
    split; [by constructor|].
    apply peval_call_Err. erewrite peval_ptry by done.
    apply peval_call_Err. by rewrite (relay_configuration_run h _ (He h)).
  - intros polkadot Hp. exists hw,
      (Ev (create_configuration _ relay_cli (tokio_handle config)) (Ok polkadot) :: h).
    split; [by constructor|]. split; [done|].
    etransitivity; [apply peval_bind|]. etransitivity; [|symmetry; apply peval_bind].
    erewrite peval_ptry by done. by erewrite peval_call by apply (relay_configuration_run h _ (Hp h)).
Qed.

(** The option to disable the hardware benchmarks does not disable them: whenever
    a node is run with a database path, the benchmark is measured, whatever the option
    says; the option only drops the result. *)
Theorem hardware_benchmarks_always_run path :
  subcommand try_runtime cli = None → orc [] _ runner_for = Ok config →
  database_path (database config) = Some path →
  ∃ r h measured, peval orc (run cli) tt [] = (r, tt, h) ∧
    Ev (gather_hwbench try_runtime path) measured ∈ h.
Proof.
  intros Hnone Hrunner Hpath.
  destruct (run_node_begins Hnone Hrunner) as (hw & h & _ & _ & Hgather & ->).
  destruct (Hgather path Hpath) as [m Hin].
  match goal with |- context [peval orc ?p tt h] =>
    destruct (peval orc p tt h) as [[r []] h'] eqn:Hrun end.
  apply peval_history in Hrun as [h0 ->]. exists r, (h0 ++ h), m. split; [done|].
  apply elem_of_app. by right.
Qed.
End node.

(** [C29] No sub-command goes on-line: whatever the SDK answers, a run with a
    sub-command never builds the relay chain interface or the network, never spawns
    the node's tasks, and never starts consensus or the network. *)
Theorem subcommands_offline orc cli sub :
  subcommand try_runtime cli = Some sub →
  ∃ r h, peval orc (run cli) tt [] = (r, tt, h) ∧ Forall (λ e, event_asks (@offline) e = true) h.
Proof.
  intros Hsub. destruct (peval orc (run cli) tt []) as [[r []] h] eqn:Hrun. exists r, h.
  split; [done|]. apply asks_peval with (P := @offline) in Hrun as (h0 & -> & Hall);
    [|by eapply subcommand_offline]. by rewrite app_nil_r.
Qed.

Lemma run_try_runtime_refused enabled arg cmd :
  enabled = false → run_try_runtime_arm try_runtime enabled arg cmd =
    pthrow (Input try_runtime_disabled).
Proof. destruct enabled; [done|]. reflexivity. Qed.

(** A command whose feature was not built is refused with a message that names
    the feature, and nothing is run: the pallet and storage benchmarks after the
    runner was created, [try-runtime] at once. *)
Theorem disabled_features_refused (orc : history → ∀ B, CmdReq try_runtime B → B) cli :
  (runtime_benchmarks = false → ∀ b config,
    (∃ c, b = Benchmark_Pallet c) ∨ (∃ c, b = Benchmark_Storage c) →
    subcommand try_runtime cli = Some (Benchmark try_runtime b) →
    orc [] _ (create_runner _ (ForSubcommand try_runtime (Benchmark try_runtime b))) = Ok config →
    ∃ e, (e = benchmarking_disabled ∨ e = storage_disabled) ∧ peval orc (run cli) tt [] =
      (Ret (Err (Input e)), tt,
       [Ev (create_runner _ (ForSubcommand try_runtime (Benchmark try_runtime b))) (Ok config)])) ∧
  (try_runtime = false → ∀ c, subcommand try_runtime cli = Some (TryRuntime try_runtime c) →
    peval orc (run cli) tt [] = (Ret (Err (Input try_runtime_disabled)), tt, [])).
Proof.
  split.
  - intros Hb b config Hcase Hsub Hrunner. unfold run_cli. rewrite Hsub. unfold run_benchmark.
    erewrite peval_request by exact Hrunner. erewrite peval_ptry by done. rewrite Hb.
    destruct Hcase as [[c ->]|[c ->]]; eexists; (split; [|done]); auto.
  - intros Htry c Hsub. unfold run_cli. rewrite Hsub. unfold run_try_runtime.
    by rewrite run_try_runtime_refused.
Qed.
End claims.

(** ** Witnesses *)

#[local] Instance td_cmd : CmdLib := {|
  BuildSpecCmd := ();
  CheckBlockCmd := ();
  ExportBlocksCmd := ();
  ExportStateCmd := ();
  ImportBlocksCmd := ();
  RevertCmd := ();
  PurgeChainCmd := ();
  ExportGenesisStateCommand := ();
  ExportGenesisWasmCommand := ();
  PalletCmd := ();
  BlockCmd := ();
  StorageCmd := ();
  MachineCmd := ();
  OtherBenchmarkCmd := ();
  TryRuntimeCmd := ();
  RunCmd := ();
  NormalizedRunCmd := ();
  Db := ();
  BackendStorage := ();
  PrometheusError := ();
  normalize := id;
  collator_options := id;
  wasm_chain := λ _, None;
  expose_db := id;
  expose_storage := id;
  display_error := λ _, "error";
  debug_error := λ _, "error"
|}.

(** The runner as its documentation describes it. *)
#[local] Instance td_runner : RunnerLib false := {|
  sync_run := λ config f, f config;
  async_run := λ config f,
    future ← f config; done ← request (run_future false future.1 future.2); ptry false done;
  run_node_until_exit := λ config f,
    task_manager ← f config; done ← request (until_exit false task_manager); ptry false done
|}.
#[local] Instance td_runner_laws : RunnerLaws false.
Proof. by split. Qed.

(** Every call succeeds, and the runner has the given configuration. *)
Definition td_cmd_orc (config : Configuration) (_ : list (event (CmdReq false))) (B : Type)
    (q : CmdReq false B) : B :=
  match q in CmdReq _ B return B with
  | Node _ q => td_node_orc (Some tt) [] _ q
  | create_runner _ _ => Ok config
  | run_cmd _ _ => Ok tt
  | run_future _ _ _ => Ok tt
  | create_configuration _ _ _ => Ok config
  | create_dir_all _ _ => tt
  | gather_hwbench _ _ => true
  | TaskManager_new _ _ _ => Ok tt
  | until_exit _ _ => Ok tt
  end.

Definition td_cmd_line (sub : option (Subcommand false)) : Cli false :=
  mkCli false sub tt true [].

Abbreviation td_run_cli cli := (run_cli false false (λ spec, Some (extensions spec))
  (λ _, td_run_cmd) None #3 Err cli).

Lemma node_from_command_line_witness :
  ∃ hwbench h, Forall (λ e, event_asks (@offline _ _ _ _ false) e = true) h ∧ (true = true → hwbench = None) ∧
    peval (td_cmd_orc td_collator) (td_run_cli (td_cmd_line None)) tt [] =
    peval (td_cmd_orc td_collator)
      (task_manager ← (
         r ← service false (start_parachain_node td_collator td_collator tt #1000 hwbench);
         mret r.1);
       done ← request (until_exit false task_manager); ptry false done) tt h.
Proof.
  destruct (node_from_command_line false false (λ spec, Some (extensions spec)) (λ _, td_run_cmd)
    None #3 Err (td_cmd_orc td_collator) (td_cmd_line None) td_collator
    (mkExtensions "rococo-local" #1000) eq_refl) as [_ H].
  destruct (H eq_refl) as [_ Hext]. destruct (Hext eq_refl) as [_ Hok].
  exact (Hok td_collator (λ _, eq_refl)).
Defined.

Lemma hardware_benchmarks_always_run_witness :
  ∃ r h measured, peval (td_cmd_orc td_collator) (td_run_cli (td_cmd_line None)) tt [] = (r, tt, h) ∧
    Ev (gather_hwbench false ["data"; "db"]) measured ∈ h.
Proof.
  exact (hardware_benchmarks_always_run false false (λ spec, Some (extensions spec))
    (λ _, td_run_cmd) None #3 Err (td_cmd_orc td_collator) (td_cmd_line None) td_collator
    ["data"; "db"] eq_refl eq_refl eq_refl).
Defined.

Lemma subcommands_offline_witness :
  ∃ r h, peval (td_cmd_orc td_collator) (td_run_cli (td_cmd_line (Some (CheckBlock false tt)))) tt [] =
      (r, tt, h) ∧ Forall (λ e, event_asks (@offline _ _ _ _ false) e = true) h.
Proof.
  exact (subcommands_offline false false (λ spec, Some (extensions spec)) (λ _, td_run_cmd) None #3
    Err (td_cmd_orc td_collator) (td_cmd_line (Some (CheckBlock false tt))) _ eq_refl).
Defined.

Lemma disabled_features_refused_witness :
  peval (td_cmd_orc td_collator) (td_run_cli (td_cmd_line (Some (TryRuntime false tt)))) tt [] =
    (Ret (Err (Input try_runtime_disabled)), tt, []).
Proof.
  exact (proj2 (disabled_features_refused false false (λ spec, Some (extensions spec))
    (λ _, td_run_cmd) None #3 Err (td_cmd_orc td_collator)
    (td_cmd_line (Some (TryRuntime false tt)))) eq_refl tt eq_refl).
Defined.
