(* ===== verification/RuntimeApis.v ===== *)
(** * The other runtime APIs

    [impl_runtime_apis!] of [runtime/src/lib.rs] apart from the XCMP APIs of
    [RuntimeXcmp]: one record per API trait, whose methods delegate to the pallets and the
    executive of the SDK; the runtime's version, the check of inherents that validators
    make, and the timing that ties runtime and node together. *)
From S2P Require Import Prelude Words RuntimeConfig XcmConfig XcmExecutor BlockBudget ChainSpec.
From S2P Require Import PalletConfigs NodeCli NodeSdk Conc Service.

Local Open Scope Z_scope.

(** ** Version *)

Record RuntimeVersion (Apis : Type) : Type := mkRuntimeVersion {
  version_spec_name : string;
  version_impl_name : string;
  authoring_version : u32;
  spec_version : u32;
  version_impl_version : u32;
  version_apis : Apis;
  transaction_version : u32;
  state_version : u8
}.
Arguments mkRuntimeVersion {Apis} _ _ _ _ _ _ _ _.
Arguments transaction_version {Apis} _.

(** [VERSION]; [RUNTIME_API_VERSIONS] is generated. *)
Definition VERSION {Apis} (RUNTIME_API_VERSIONS : Apis) : RuntimeVersion Apis := {|
  version_spec_name := "template-parachain";
  version_impl_name := "template-parachain";
  authoring_version := #1;
  spec_version := #1;
  version_impl_version := #0;
  version_apis := RUNTIME_API_VERSIONS;
  transaction_version := #1;
  state_version := #1
|}.

(** [native_version], with nothing else it can author with. *)
Definition native_version {Apis} (RUNTIME_API_VERSIONS : Apis) : RuntimeVersion Apis * list u32 :=
  (VERSION RUNTIME_API_VERSIONS, []).

(** The node's native executor, [ParachainNativeExecutor] of [service.rs]; [api_dispatch]
    is the generated [api::dispatch] of the runtime. *)
Record NativeExecutionDispatch (Apis : Type) : Type := mkNativeExecutionDispatch {
  ExtendHostFunctions : string;
  native_dispatch : string → bytes → option bytes;
  executor_version : RuntimeVersion Apis * list u32
}.
Definition ParachainNativeExecutor {Apis} (api_dispatch : string → bytes → option bytes)
    (RUNTIME_API_VERSIONS : Apis) : NativeExecutionDispatch Apis := {|
  ExtendHostFunctions := "frame_benchmarking";
  native_dispatch := λ method data, api_dispatch method data;
  executor_version := native_version RUNTIME_API_VERSIONS
|}.

(** ** Interfaces of the SDK *)

Class ApiTypes := {
  Chain : Type;
  ApiBlock : Type;
  ApiHeader : Type;
  Extrinsic : Type;
  ApiCall : Type;
  ApiAccountId : Type;
  AuthorityId : Type;
  InherentData : Type;
  CheckInherentsResult : Type;
  ApplyExtrinsicResult : Type;
  TransactionSource : Type;
  TransactionValidity : Type;
  Metadata : Type;
  KeyTypeId : Type;
  RuntimeDispatchInfo : Type;
  FeeDetails : Type;
  CollationInfo : Type;
  UpgradeCheckSelect : Type;
  TryStateSelect : Type;
  ExecutiveError : Type;
}.

(** The executive and the pallets the APIs call. *)
Class ApiPallets {AT : ApiTypes} := {
  Aura_slot_duration : Chain → u64;
  Aura_authorities : Chain → list AuthorityId;
  Executive_execute_block : ApiBlock → Chain → run Chain;
  Executive_initialize_block : ApiHeader → Chain → run Chain;
  Executive_apply_extrinsic : Extrinsic → Chain → run (ApplyExtrinsicResult * Chain);
  Executive_finalize_block : Chain → run (ApiHeader * Chain);
  Executive_validate_transaction : TransactionSource → Extrinsic → H256 → Chain → TransactionValidity;
  Executive_offchain_worker : ApiHeader → Chain → run ();
  Executive_try_runtime_upgrade : UpgradeCheckSelect → Chain → result ExecutiveError (Weight * Chain);
  Executive_try_execute_block : ApiBlock → bool → bool → TryStateSelect → Chain →
    result ExecutiveError (Weight * Chain);
  Runtime_metadata : Metadata;
  Runtime_metadata_at_version : u32 → option Metadata;
  Runtime_metadata_versions : list u32;
  create_extrinsics : InherentData → Chain → list Extrinsic;
  check_extrinsics : InherentData → ApiBlock → Chain → CheckInherentsResult;
  SessionKeys_generate : option bytes → bytes;
  SessionKeys_decode_into_raw_public_keys : bytes → option (list (bytes * KeyTypeId));
  System_account_nonce : ApiAccountId → Chain → u32;
  TransactionPayment_query_info : Extrinsic → u32 → Chain → RuntimeDispatchInfo;
  TransactionPayment_query_fee_details : Extrinsic → u32 → Chain → FeeDetails;
  TransactionPayment_query_call_info : ApiCall → u32 → Chain → RuntimeDispatchInfo;
  TransactionPayment_query_call_fee_details : ApiCall → u32 → Chain → FeeDetails;
  TransactionPayment_weight_to_fee : Weight → Chain → u128;
  TransactionPayment_length_to_fee : u32 → Chain → u128;
  ParachainSystem_collect_collation_info : ApiHeader → Chain → CollationInfo;
}.

Section apis.
Context {AT : ApiTypes} {AP : ApiPallets}.

(** ** The APIs *)

Record AuraApi : Type := mkAuraApi {
  slot_duration : Chain → u64;
  authorities : Chain → list AuthorityId
}.
Definition aura_api : AuraApi := {|
  slot_duration := λ c, Aura_slot_duration c;
  authorities := λ c, Aura_authorities c
|}.

Record CoreApi (Apis : Type) : Type := mkCoreApi {
  api_version : RuntimeVersion Apis;
  api_execute_block : ApiBlock → Chain → run Chain;
  api_initialize_block : ApiHeader → Chain → run Chain
}.
Definition core_api {Apis} (RUNTIME_API_VERSIONS : Apis) : CoreApi Apis := {|
  api_version := VERSION RUNTIME_API_VERSIONS;
  api_execute_block := Executive_execute_block;
  api_initialize_block := Executive_initialize_block
|}.

Record MetadataApi : Type := mkMetadataApi {
  metadata : Metadata;
  metadata_at_version : u32 → option Metadata;
  metadata_versions : list u32
}.
Definition metadata_api : MetadataApi := {|
  metadata := Runtime_metadata;
  metadata_at_version := Runtime_metadata_at_version;
  metadata_versions := Runtime_metadata_versions
|}.

Record BlockBuilderApi : Type := mkBlockBuilderApi {
  apply_extrinsic : Extrinsic → Chain → run (ApplyExtrinsicResult * Chain);
  finalize_block : Chain → run (ApiHeader * Chain);
  inherent_extrinsics : InherentData → Chain → list Extrinsic;
  api_check_inherents : ApiBlock → InherentData → Chain → CheckInherentsResult
}.
Definition block_builder_api : BlockBuilderApi := {|
  apply_extrinsic := Executive_apply_extrinsic;
  finalize_block := Executive_finalize_block;
  inherent_extrinsics := λ data c, create_extrinsics data c;
  api_check_inherents := λ block data c, check_extrinsics data block c
|}.

Record PoolApi : Type := mkPoolApi {
  validate_transaction : TransactionSource → Extrinsic → H256 → Chain → TransactionValidity;
  offchain_worker : ApiHeader → Chain → run ()
}.
Definition pool_api : PoolApi := {|
  validate_transaction := Executive_validate_transaction;
  offchain_worker := Executive_offchain_worker
|}.

Record SessionKeysApi : Type := mkSessionKeysApi {
  generate_session_keys : option bytes → bytes;
  decode_session_keys : bytes → option (list (bytes * KeyTypeId));
  account_nonce : ApiAccountId → Chain → u32
}.
Definition session_keys_api : SessionKeysApi := {|
  generate_session_keys := SessionKeys_generate;
  decode_session_keys := SessionKeys_decode_into_raw_public_keys;
  account_nonce := System_account_nonce
|}.

(** [TransactionPaymentApi] and [TransactionPaymentCallApi], on extrinsics and on calls. *)
Record PaymentApi (Subject : Type) : Type := mkPaymentApi {
  query_info : Subject → u32 → Chain → RuntimeDispatchInfo;
  query_fee_details : Subject → u32 → Chain → FeeDetails;
  query_weight_to_fee : Weight → Chain → u128;
  query_length_to_fee : u32 → Chain → u128
}.
Arguments query_weight_to_fee {Subject} _ _ _.
Arguments query_length_to_fee {Subject} _ _ _.
Definition payment_api : PaymentApi Extrinsic := {|
  query_info := TransactionPayment_query_info;
  query_fee_details := TransactionPayment_query_fee_details;
  query_weight_to_fee := TransactionPayment_weight_to_fee;
  query_length_to_fee := TransactionPayment_length_to_fee
|}.
Definition payment_call_api : PaymentApi ApiCall := {|
  query_info := TransactionPayment_query_call_info;
  query_fee_details := TransactionPayment_query_call_fee_details;
  query_weight_to_fee := TransactionPayment_weight_to_fee;
  query_length_to_fee := TransactionPayment_length_to_fee
|}.

Definition collect_collation_info (header : ApiHeader) (c : Chain) : CollationInfo :=
  ParachainSystem_collect_collation_info header c.

(** *** [TryRuntime], with its intentional unwraps *)

Section try_runtime.
Context {WC : WeightConstants} {BW : BlockWeightsLib} (MAX_POV_SIZE : u32).
(** The field [max_block] of [BlockWeights]. *)
Context (max_block : BlockWeights → Weight).

Definition try_on_runtime_upgrade (checks : UpgradeCheckSelect) (c : Chain) : run (Weight * Weight) :=
  match Executive_try_runtime_upgrade checks c with
  | Ok (weight, _) => w ← RuntimeBlockWeights MAX_POV_SIZE; Ret (weight, max_block w)
  | Err _ => Panic
  end.
Definition try_execute_block (block : ApiBlock) (state_root_check signature_check : bool)
    (select : TryStateSelect) (c : Chain) : run Weight :=
  match Executive_try_execute_block block state_root_check signature_check select c with
  | Ok (weight, _) => Ret weight
  | Err _ => Panic
  end.
End try_runtime.

(** *** [Benchmark] *)

(** [define_benchmarks!]. *)
Definition benchmarks : list (string * string) := [
  ("frame_system", "SystemBench");
  ("pallet_balances", "Balances");
  ("pallet_session", "SessionBench");
  ("pallet_timestamp", "Timestamp");
  ("pallet_sudo", "Sudo");
  ("pallet_collator_selection", "CollatorSelection");
  ("cumulus_pallet_xcmp_queue", "XcmpQueue")
].

(** [list_benchmark] and [add_benchmark] are the SDK's for one entry of the list. *)
Section benchmark.
Context {BenchmarkConfig Batch BenchmarkList StorageInfo Event : Type}.
Context (list_benchmark : bool → string * string → list BenchmarkList) (storage_info : list StorageInfo).

(** [benchmark_metadata]. *)
Definition benchmark_metadata (extra : bool) : list BenchmarkList * list StorageInfo :=
  (benchmarks ≫= list_benchmark extra, storage_info).

(** [frame_system_benchmarking::Config]. *)
Definition setup_set_code_requirements (initialize_for_set_code_benchmark : u32 → Chain → Chain)
    (code : bytes) (c : Chain) : result string () * Chain :=
  (Ok (), initialize_for_set_code_benchmark #(Z.of_nat (length code)) c).
Definition verify_set_code (assert_last_event : Event → Chain → run ())
    (ValidationFunctionStored : Event) (c : Chain) : run () :=
  assert_last_event ValidationFunctionStored c.

(** [dispatch_benchmark]. *)
Context (add_benchmark : BenchmarkConfig → string * string → list Batch → result string (list Batch)).

Fixpoint add_benchmarks (config : BenchmarkConfig) (entries : list (string * string)) (batches : list Batch)
    : result string (list Batch) :=
  match entries with
  | [] => Ok batches
  | e :: entries =>
      match add_benchmark config e batches with
      | Ok batches => add_benchmarks config entries batches
      | Err err => Err err
      end
  end.

Definition dispatch_benchmark (config : BenchmarkConfig) : result string (list Batch) :=
  match add_benchmarks config benchmarks [] with
  | Err err => Err err
  | Ok [] => Err "Benchmark not found for this pallet."
  | Ok batches => Ok batches
  end.

(** A pallet that is not listed has no benchmark. *)
Lemma dispatch_benchmark_unlisted config :
  (∀ e bs, e ∈ benchmarks → add_benchmark config e bs = Ok bs) →
  dispatch_benchmark config = Err "Benchmark not found for this pallet.".
Proof.
  intros Hnone. unfold dispatch_benchmark. generalize benchmarks Hnone. clear Hnone.
  intros l Hl. assert (add_benchmarks config l [] = Ok []) as ->; [|done].
  induction l as [|e l IH]; [done|]. simpl. rewrite Hl by set_solver. apply IH. set_solver.
Qed.
End benchmark.
End apis.
#[global] Arguments query_weight_to_fee {AT Subject} _ _ _.
#[global] Arguments query_length_to_fee {AT Subject} _ _ _.

(** ** The check of inherents *)

(** The relay chain's state proof and the timestamp inherent of the SDK; durations are in
    milliseconds. *)
Class InherentLib {AT : ApiTypes} := {
  RelayChainStateProof : Type;
  InherentError : Type;
  Provider : Type;
  read_slot : RelayChainStateProof → result InherentError u64;
  from_relay_chain_slot_and_duration : u64 → u64 → Provider;
  create_inherent_data : Provider → result InherentError InherentData;
  (** The timestamp in inherent data, the one that a block sets, the one stored in the
      chain, and whether a check found nothing wrong. *)
  inherent_timestamp : InherentData → u64;
  block_timestamp : ApiBlock → option u64;
  now : Chain → u64;
  inherents_ok : CheckInherentsResult → bool;
}.

(** [Duration::from_secs], in milliseconds. *)
Definition from_secs (s : u64) : u64 := const_mul s #1000.

Section inherents.
Context {AT : ApiTypes} {AP : ApiPallets} {IL : InherentLib}.

(** [CheckInherents::check_inherents]. *)
Definition check_inherents (block : ApiBlock) (relay_state_proof : RelayChainStateProof) (c : Chain)
    : run CheckInherentsResult :=
  match read_slot relay_state_proof with
  | Err _ => Panic
  | Ok relay_chain_slot =>
      match create_inherent_data (from_relay_chain_slot_and_duration relay_chain_slot (from_secs #6)) with
      | Err _ => Panic
      | Ok inherent_data => Ret (check_extrinsics inherent_data block c)
      end
  end.

(** The documented behaviour of the timestamp inherent for a minimum period: the data
    carries the time of the slot; a block's timestamp may be at most half a minute ahead
    of it and must be a minimum period later than the last. *)
Class TimestampLaws (period : u64) : Prop := {
  slot_data : ∀ slot d, uval slot * uval d < 2 ^ 64 → ∃ data,
    create_inherent_data (from_relay_chain_slot_and_duration slot d) = Ok data ∧
    uval (inherent_timestamp data) = uval slot * uval d;
  timestamp_checked : ∀ data block c t,
    inherents_ok (check_extrinsics data block c) = true → block_timestamp block = Some t →
    uval (now c) + uval period <= uval t <= uval (inherent_timestamp data) + 30 * 1000;
}.

(** [C32] What validators know of a block's time: the check panics when the relay chain's
    slot cannot be read, and otherwise returns; a block that passes is at least six seconds
    later than the last one, and at most half a minute ahead of the relay chain's slot of
    six seconds. *)
Theorem valid_block_time `{!TimestampLaws (ts_MinimumPeriod timestamp_config)} block pf c :
  match read_slot pf with
  | Err _ => check_inherents block pf c = Panic
  | Ok slot => uval slot * 6000 < 2 ^ 64 → ∃ res, check_inherents block pf c = Ret res ∧
      (inherents_ok res = true → ∀ t, block_timestamp block = Some t →
        uval (now c) + 6000 <= uval t <= uval slot * 6000 + 30000)
  end.
Proof.
  unfold check_inherents. destruct (read_slot pf) as [slot|e]; [|done]. intros Hslot.
  destruct (slot_data slot (from_secs #6)) as (data & -> & Hdata); [done|].
  eexists. split; [done|]. intros Hok t Ht. destruct (timestamp_checked _ _ _ _ Hok Ht) as [Hlo Hhi].
  rewrite Hdata in Hhi. change (uval (from_secs #6)) with 6000 in Hhi.
  change (uval (ts_MinimumPeriod timestamp_config)) with 6000 in Hlo. lia.
Qed.
End inherents.

(** ** Timing *)

(** [pallet_aura] doubles the minimum period, "so each author can always propose within
    the majority of its slot". *)
Class AuraLaws {AT : ApiTypes} {AP : ApiPallets} (period : u64) : Prop := {
  aura_slot_spec : ∀ c, uval (Aura_slot_duration c) = 2 * uval period;
}.

Section timing.
Context {AT : ApiTypes} {AP : ApiPallets} {IL : InherentLib} {WC : WeightConstants}.

(** Runtime and node agree on time: the slot duration that the API serves is twelve
    seconds, the runtime's [SLOT_DURATION] and two slots of the relay chain, whose duration
    the node takes to be the one that the check of inherents uses; the share of a slot that
    the node gives to proposing a block is the half second of compute that a block's
    weight allows, and the largest share is three quarters of a second. *)
Theorem timing_consistent `{!AuraLaws (ts_MinimumPeriod timestamp_config)} `{!WeightConstantsLaws}
    (MAX_POV_SIZE : u32) c :
  let slot := uval (slot_duration aura_api c) in
  let '(n, d) := block_proposal_slot_portion in
  let '(n', d') := max_block_proposal_slot_portion in
  slot = uval SLOT_DURATION ∧ slot = 2 * uval (from_secs relay_chain_slot_duration) ∧
  (∀ block pf relay_slot data, read_slot pf = Ok relay_slot →
     create_inherent_data (from_relay_chain_slot_and_duration relay_slot
       (from_secs relay_chain_slot_duration)) = Ok data →
     check_inherents block pf c = Ret (check_extrinsics data block c)) ∧
  d * uval (ref_time (MAXIMUM_BLOCK_WEIGHT MAX_POV_SIZE)) = n * slot * uval WEIGHT_REF_TIME_PER_MILLIS ∧
  n' * slot = 750 * d'.
Proof.
  cbn. rewrite aura_slot_spec. change (uval (ts_MinimumPeriod timestamp_config)) with 6000.
  unfold MAXIMUM_BLOCK_WEIGHT, saturating_div; cbn [ref_time].
  rewrite ref_time_second, ref_time_millis. split_and!; try done.
  intros block pf relay_slot data Hslot Hdata. unfold check_inherents. rewrite Hslot.
  change (from_secs #6) with (from_secs relay_chain_slot_duration). by rewrite Hdata.
Qed.
End timing.

(** ** Fees *)

(** The lesser of two weights in each dimension. *)
Definition weight_min (w w' : Weight) : Weight :=
  mkWeight #(Z.min (uval (ref_time w)) (uval (ref_time w')))
           #(Z.min (uval (proof_size w)) (uval (proof_size w'))).

(** [pallet_transaction_payment]: the weight is capped at a block's, the length is
    multiplied. *)
Class PaymentLaws {AT : ApiTypes} {AP : ApiPallets} (cap : Weight) (cfg : PaymentConfig) : Prop := {
  pay_weight_spec : ∀ w c,
    TransactionPayment_weight_to_fee w c = pay_WeightToFee cfg (weight_min w cap);
  pay_length_spec : ∀ len c, uval (LengthToFee cfg) * uval len < 2 ^ 128 →
    uval (TransactionPayment_length_to_fee len c) = uval (LengthToFee cfg) * uval len;
}.

Section fees.
Context {AT : ApiTypes} {AP : ApiPallets} {WC : WeightConstants} {FL : FeeLib}.
Context (MAX_POV_SIZE : u32).

(** The reference time that is charged: at most half a second. *)
Lemma capped_time `{!WeightConstantsLaws} w :
  Z.min (uval (ref_time w)) (uval WEIGHT_REF_TIME_PER_SECOND / 2) =
    uval (ref_time (weight_min w (MAXIMUM_BLOCK_WEIGHT MAX_POV_SIZE))).
Proof.
  unfold weight_min, MAXIMUM_BLOCK_WEIGHT, saturating_div; cbn [ref_time]. pose proof (uval_range (ref_time w)).
  rewrite ref_time_second. change (uval ( #(10 ^ 12 / uval ( #2 : u64)) : u64)) with (10 ^ 12 / 2).
  rewrite uint_wrap_small; [done|]. change (10 ^ 12 / 2) with 500000000000. lia.
Qed.

(** [C36] What the fee APIs answer: both traits answer alike; every length costs exactly
    ten MICROUNIT per byte, without overflow; every weight costs eight thousandths of its
    reference time, rounded to the nearest unit, and exactly that where 125 divides the
    time; a weight of more than half a second costs what half a second does; the base
    weight of an extrinsic costs one MICROUNIT, a tenth of a byte and a hundredth of the
    tenth of a MILLIUNIT that the comment in the code announces. *)
Theorem fee_apis `{!WeightConstantsLaws} `{!FeeLaws}
    `{!PaymentLaws (MAXIMUM_BLOCK_WEIGHT MAX_POV_SIZE) payment_config} w len c :
  let charged := Z.min (uval (ref_time w)) (uval WEIGHT_REF_TIME_PER_SECOND / 2) in
  query_weight_to_fee payment_api w c = query_weight_to_fee payment_call_api w c ∧
  query_length_to_fee payment_api len c = query_length_to_fee payment_call_api len c ∧
  uval (query_length_to_fee payment_api len c) = 10 * uval MICROUNIT * uval len ∧
  2 * Z.abs (1000 * uval (query_weight_to_fee payment_api w c) - 8 * charged) <= 1000 ∧
  ((125 | charged) → 1000 * uval (query_weight_to_fee payment_api w c) = 8 * charged) ∧
  uval (query_weight_to_fee payment_api ExtrinsicBaseWeight c) = uval MICROUNIT ∧
  100 * uval (query_weight_to_fee payment_api ExtrinsicBaseWeight c) = uval MILLIUNIT / 10 ∧
  uval (query_length_to_fee payment_api #1 c) =
    10 * uval (query_weight_to_fee payment_api ExtrinsicBaseWeight c).
Proof.
  cbv zeta.
  assert (∀ w, 2 * Z.abs (1000 * uval (query_weight_to_fee payment_api w c) -
    8 * Z.min (uval (ref_time w)) (uval WEIGHT_REF_TIME_PER_SECOND / 2)) <= 1000) as Hweight.
  { clear w. intros w. cbn. rewrite pay_weight_spec. cbn. unfold WeightToFee.
    rewrite capped_time. apply polynomial_rounds. }
  assert (∀ len : u32, uval (query_length_to_fee payment_api len c) = 10 * uval MICROUNIT * uval len) as Hlen.
  { clear len. intros len. pose proof (uval_range len). cbn. rewrite pay_length_spec; [done|].
    change (uval (LengthToFee payment_config)) with 10000000.
    assert (2 ^ Zpos 32 * 10000000 < 2 ^ 128) by reflexivity. lia. }
  assert (uval (query_weight_to_fee payment_api ExtrinsicBaseWeight c) = uval MICROUNIT) as Hbase.
  { specialize (Hweight ExtrinsicBaseWeight). rewrite ExtrinsicBaseWeight_value, ref_time_second in Hweight.
    change (uval MICROUNIT) with 1000000.
    change (Z.min 125000000 (10 ^ 12 / 2)) with 125000000 in Hweight. lia. }
  split_and!; [done|done|apply Hlen|apply Hweight| |done| |].
  - intros [k Hk]. specialize (Hweight w). lia.
  - by rewrite Hbase.
  - by rewrite Hlen, Hbase.
Qed.
End fees.

(** ** Witnesses *)

#[local] Existing Instances RuntimeConfig.td_weights RuntimeConfig.td_weights_laws.
#[local] Existing Instances RuntimeConfig.td_fees RuntimeConfig.td_fees_laws.

(** A chain that is its last timestamp, with blocks that may set the next. *)
#[local] Instance td_api_types : ApiTypes := {|
  Chain := u64;
  ApiBlock := option u64;
  ApiHeader := ();
  Extrinsic := u64;
  ApiCall := u64;
  ApiAccountId := ();
  AuthorityId := ();
  InherentData := u64;
  CheckInherentsResult := bool;
  ApplyExtrinsicResult := bool;
  TransactionSource := ();
  TransactionValidity := bool;
  Metadata := ();
  KeyTypeId := ();
  RuntimeDispatchInfo := ();
  FeeDetails := ();
  CollationInfo := ();
  UpgradeCheckSelect := ();
  TryStateSelect := ();
  ExecutiveError := ()
|}.

#[local] Instance td_api_pallets : ApiPallets := {|
  Aura_slot_duration := λ _, #12000;
  Aura_authorities := λ _, [()];
  Executive_execute_block := λ b c, Ret (default c b);
  Executive_initialize_block := λ _ c, Ret c;
  Executive_apply_extrinsic := λ t _, Ret (true, t);
  Executive_finalize_block := λ c, Ret ((), c);
  Executive_validate_transaction := λ _ t _ c, uval c <? uval t;
  Executive_offchain_worker := λ _ _, Ret ();
  Executive_try_runtime_upgrade := λ _ c, Ok (mkWeight #0 #0, c);
  Executive_try_execute_block := λ b _ _ _ c, Ok (mkWeight #0 #0, default c b);
  Runtime_metadata := ();
  Runtime_metadata_at_version := λ _, None;
  Runtime_metadata_versions := [];
  create_extrinsics := λ data _, [data];
  check_extrinsics := λ data b c,
    match b with
    | Some t => (uval c + 6000 <=? uval t) && (uval t <=? uval data + 30000)
    | None => true
    end;
  SessionKeys_generate := λ seed, default [] seed;
  SessionKeys_decode_into_raw_public_keys := λ _, None;
  System_account_nonce := λ _ _, #0;
  TransactionPayment_query_info := λ _ _ _, ();
  TransactionPayment_query_fee_details := λ _ _ _, ();
  TransactionPayment_query_call_info := λ _ _ _, ();
  TransactionPayment_query_call_fee_details := λ _ _ _, ();
  TransactionPayment_weight_to_fee := λ w _,
    pay_WeightToFee payment_config (weight_min w (MAXIMUM_BLOCK_WEIGHT #5242880));
  TransactionPayment_length_to_fee := λ len _, #(10000000 * uval len);
  ParachainSystem_collect_collation_info := λ _ _, ()
|}.

(** The state proof is the slot itself, when it could be read. *)
#[local] Instance td_inherents : InherentLib := {|
  RelayChainStateProof := option u64;
  InherentError := ();
  Provider := u64;
  read_slot := λ pf, match pf with Some slot => Ok slot | None => Err () end;
  from_relay_chain_slot_and_duration := λ slot d, #(uval slot * uval d);
  create_inherent_data := λ t, Ok t;
  inherent_timestamp := λ t, t;
  block_timestamp := λ b, b;
  now := λ c, c;
  inherents_ok := λ b, b
|}.

#[local] Instance td_timestamp : TimestampLaws (ts_MinimumPeriod timestamp_config).
Proof.
  split.
  - intros slot d Hlt. eexists. split; [done|]. pose proof (uval_range slot). pose proof (uval_range d).
    apply uint_wrap_small. nia.
  - intros data b c t Hok Ht. cbn in Ht. subst b.
    change (is_true ((uval c + 6000 <=? uval t) && (uval t <=? uval data + 30000))) in Hok.
    change (uval (ts_MinimumPeriod timestamp_config)) with 6000. cbn. unfold is_true in Hok. lia.
Qed.

#[local] Instance td_aura : AuraLaws (ts_MinimumPeriod timestamp_config).
Proof. by split. Qed.

#[local] Instance td_payment : PaymentLaws (MAXIMUM_BLOCK_WEIGHT #5242880) payment_config.
Proof.
  split; [done|]. intros len c Hlt. change (uval (LengthToFee payment_config)) with 10000000 in *.
  pose proof (uval_range len). apply uint_wrap_small. lia.
Qed.

Lemma valid_block_time_witness :
  check_inherents (Some #24000) (Some #4) #12000 = Ret true ∧ 12000 + 6000 <= 24000 <= 4 * 6000 + 30000.
Proof.
  pose proof (valid_block_time (Some #24000) (Some #4) #12000) as H. cbn [read_slot td_inherents] in H.
  destruct (H eq_refl) as (res & Hres & Htime).
  assert (res = true) as -> by (apply (f_equal (λ r, match r with Ret b => b | _ => true end)) in Hres; exact (eq_sym Hres)).
  split; [exact Hres|]. exact (Htime eq_refl #24000 eq_refl).
Defined.

Lemma timing_consistent_witness :
  uval (slot_duration aura_api ( #0 : u64)) = uval SLOT_DURATION.
Proof. exact (proj1 (timing_consistent (AT:=td_api_types) #5242880 #0)). Defined.

Lemma fee_apis_witness :
  uval (query_length_to_fee payment_api #100 ( #0 : u64)) = 1000 * uval MICROUNIT ∧
  1000 * uval (query_weight_to_fee payment_api (mkWeight #250 #0) ( #0 : u64)) = 8 * 250.
Proof.
  destruct (fee_apis (AT:=td_api_types) #5242880 (mkWeight #250 #0) #100 #0)
    as (_ & _ & Hlen & _ & Hweight & _).
  split; [rewrite Hlen; reflexivity|]. apply Hweight. by exists 2.
Defined.
