(* ===== verification/EndToEnd.v ===== *)
(** * From the runtime through the relayer to the pallet

    The three components together. The sending parachain's node answers the relayer
    with what the runtime APIs of [RuntimeXcmp] compute on the state of the block
    asked for; the relay chain, whose runtime is not in this repository, answers as
    documented. Such nodes are honest ([runtime_nodes_honest]), so that everything the
    relayer submits passes all checks of the pallet but one: its first tier was generated
    for the block that the relayer works on, while the root it targets was read at the best
    block, and the pallet accepts exactly when the one verifies against the other. *)
From S2P Require Import Prelude Words Sdk MessageStuffer TestDouble StufferSafety RuntimeXcmp.
From S2P Require Import BTree Conc Relayer RelayerSafety RelayerDouble RelayerClaims.

Section end_to_end.
Context {CL : ClientLib} {ML : MmrLib} {BM : MerkleLib} {SC : ScaleLib}.
Context {MMR : MmrPallet ChainState}.
Context (overflow_checks : bool).
Abbreviation history := (list (event Req)).

(** The MMR root of the relay chain and the state of the sending parachain, by block. *)
Context (relay_mmr_root : H256 → H256) (chain_at : H256 → ChainState).

(** The channel's root on the sending parachain. *)
Definition sender_mmr_root (bh : H256) : H256 := mmr_root_hash ParaAMmr (chain_at bh).

(** The RPC server of the sending parachain: a proof is the encoded result of the
    runtime API, for as many blocks as were asked for. *)
Definition serves_proof (bh : H256) (blocks : list u64) (id : u64) (p : LeavesProof) : Prop :=
  ∃ numbers leaves pr, length numbers = length blocks ∧
    api_generate_proof numbers None id (chain_at bh) = Ok (leaves, pr) ∧
    decode_leaves (lp_leaves p) = Some leaves ∧ decode_mmr_proof (lp_proof p) = Some pr.

(** What the nodes answer when they answer at all. The relay chain's node may answer any
    root for its best block. *)
Definition nodes (h : history) (B : Type) (q : Req B) : B → Prop :=
  match q in Req B return B → Prop with
  | Relayer.mmr_root rpc at_block ch => λ b, ∀ r bh id, b = Ok (Some r) →
      rpc = DEFAULT_RPC_ENDPOINT_PARA_SENDER → at_block = Some bh → ch = Some id →
      api_mmr_root id (chain_at bh) = Ok r
  | mmr_generateProof rpc blocks best at_block ch => λ b, ∀ p bh, b = Ok (Some p) →
      best = None → at_block = Some bh →
      (∀ id, rpc = DEFAULT_RPC_ENDPOINT_PARA_SENDER → ch = Some id →
        serves_proof bh blocks id p) ∧
      (rpc = DEFAULT_RPC_ENDPOINT_RELAY → proves (relay_mmr_root bh) p) ∧
      (rpc ≠ DEFAULT_RPC_ENDPOINT_PARA_SENDER →
        ∀ ls, decode_leaves (lp_leaves p) = Some ls → length ls = length blocks)
  | Relayer.get_xcmp_channels_proof endpoint bh channel_id => λ b, ∀ c, b = Ok (Some c) →
      endpoint = DEFAULT_ENDPOINT_PARA_SENDER →
      RuntimeXcmp.get_xcmp_channels_proof channel_id (chain_at bh) =
        Ret (Some (channel_proof_from_subxt c))
  | get_para_heads_proof endpoint _ _ => λ b, ∀ p, b = Ok (Some p) →
      endpoint = DEFAULT_ENDPOINT_RELAY →
      merkle_included (rpmp_root p) (rpmp_proof p) (rpmp_num_leaves p) (rpmp_leaf_index p)
        (encode_para_leaf (para_leaf_into (rpmp_leaf p)))
  | _ => λ _, True
  end.

Context {BML : MerkleLaws} {MPL : MmrPalletLaws ChainState} {MGL : MmrGenerateLaws ChainState}.
Hypothesis BITS : (index_bits <= 64)%positive.

Lemma api_mmr_root_channel bh r :
  api_mmr_root RECEIVER_CHANNEL_ID (chain_at bh) = Ok r → r = sender_mmr_root bh.
Proof. intros [= <-]. apply mmr_root_is_hash. Qed.

Lemma serves_proof_channel bh blocks p :
  serves_proof bh blocks RECEIVER_CHANNEL_ID p →
  proves (sender_mmr_root bh) p ∧
  ∀ ls, decode_leaves (lp_leaves p) = Some ls → length ls = length blocks.
Proof.
  intros (numbers & leaves & pr & Hlen & Hgen & Hl & Hp).
  unfold api_generate_proof in Hgen. simpl in Hgen. unfold opaque_proof in Hgen.
  destruct (mmr_generate_proof ParaAMmr _ numbers None) as [[ls pr']|] eqn:Hg; [|done].
  injection Hgen as <- <-. apply mmr_generate_correct in Hg as (Hls & Hin & _). split.
  - exists pr', (from_leaf ParaAMmr <$> ls). split_and!; [done..|].
    unfold mmr_included, leaf_nodes. cbn [fst snd]. by rewrite <- list_fmap_compose.
  - intros ls' Hls'. rewrite Hl in Hls'. injection Hls' as <-. by rewrite length_fmap, Hls.
Qed.

(** The laws of the runtime make its answers honest. *)
Lemma runtime_nodes_honest h B (q : Req B) b :
  nodes h B q b → honest relay_mmr_root sender_mmr_root h B q b.
Proof.
  destruct q as [| |rpc at_block ch| |rpc blocks bk at_block ch| | | | | |endpoint bh channel_id
    | | | | | | | |]; simpl; try done.
  - intros Hn r bh Hb -> Hrpc Ha. by eapply api_mmr_root_channel, Hn.
  - intros Hn p bh Hb Hk Ha ->. destruct (Hn p bh Hb Hk Ha) as (Hs & Hr & Hone).
    destruct (decide (rpc = DEFAULT_RPC_ENDPOINT_PARA_SENDER)) as [->|Hne].
    + destruct (serves_proof_channel bh blocks p) as [Hproves Hleaves]; [by apply Hs|].
      split_and!; [done|done|]. intros n -> ls Hls. by apply Hleaves.
    + split_and!; [done|done|]. intros n -> ls Hls. by apply Hone.
  - intros Hn c Hb He.
    destruct (channel_proof_served channel_id (chain_at bh) BITS) as (c' & Hc' & _ & Hroot & Hin).
    rewrite (Hn c Hb He) in Hc'. injection Hc' as <-. split; [|done].
    by apply api_mmr_root_channel in Hroot.
Qed.

Context {Env : Type} {FS : FrameSystem} {LV : LeafVersionLib} {MP : XcmpMessageProvider Env}.
Context {CFG : Config Env} {WBV : WeakBoundedVecLib}.

(** End to end: when the sending parachain's node serves what its runtime computes
    and the relay chain's node answers as documented, then in every interleaving of
    the relayer's tasks, with any errors, busy locks and order of blocks, every XCMP
    proof that it submits is accepted by the pallet from any signed account, once the
    pallet has seen the BEEFY root it targets, exactly when its first tier verifies against
    that root. *)
Theorem relayed_accepted c endpoint p beefy_root signer origin (s : Storage) :
  rtc (cstep (tasks overflow_checks) nodes) boot c →
  (endpoint, tx_submit_xcmp_proof p beefy_root, signer) ∈ submissions c →
  is_Some (ensure_signed origin) → is_Some (SeenBeefyRoots s !! beefy_root) →
  (mmr_included beefy_root (sx_stage_1 p) →
     submit_xcmp_proof origin (decoded_call p) beefy_root s = Ret (Ok tt, s)) ∧
  (¬ mmr_included beefy_root (sx_stage_1 p) →
     submit_xcmp_proof origin (decoded_call p) beefy_root s =
       Ret (Err (Module XcmpStage1ProofDoesntVerify), s)) ∧
  ∃ block, received c block ask_beefy_root (Ok (Some beefy_root)) ∧
    mmr_included (relay_mmr_root (block_hash block)) (sx_stage_1 p).
Proof.
  intros Hc. apply (submissions_accepted overflow_checks relay_mmr_root sender_mmr_root).
  revert Hc. apply rtc_cstep_mono. apply runtime_nodes_honest.
Qed.
End end_to_end.

(** ** Witness *)

(** The channel proof that the runtime serves. *)
Definition td_served : SubxtChannelMerkleProof :=
  mkSubxtChannelMerkleProof td_channel_root [] #2 #0 td_channel_mmr_root.

(** The nodes answer for channel 0 and for one block at a time. *)
Definition td_node_orc (h : list (event Req)) (B : Type) (q : Req B) : B :=
  match q in Req B return B with
  | Relayer.mmr_root rpc at_block ch =>
      if decide (ch = Some RECEIVER_CHANNEL_ID) then td_orc h _ (Relayer.mmr_root rpc at_block ch)
      else Ok None
  | mmr_generateProof rpc blocks best at_block ch =>
      if decide (ch = Some RECEIVER_CHANNEL_ID ∧ length blocks = 1)
      then td_orc h _ (mmr_generateProof rpc blocks best at_block ch) else Ok None
  | Relayer.get_xcmp_channels_proof _ _ _ => Ok (Some td_served)
  | q => td_orc h _ q
  end.

Definition td_nodes := @nodes td_client td_mmr td_merkle_all td_scale td_mmr_pallet
  (λ _, td_beefy_root) (λ _, td_chain).

Lemma td_node_orc_nodes h B (q : Req B) : td_nodes h B q (td_node_orc h B q).
Proof.
  destruct q as [| |rpc at_block ch| |rpc blocks bk at_block ch| | | | | |endpoint bh channel_id
    | | | | | | | |]; simpl; try done.
  - intros r bh id. case_decide as Hch; [|done]. intros [= <-] -> _ ->. by injection Hch as ->.
  - intros p bh. case_decide as Hch; [|done]. destruct Hch as [-> Hlen]. intros [= <-] _ _. split_and!.
    + intros id -> [= <-]. by exists [ #1], [td_message], tt.
    + intros ->. by exists tt, [td_beefy_leaf].
    + intros Hne. rewrite decide_False by done. intros ls [= <-]. by rewrite Hlen.
  - intros p [= <-] _. by exists #1, #0.
  - by intros c [= <-] _.
Qed.

Definition td_node_run : config Maps Req Task Anyhow :=
  exec (tasks true) td_node_orc td_schedule boot.

Definition td_node_submitted : SubxtXcmpProof := {|
  sx_stage_1 := (tt, [td_beefy_leaf]);
  sx_stage_2 := para_merkle_proof_into td_heads_proof;
  sx_stage_3 := td_served;
  sx_stage_4 := (tt, [td_message])
|}.

Lemma td_node_submissions :
  submissions td_node_run =
    [(DEFAULT_ENDPOINT_PARA_SENDER, tx_submit_xcmp_proof td_node_submitted td_beefy_root, charlie);
     (DEFAULT_ENDPOINT_PARA_SENDER, tx_update_root td_channel_mmr_root #0, alice)].
Proof. reflexivity. Qed.

Lemma relayed_accepted_witness :
  @submit_xcmp_proof _ _ _ _ _ _ td_merkle_all _ td_signed (decoded_call td_node_submitted)
    td_beefy_root td_storage = Ret (Ok tt, td_storage).
Proof.
  refine (proj1 (@relayed_accepted td_client td_mmr td_merkle_all td_scale td_mmr_pallet true
    (λ _, td_beefy_root) (λ _, td_chain) td_merkle_all_laws td_mmr_pallet_laws
    td_mmr_generate _ _ _ _ _ _ td_node_run DEFAULT_ENDPOINT_PARA_SENDER _ _ charlie
    td_signed td_storage _ _ _ _) _).
  - discriminate.
  - apply exec_steps. apply td_node_orc_nodes.
  - rewrite td_node_submissions. apply list_elem_of_here.
  - by eexists.
  - by eexists.
  - reflexivity.
Defined.
