(* ===== verification/Delivery.v ===== *)
(** * Delivery: the sender's runtime, the relayer and the receiver's chain

    The whole system. The sending parachain's node answers with what its runtime computes
    ([EndToEnd]), the relayer's tasks interleave in any way ([Conc], [Relayer]), and the
    receiving parachain executes blocks of the runtime ([Runtime]) whose bodies carry the
    relayer's extrinsics among any others. *)
From S2P Require Import Prelude Words RuntimeConfig Sdk MessageStuffer TestDouble StufferSafety StufferTrace.
From S2P Require Import RuntimeXcmp Runtime RuntimeClaims.
From S2P Require Import BTree Conc Relayer RelayerSafety RelayerDouble RelayerClaims EndToEnd.

Section delivery.
Context {FS : FrameSystem} {LV : LeafVersionLib} {WB : WeakBoundedVecLib} {ML : MmrLib}.
Context {BM : MerkleLib} {SC : ScaleLib} {SP : SdkPallets} {RP : RuntimeParams}.
Implicit Types (s : RuntimeState) (l : list (u32 * BlockRun)).

(** ** Blocks up to a call *)

Lemma run_actions_app acts acts' s :
  run_actions (acts ++ acts') s = s' ← run_actions acts s; run_actions acts' s'.
Proof.
  revert s. induction acts as [|a acts IH]; intros s; [done|]. simpl.
  destruct (run_action a s); simpl; [apply IH|done..].
Qed.

Lemma run_blocks_cons n b l s :
  run_blocks ((n, b) :: l) s = s' ← run_actions (block_actions n b) s; run_blocks l s'.
Proof. reflexivity. Qed.

Lemma run_blocks_app l l' s : run_blocks (l ++ l') s = s' ← run_blocks l s; run_blocks l' s'.
Proof.
  revert s. induction l as [|[n b] l IH]; intros s; [done|].
  rewrite <- app_comm_cons, !run_blocks_cons.
  generalize (run_actions (block_actions n b) s). intros [s1| |]; [apply IH|reflexivity..].
Qed.

Lemma run_bind_intro {A B} (m : run A) (f : A → run B) a r : m = Ret a → f a = r → m ≫= f = r.
Proof. by intros -> <-. Qed.

(** A block that ends before the rest of its body. *)
Definition until (b : BlockRun) (pre : list BodyStep) : BlockRun :=
  mkBlockRun (start_rest b) (hook_rest b) pre.

Lemma block_actions_until n b pre post :
  body b = pre ++ post → block_actions n b = block_actions n (until b pre) ++ (body_action <$> post).
Proof.
  intros Hb. unfold block_actions at 1. rewrite Hb, fmap_app.
  change (block_actions n (until b pre)) with
    (SdkWrites (start_rest b) :: block_hooks n b ++ (body_action <$> pre)).
  by rewrite <- app_comm_cons, <- app_assoc.
Qed.

(** A chain that got through a block got through every prefix of its body. *)
Lemma run_blocks_until before n b later pre post s0 s :
  run_blocks (before ++ (n, b) :: later) s0 = Ret s → body b = pre ++ post →
  ∃ s1, run_blocks (before ++ [(n, until b pre)]) s0 = Ret s1.
Proof.
  rewrite run_blocks_app. intros (s1 & Hs1 & Hrun)%run_bind_Ret Hb. rewrite run_blocks_cons in Hrun.
  apply run_bind_Ret in Hrun as (s2 & Hs2 & _).
  rewrite (block_actions_until _ _ _ _ Hb), run_actions_app in Hs2.
  apply run_bind_Ret in Hs2 as (s3 & Hs3 & _). exists s3. rewrite run_blocks_app.
  apply (run_bind_intro _ _ _ _ Hs1). rewrite run_blocks_cons.
  exact (run_bind_intro _ _ _ _ Hs3 eq_refl).
Qed.

(** Roots that blocks reported were seen by both instances. *)
Lemma run_blocks_seen `{!WeakBoundedVecLaws} l s i root :
  run_blocks l runtime_genesis = Ret s → root ∈ block_root <$> l.*2 →
  is_Some (SeenBeefyRoots (stuffer s i) !! root).
Proof.
  intros Hrun Hroot. destruct (run_blocks_history _ _ _ i Hrun) as (ops & Hs & Hrep & _).
  assert (stuffer runtime_genesis i = genesis) as Hgen by (by destruct i).
  rewrite Hs, Hgen. fold (run_ops ops). destruct (run_ops_refines ops) as [_ -> _].
  rewrite Hrep. apply latest_is_Some. rewrite log_of_roots. unfold blocks_log.
  rewrite <- list_fmap_compose. rewrite <- list_fmap_compose in Hroot. exact Hroot.
Qed.

(** ** Delivery *)

Context {CL : ClientLib} {MMR : MmrPallet ChainState} (relayer_checks : bool).
Context (relay_mmr_root : H256 → H256) (chain_at : H256 → ChainState).
Context {BML : MerkleLaws} {MPL : MmrPalletLaws ChainState} {MGL : MmrGenerateLaws ChainState}.
Context {WBL : WeakBoundedVecLaws}.
Hypothesis BITS : (index_bits <= 64)%positive.

(** [C3] Delivery: when the sending parachain's node serves what its runtime computes,
    the relay chain's node serves proofs that verify against the MMR root of the block asked
    for and heads proofs that verify, and the Merkle library counts in at most 64 bits, then
    in every interleaving of the relayer's tasks, with any errors, busy locks, order of
    blocks and any roots answered for the relay chain's best block, every XCMP proof that
    the relayer submits has the same fate in every block of a receiving chain of this
    runtime: at any place of the body of any block in or after the one that reported the
    targeted BEEFY root, by either instance and from any signed account, whatever else the
    blocks contain, it is accepted exactly when its first tier verifies against the root
    that it targets, and fails with [XcmpStage1ProofDoesntVerify] otherwise. That root is
    the one that the relay chain's node answered for its best block while the relayer
    worked on a block, and the first tier verifies against the root of that very block, so
    the proof is accepted when the two roots are the same. *)
Theorem relayed_proof_delivered c endpoint p root signer origin before n b later pre post i s :
  rtc (cstep (tasks relayer_checks) (nodes relay_mmr_root chain_at)) boot c →
  (endpoint, tx_submit_xcmp_proof p root, signer) ∈ submissions c →
  is_Some (ensure_signed origin) →
  run_blocks (before ++ (n, b) :: later) runtime_genesis = Ret s →
  body b = pre ++ BodyDispatch i origin (Call_submit_xcmp_proof (decoded_call p) root) :: post →
  root ∈ block_root <$> (before ++ [(n, b)]).*2 →
  ∃ s1 block, run_blocks (before ++ [(n, until b pre)]) runtime_genesis = Ret s1 ∧
    received c block ask_beefy_root (Ok (Some root)) ∧
    let outcome := dispatch_call origin (Call_submit_xcmp_proof (decoded_call p) root) (stuffer s1 i) in
    (root = relay_mmr_root (block_hash block) → outcome = Ret (Ok tt, stuffer s1 i)) ∧
    (mmr_included root (sx_stage_1 p) → outcome = Ret (Ok tt, stuffer s1 i)) ∧
    (¬ mmr_included root (sx_stage_1 p) →
       outcome = Ret (Err (Module XcmpStage1ProofDoesntVerify), stuffer s1 i)).
Proof.
  intros Hc Hsub Hsigned Hrun Hb Hroot.
  destruct (run_blocks_until _ _ _ _ _ _ _ _ Hrun Hb) as [s1 Hs1].
  assert (is_Some (SeenBeefyRoots (stuffer s1 i) !! root)) as Hseen.
  { apply (run_blocks_seen _ _ _ _ Hs1). revert Hroot. by rewrite !fmap_app. }
  destruct (relayed_accepted relayer_checks relay_mmr_root chain_at BITS c endpoint p root signer
    origin (stuffer s1 i) Hc Hsub Hsigned Hseen) as (Hok & Hfail & block & Hblock & Hown).
  exists s1, block. split_and!; [done|done|]. cbv zeta.
  split_and!; [intros ->; exact (Hok Hown)|exact Hok|exact Hfail].
Qed.
End delivery.

(** ** Witness *)

#[local] Existing Instances RuntimeClaims.td_sdk_pallets RuntimeClaims.td_params.
#[local] Existing Instance td_merkle_all.

(** A block that hears of the root and carries what the relayer of [EndToEnd] submitted. *)
Definition td_delivery : BlockRun := mkBlockRun td_rest (λ _, td_rest)
  [BodyDispatch ParaBMmr (Some #1) (Call_submit_xcmp_proof (decoded_call td_node_submitted) td_beefy_root)].

Definition td_delivered : RuntimeState :=
  match run_blocks [( #4, td_delivery)] runtime_genesis with Ret s => s | _ => runtime_genesis end.

Lemma td_delivery_runs : run_blocks ([] ++ [( #4, td_delivery)]) runtime_genesis = Ret td_delivered.
Proof. apply td_returns. vm_cast_no_check (eq_refl true). Qed.

Lemma relayed_proof_delivered_witness :
  ∃ s1, run_blocks [( #4, until td_delivery [])] runtime_genesis = Ret s1 ∧
    @dispatch_call _ ChainState _ _ (runtime_provider true)
      (channel_config true (λ _, H256_zero) Z id (λ _, false) ParaBMmr) td_merkle_all _ (Some #1)
      (Call_submit_xcmp_proof (decoded_call td_node_submitted) td_beefy_root) (stuffer s1 ParaBMmr) = Ret (Ok tt, stuffer s1 ParaBMmr).
Proof.
  destruct (@relayed_proof_delivered _ _ _ td_mmr td_merkle_all td_scale _ _ td_client td_mmr_pallet true
    (λ _, td_beefy_root) (λ _, td_chain) td_merkle_all_laws td_mmr_pallet_laws
    td_mmr_generate _ ltac:(discriminate) td_node_run DEFAULT_ENDPOINT_PARA_SENDER td_node_submitted td_beefy_root
    charlie (Some #1) [] #4 td_delivery [] [] [] ParaBMmr td_delivered) as (s1 & block & Hs1 & _ & Hown & _).
  - apply exec_steps. apply td_node_orc_nodes.
  - rewrite td_node_submissions. apply list_elem_of_here.
  - by eexists.
  - exact td_delivery_runs.
  - reflexivity.
  - apply list_elem_of_singleton. reflexivity.
  - exists s1. split; [exact Hs1|exact (Hown eq_refl)].
Defined.
